(* ===== verification/_CoqProject ===== *)
-Q . S2P
Prelude.v
Cells.v
BitCells.v
Tlb.v
Snake.v
SnakeFacts.v
Ocr.v
Onramp.v
Rbac.v
Timelock.v
Mcms.v
BindingsSpec.v
AddressCodec.v
ExtraData.v
CommitCodec.v
ExecuteCodec.v
CodecSpec.v
ExitCodes.v
Trace.v
TraceSpec.v
PrettyPrint.v
TxStore.v
Txm.v
TxmSpec.v
Lifecycle.v
Transmitter.v
Event.v
LogFilters.v
LogQuery.v
LogQuerySpec.v
Loader.v
LogPoller.v
LogPollerSpec.v
PollerHistory.v
Strconv.v
Base64.v
Contract.v
ContractSpec.v
Jetton.v
JettonSpec.v
NodeConfig.v
Relay.v
RelaySpec.v
TxFlow.v
Relayer.v
TestKit.v
EventEmitter.v
Deployments.v
TwoMsgChain.v
RequestReply.v
RequestReplyTwo.v
TwoPhaseCommit.v
AsyncSpec.v
ChainAccessor.v
EventFlow.v
Tolk.v
Slices.v
Ownable.v
AccessControl.v
TimelockContract.v
TimelockSpec.v
McmsContract.v
McmsTree.v
McmsSpec.v
Ocr3Contract.v
Ocr3Spec.v
Layouts.v
Merkle.v
MultiProof.v
MerkleSpec.v
OnrampContract.v
RouterContract.v
LaneSpec.v
OfframpContract.v
OfframpSpec.v
