(* ===== verification/Prelude.v ===== *)
(** * Chainlink TON: a verification library for the Go code and the contracts of the repository

    The repository connects the Chainlink node to the TON blockchain.  Its Go
    code encodes and decodes the messages of the CCIP contracts as TON cells,
    turns OCR reports into those messages and back, sends transactions and follows
    their traces, and collects the events the contracts emit.  This library
    models that code as executable Rocq functions and proves what the packages
    promise each other.  It also models the contracts that govern the system on the chain
    and decide which reports are accepted, written in Tolk.

    ** Parts and how they interact

    - Cells and TL-B.  [Cells] is the interface of tonutils-go, which is not part
      of the repository: the type classes [AddrLib] and [CellLib] are the
      operations the source calls, [AddrLaws] and [CellLaws] what it relies on (a
      cell holds at most 1023 bits and 4 references, stores append or fail, loads
      consume from the front).  [BitCells] is a concrete instance, used by the
      witnesses only.  [Tlb] derives the struct codecs that tonutils-go builds from
      field tags: a [lawful] codec writes a bit string that it reads back.
    - Bindings.  [Snake] (pkg/ccip/bindings/common) has the snake encodings of
      lists, bytes and cross-chain addresses, [Ocr] and [Onramp] the messages of
      pkg/ccip/bindings/ocr and onramp, [Rbac], [Timelock] and [Mcms] those of
      pkg/bindings/lib/access/rbac and pkg/bindings/mcms.  [SnakeFacts] carries the
      proofs about the packing loops, [BindingsSpec] the claims: round trips,
      unique opcodes, and the two inputs the encodings do not carry.
    - Codecs.  [AddressCodec], [ExtraData], [CommitCodec] and [ExecuteCodec] are the
      files of pkg/ccip/codec; they call the bindings.  [CodecSpec] shows that
      decoding returns the normal form of what was encoded, and which reports
      are rejected.
    - Traces.  [ExitCodes] (pkg/ton/tvm/exit_codes.go) and [Trace]
      (pkg/ton/tracetracking/message.go): from transactions to messages, their
      fees, and waiting for the tree of messages a transaction causes.  Messages
      are shared by pointers, so they live in a heap, a list indexed by pointers.
      [TraceSpec]: fee accounting, termination and outcome of a trace.
      [PrettyPrint] (pretty_print.go) prints a trace, and reads its tree back.
    - Transactions.  [TxStore] and [Txm] are pkg/txm (with pkg/ton/key), the user of
      traces.  [TxmSpec] refines the store to a life cycle per transaction and
      proves the invariant of every interleaving of the manager's operations.
      [Lifecycle] adds Start, Close and the two goroutines as a step relation.  A loop
      stops at its select only; the turn it has begun there goes on to its end.  So closing
      takes as many steps as the turns have left, comes to its end when they do, which a
      trace that never completes prevents, and is quiet afterwards.
      [Transmitter] (pkg/ccip/ocr/contract_transmitter.go and
      pkg/ccip/provider) is a client of the manager through the class [TxManager].
    - Contracts.  [Contract] is the signing client (signed_api_client.go) and the wrapper of a
      contract (pkg/ton/wrappers): calls, getters, deployment, compiled contracts,
      with the decoders of the Go library in [Base64] and [Strconv].  [ContractSpec] proves
      their claims over the traces.  [Jetton] and [JettonSpec] are the bindings
      of pkg/bindings/jetton, of the counter and of the example contracts.
    - Logs.  [Event] (pkg/ton/event, pkg/ton/hash), [LogFilters], [LogQuery] (query.go and
      store.go), [Loader] and [LogPoller] are pkg/logpoller: the poller asks the
      filters for addresses, the collector for their messages, and stores one log per
      matching filter.  [LogQuerySpec] and [LogPollerSpec] hold the claims about one
      query and one iteration.  [PollerHistory] runs the ticker against a chain that
      grows, whatever heads the ticks see: the logs are the history, once.
    - Node.  [NodeConfig] (pkg/config) is the configuration of a chain and its nodes
      with its defaults, merge and validation; [Relay] (pkg/relay) the chain with its
      cache of clients, the signer wallet, and the service; [RelaySpec] holds the claims.
      [Relayer] (relay.go, the starting and closing of chain.go, and the plugin's
      NewRelayer in cmd/chainlink-ton) is the relayer over the chain over the
      manager of [Lifecycle], as services that start and stop once.
      [ChainAccessor] (pkg/ccip/chainaccessor) is the accessor of the CCIP plugins,
      whose reads are all unimplemented.
    - Flow.  [TxFlow] composes the service, the manager, the signing client and the
      traces: a message the wallet accepts ends as a finalised transaction with fees, and
      a queue of any length is worked off without confusing its transactions.
      [EventFlow] composes the registry, the collector, the poller and the store: a
      query for a watched event answers what the contract emitted, value by value
      when the parser knows the layout.
    - Test code (src/integration-tests and pkg/relay/testutils).  [TestKit] has the
      event parsers, the keystore, the funding of wallets and the check of a balance
      against a trace; [EventEmitter] the emitter of the smoke test of the log poller, a
      goroutine, its callers and their lock as a step relation.  [Deployments]
      (pkg/bindings/directory.go) finds compiled contracts and has the operation the
      wrappers of the asynchronous examples share; these are [TwoMsgChain], [RequestReply],
      [RequestReplyTwo] and [TwoPhaseCommit], with their claims in [AsyncSpec].
    - Contracts on the chain (src/contracts/contracts).  [Tolk] (lib/utils.tolk) is what they
      share: handlers that read and write a storage, send messages and throw exit codes,
      iterators over packed vectors, and the run of a contract over the messages it receives, of
      which those that throw leave no trace.  [Slices] (lib/utils.tolk) has the iterator over the
      cells of a received vector and how contracts count its elements, by the bits of all
      cells below it: what is read is at most what is counted, and the same for vectors whose
      cells have one reference only.  [Ownable] and [AccessControl] (lib/access) are the
      traits for ownership and roles.  [TimelockContract] (mcms/rbac_timelock.tolk) uses the roles;
      [TimelockSpec] shows that every call it makes was scheduled, waited for and not
      cancelled, as a history of its messages and as a life cycle.  [McmsContract] (mcms/mcms.tolk,
      lib/crypto/merkle_proof.tolk) is the multisig: [McmsTree] proves the vote loop and the
      check of a tree of groups against their recursive readings, [McmsSpec] that every executed
      operation was signed by a quorum, in order and once.  [Ocr3Contract] (lib/ocr) checks reports;
      [Ocr3Spec] shows which are accepted, and why, and that counting signatures as the contract
      does lets one signature pass for all.  [Merkle] has the trees that roots are made
      of, [MultiProof] (lib/crypto/merkle_multi_proof.tolk, ccip/types.tolk) the root of several
      messages at once; [MerkleSpec] shows that what is proven, by the multisig and by the ramp, is
      a leaf of the tree that was committed to, or that two of the cells hashed for the tree and
      for the proof collide.  [OnrampContract], [RouterContract] and [OfframpContract] (ccip) are the
      way of messages off and onto the chain: [LaneSpec] follows a message of a user from the
      router to the event of the ramp, and shows that lanes are numbered without gaps and ids
      are unique; [OfframpSpec] shows that the ramp refines the contract of [Ocr3Contract], so that
      every Merkle root it deploys a contract for was signed, and what executions ask for.  [Layouts] compares the cells of the Go
      bindings with those of the contracts: where they agree, and where a value is lost.

    ** Conventions

    A Go function that returns [(T, error)] returns [res T]: [Ok], [Err] with the
    outermost text of the error, [Panic] for a run-time panic and [Diverge] for a loop
    whose fuel is used up.  Machine integers are [Z] with [u32], [u64], [i64], ...
    written where an operation can wrap around.  A nil [*big.Int] is [None]; nil
    and empty slices are both []; [tlb.Coins] is its number of nanotons; durations and
    times are nanoseconds.  Ranging over a Go map takes the enumeration of its keys
    as an argument, constrained by a permutation hypothesis, and [sort.Slice],
    which is not stable, takes the arrangement it starts from; concurrent goroutines
    append in an order given as an argument.  Methods that hold a lock are one
    step.  Code of other modules (liteclient, wallet, keystore, callbacks) is a
    class member or a section variable.

    A Tolk function is a computation of the monad [M] of [Tolk]: [get] and [put] for the storage,
    [send] and [emit] for messages, [require] for an [assert ... throw]; [lift] embeds the
    computations without storage, which may throw.  Storing a number in a field of a
    given width is [storeUint], which throws the TVM's range error.  A dictionary is a [gmap], or a
    [gset] where only its keys matter; a struct that is held in another one is run by
    [within].  Representation hashes and signature checks are parameters.
    The vectors of OCR configurations and reports, of multi-proofs, of the multisig's
    configuration and of the ramp's reports are cells, counted and read as the contracts do;
    the vectors that are only iterated over (proofs and signatures of the multisig, the leaves of a
    multi-proof, calls of the timelock, updates of ramps) are the lists their iterators yield.
    The fee quoter is known by its answers, which may reject a message.

    ** Fuel and bounds

    Chains of cells are followed with the depth of the root as fuel, packed lists
    with the number of bits of the slice, the pages of an account with one more than
    the number of its transactions, a trace with the number of its messages, the
    masterchain with the number of polls until it has grown; a vote climbs at most as
    many groups as there are bytes, an iterator one step more than there are elements, the
    vectors of cells one more than the bits below them; the theorems show that these
    suffice.  The limit of 1024 on the depth of a cell, which bounds the length of a snake, is
    not modelled.

    ** What is not modelled

    Timers and tickers, logging and metrics, the text of wrapped errors
    below the outermost, the file system, git and the decoding of JSON and TOML
    (parameters), the HTTP download of the network configuration, the start-up of the
    plugin's process, the generated mocks, the creation of the local network of the
    integration tests and the test cases themselves.  Of the contracts on the chain, the fee
    quoter, the upgrade, deployable and jetton contracts, the contract of a Merkle root, which only
    refuses messages, the parsing of message bodies, configurations too long for their cell, the gas and
    fees of transactions, bounced messages, and the check that 267 bits in the place of an
    address are a standard one. *)

From stdpp Require Export base list list_numbers strings gmap sorting.
From Stdlib Require Export ZArith Lia ZifyBool.
From Stdlib Require Export Strings.Byte.

(** ** Outcomes of Go code *)

(** A Go function of this repository that returns [(T, error)] ends in one of
    four ways: a value, a non-nil error, a run-time panic (a slice bound, a nil
    map, ...), or not at all.  [Diverge] is only produced by loops whose
    bound (fuel) has been used up; the theorems show where it cannot happen. *)
Inductive res (A : Type) : Type :=
| Ok (a : A)
| Err (e : string)
| Panic (p : string)
| Diverge.
Arguments Ok {A} a.
Arguments Err {A} e.
Arguments Panic {A} p.
Arguments Diverge {A}.

#[export] Instance res_ret : MRet res := fun A a => Ok a.
#[export] Instance res_bind : MBind res := fun A B f m =>
  match m with
  | Ok a => f a
  | Err e => Err e
  | Panic p => Panic p
  | Diverge => Diverge
  end.
#[export] Instance res_fmap : FMap res := fun A B f m =>
  match m with
  | Ok a => Ok (f a)
  | Err e => Err e
  | Panic p => Panic p
  | Diverge => Diverge
  end.

Definition is_ok {A} (r : res A) : bool := match r with Ok _ => true | _ => false end.
Definition is_err {A} (r : res A) : bool := match r with Err _ => true | _ => false end.
Definition is_panic {A} (r : res A) : bool := match r with Panic _ => true | _ => false end.

(** [wrap_err msg r] is Go's [fmt.Errorf("msg: %w", err)]: only the outermost
    text of an error chain is kept. *)
Definition wrap_err {A} (msg : string) (r : res A) : res A :=
  match r with Err _ => Err msg | _ => r end.

Lemma bind_ok {A B} (f : A → res B) (m : res A) (b : B) :
  m ≫= f = Ok b ↔ ∃ a, m = Ok a ∧ f a = Ok b.
Proof.
  split.
  - destruct m; cbn; intros H; try discriminate. by eexists.
  - intros (a & -> & H). exact H.
Qed.

Lemma wrap_err_ok {A} msg (r : res A) a : wrap_err msg r = Ok a ↔ r = Ok a.
Proof. destruct r; cbn; split; congruence. Qed.

(** Running a fallible function over a list, left to right, stopping at the
    first failure: the shape of the [for ... { if err != nil { return } }]
    loops of the codecs. *)
Fixpoint res_map {A B} (f : A → res B) (l : list A) : res (list B) :=
  match l with
  | [] => Ok []
  | a :: l' => b ← f a; bs ← res_map f l'; Ok (b :: bs)
  end.

Lemma res_map_ok_inv {A B} (f : A → res B) l bs :
  res_map f l = Ok bs → Forall2 (fun a b => f a = Ok b) l bs.
Proof.
  revert bs. induction l as [|a l IH]; intros bs H; cbn in H.
  - injection H as <-. constructor.
  - apply bind_ok in H as (b & Hb & H). apply bind_ok in H as (bs' & Hbs & H).
    injection H as <-. constructor; auto.
Qed.

Lemma res_map_ok {A B} (f : A → res B) l bs :
  Forall2 (fun a b => f a = Ok b) l bs → res_map f l = Ok bs.
Proof. induction 1 as [|a b l bs Hab _ IH]; cbn; [done|]. by rewrite Hab; cbn; rewrite IH. Qed.

Lemma res_map_cons {A B} (f : A → res B) a l b bs :
  f a = Ok b → res_map f l = Ok bs → res_map f (a :: l) = Ok (b :: bs).
Proof. intros Ha Hl. cbn. rewrite Ha. cbn. by rewrite Hl. Qed.

Lemma res_map_fmap {A B} (f : A → res B) (g : A → B) l :
  Forall (fun a => f a = Ok (g a)) l → res_map f l = Ok (g <$> l).
Proof. intros H. apply res_map_ok. rewrite Forall2_fmap_r. by apply Forall_Forall2_diag. Qed.

(** Encoding and decoding a list elementwise, when each element of the domain
    [P] is encoded into [Q] and decoded to its normal form. *)
Lemma res_map_codec {A B C} (P : A → Prop) (Q : B → Prop) (enc : A → res B) (dec : B → res C)
    (nrm : A → C) xs :
  (∀ x, P x → ∃ y, enc x = Ok y ∧ Q y ∧ dec y = Ok (nrm x)) → Forall P xs →
  ∃ ys, res_map enc xs = Ok ys ∧ Forall Q ys ∧ res_map dec ys = Ok (nrm <$> xs).
Proof.
  intros H. induction 1 as [|x xs Hx _ (ys & E & HQ & D)]; [by exists []|].
  destruct (H x Hx) as (y & Ey & Hy & Dy). exists (y :: ys).
  split; [by apply res_map_cons|]. split; [by constructor|]. by apply res_map_cons.
Qed.

(** ** Machine integers

    Go integers are [Z] values with the wrap-around of the operation written out. *)

Definition u8 (z : Z) : Z := z `mod` 2 ^ 8.
Definition u32 (z : Z) : Z := z `mod` 2 ^ 32.
Definition u64 (z : Z) : Z := z `mod` 2 ^ 64.
Definition swrap (n z : Z) : Z := (z + 2 ^ (n - 1)) `mod` 2 ^ n - 2 ^ (n - 1).
Definition i8 (z : Z) : Z := swrap 8 z.
Definition i32 (z : Z) : Z := swrap 32 z.
Definition i64 (z : Z) : Z := swrap 64 z.
(** [math.MaxInt] on the 64-bit targets the node is built for. *)
Definition MaxInt : Z := 2 ^ 63 - 1.

Lemma u32_id z : (0 ≤ z < 2 ^ 32)%Z → u32 z = z.
Proof. intros. by apply Z.mod_small. Qed.
Lemma u64_id z : (0 ≤ z < 2 ^ 64)%Z → u64 z = z.
Proof. intros. by apply Z.mod_small. Qed.
Lemma i64_id z : (- 2 ^ 63 ≤ z < 2 ^ 63)%Z → i64 z = z.
Proof. intros. unfold i64, swrap. rewrite Z.mod_small; lia. Qed.

(** A computable check that the numbers of a literal list are distinct. *)
Fixpoint distinct (l : list Z) : bool :=
  match l with
  | [] => true
  | z :: l' => forallb (λ y, negb (z =? y)%Z) l' && distinct l'
  end.

Lemma distinct_NoDup l : distinct l = true → NoDup l.
Proof.
  induction l as [|z l IH]; cbn; [constructor|]. intros [H1 H2]%andb_true_iff.
  constructor; [|auto]. intros Hin%list_elem_of_In.
  rewrite forallb_forall in H1. specialize (H1 z Hin). by rewrite Z.eqb_refl in H1.
Qed.

(** ** Bytes and bits *)

Abbreviation bytes := (list byte).

Definition byte_to_Z (b : byte) : Z := Z.of_N (Byte.to_N b).
Definition byte_of_Z (z : Z) : byte :=
  match Byte.of_N (Z.to_N (u8 z)) with Some b => b | None => x00 end.

Lemma byte_to_Z_bound b : (0 ≤ byte_to_Z b < 256)%Z.
Proof. unfold byte_to_Z. pose proof (Byte.to_N_bounded b). lia. Qed.

Lemma byte_of_to_Z b : byte_of_Z (byte_to_Z b) = b.
Proof.
  unfold byte_of_Z. pose proof (byte_to_Z_bound b). unfold u8.
  rewrite Z.mod_small by lia. unfold byte_to_Z. rewrite N2Z.id.
  by rewrite Byte.of_to_N.
Qed.

Lemma byte_to_of_Z z : byte_to_Z (byte_of_Z z) = u8 z.
Proof.
  unfold byte_of_Z, byte_to_Z. assert (0 ≤ u8 z < 256)%Z by (apply Z.mod_pos_bound; lia).
  destruct (Byte.of_N _) eqn:E.
  - apply Byte.to_of_N in E. rewrite E. lia.
  - apply Byte.of_N_None_iff in E. lia.
Qed.

Lemma byte_to_Z_inj b c : byte_to_Z b = byte_to_Z c → b = c.
Proof. intros H. by rewrite <- (byte_of_to_Z b), H, byte_of_to_Z. Qed.

#[export] Instance byte_eq_dec : EqDecision byte.
Proof. intros x y. apply Byte.byte_eq_dec. Defined.

(** Big-endian bits of a number: [Z_bits n z] has [n] bits, the first one the
    most significant. *)
Fixpoint Z_bits (n : nat) (z : Z) : list bool :=
  match n with
  | O => []
  | S n' => Z.testbit z (Z.of_nat n') :: Z_bits n' z
  end.

Fixpoint bits_Z_acc (acc : Z) (l : list bool) : Z :=
  match l with
  | [] => acc
  | b :: l' => bits_Z_acc (2 * acc + Z.b2z b) l'
  end.
Definition bits_Z (l : list bool) : Z := bits_Z_acc 0 l.

Lemma Z_bits_length n z : length (Z_bits n z) = n.
Proof. induction n; cbn; auto. Qed.

Lemma bits_Z_acc_bits n acc z :
  bits_Z_acc acc (Z_bits n z) = (acc * 2 ^ Z.of_nat n + z `mod` 2 ^ Z.of_nat n)%Z.
Proof.
  revert acc. induction n as [|n IH]; intros acc; cbn [Z_bits bits_Z_acc].
  - rewrite Z.mod_1_r. lia.
  - rewrite IH, Nat2Z.inj_succ, Z.pow_succ_r by lia.
    assert (z `mod` (2 * 2 ^ Z.of_nat n)
            = Z.b2z (Z.testbit z (Z.of_nat n)) * 2 ^ Z.of_nat n + z `mod` 2 ^ Z.of_nat n)%Z as ->.
    { rewrite (Z.mul_comm 2), Z.rem_mul_r by lia. rewrite Z.testbit_spec' by lia. lia. }
    lia.
Qed.

Lemma bits_Z_bits n z : (0 ≤ z < 2 ^ Z.of_nat n)%Z → bits_Z (Z_bits n z) = z.
Proof. intros. unfold bits_Z. rewrite bits_Z_acc_bits, Z.mod_small; lia. Qed.

Lemma bits_Z_acc_range l acc :
  (acc * 2 ^ Z.of_nat (length l) ≤ bits_Z_acc acc l < (acc + 1) * 2 ^ Z.of_nat (length l))%Z.
Proof.
  revert acc. induction l as [|b l IH]; intros acc; cbn [bits_Z_acc length]; [lia|].
  specialize (IH (2 * acc + Z.b2z b)%Z). rewrite Nat2Z.inj_succ, Z.pow_succ_r by lia.
  pose proof (Z.pow_pos_nonneg 2 (Z.of_nat (length l)) ltac:(lia) ltac:(lia)). destruct b; cbn [Z.b2z] in *; nia.
Qed.

Lemma bits_Z_range l : (0 ≤ bits_Z l < 2 ^ Z.of_nat (length l))%Z.
Proof. pose proof (bits_Z_acc_range l 0). unfold bits_Z. lia. Qed.

Definition byte_bits (b : byte) : list bool := Z_bits 8 (byte_to_Z b).
Definition bytes_bits (bs : bytes) : list bool := bs ≫= byte_bits.

(** [pack_bits] groups bits into bytes, the last one padded with zero bits:
    what reading a bit string into a Go byte slice yields. *)
Fixpoint pack_bits_aux (fuel : nat) (l : list bool) : bytes :=
  match fuel, l with
  | O, _ | _, [] => []
  | S fuel', _ => byte_of_Z (bits_Z (take 8 (l ++ replicate 8 false))) :: pack_bits_aux fuel' (drop 8 l)
  end.
Definition pack_bits (l : list bool) : bytes := pack_bits_aux (length l) l.

Lemma byte_bits_length b : length (byte_bits b) = 8.
Proof. apply Z_bits_length. Qed.

Lemma bytes_bits_length bs : length (bytes_bits bs) = 8 * length bs.
Proof.
  induction bs as [|b bs IH]; [done|]. unfold bytes_bits in *.
  rewrite bind_cons, length_app, byte_bits_length, IH. cbn. lia.
Qed.

Lemma bytes_bits_app xs ys : bytes_bits (xs ++ ys) = bytes_bits xs ++ bytes_bits ys.
Proof. unfold bytes_bits. apply bind_app. Qed.

Lemma byte_bits_value b : byte_of_Z (bits_Z (byte_bits b)) = b.
Proof.
  unfold byte_bits. rewrite bits_Z_bits; [apply byte_of_to_Z|].
  pose proof (byte_to_Z_bound b). cbn. lia.
Qed.

Lemma pack_bits_aux_cons fuel l :
  l ≠ [] →
  pack_bits_aux (S fuel) l
  = byte_of_Z (bits_Z (take 8 (l ++ replicate 8 false))) :: pack_bits_aux fuel (drop 8 l).
Proof. by destruct l. Qed.

Lemma pack_bits_aux_bytes fuel bs :
  length bs ≤ fuel → pack_bits_aux fuel (bytes_bits bs) = bs.
Proof.
  revert fuel. induction bs as [|b bs IH]; intros fuel H; [by destruct fuel|].
  destruct fuel as [|fuel]; cbn in H; [lia|].
  unfold bytes_bits in *. rewrite bind_cons, pack_bits_aux_cons.
  - rewrite <- app_assoc, take_app_length', drop_app_length' by (symmetry; apply byte_bits_length).
    rewrite byte_bits_value. f_equal. apply IH. lia.
  - intros E. apply (f_equal length) in E. rewrite length_app, byte_bits_length in E. cbn in E; lia.
Qed.

Lemma pack_bytes_bits bs : pack_bits (bytes_bits bs) = bs.
Proof. apply pack_bits_aux_bytes. rewrite bytes_bits_length. lia. Qed.

Lemma pack_bits_aux_length fuel k l :
  length l = 8 * k → k ≤ fuel → length (pack_bits_aux fuel l) = k.
Proof.
  revert k l. induction fuel as [|fuel IH]; intros k l Hl Hk.
  { destruct k; [|lia]. done. }
  destruct k as [|k]; [by destruct l|].
  rewrite pack_bits_aux_cons by (intros ->; cbn in Hl; lia). cbn [length]. f_equal.
  apply IH; [|lia]. rewrite length_drop. lia.
Qed.

(** A whole number of bytes is read back as that many bytes. *)
Lemma pack_bits_length k l : length l = 8 * k → length (pack_bits l) = k.
Proof. intros H. apply pack_bits_aux_length; [done|]. lia. Qed.

(** Big-endian encoding of an unsigned number into [n] bytes, as
    [binary.BigEndian.PutUint32] does for [n = 4], and its inverse. *)
Fixpoint be_bytes (n : nat) (z : Z) : bytes :=
  match n with
  | O => []
  | S n' => byte_of_Z (z / 256 ^ Z.of_nat n') :: be_bytes n' z
  end.

Definition be_value (bs : bytes) : Z := foldl (λ acc b, 256 * acc + byte_to_Z b)%Z 0%Z bs.

Lemma be_bytes_length n z : length (be_bytes n z) = n.
Proof. induction n; cbn; auto. Qed.

Lemma be_value_acc bs acc :
  foldl (λ acc b, 256 * acc + byte_to_Z b)%Z acc bs = (acc * 256 ^ Z.of_nat (length bs) + be_value bs)%Z.
Proof.
  unfold be_value. revert acc. induction bs as [|b bs IH]; intros acc; cbn [foldl length]; [lia|].
  rewrite (IH (256 * acc + _)%Z), (IH (256 * 0 + _)%Z), Nat2Z.inj_succ, Z.pow_succ_r by lia. lia.
Qed.

Lemma be_value_cons b bs :
  be_value (b :: bs) = (byte_to_Z b * 256 ^ Z.of_nat (length bs) + be_value bs)%Z.
Proof. unfold be_value at 1. cbn [foldl]. rewrite be_value_acc. lia. Qed.

Lemma be_value_bound bs : (0 ≤ be_value bs < 256 ^ Z.of_nat (length bs))%Z.
Proof.
  induction bs as [|b bs IH]; [done|]. rewrite be_value_cons. cbn [length].
  rewrite Nat2Z.inj_succ, Z.pow_succ_r by lia. pose proof (byte_to_Z_bound b). nia.
Qed.

Lemma be_value_bytes n z : be_value (be_bytes n z) = (z `mod` 256 ^ Z.of_nat n)%Z.
Proof.
  induction n as [|n IH]; cbn [be_bytes]; [by rewrite Z.mod_1_r|].
  rewrite be_value_cons, be_bytes_length, IH, byte_to_of_Z, Nat2Z.inj_succ, Z.pow_succ_r by lia.
  unfold u8. change (2 ^ 8)%Z with 256%Z.
  rewrite (Z.mul_comm 256 (256 ^ _)), Z.rem_mul_r by lia. lia.
Qed.

Lemma be_bytes_value bs : be_bytes (length bs) (be_value bs) = bs.
Proof.
  enough (∀ z, be_bytes (length bs) (z * 256 ^ Z.of_nat (length bs) + be_value bs) = bs) as H.
  { specialize (H 0%Z). by rewrite Z.mul_0_l, Z.add_0_l in H. }
  induction bs as [|b bs IH]; intros z; cbn [length be_bytes]; [done|].
  rewrite be_value_cons, Nat2Z.inj_succ, Z.pow_succ_r by lia.
  pose proof (be_value_bound bs). f_equal.
  - replace (z * (256 * 256 ^ Z.of_nat (length bs)) + (byte_to_Z b * 256 ^ Z.of_nat (length bs) + be_value bs))%Z
      with (be_value bs + (256 * z + byte_to_Z b) * 256 ^ Z.of_nat (length bs))%Z by lia.
    rewrite Z.div_add, Z.div_small, Z.add_0_l by lia.
    apply byte_to_Z_inj. rewrite byte_to_of_Z. unfold u8. pose proof (byte_to_Z_bound b).
    change (2 ^ 8)%Z with 256%Z.
    replace (256 * z + byte_to_Z b)%Z with (byte_to_Z b + z * 256)%Z by lia.
    rewrite Z.mod_add by lia. by apply Z.mod_small.
  - etrans; [|apply (IH (256 * z + byte_to_Z b)%Z)]. f_equal. ring.
Qed.

(** Go's [copy(dst, src)] on byte slices of the same element type: the new
    contents of [dst]. *)
Definition go_copy {A} (dst src : list A) : list A := take (length dst) src ++ drop (length src) dst.

Lemma go_copy_same {A} (dst src : list A) : length src = length dst → go_copy dst src = src.
Proof.
  intros H. unfold go_copy. rewrite take_ge by lia. rewrite drop_ge by lia. apply app_nil_r.
Qed.

(** Conversion of a slice to an array of [n] elements: Go panics when the
    slice is shorter. *)
Definition to_array {A} (n : nat) (l : list A) : res (list A) :=
  if length l <? n then Panic "cannot convert slice to array" else Ok (take n l).

Lemma to_array_exact {A} n (l : list A) : length l = n → to_array n l = Ok l.
Proof.
  intros <-. unfold to_array. rewrite (proj2 (Nat.ltb_ge _ _)) by lia. by rewrite take_ge.
Qed.

(** ** Ranging over a map

    The values met when a map is ranged over in some order of its keys. *)

Lemma lookup_values `{Countable K} {A} (m : gmap K A) keys :
  keys ≡ₚ (map_to_list m).*1 → omap (λ k, m !! k) keys ≡ₚ (map_to_list m).*2.
Proof.
  intros ->.
  assert (∀ l, (∀ k x, (k, x) ∈ l → m !! k = Some x) → omap (λ k, m !! k) l.*1 = l.*2) as ->; [|done|].
  - induction l as [|[k x] l IH]; intros Hl; [done|]. cbn. rewrite (Hl k x) by apply list_elem_of_here.
    f_equal. apply IH. intros k' x' Hin. apply Hl. by apply list_elem_of_further.
  - intros k x. by rewrite elem_of_map_to_list.
Qed.

Lemma omap_lookup_values `{Countable K} {A B} (m : gmap K A) keys (g : A → option B) :
  keys ≡ₚ (map_to_list m).*1 → omap (λ k, m !! k ≫= g) keys ≡ₚ omap g (map_to_list m).*2.
Proof.
  intros Hk. rewrite <- (lookup_values m keys Hk). clear Hk.
  induction keys as [|k keys IH]; [done|]. cbn. destruct (m !! k) as [x|]; cbn; [|done].
  by destruct (g x); rewrite IH.
Qed.

(** ** Automation

    [solve_len] closes the length side conditions that the cell lemmas leave;
    [simplify_res] takes a chain of successful steps apart. *)

Create Rewrite HintDb lens.
#[export] Hint Rewrite @length_app @length_fmap @length_take @length_drop @length_replicate
  @length_nil Z_bits_length bytes_bits_length byte_bits_length : lens.

Ltac solve_len := autorewrite with lens in *; cbn [length] in *; lia.

Ltac simplify_res :=
  repeat match goal with
  | H : _ ≫= _ = Ok _ |- _ => apply bind_ok in H as (? & ? & H)
  | H : wrap_err _ _ = Ok _ |- _ => apply wrap_err_ok in H
  | H : Ok _ = Ok _ |- _ => injection H as H
  | H : Err _ = Ok _ |- _ => discriminate H
  | H : Panic _ = Ok _ |- _ => discriminate H
  | H : Diverge = Ok _ |- _ => discriminate H
  | H : (_, _) = (_, _) |- _ => injection H as H
  end; subst.
