(* ===== verification/Cells.v ===== *)
(** * Cells: the interface of the tonutils-go packages the program is built on

    The packages [address], [tvm/cell] and [tlb] of tonutils-go are not part of
    the repository, so nothing of them is defined here.  [AddrLib] and [CellLib]
    are the operations the source calls; [AddrLaws] and [CellLaws] state what
    the code relies on: a cell holds up to 1023 bits and up to 4 references,
    the store operations append to a builder or return an error when it is
    full, the load operations consume a slice from the front.  [BitCells]
    gives an instance, so the laws can hold together. *)

From S2P Require Import Prelude.

(** ** Addresses ([github.com/xssnick/tonutils-go/address]) *)

Class AddrLib := {
  Address : Type;
  Workchain : Address → Z;
  Data : Address → bytes;
  NewAddress : byte → byte → bytes → Address;
  AddrString : Address → string;
  ParseAddr : string → res Address;
  AddrEquals : Address → Address → bool;
}.

(** A standard address as [LoadAddr] and [NewAddress] with zero flags build
    it: workchain byte and 32 bytes of account id. *)
Definition std_addr `{AddrLib} (a : Address) : Prop :=
  ∃ w d, length d = 32 ∧ a = NewAddress x00 w d.

Class AddrLaws `{AddrLib} : Prop := {
  new_workchain f w d : length d = 32 → Workchain (NewAddress f w d) = i8 (byte_to_Z w);
  new_data f w d : length d = 32 → Data (NewAddress f w d) = d;
  parse_string a : std_addr a → ParseAddr (AddrString a) = Ok a;
  parse_std s a : ParseAddr s = Ok a → ∃ f w d, length d = 32 ∧ a = NewAddress f w d;
  parse_empty : is_err (ParseAddr "") = true;
  equals_spec a b : AddrEquals a b = true ↔ Workchain a = Workchain b ∧ Data a = Data b;
}.

(** ** Cells ([tonutils-go/tvm/cell]) and the primitive TL-B fields ([tonutils-go/tlb]) *)

Class CellLib `{AddrLib} := {
  Cell : Type;
  Builder : Type;
  Slice : Type;
  Dict : Type;
  (* builders *)
  BeginCell : Builder;
  EndCell : Builder → Cell;
  ToBuilder : Cell → Builder;
  BitsLeft : Builder → Z;
  RefsLeft : Builder → Z;
  StoreSlice : bytes → Z → Builder → res Builder;
  StoreRef : Cell → Builder → res Builder;
  StoreBuilder : Builder → Builder → res Builder;
  StoreUInt : Z → nat → Builder → res Builder;
  StoreBigInt : option Z → nat → Builder → res Builder;
  StoreBool : bool → Builder → res Builder;
  StoreAddr : Address → Builder → res Builder;
  StoreCoins : Z → Builder → res Builder;
  StoreDict : Dict → nat → Builder → res Builder;
  (* cells *)
  BitsSize : Cell → Z;
  RefsNum : Cell → Z;
  Depth : Cell → nat;
  PeekRef : Cell → Z → res Cell;
  BeginParse : Cell → Slice;
  ToBOC : Cell → bytes;
  FromBOC : bytes → res Cell;
  (* slices *)
  SliceBitsLeft : Slice → Z;
  SliceToCell : Slice → res Cell;
  LoadSlice : Z → Slice → res (bytes * Slice);
  LoadRefCell : Slice → res (Cell * Slice);
  LoadUInt : nat → Slice → res (Z * Slice);
  LoadBigInt : nat → Slice → res (option Z * Slice);
  LoadBool : Slice → res (bool * Slice);
  LoadAddr : Slice → res (Address * Slice);
  LoadCoins : Slice → res (Z * Slice);
  LoadDict : nat → Slice → res (Dict * Slice);
}.

(** What a cell, builder or slice holds. *)
Class CellView `{CellLib} := {
  cbits : Cell → list bool;
  crefs : Cell → list Cell;
  bbits : Builder → list bool;
  brefs : Builder → list Cell;
  sbits : Slice → list bool;
  srefs : Slice → list Cell;
  addr_bits : Address → list bool;
  coins_bits : Z → list bool;
  dict_keysz : Dict → nat;
  dict_bits : Dict → list bool;
  dict_refs : Dict → list Cell;
}.

Section stores.
Context {AL : AddrLib} {CL : CellLib} {CV : CellView}.

(** [bits] and [refs] still fit into the builder. *)
Definition fits (b : Builder) (bits : list bool) (refs : list Cell) : bool :=
  bool_decide (length (bbits b) + length bits ≤ 1023)
  && bool_decide (length (brefs b) + length refs ≤ 4).

Definition extends (b b' : Builder) (bits : list bool) (refs : list Cell) : Prop :=
  bbits b' = bbits b ++ bits ∧ brefs b' = brefs b ++ refs.

(** [r] is the outcome of appending [bits] and [refs] to [b]. *)
Definition stores (r : res Builder) (b : Builder) (bits : list bool) (refs : list Cell) : Prop :=
  if fits b bits refs
  then ∃ b', r = Ok b' ∧ extends b b' bits refs
  else is_err r = true.

(** [f] reads [a] back from any slice that starts with [bits] and [refs], and
    leaves the rest of the slice. *)
Definition reads {A} (f : Slice → res (A * Slice)) (bits : list bool) (refs : list Cell) (a : A)
  : Prop :=
  ∀ s rb rr, sbits s = bits ++ rb → srefs s = refs ++ rr →
    ∃ s', f s = Ok (a, s') ∧ sbits s' = rb ∧ srefs s' = rr.
End stores.

Class CellLaws `{V : CellView} : Prop := {
  (* content and limits *)
  begin_bits : bbits BeginCell = [];
  begin_refs : brefs BeginCell = [];
  end_bits b : cbits (EndCell b) = bbits b;
  end_refs b : crefs (EndCell b) = brefs b;
  to_builder_bits c : bbits (ToBuilder c) = cbits c;
  to_builder_refs c : brefs (ToBuilder c) = crefs c;
  parse_bits c : sbits (BeginParse c) = cbits c;
  parse_refs c : srefs (BeginParse c) = crefs c;
  builder_bits_max b : length (bbits b) ≤ 1023;
  builder_refs_max b : length (brefs b) ≤ 4;
  cell_bits_max c : length (cbits c) ≤ 1023;
  cell_refs_max c : length (crefs c) ≤ 4;
  bits_left b : BitsLeft b = (1023 - Z.of_nat (length (bbits b)))%Z;
  refs_left b : RefsLeft b = (4 - Z.of_nat (length (brefs b)))%Z;
  bits_size c : BitsSize c = Z.of_nat (length (cbits c));
  refs_num c : RefsNum c = Z.of_nat (length (crefs c));
  slice_bits_left s : SliceBitsLeft s = Z.of_nat (length (sbits s));
  depth_ref c r : r ∈ crefs c → Depth r < Depth c;
  peek_ref c i r : crefs c !! i = Some r → PeekRef c (Z.of_nat i) = Ok r;
  boc_roundtrip c : FromBOC (ToBOC c) = Ok c;
  boc_magic c : 4 ≤ length (ToBOC c);
  slice_to_cell s : ∃ c, SliceToCell s = Ok c ∧ cbits c = sbits s ∧ crefs c = srefs s;
  (* stores *)
  store_slice_bits bs n b : n ≤ 8 * length bs →
    stores (StoreSlice bs (Z.of_nat n) b) b (take n (bytes_bits bs)) [];
  store_ref c b : stores (StoreRef c b) b [] [c];
  store_builder x b : stores (StoreBuilder x b) b (bbits x) (brefs x);
  store_uint v n b : n ≤ 64 → (0 ≤ v < 2 ^ Z.of_nat n)%Z → stores (StoreUInt v n b) b (Z_bits n v) [];
  store_bigint v n b : n ≤ 256 → (0 ≤ v < 2 ^ Z.of_nat n)%Z →
    stores (StoreBigInt (Some v) n b) b (Z_bits n v) [];
  store_bool v b : stores (StoreBool v b) b [v] [];
  store_addr a b : std_addr a → stores (StoreAddr a b) b (addr_bits a) [];
  store_addr_flags f w d b : length d = 32 → StoreAddr (NewAddress f w d) b = StoreAddr (NewAddress x00 w d) b;
  store_coins v b : (0 ≤ v < 2 ^ 120)%Z → stores (StoreCoins v b) b (coins_bits v) [];
  store_dict d n b : dict_keysz d = n → stores (StoreDict d n b) b (dict_bits d) (dict_refs d);
  (* loads *)
  load_slice bits n : n = Z.of_nat (length bits) → reads (LoadSlice n) bits [] (pack_bits bits);
  load_slice_short n s : (Z.of_nat (length (sbits s)) < n)%Z → is_err (LoadSlice n s) = true;
  load_ref c : reads LoadRefCell [] [c] c;
  load_uint v n : n ≤ 64 → (0 ≤ v < 2 ^ Z.of_nat n)%Z → reads (LoadUInt n) (Z_bits n v) [] v;
  load_uint_short n s : n ≤ 64 → length (sbits s) < n → is_err (LoadUInt n s) = true;
  load_bigint v n : n ≤ 256 → (0 ≤ v < 2 ^ Z.of_nat n)%Z →
    reads (LoadBigInt n) (Z_bits n v) [] (Some v);
  load_bool v : reads LoadBool [v] [] v;
  load_addr a : std_addr a → reads LoadAddr (addr_bits a) [] a;
  load_coins v : (0 ≤ v < 2 ^ 120)%Z → reads LoadCoins (coins_bits v) [] v;
  load_dict d n : dict_keysz d = n → reads (LoadDict n) (dict_bits d) (dict_refs d) d;
  (* sizes of the variable-length fields *)
  addr_bits_size a : std_addr a → length (addr_bits a) = 267;
  coins_bits_size v : (0 ≤ v < 2 ^ 120)%Z → 4 ≤ length (coins_bits v) ≤ 124;
  dict_bits_size d : length (dict_bits d) = 1;
  dict_refs_size d : length (dict_refs d) ≤ 1;
}.

(** ** Consequences shared by the components *)

Section facts.
Context {AL : AddrLib} {CL : CellLib} {CV : CellView} {CW : CellLaws}.

Lemma store_slice bs n b :
  n = (8 * Z.of_nat (length bs))%Z → stores (StoreSlice bs n b) b (bytes_bits bs) [].
Proof.
  intros ->. pose proof (store_slice_bits bs (8 * length bs) b (le_n _)) as H.
  rewrite take_ge in H by (rewrite bytes_bits_length; lia).
  by replace (8 * Z.of_nat (length bs))%Z with (Z.of_nat (8 * length bs)) by lia.
Qed.

Lemma fits_true b bits refs :
  fits b bits refs = true ↔
  length (bbits b) + length bits ≤ 1023 ∧ length (brefs b) + length refs ≤ 4.
Proof. unfold fits. rewrite andb_true_iff, !bool_decide_eq_true. done. Qed.

Lemma stores_fit r b bits refs :
  stores r b bits refs →
  length (bbits b) + length bits ≤ 1023 → length (brefs b) + length refs ≤ 4 →
  ∃ b', r = Ok b' ∧ extends b b' bits refs.
Proof. unfold stores. intros Hs Hb Hr. by rewrite (proj2 (fits_true _ _ _)) in Hs. Qed.

Lemma stores_ok r b b' bits refs : stores r b bits refs → r = Ok b' → extends b b' bits refs.
Proof.
  unfold stores. intros Hs ->. destruct (fits _ _ _).
  - by destruct Hs as (? & [= ->] & ?).
  - done.
Qed.

Lemma stores_nofit r b bits refs :
  stores r b bits refs →
  1023 < length (bbits b) + length bits ∨ 4 < length (brefs b) + length refs →
  is_err r = true.
Proof.
  unfold stores. intros Hs Hbig. destruct (fits _ _ _) eqn:E; [|done].
  apply fits_true in E. lia.
Qed.

(** Two stores in a row store the concatenation. *)
Lemma stores_bind r f b bits1 refs1 bits2 refs2 :
  stores r b bits1 refs1 →
  (∀ b1, stores (f b1) b1 bits2 refs2) →
  stores (r ≫= f) b (bits1 ++ bits2) (refs1 ++ refs2).
Proof.
  intros H1 H2. unfold stores. destruct (fits b (bits1 ++ bits2) _) eqn:E.
  - apply fits_true in E as [Eb Er]. rewrite !length_app in *.
    destruct (stores_fit _ _ _ _ H1) as (b1 & -> & Hb1 & Hr1); [lia..|]. cbn.
    destruct (stores_fit _ _ _ _ (H2 b1)) as (b2 & -> & Hb2 & Hr2);
      [rewrite ?Hb1, ?Hr1, ?length_app; lia..|].
    exists b2. split; [done|]. split; [rewrite Hb2, Hb1|rewrite Hr2, Hr1]; by rewrite app_assoc.
  - unfold stores in H1. destruct (fits b bits1 refs1) eqn:E1.
    + destruct H1 as (b1 & -> & Hb1 & Hr1). cbn. apply (stores_nofit _ b1 bits2 refs2 (H2 b1)).
      rewrite Hb1, Hr1, !length_app.
      assert (¬ (length (bbits b) + length (bits1 ++ bits2) ≤ 1023
                 ∧ length (brefs b) + length (refs1 ++ refs2) ≤ 4)) as Hn
        by (rewrite <- fits_true; congruence).
      rewrite !length_app in Hn. lia.
    + by destruct r.
Qed.

Lemma stores_nil b : stores (Ok b) b [] [].
Proof.
  unfold stores. pose proof (builder_bits_max b). pose proof (builder_refs_max b).
  rewrite (proj2 (fits_true _ _ _)) by (cbn; lia).
  exists b. unfold extends. by rewrite !app_nil_r.
Qed.

(** Two reads in a row. *)
Lemma reads_bind {A B} (f : Slice → res (A * Slice)) (g : A → Slice → res (B * Slice))
    bits1 refs1 bits2 refs2 a b :
  reads f bits1 refs1 a → reads (g a) bits2 refs2 b →
  reads (λ s, r ← f s; g r.1 r.2) (bits1 ++ bits2) (refs1 ++ refs2) b.
Proof.
  intros Hf Hg s rb rr Hb Hr. rewrite <- app_assoc in Hb, Hr.
  destruct (Hf s _ _ Hb Hr) as (s1 & E1 & Hb1 & Hr1).
  destruct (Hg s1 _ _ Hb1 Hr1) as (s2 & E2 & Hb2 & Hr2).
  exists s2. rewrite E1. cbn. by rewrite E2.
Qed.

Lemma reads_ret {A} (a : A) : reads (λ s, Ok (a, s)) [] [] a.
Proof. intros s rb rr Hb Hr. by exists s. Qed.

Lemma reads_parse {A} (f : Slice → res (A * Slice)) c a :
  reads f (cbits c) (crefs c) a → ∃ s', f (BeginParse c) = Ok (a, s').
Proof.
  intros Hf. destruct (Hf (BeginParse c) [] []) as (s' & E & _ & _).
  - by rewrite parse_bits, app_nil_r.
  - by rewrite parse_refs, app_nil_r.
  - by exists s'.
Qed.
End facts.
