(* ===== verification/BitCells.v ===== *)
(** * BitCells: a concrete instance of the cell interface

    Bit strings with references, as the TON cell format describes them.  It is
    used by the witnesses and the examples only: no theorem about the program
    depends on it. *)

From S2P Require Import Prelude Cells.

Module BitCells.

(** ** Addresses *)

Record baddr := BAddr { ba_flags : byte; ba_wc : byte; ba_data : bytes }.

Definition bparse (s : string) : res baddr :=
  match String.list_byte_of_string s with
  | f :: w :: d => if bool_decide (length d = 32) then Ok (BAddr f w d) else Err "invalid address"
  | _ => Err "invalid address"
  end.

#[export] Instance BitAddr : AddrLib := {|
  Address := baddr;
  Workchain a := i8 (byte_to_Z (ba_wc a));
  Data := ba_data;
  NewAddress := BAddr;
  AddrString a := String.string_of_list_byte (ba_flags a :: ba_wc a :: ba_data a);
  ParseAddr := bparse;
  AddrEquals a b :=
    bool_decide (i8 (byte_to_Z (ba_wc a)) = i8 (byte_to_Z (ba_wc b))) && bool_decide (ba_data a = ba_data b);
|}.

#[export] Instance BitAddrLaws : @AddrLaws BitAddr.
Proof.
  constructor; cbn -[String.string_of_list_byte].
  - done.
  - done.
  - intros a (w & d & Hd & ->). unfold bparse. cbn [ba_flags ba_wc ba_data].
    rewrite String.list_byte_of_string_of_list_byte. by rewrite bool_decide_eq_true_2.
  - unfold bparse. intros s a H. destruct (String.list_byte_of_string s) as [|f [|w d]]; try discriminate.
    case_bool_decide; [|discriminate]. injection H as <-. by exists f, w, d.
  - done.
  - intros a b. rewrite andb_true_iff, !bool_decide_eq_true. done.
Qed.

(** ** Cells *)

#[warnings="-register-all"]
Inductive bcell := BCell (bits : list bool) (refs : list bcell).
Record bdict := BDict { bd_key : nat; bd_root : option bcell }.

Definition raw_bits (c : bcell) : list bool := let '(BCell b _) := c in b.
Definition raw_refs (c : bcell) : list bcell := let '(BCell _ r) := c in r.
Definition vbits (c : bcell) : list bool := take 1023 (raw_bits c).
Definition vrefs (c : bcell) : list bcell := take 4 (raw_refs c).

Fixpoint bdepth (c : bcell) : nat :=
  let '(BCell _ refs) := c in S (max_list (bdepth <$> refs)).

Definition badd (c : bcell) (bits : list bool) (refs : list bcell) : res bcell :=
  if bool_decide (length (vbits c) + length bits ≤ 1023)
     && bool_decide (length (vrefs c) + length refs ≤ 4)
  then Ok (BCell (vbits c ++ bits) (vrefs c ++ refs))
  else Err "cell overflow".

Definition bload (n : nat) (s : bcell) : res (list bool * bcell) :=
  if bool_decide (n ≤ length (vbits s))
  then Ok (take n (vbits s), BCell (drop n (vbits s)) (vrefs s))
  else Err "not enough data in reader".

Definition bload_ref (s : bcell) : res (bcell * bcell) :=
  match vrefs s with
  | r :: rs => Ok (r, BCell (vbits s) rs)
  | [] => Err "no more refs exists"
  end.

(** *** The variable-length fields *)

Definition std_bits (a : baddr) : list bool :=
  [true; false; false] ++ byte_bits (ba_wc a) ++ bytes_bits (ba_data a).

Definition bload_addr (s : bcell) : res (baddr * bcell) :=
  '(bits, s') ← bload 267 s;
  Ok (BAddr x00 (byte_of_Z (bits_Z (take 8 (drop 3 bits)))) (pack_bits (drop 11 bits)), s').

Definition coin_bytes (v : Z) : nat := if (v =? 0)%Z then 0 else Z.to_nat ((Z.log2 v + 8) / 8).
Definition coin_bits (v : Z) : list bool :=
  Z_bits 4 (Z.of_nat (coin_bytes v)) ++ Z_bits (8 * coin_bytes v) v.
Definition bload_coins (s : bcell) : res (Z * bcell) :=
  '(l, s1) ← bload 4 s;
  '(v, s2) ← bload (8 * Z.to_nat (bits_Z l)) s1;
  Ok (bits_Z v, s2).

Definition bload_dict (n : nat) (s : bcell) : res (bdict * bcell) :=
  '(b, s1) ← bload 1 s;
  match b with
  | [true] => '(r, s2) ← bload_ref s1; Ok (BDict n (Some r), s2)
  | _ => Ok (BDict n None, s1)
  end.

Definition bdict_bits (d : bdict) : list bool := [match bd_root d with Some _ => true | None => false end].
Definition bdict_refs (d : bdict) : list bcell := match bd_root d with Some r => [r] | None => [] end.

(** *** The bag of cells as bytes *)

(** A cell is written between brackets, its bits before its references; the
    reader keeps the open cells on a stack, their contents in reverse. *)
Definition bit_byte (b : bool) : byte := if b then x01 else x00.
Fixpoint cell_bytes (c : bcell) : bytes :=
  let '(BCell bits refs) := c in
  x02 :: (bit_byte <$> bits) ++ concat (cell_bytes <$> refs) ++ [x03].

Abbreviation frame := (list bool * list bcell)%type.
Definition read_byte (st : list frame) (b : byte) : list frame :=
  match b, st with
  | x00, (bits, refs) :: st' => (false :: bits, refs) :: st'
  | x01, (bits, refs) :: st' => (true :: bits, refs) :: st'
  | x02, _ => ([], []) :: st
  | x03, (bits, refs) :: (bits', refs') :: st' =>
      (bits', BCell (reverse bits) (reverse refs) :: refs') :: st'
  | _, _ => []
  end.

(** The serialised form starts with the four magic bytes of a bag of cells. *)
Definition boc_prefix : bytes := [xb5; xee; x9c; x72].
Definition to_boc (c : bcell) : bytes := boc_prefix ++ cell_bytes c.
Definition from_boc (bs : bytes) : res bcell :=
  if bool_decide (take 4 bs = boc_prefix)
  then match foldl read_byte [([], [])] (drop 4 bs) with
       | [([], [c])] => Ok c
       | _ => Err "bad boc"
       end
  else Err "bad boc".

#[export] Instance BitCell : @CellLib BitAddr := {|
  Cell := bcell; Builder := bcell; Slice := bcell; Dict := bdict;
  BeginCell := BCell [] [];
  EndCell b := b;
  ToBuilder c := c;
  BitsLeft b := (1023 - Z.of_nat (length (vbits b)))%Z;
  RefsLeft b := (4 - Z.of_nat (length (vrefs b)))%Z;
  StoreSlice bs n b := badd b (take (Z.to_nat n) (bytes_bits bs)) [];
  StoreRef c b := badd b [] [c];
  StoreBuilder x b := badd b (vbits x) (vrefs x);
  StoreUInt v n b := badd b (Z_bits n v) [];
  StoreBigInt v n b := match v with Some v => badd b (Z_bits n v) [] | None => Err "nil big.Int" end;
  StoreBool v b := badd b [v] [];
  StoreAddr a b := badd b (std_bits a) [];
  StoreCoins v b := badd b (coin_bits v) [];
  StoreDict d n b := badd b (bdict_bits d) (bdict_refs d);
  BitsSize c := Z.of_nat (length (vbits c));
  RefsNum c := Z.of_nat (length (vrefs c));
  Depth := bdepth;
  PeekRef c i := match vrefs c !! Z.to_nat i with Some r => Ok r | None => Err "no ref" end;
  BeginParse c := c;
  ToBOC := to_boc;
  FromBOC := from_boc;
  SliceBitsLeft s := Z.of_nat (length (vbits s));
  SliceToCell s := Ok s;
  LoadSlice n s := '(bits, s') ← bload (Z.to_nat n) s; Ok (pack_bits bits, s');
  LoadRefCell := bload_ref;
  LoadUInt n s := '(bits, s') ← bload n s; Ok (bits_Z bits, s');
  LoadBigInt n s := '(bits, s') ← bload n s; Ok (Some (bits_Z bits), s');
  LoadBool s := '(bits, s') ← bload 1 s; Ok (bool_decide (bits = [true]), s');
  LoadAddr := bload_addr;
  LoadCoins := bload_coins;
  LoadDict := bload_dict;
|}.

#[export] Instance BitView : @CellView BitAddr BitCell := {|
  cbits := vbits : Cell → _; crefs := vrefs : Cell → list Cell;
  bbits := vbits : Builder → _; brefs := vrefs : Builder → list Cell;
  sbits := vbits : Slice → _; srefs := vrefs : Slice → list Cell;
  addr_bits := std_bits : Address → _;
  coins_bits := coin_bits;
  dict_keysz := bd_key : Dict → _;
  dict_bits := bdict_bits : Dict → _;
  dict_refs := bdict_refs : Dict → list Cell;
|}.

(** ** The laws hold *)

Lemma vbits_max c : length (vbits c) ≤ 1023.
Proof. unfold vbits. rewrite length_take. lia. Qed.
Lemma vrefs_max c : length (vrefs c) ≤ 4.
Proof. unfold vrefs. rewrite length_take. lia. Qed.

Lemma vbits_small bits refs : length bits ≤ 1023 → vbits (BCell bits refs) = bits.
Proof. intros. unfold vbits. cbn. by apply take_ge. Qed.
Lemma vrefs_small bits refs : length refs ≤ 4 → vrefs (BCell bits refs) = refs.
Proof. intros. unfold vrefs. cbn. by apply take_ge. Qed.

Lemma badd_stores c bits refs : @stores BitAddr BitCell BitView (badd c bits refs) c bits refs.
Proof.
  unfold stores, badd, fits. cbn [bbits brefs BitView].
  destruct (_ && _) eqn:E; [|done].
  apply andb_true_iff in E as [Eb%bool_decide_eq_true Er%bool_decide_eq_true].
  eexists. split; [done|]. unfold extends. cbn [bbits brefs BitView].
  rewrite vbits_small, vrefs_small; [done|by rewrite length_app..].
Qed.

Lemma bload_reads bits s rb rr :
  vbits s = bits ++ rb → vrefs s = rr →
  ∃ s', bload (length bits) s = Ok (bits, s') ∧ vbits s' = rb ∧ vrefs s' = rr.
Proof.
  intros Hb Hr. unfold bload. rewrite bool_decide_eq_true_2 by (rewrite Hb, length_app; lia).
  pose proof (vbits_max s) as Hmax. pose proof (vrefs_max s).
  rewrite Hb, take_app_length, drop_app_length.
  rewrite Hb, length_app in Hmax. eexists. split; [done|].
  by rewrite vbits_small, vrefs_small by lia.
Qed.

Lemma bload_map_reads {A} (g : list bool → A) n bits a :
  n = length bits → g bits = a →
  @reads BitAddr BitCell BitView A (λ s, '(b, s') ← bload n s; Ok (g b, s')) bits [] a.
Proof.
  intros -> <- s rb rr Hb Hr. cbn in Hb, Hr.
  destruct (bload_reads bits s rb rr Hb Hr) as (s' & E & Hb' & Hr').
  exists s'. by rewrite E.
Qed.

Lemma bload_short n s : length (vbits s) < n → bload n s = Err "not enough data in reader".
Proof. intros. unfold bload. by rewrite bool_decide_eq_false_2 by lia. Qed.

Lemma bload_ref_reads c : @reads BitAddr BitCell BitView _ bload_ref [] [c] c.
Proof.
  intros s rb rr Hb Hr. cbn in *. unfold bload_ref. rewrite Hr.
  pose proof (vbits_max s). pose proof (vrefs_max s) as Hm. rewrite Hr in Hm. cbn in Hm.
  eexists. split; [done|]. rewrite vbits_small, vrefs_small; [done|lia..].
Qed.

Lemma std_bits_length a : length (ba_data a) = 32 → length (std_bits a) = 267.
Proof.
  intros Hd. unfold std_bits. rewrite !length_app, byte_bits_length, bytes_bits_length, Hd. done.
Qed.

Lemma bload_addr_reads (a : @Address BitAddr) :
  std_addr a → @reads BitAddr BitCell BitView _ bload_addr (std_bits a) [] a.
Proof.
  intros (w & d & Hd & ->) s rb rr.
  cbn [NewAddress BitAddr Address Cell BitCell sbits srefs BitView app]. intros Hb Hr. unfold bload_addr.
  assert (length (std_bits (BAddr x00 w d)) = 267) as Hl by by apply std_bits_length.
  destruct (bload_reads _ s rb rr Hb Hr) as (s' & E & Hb' & Hr').
  rewrite Hl in E. exists s'. rewrite E. cbn [mbind res_bind]. split; [|done]. do 2 f_equal.
  unfold std_bits. cbn [ba_wc ba_data].
  change (drop 11 ([true; false; false] ++ byte_bits w ++ bytes_bits d))
    with (drop 8 (byte_bits w ++ bytes_bits d)).
  change (drop 3 ([true; false; false] ++ byte_bits w ++ bytes_bits d))
    with (byte_bits w ++ bytes_bits d).
  rewrite take_app_length', drop_app_length' by (symmetry; apply byte_bits_length).
  by rewrite byte_bits_value, pack_bytes_bits.
Qed.

Lemma coin_bytes_bound v : (0 ≤ v < 2 ^ 120)%Z → coin_bytes v ≤ 15.
Proof.
  intros Hv. unfold coin_bytes. destruct (v =? 0)%Z eqn:E; [lia|].
  apply Z.eqb_neq in E. assert (Z.log2 v < 120)%Z by (apply Z.log2_lt_pow2; lia).
  assert ((Z.log2 v + 8) / 8 ≤ 15)%Z; [|lia].
  apply Z.lt_succ_r, Z.div_lt_upper_bound; lia.
Qed.

Lemma coin_bytes_enough v : (0 ≤ v)%Z → (0 ≤ v < 2 ^ Z.of_nat (8 * coin_bytes v))%Z.
Proof.
  intros Hv. unfold coin_bytes. destruct (v =? 0)%Z eqn:E.
  - apply Z.eqb_eq in E. subst. cbn. lia.
  - apply Z.eqb_neq in E. split; [done|]. apply Z.log2_lt_pow2; [lia|].
    pose proof (Z.log2_nonneg v).
    pose proof (Z.div_mod (Z.log2 v + 8) 8). pose proof (Z.mod_pos_bound (Z.log2 v + 8) 8). lia.
Qed.

Lemma coins_reads v :
  (0 ≤ v < 2 ^ 120)%Z → @reads BitAddr BitCell BitView _ bload_coins (coin_bits v) [] v.
Proof.
  intros Hv s rb rr Hb Hr. unfold coin_bits in Hb. rewrite <- app_assoc in Hb.
  destruct (bload_reads _ s _ rr Hb Hr) as (s1 & E1 & Hb1 & Hr1).
  destruct (bload_reads _ s1 rb rr Hb1 Hr1) as (s2 & E2 & Hb2 & Hr2).
  rewrite Z_bits_length in E1, E2. exists s2. unfold bload_coins. rewrite E1. cbn [mbind res_bind].
  pose proof (coin_bytes_bound v Hv). rewrite bits_Z_bits by lia. rewrite Nat2Z.id, E2. cbn [mbind res_bind].
  rewrite bits_Z_bits; [done|]. apply coin_bytes_enough; lia.
Qed.

Lemma dict_reads (d : @Dict BitAddr BitCell) n :
  bd_key d = n → @reads BitAddr BitCell BitView _ (bload_dict n) (bdict_bits d) (bdict_refs d) d.
Proof.
  intros <- s rb rr Hb Hr. unfold bload_dict.
  destruct (bload_reads _ s rb (bdict_refs d ++ rr) Hb Hr) as (s1 & E1 & Hb1 & Hr1).
  change (length (bdict_bits d)) with 1 in E1. rewrite E1. cbn [mbind res_bind].
  destruct d as [k [r|]]; cbn in *.
  - destruct (bload_ref_reads r s1 rb rr Hb1 Hr1) as (s2 & -> & Hb2 & Hr2). by exists s2.
  - by exists s1.
Qed.

Lemma read_bits bits acc refs st :
  foldl read_byte ((acc, refs) :: st) (bit_byte <$> bits) = (reverse bits ++ acc, refs) :: st.
Proof.
  revert acc. induction bits as [|b bits IH]; intros acc; [done|]. rewrite fmap_cons. cbn [foldl].
  replace (read_byte ((acc, refs) :: st) (bit_byte b)) with ((b :: acc, refs) :: st) by by destruct b.
  by rewrite IH, reverse_cons, <- app_assoc.
Qed.

Fixpoint read_cell (c : bcell) bits refs st :
  foldl read_byte ((bits, refs) :: st) (cell_bytes c) = (bits, c :: refs) :: st.
Proof.
  destruct c as [bits1 refs1]. cbn [cell_bytes foldl]. rewrite !foldl_app. cbn [read_byte].
  rewrite read_bits, app_nil_r.
  assert (∀ acc, foldl read_byte ((reverse bits1, acc) :: (bits, refs) :: st) (concat (cell_bytes <$> refs1))
                 = (reverse bits1, reverse refs1 ++ acc) :: (bits, refs) :: st) as ->.
  { induction refs1 as [|r refs1 IH]; intros acc; [done|]. cbn [fmap list_fmap concat].
    rewrite foldl_app, read_cell, IH. by rewrite reverse_cons, <- app_assoc. }
  cbn. by rewrite app_nil_r, !reverse_involutive.
Qed.

Lemma bdepth_ref c r : r ∈ vrefs c → bdepth r < bdepth c.
Proof.
  destruct c as [bits refs]. unfold vrefs. cbn. intros Hr%subseteq_take.
  apply Nat.lt_succ_r, max_list_elem_of_le, list_elem_of_fmap. by exists r.
Qed.

#[export] Instance BitLaws : @CellLaws BitAddr BitCell BitView.
Proof.
  constructor; cbn -[badd bload bload_ref bload_addr bload_coins bload_dict];
    try done; try apply vbits_max; try apply vrefs_max; try (intros; apply badd_stores).
  - apply bdepth_ref.
  - intros c i r E. by rewrite Nat2Z.id, E.
  - intros c. unfold from_boc, to_boc. cbn [take drop boc_prefix app].
    rewrite bool_decide_eq_true_2 by done. rewrite drop_0. by rewrite read_cell.
  - intros c. unfold to_boc. cbn. lia.
  - intros s. by exists s.
  - intros bs n b Hn. rewrite Nat2Z.id. apply badd_stores.
  - intros bits n ->. by apply bload_map_reads; [rewrite Nat2Z.id|].
  - intros n s Hn. rewrite bload_short; [done|lia].
  - intros c. apply bload_ref_reads.
  - intros v n Hn Hv. apply bload_map_reads; [by rewrite Z_bits_length|by apply bits_Z_bits].
  - intros n s Hn Hs. by rewrite bload_short.
  - intros v n Hn Hv. apply bload_map_reads; [by rewrite Z_bits_length|by rewrite bits_Z_bits].
  - intros v. apply bload_map_reads; [done|]. by destruct v.
  - apply bload_addr_reads.
  - apply coins_reads.
  - intros d n. apply dict_reads.
  - intros a (w & d & Hd & ->). by apply std_bits_length.
  - intros v Hv. pose proof (coin_bytes_bound v Hv). unfold coin_bits. cbn. rewrite Z_bits_length. lia.
  - intros [k [r|]]; cbn; lia.
Qed.

End BitCells.
