(* ===== verification/Tlb.v ===== *)
(** * Tlb: Go struct tags as codecs

    A struct with [tlb:"..."] tags is written field by field into one builder
    and read back field by field from one slice.  [fcodec] is one field,
    [Tlb] is a type with Go's [ToCell] / [LoadFromCell] methods (the tlb
    Marshaller and Unmarshaler interfaces), [tlb_struct] is a tagged struct.
    The combinators are the tags the repository uses; [lawful] says that a
    field codec is a well-behaved encoder for the values in a domain, and is
    closed under all combinators. *)

From S2P Require Import Prelude Cells.

Section tlb.
Context {AL : AddrLib} {CL : CellLib}.

Record fcodec (A : Type) := FCodec {
  put : A → Builder → res Builder;
  get : Slice → res (A * Slice);
}.
#[global] Arguments FCodec {A} _ _.
#[global] Arguments put {A} _ _ _.
#[global] Arguments get {A} _ _.

Class Tlb (T : Type) := {
  ToCell : T → res Cell;
  LoadFromCell : Slice → res (T * Slice);
}.

(** ** One combinator per tag *)

(** [## N] on a Go unsigned integer. *)
Definition f_uint (n : nat) : fcodec Z := FCodec (λ v, StoreUInt v n) (LoadUInt n).
(** [## N] on a [*big.Int]; [None] is the nil pointer. *)
Definition f_big (n : nat) : fcodec (option Z) := FCodec (λ v, StoreBigInt v n) (LoadBigInt n).
(** [bits N] on a [[]byte]. *)
Definition f_bits (n : nat) : fcodec bytes :=
  FCodec (λ v, StoreSlice v (Z.of_nat n)) (LoadSlice (Z.of_nat n)).
Definition f_bool : fcodec bool := FCodec StoreBool LoadBool.
Definition f_addr : fcodec Address := FCodec StoreAddr LoadAddr.
(** [.] on a [tlb.Coins]. *)
Definition f_coins : fcodec Z := FCodec StoreCoins LoadCoins.
Definition f_dict (n : nat) : fcodec Dict := FCodec (λ v, StoreDict v n) (LoadDict n).
(** [^] on a [*cell.Cell]. *)
Definition f_cell : fcodec Cell := FCodec StoreRef LoadRefCell.
(** [#hex] on the blank [tlb.Magic] field. *)
Definition f_magic (op : Z) : fcodec () :=
  FCodec (λ _, StoreUInt op 32)
    (λ s, r ← LoadUInt 32 s; if (r.1 =? op)%Z then Ok (tt, r.2) else Err "magic is not correct").
(** [^] on a type with its own codec. *)
Definition f_ref {T} (t : Tlb T) : fcodec T :=
  FCodec (λ v b, c ← ToCell v; StoreRef c b)
    (λ s, '(c, s') ← LoadRefCell s;
          r ← LoadFromCell (T:=T) (BeginParse c); Ok (r.1, s')).
(** [.] on a type with its own codec. *)
Definition f_inline {T} (t : Tlb T) : fcodec T :=
  FCodec (λ v b, c ← ToCell v; StoreBuilder (ToBuilder c) b) LoadFromCell.
(** [maybe X]: one bit, then [X] when it is set. *)
Definition f_maybe {A} (c : fcodec A) : fcodec (option A) :=
  FCodec (λ v b, match v with
                 | None => StoreBool false b
                 | Some a => b ← StoreBool true b; put c a b
                 end)
    (λ s, t ← LoadBool s;
          if t.1 : bool then r ← get c t.2; Ok (Some r.1, r.2) else Ok (None, t.2)).
(** A field followed by the rest of the struct. *)
Definition f_pair {A B} (c : fcodec A) (d : fcodec B) : fcodec (A * B) :=
  FCodec (λ v b, b ← put c v.1 b; put d v.2 b)
    (λ s, r ← get c s; r' ← get d r.2; Ok ((r.1, r'.1), r'.2)).
(** A struct is the tuple of its fields. *)
Definition f_iso {A B} (to : B → A) (from : A → B) (c : fcodec B) : fcodec A :=
  FCodec (λ v, put c (from v)) (λ s, r ← get c s; Ok (to r.1, r.2)).

(** [tlb.ToCell] and [tlb.LoadFromCell] on a tagged struct. *)
Definition tlb_struct {A} (c : fcodec A) : Tlb A := {|
  ToCell v := b ← put c v BeginCell; Ok (EndCell b);
  LoadFromCell := get c;
|}.

(** Whether a slice decodes as a message of the type. *)
Definition accepts {T} (t : Tlb T) (s : Slice) : bool := is_ok (LoadFromCell (T:=T) s).
End tlb.

Declare Scope tlb_scope.
Delimit Scope tlb_scope with tlb.
Infix "⊗" := f_pair (at level 60, right associativity) : tlb_scope.

(** ** Laws *)

Section laws.
Context {AL : AddrLib} {CL : CellLib} {CV : CellView} {CW : CellLaws}.
Local Open Scope tlb_scope.

(** For every value of the domain there are between [mb] and [nb] bits and at
    most [nr] references that [put] appends (or fails, when the builder is
    full) and from which [get] reads the value back. *)
Definition lawful {A} (c : fcodec A) (dom : A → Prop) (mb nb nr : nat) : Prop :=
  ∀ a, dom a → ∃ bits refs,
    mb ≤ length bits ≤ nb ∧ length refs ≤ nr ∧
    (∀ b, stores (put c a b) b bits refs) ∧ reads (get c) bits refs a.

(** The same for a type with [ToCell]/[LoadFromCell], embedded in a larger
    slice ([stream_lawful]) or alone in its cell ([cell_lawful]). *)
Definition stream_lawful {T} (t : Tlb T) (dom : T → Prop) (mb nb nr : nat) : Prop :=
  ∀ a, dom a → ∃ c, ToCell a = Ok c ∧ mb ≤ length (cbits c) ≤ nb ∧
    length (crefs c) ≤ nr ∧ reads LoadFromCell (cbits c) (crefs c) a.

(** [c] decodes to [a]. *)
Definition decodes {T} (t : Tlb T) (c : Cell) (a : T) : Prop :=
  ∃ s, LoadFromCell (BeginParse c) = Ok (a, s).

Definition cell_lawful {T} (t : Tlb T) (dom : T → Prop) : Prop :=
  ∀ a, dom a → ∃ c, ToCell a = Ok c ∧ decodes t c a.

Lemma stream_cell {T} (t : Tlb T) dom mb nb nr : stream_lawful t dom mb nb nr → cell_lawful t dom.
Proof.
  intros Ht a Ha. destruct (Ht a Ha) as (c & E & _ & _ & Hr).
  exists c. split; [done|]. by apply reads_parse.
Qed.

Lemma struct_stream {A} (c : fcodec A) dom mb nb nr :
  lawful c dom mb nb nr → nb ≤ 1023 → nr ≤ 4 → stream_lawful (tlb_struct c) dom mb nb nr.
Proof.
  intros Hc Hnb Hnr a Ha. destruct (Hc a Ha) as (bits & refs & Hb & Hr & Hs & Hg).
  destruct (stores_fit _ _ _ _ (Hs BeginCell)) as (b' & E & Eb & Er);
    [rewrite begin_bits; cbn; lia|rewrite begin_refs; cbn; lia|].
  exists (EndCell b'). cbn. rewrite E. cbn.
  rewrite end_bits, end_refs, Eb, Er, begin_bits, begin_refs. done.
Qed.

Lemma stream_weaken {T} (t : Tlb T) dom mb nb nr mb' nb' nr' :
  stream_lawful t dom mb nb nr → mb' ≤ mb → nb ≤ nb' → nr ≤ nr' → stream_lawful t dom mb' nb' nr'.
Proof.
  intros Ht ??? a Ha. destruct (Ht a Ha) as (c & ? & ? & ? & ?). exists c. split_and!; try done; lia.
Qed.

Lemma lawful_weaken {A} (c : fcodec A) (dom dom' : A → Prop) mb nb nr mb' nb' nr' :
  lawful c dom mb nb nr → (∀ a, dom' a → dom a) → mb' ≤ mb → nb ≤ nb' → nr ≤ nr' →
  lawful c dom' mb' nb' nr'.
Proof.
  intros Hc Hd ??? a Ha. destruct (Hc a (Hd a Ha)) as (bits & refs & ? & ? & ?).
  exists bits, refs. split_and!; try lia; tauto.
Qed.

(** The values that the tags can carry. *)
Definition uint_ok (n : nat) (v : Z) : Prop := (0 ≤ v < 2 ^ Z.of_nat n)%Z.
Definition bits_ok (n : nat) (v : bytes) : Prop := 8 * length v = n.
Definition coins_ok (v : Z) : Prop := (0 ≤ v < 2 ^ 120)%Z.
Definition dict_ok (n : nat) (d : Dict) : Prop := dict_keysz d = n.

Lemma lawful_uint n : n ≤ 64 → lawful (f_uint n) (uint_ok n) n n 0.
Proof.
  intros Hn v Hv. exists (Z_bits n v), []. rewrite Z_bits_length. split_and!; try done.
  - intros b. by apply store_uint.
  - by apply load_uint.
Qed.

Definition big_ok (n : nat) (v : option Z) : Prop :=
  match v with Some z => (0 ≤ z < 2 ^ Z.of_nat n)%Z | None => False end.

Lemma lawful_big n : n ≤ 256 → lawful (f_big n) (big_ok n) n n 0.
Proof.
  intros Hn [v|] Hv; [|done]. exists (Z_bits n v), []. rewrite Z_bits_length. split_and!; try done.
  - intros b. by apply store_bigint.
  - by apply load_bigint.
Qed.

Lemma lawful_bits n : lawful (f_bits n) (bits_ok n) n n 0.
Proof.
  intros v Hv. unfold bits_ok in Hv. exists (bytes_bits v), []. rewrite bytes_bits_length.
  split_and!; try (cbn; lia).
  - intros b. apply store_slice. lia.
  - cbn. rewrite <- (pack_bytes_bits v) at 2. apply load_slice. rewrite bytes_bits_length. lia.
Qed.

Lemma lawful_bool : lawful f_bool (λ _, True) 1 1 0.
Proof.
  intros v _. exists [v], []. split_and!; try (cbn; lia).
  - intros b. apply store_bool.
  - apply load_bool.
Qed.

Lemma lawful_addr : lawful f_addr std_addr 267 267 0.
Proof.
  intros a Ha. exists (addr_bits a), []. rewrite addr_bits_size by done. split_and!; try done.
  - intros b. by apply store_addr.
  - by apply load_addr.
Qed.

Lemma lawful_coins : lawful f_coins coins_ok 4 124 0.
Proof.
  intros v Hv. exists (coins_bits v), []. pose proof (coins_bits_size v Hv).
  split_and!; try (cbn; lia).
  - intros b. by apply store_coins.
  - by apply load_coins.
Qed.

Lemma lawful_dict n : lawful (f_dict n) (dict_ok n) 1 1 1.
Proof.
  intros d Hd. exists (dict_bits d), (dict_refs d).
  pose proof (dict_bits_size d). pose proof (dict_refs_size d). split_and!; try lia.
  - intros b. by apply store_dict.
  - by apply load_dict.
Qed.

Lemma lawful_cell : lawful f_cell (λ _, True) 0 0 1.
Proof.
  intros c _. exists [], [c]. split_and!; try (cbn; lia).
  - intros b. apply store_ref.
  - apply load_ref.
Qed.

Lemma lawful_magic op : (0 ≤ op < 2 ^ 32)%Z → lawful (f_magic op) (λ _, True) 32 32 0.
Proof.
  intros Hop [] _. exists (Z_bits 32 op), []. rewrite Z_bits_length. split_and!; try (cbn; lia).
  - intros b. apply store_uint; [lia|done].
  - intros s rb rr Hb Hr.
    destruct (load_uint op 32 ltac:(lia) Hop s rb rr Hb Hr) as (s' & E & ?).
    exists s'. cbn. rewrite E. cbn. by rewrite Z.eqb_refl.
Qed.

Lemma lawful_ref {T} (t : Tlb T) dom : cell_lawful t dom → lawful (f_ref t) dom 0 0 1.
Proof.
  intros Ht a Ha. destruct (Ht a Ha) as (c & Ec & s1 & Es). exists [], [c].
  split_and!; try (cbn; lia).
  - intros b. cbn. rewrite Ec. cbn. apply store_ref.
  - intros s rb rr Hb Hr. destruct (load_ref c s rb rr Hb Hr) as (s' & E & ?).
    exists s'. cbn. rewrite E. cbn. by rewrite Es.
Qed.

Lemma lawful_inline {T} (t : Tlb T) dom mb nb nr :
  stream_lawful t dom mb nb nr → lawful (f_inline t) dom mb nb nr.
Proof.
  intros Ht a Ha. destruct (Ht a Ha) as (c & Ec & ? & ? & ?). exists (cbits c), (crefs c).
  split; [done|]. split; [done|]. split; [|done].
  intros b. cbn. rewrite Ec. cbn. rewrite <- to_builder_bits, <- to_builder_refs.
  apply store_builder.
Qed.

Definition opt_ok {A} (dom : A → Prop) (v : option A) : Prop :=
  match v with Some a => dom a | None => True end.

Lemma lawful_maybe {A} (c : fcodec A) dom mb nb nr :
  lawful c dom mb nb nr → lawful (f_maybe c) (opt_ok dom) 1 (S nb) nr.
Proof.
  intros Hc [a|] Ha.
  - destruct (Hc a Ha) as (bits & refs & ? & ? & Hs & Hg). exists ([true] ++ bits), ([] ++ refs).
    split_and!; try (cbn; lia).
    + intros b. cbn [put f_maybe]. apply stores_bind; [apply store_bool|done].
    + intros s rb rr Hb Hr. rewrite <- app_assoc in Hb.
      destruct (load_bool true s _ _ Hb Hr) as (s1 & E1 & Hb1 & Hr1).
      destruct (Hg s1 _ _ Hb1 Hr1) as (s2 & E2 & ?). exists s2. cbn. rewrite E1. cbn. by rewrite E2.
  - exists [false], []. split_and!; try (cbn; lia).
    + intros b. apply store_bool.
    + intros s rb rr Hb Hr. destruct (load_bool false s _ _ Hb Hr) as (s1 & E1 & ?).
      exists s1. cbn. by rewrite E1.
Qed.

Lemma lawful_pair {A B} (c : fcodec A) (d : fcodec B) domA domB mb1 nb1 nr1 mb2 nb2 nr2 :
  lawful c domA mb1 nb1 nr1 → lawful d domB mb2 nb2 nr2 →
  lawful (c ⊗ d) (λ p, domA p.1 ∧ domB p.2) (mb1 + mb2) (nb1 + nb2) (nr1 + nr2).
Proof.
  intros Hc Hd [a b] [Ha Hb]. cbn in Ha, Hb.
  destruct (Hc a Ha) as (bits1 & refs1 & ? & ? & Hs1 & Hg1).
  destruct (Hd b Hb) as (bits2 & refs2 & ? & ? & Hs2 & Hg2).
  exists (bits1 ++ bits2), (refs1 ++ refs2). rewrite !length_app. split_and!; try lia.
  - intros bl. cbn. by apply stores_bind.
  - intros s rb rr Eb Er. rewrite <- app_assoc in Eb, Er.
    destruct (Hg1 s _ _ Eb Er) as (s1 & E1 & Eb1 & Er1).
    destruct (Hg2 s1 _ _ Eb1 Er1) as (s2 & E2 & ?). exists s2. cbn. rewrite E1. cbn. by rewrite E2.
Qed.

Lemma lawful_iso {A B} (to : B → A) (from : A → B) (c : fcodec B) domA domB mb nb nr :
  lawful c domB mb nb nr → (∀ a, domA a → domB (from a)) → (∀ a, to (from a) = a) →
  lawful (f_iso to from c) domA mb nb nr.
Proof.
  intros Hc Hd Hto a Ha. destruct (Hc (from a) (Hd a Ha)) as (bits & refs & ? & ? & Hs & Hg).
  exists bits, refs. split; [done|]. split; [done|]. split; [done|].
  intros s rb rr Eb Er. destruct (Hg s _ _ Eb Er) as (s' & E & ?). exists s'. cbn. rewrite E. cbn.
  by rewrite Hto.
Qed.
(** Fields that need more bits than a cell has are not stored. *)
Lemma lawful_overflow {A} (c : fcodec A) dom mb nb nr a :
  lawful c dom mb nb nr → 1023 < mb → dom a → is_err (ToCell (Tlb:=tlb_struct c) a) = true.
Proof.
  intros Hc Hmb Ha. destruct (Hc a Ha) as (bits & refs & ? & _ & Hs & _).
  assert (is_err (put c a BeginCell) = true) as He.
  { apply (stores_nofit _ _ _ _ (Hs BeginCell)). lia. }
  cbn. by destruct (put c a BeginCell).
Qed.

(** *** Opcodes *)

(** Each decoder of the table only accepts slices that start with its opcode. *)
Definition opcode_table (msgs : list (Z * (Slice → bool))) : Prop :=
  Forall (λ m, ∀ s, m.2 s = true → ∃ s', LoadUInt 32 s = Ok (m.1, s')) msgs.

Lemma magic_accepts {A B} op (to : () * B → A) (from : A → () * B) (c : fcodec B) s :
  accepts (tlb_struct (f_iso to from (f_magic op ⊗ c))) s = true →
  ∃ s', LoadUInt 32 s = Ok (op, s').
Proof.
  unfold accepts, is_ok. cbn.
  destruct (LoadUInt 32 s) as [[v s']| | |]; cbn; try done.
  destruct (Z.eqb_spec v op) as [->|]; cbn; [by eexists|done].
Qed.

(** A message that was written starts with its opcode. *)
Lemma magic_prefix {A B} op (to : () * B → A) (from : A → () * B) (c : fcodec B) dom mb nb nr a cell :
  (0 ≤ op < 2 ^ 32)%Z → lawful c dom mb nb nr → dom (from a).2 →
  ToCell (Tlb:=tlb_struct (f_iso to from (f_magic op ⊗ c))) a = Ok cell →
  take 32 (cbits cell) = Z_bits 32 op.
Proof.
  intros Hop Hc Ha E. destruct (Hc _ Ha) as (bits & refs & _ & _ & Hs & _).
  cbn [ToCell tlb_struct put f_iso f_pair f_magic] in E. apply bind_ok in E as (b & Eb & [= <-]).
  assert (32 ≤ 64) as H64 by lia.
  pose proof (stores_bind _ _ _ _ [] _ _ (store_uint op 32 BeginCell H64 Hop) Hs) as Hst.
  apply (stores_ok _ _ b) in Hst as [E _]; [|done]. rewrite end_bits, E, begin_bits, app_nil_l.
  by rewrite take_app_length' by by rewrite Z_bits_length.
Qed.

(** With pairwise distinct opcodes at most one message type accepts a slice. *)
Lemma opcode_table_unique msgs :
  opcode_table msgs → NoDup msgs.*1 →
  ∀ s i j m n, msgs !! i = Some m → msgs !! j = Some n →
    m.2 s = true → n.2 s = true → i = j.
Proof.
  intros Ht Hnd s i j m n Hi Hj Hm Hn.
  destruct (Forall_lookup_1 _ _ _ _ Ht Hi s Hm) as [s1 E1].
  destruct (Forall_lookup_1 _ _ _ _ Ht Hj s Hn) as [s2 E2].
  apply (NoDup_lookup _ i j m.1 Hnd); rewrite list_lookup_fmap; [by rewrite Hi|].
  rewrite Hj. cbn. congruence.
Qed.
End laws.

(** Every entry of a literal table is a tagged struct that starts with its magic. *)
Ltac solve_table := repeat (apply Forall_cons; split; [intros ?s; apply magic_accepts|]); apply Forall_nil; exact I.

Create HintDb tlb discriminated.
#[export] Hint Resolve lawful_uint lawful_big lawful_bits lawful_bool lawful_addr lawful_coins
  lawful_dict lawful_cell lawful_magic lawful_ref lawful_inline lawful_maybe lawful_pair
  stream_cell : tlb.
#[export] Hint Extern 5 (_ ≤ _)%nat => lia : tlb.
#[export] Hint Extern 5 (_ ≤ _ < _)%Z => first [lia | split; vm_compute; done] : tlb.

(** [solve_lawful] proves [stream_lawful (tlb_struct (f_iso to from fields)) ok mb nb nr]
    for a tagged struct: the fields by the hints, the domain and the tuple
    isomorphism by computation, the sizes by arithmetic. *)
Ltac solve_lawful :=
  lazymatch goal with
  | |- stream_lawful _ ?ok _ _ _ =>
      eapply struct_stream;
      [ eapply (lawful_weaken _ ok);
        [ eapply lawful_iso;
          [ repeat (first [eapply lawful_pair | solve [eauto 8 with tlb]])
          | intros ?v ?Hv; destruct v; hnf in Hv; cbn in Hv |- *; destruct_and?;
            repeat (first [assumption | exact I | split])
          | by intros [] ]
        | intros ?v ?Hv; exact Hv
        | cbn; lia | cbn; lia | cbn; lia ]
      | lia | lia ]
  end.
