(* ===== verification/Snake.v ===== *)
(** * Snake: pkg/ccip/bindings/common/common.go

    The three chained containers of the CCIP bindings ([SnakeRef], [SnakeData],
    [SnakeBytes]) and [CrossChainAddress].  Each packer fills a list of
    builders and links them into a chain of cells from the back; each unpacker
    walks the chain.  The loops over cells run on the depth of the root cell as
    fuel, the loops over a slice on its number of bits. *)

From S2P Require Import Prelude Cells Tlb.

Section linking.
Context {AL : AddrLib} {CL : CellLib}.

(** The "Link cells in reverse order" loop that ends all three packers:
    [next] is the cell built from the tail, [None] is Go's nil. *)
Fixpoint link_cells (msg : string) (cells : list Builder) : res (option Cell) :=
  match cells with
  | [] => Ok None
  | b :: cells' =>
      next ← link_cells msg cells';
      match next with
      | Some n => b ← wrap_err msg (StoreRef n b); Ok (Some (EndCell b))
      | None => Ok (Some (EndCell b))
      end
  end.

(** A nil [*cell.Cell] handed on as a value is dereferenced by the caller. *)
Definition non_nil (c : option Cell) : res Cell :=
  match c with Some c => Ok c | None => Panic "nil *cell.Cell" end.
End linking.

(** ** Arrays of references *)

Section SnakeRef.
Context {AL : AddrLib} {CL : CellLib} {T : Type} {TT : Tlb T}.

(** The loop of [packArrayWithRefChaining]; [prev ++ [builder]] is the Go
    slice [cells], of which [builder] is always the last. *)
Fixpoint pack_refs_loop (array : list T) (prev : list Builder) (builder : Builder)
  : res (list Builder) :=
  match array with
  | [] => Ok (prev ++ [builder])
  | v :: array' =>
      c ← wrap_err "failed to serialize element" (ToCell v);
      let '(prev, builder) :=
        if (RefsLeft builder =? 1)%Z then (prev ++ [builder], BeginCell) else (prev, builder) in
      builder ← wrap_err "failed to store element" (StoreRef c builder);
      pack_refs_loop array' prev builder
  end.

Definition packArrayWithRefChaining (array : list T) : res (option Cell) :=
  cells ← pack_refs_loop array [] BeginCell; link_cells "failed to store ref at cell" cells.

(** The inner loop of [unpackArrayWithRefChaining] over the [n] remaining
    references from index [i]; the second component is the chaining
    reference when the loop was left by [break]. *)
Fixpoint scan_refs (curr : Cell) (length : Z) (n : nat) (i : Z) (result : list T)
  : res (list T * option Cell) :=
  match n with
  | O => Ok (result, None)
  | S n' =>
      ref ← wrap_err "failed to unpack array" (PeekRef curr i);
      if ((length =? 4) && (i =? 3))%Z then Ok (result, Some ref)
      else
        r ← wrap_err "failed to decode element" (LoadFromCell (T:=T) (BeginParse ref));
        scan_refs curr length n' (i + 1)%Z (result ++ [r.1])
  end.

Fixpoint unpack_refs_loop (fuel : nat) (curr : Cell) (result : list T) : res (list T) :=
  match fuel with
  | O => Diverge
  | S fuel' =>
      let length := RefsNum curr in
      if (MaxInt <? length)%Z then Err "length overflows int" else
      r ← scan_refs curr length (Z.to_nat length) 0 result;
      if (length <? 4)%Z then Ok r.1
      else unpack_refs_loop fuel' (default curr r.2) r.1
  end.

Definition unpackArrayWithRefChaining (root : option Cell) : res (list T) :=
  match root with
  | None => Ok []
  | Some c => unpack_refs_loop (S (Depth c)) c []
  end.

(** [SnakeRef[T]]: the wrapper's [ToCell] and [LoadFromCell]; the latter
    reads the whole slice through [c.ToCell()] and does not advance it. *)
Definition SnakeRef : Tlb (list T) := {|
  ToCell s := c ← packArrayWithRefChaining s; non_nil c;
  LoadFromCell c :=
    cl ← wrap_err "failed to convert slice to cell" (SliceToCell c);
    arr ← unpackArrayWithRefChaining (Some cl); Ok (arr, c);
|}.
End SnakeRef.
#[global] Arguments SnakeRef {AL CL T} TT.

(** ** Arrays stored in the cell's bits *)

Section SnakeData.
Context {AL : AddrLib} {CL : CellLib} {T : Type} {TT : Tlb T}.

Fixpoint pack_static_loop (array : list T) (prev : list Builder) (builder : Builder)
  : res (list Builder) :=
  match array with
  | [] => Ok (prev ++ [builder])
  | v :: array' =>
      c ← wrap_err "failed to serialize element" (ToCell v);
      let '(prev, builder) :=
        if (BitsLeft builder <? BitsSize c)%Z then (prev ++ [builder], BeginCell) else (prev, builder) in
      builder ← wrap_err "failed to store element" (StoreBuilder (ToBuilder c) builder);
      pack_static_loop array' prev builder
  end.

Definition packArrayWithStaticType (array : list T) : res (option Cell) :=
  cells ← pack_static_loop array [] BeginCell; link_cells "failed to store ref at cell" cells.

(** The inner loop [for s.BitsLeft() > 0]. *)
Fixpoint read_elems (fuel : nat) (s : Slice) (result : list T) : res (list T) :=
  match fuel with
  | O => Diverge
  | S fuel' =>
      if (0 <? SliceBitsLeft s)%Z then
        r ← wrap_err "failed to decode element" (LoadFromCell (T:=T) s);
        read_elems fuel' r.2 (result ++ [r.1])
      else Ok result
  end.

(** The code after the inner loop: the next cell is the first reference. *)
Definition next_cell (curr : Cell) : res (option Cell) :=
  if (0 <? RefsNum curr)%Z
  then ref ← wrap_err "failed to get next cell ref" (PeekRef curr 0); Ok (Some ref)
  else Ok None.

Fixpoint unpack_static_loop (fuel : nat) (curr : option Cell) (result : list T) : res (list T) :=
  match curr with
  | None => Ok result
  | Some curr =>
      match fuel with
      | O => Diverge
      | S fuel' =>
          let s := BeginParse curr in
          result ← read_elems (5 + Z.to_nat (SliceBitsLeft s)) s result;
          next ← next_cell curr;
          unpack_static_loop fuel' next result
      end
  end.

Definition unpackArrayWithStaticType (root : option Cell) : res (list T) :=
  match root with
  | None => Ok []
  | Some c => unpack_static_loop (S (Depth c)) (Some c) []
  end.

(** [SnakeData[T]]. *)
Definition SnakeData : Tlb (list T) := {|
  ToCell s := c ← packArrayWithStaticType s; non_nil c;
  LoadFromCell c :=
    cl ← wrap_err "failed to convert slice to cell" (SliceToCell c);
    arr ← unpackArrayWithStaticType (Some cl); Ok (arr, c);
|}.
End SnakeData.
#[global] Arguments SnakeData {AL CL T} TT.

(** ** Byte strings *)

Section SnakeBytes.
Context {AL : AddrLib} {CL : CellLib}.

(** The loop of [packByteArrayToCell]; [data] is Go's [data[offset:]]. *)
Fixpoint pack_bytes_loop (fuel : nat) (data : bytes) (prev : list Builder) (curr : Builder)
  : res (list Builder) :=
  match fuel with
  | O => Diverge
  | S fuel' =>
      match data with
      | [] => Ok (prev ++ [curr])
      | _ =>
          let bytesFit := (BitsLeft curr / 8)%Z in
          let remainingBytes := Z.of_nat (length data) in
          if (MaxInt <? bytesFit)%Z then Err "bytesFit overflows int" else
          let writeLen := if (bytesFit <? remainingBytes)%Z then bytesFit else remainingBytes in
          if (writeLen <? 0)%Z then Err "writeLen is negative" else
          if (0 <? bytesFit)%Z then
            curr ← wrap_err "failed to store bytes"
                     (StoreSlice (take (Z.to_nat writeLen) data) (writeLen * 8)%Z curr);
            pack_bytes_loop fuel' (drop (Z.to_nat writeLen) data) prev curr
          else pack_bytes_loop fuel' data (prev ++ [curr]) BeginCell
      end
  end.

Definition packByteArrayToCell (data : bytes) : res (option Cell) :=
  match data with
  | [] => Ok (Some (EndCell BeginCell))
  | _ => cells ← pack_bytes_loop (S (2 * length data)) data [] BeginCell;
       link_cells "failed to link cell" cells
  end.

Fixpoint drain_bits (fuel : nat) (s : Slice) (result : bytes) : res bytes :=
  match fuel with
  | O => Diverge
  | S fuel' =>
      if (0 <? SliceBitsLeft s)%Z then
        r ← wrap_err "failed to load bytes" (LoadSlice (SliceBitsLeft s) s);
        drain_bits fuel' r.2 (result ++ r.1)
      else Ok result
  end.

Fixpoint unload_loop (fuel : nat) (curr : option Cell) (result : bytes) : res bytes :=
  match curr with
  | None => Ok result
  | Some curr =>
      match fuel with
      | O => Diverge
      | S fuel' =>
          let s := BeginParse curr in
          result ← drain_bits (S (Z.to_nat (SliceBitsLeft s))) s result;
          next ← next_cell curr;
          unload_loop fuel' next result
      end
  end.

Definition unloadCellToByteArray (c : option Cell) : res bytes :=
  match c with
  | None => Ok []
  | Some r => unload_loop (S (Depth r)) (Some r) []
  end.

(** [SnakeBytes]. *)
Definition SnakeBytes : Tlb bytes := {|
  ToCell s := c ← packByteArrayToCell s; non_nil c;
  LoadFromCell c :=
    cl ← wrap_err "failed to convert slice to cell" (SliceToCell c);
    data ← wrap_err "failed to unpack byte array" (unloadCellToByteArray (Some cl)); Ok (data, c);
|}.

(** [NewDummyCell]: the length handed to [StoreSlice] is the number of
    bytes, where [StoreSlice] counts bits. *)
Definition NewDummyCell : res Cell :=
  let payload := String.list_byte_of_string "place holder" in
  builder ← StoreSlice payload (Z.of_nat (length payload)) BeginCell;
  Ok (EndCell builder).
End SnakeBytes.

(** ** Cross-chain addresses: a length byte and 1 to 64 bytes *)

Section CrossChain.
Context {AL : AddrLib} {CL : CellLib}.

Definition CrossChainAddress_ToCell (c : bytes) : res Cell :=
  let addrLength := Z.of_nat (length c) in
  if (64 <? addrLength)%Z then Err "crosschain address length exceeds maximum of 64 bytes" else
  if (addrLength =? 0)%Z then Err "crosschain address is empty" else
  builder ← StoreSlice [byte_of_Z addrLength] 8 BeginCell;
  builder ← wrap_err "failed to store cross-chain address" (StoreSlice c (addrLength * 8)%Z builder);
  Ok (EndCell builder).

Definition CrossChainAddress_LoadFromCell (s : Slice) : res (bytes * Slice) :=
  if (SliceBitsLeft s <? 8)%Z then Err "crosschain address is too short" else
  '(length, s) ← wrap_err "failed to load cross-chain address length" (LoadSlice 8 s);
  match length with
  | [] => Panic "index out of range"
  | b :: _ =>
      let addrLength := byte_to_Z b in
      if ((addrLength <? 1) || (64 <? addrLength))%Z then Err "invalid crosschain address length" else
      if (SliceBitsLeft s <? addrLength * 8)%Z then Err "crosschain address is too short" else
      wrap_err "failed to load cross-chain address" (LoadSlice (addrLength * 8) s)
  end.

Definition CrossChainAddress : Tlb bytes := {|
  ToCell := CrossChainAddress_ToCell;
  LoadFromCell := CrossChainAddress_LoadFromCell;
|}.
End CrossChain.
