(* ===== verification/SnakeFacts.v ===== *)
(** * SnakeFacts: the containers of common.go round-trip

    A packed container is a chain of cells ([linked]) over a list of builders
    that hold consecutive chunks of the content ([chunks]).  The packers are
    shown to build such a chain, the unpackers to read one back. *)

From S2P Require Import Prelude Cells Tlb Snake.

Section linking.
Context {AL : AddrLib} {CL : CellLib} {CV : CellView} {CW : CellLaws}.

(** [c] is the first cell of the chain made of [bs]. *)
Inductive linked : list Builder → Cell → Prop :=
| linked_last b c : cbits c = bbits b → crefs c = brefs b → linked [b] c
| linked_cons b bs c n :
    linked bs n → cbits c = bbits b → crefs c = brefs b ++ [n] → linked (b :: bs) c.

(** [bs] holds [xs] in consecutive chunks: [P] relates every builder but the
    last to its chunk, [Q] the last. *)
Inductive chunks {X} (P Q : Builder → list X → Prop) : list Builder → list X → Prop :=
| chunks_last b ys : Q b ys → chunks P Q [b] ys
| chunks_more b bs ys zs : P b ys → chunks P Q bs zs → chunks P Q (b :: bs) (ys ++ zs).

Lemma linked_ext bs c c' :
  linked bs c → cbits c' = cbits c → crefs c' = crefs c → linked bs c'.
Proof. destruct 1; intros; [left|eright]; eauto; congruence. Qed.

Lemma link_cells_linked msg bs :
  bs ≠ [] → Forall (λ b, length (brefs b) ≤ 3) bs →
  ∃ c, link_cells msg bs = Ok (Some c) ∧ linked bs c.
Proof.
  intros Hne Hall. induction Hall as [|b bs Hb Hbs IH]; [done|]. cbn.
  destruct bs as [|b' bs].
  - exists (EndCell b). split; [done|]. left; [apply end_bits|apply end_refs].
  - destruct IH as (n & -> & Hn); [done|]. cbn.
    destruct (stores_fit _ _ _ _ (store_ref n b)) as (b1 & -> & Hb1 & Hr1).
    { pose proof (builder_bits_max b). cbn. lia. }
    { cbn. lia. }
    exists (EndCell b1). split; [done|]. rewrite app_nil_r in Hb1.
    eright; [done|by rewrite end_bits|by rewrite end_refs].
Qed.

Lemma chunks_refs {X} (P Q : Builder → list X → Prop) bs xs :
  (∀ b ys, P b ys → length (brefs b) ≤ 3) → (∀ b ys, Q b ys → length (brefs b) ≤ 3) →
  chunks P Q bs xs → bs ≠ [] ∧ Forall (λ b, length (brefs b) ≤ 3) bs.
Proof. intros HP HQ. induction 1 as [|b bs ys zs Hb _ [_ IH]]; split; eauto. Qed.

Lemma linked_depth b c n : crefs c = brefs b ++ [n] → Depth n < Depth c.
Proof. intros Hr. apply depth_ref. rewrite Hr. set_solver. Qed.

Lemma next_cell_none c : crefs c = [] → next_cell c = Ok None.
Proof. intros H. unfold next_cell. by rewrite refs_num, H. Qed.

Lemma next_cell_some c n rs : crefs c = n :: rs → next_cell c = Ok (Some n).
Proof.
  intros H. unfold next_cell. rewrite refs_num, H. cbn [length].
  replace (0 <? Z.of_nat (S (length rs)))%Z with true by lia.
  change 0%Z with (Z.of_nat 0). rewrite (peek_ref c 0 n); [done|]. by rewrite H.
Qed.
End linking.

(** ** SnakeRef *)

Section SnakeRef.
Context {AL : AddrLib} {CL : CellLib} {CV : CellView} {CW : CellLaws}.
Context {T : Type} {TT : Tlb T} {dom : T → Prop} (HT : cell_lawful TT dom).

Definition full_refs (b : Builder) (ys : list T) : Prop :=
  length (brefs b) = 3 ∧ Forall2 (decodes TT) (brefs b) ys.
Definition some_refs (b : Builder) (ys : list T) : Prop :=
  length (brefs b) ≤ 3 ∧ Forall2 (decodes TT) (brefs b) ys.

Lemma pack_refs_loop_spec xs prev b ys :
  Forall dom xs → bbits b = [] → some_refs b ys →
  ∃ bs, pack_refs_loop xs prev b = Ok (prev ++ bs) ∧ chunks full_refs some_refs bs (ys ++ xs).
Proof.
  intros Hxs. revert prev b ys. induction Hxs as [|x xs Hx Hxs IH]; intros prev b ys Hb [Hl Hd].
  { exists [b]. rewrite app_nil_r. split; [done|]. by left. }
  destruct (HT x Hx) as (c & Hc & Hdec). cbn. rewrite Hc. cbn [wrap_err mbind res_bind].
  rewrite refs_left.
  destruct (decide (length (brefs b) = 3)) as [E|E].
  - replace (4 - Z.of_nat (length (brefs b)) =? 1)%Z with true by lia.
    destruct (stores_fit _ _ _ _ (store_ref c BeginCell)) as (b1 & -> & Hb1 & Hr1);
      rewrite ?begin_bits, ?begin_refs; cbn; try lia.
    rewrite begin_refs in Hr1. rewrite begin_bits in Hb1.
    destruct (IH (prev ++ [b]) b1 [x]) as (bs & -> & Hch); [done| |].
    { split; rewrite Hr1; [cbn; lia|]. by repeat constructor. }
    exists (b :: bs). rewrite <- app_assoc. split; [done|]. by right.
  - replace (4 - Z.of_nat (length (brefs b)) =? 1)%Z with false by lia.
    destruct (stores_fit _ _ _ _ (store_ref c b)) as (b1 & -> & Hb1 & Hr1);
      rewrite ?Hb; cbn; try lia.
    destruct (IH prev b1 (ys ++ [x])) as (bs & -> & Hch).
    { by rewrite Hb1, Hb. }
    { split; rewrite Hr1; [rewrite length_app; cbn; lia|]. apply Forall2_app; auto. }
    exists bs. rewrite <- app_assoc in Hch. done.
Qed.

(** Scanning references that decode, before the chaining slot is reached. *)
Lemma scan_refs_decode curr len m rs ys i result :
  (∀ k r, rs !! k = Some r → crefs curr !! (i + k) = Some r) →
  Forall2 (decodes TT) rs ys → len ≠ 4%Z ∨ i + length rs ≤ 3 →
  scan_refs curr len (length rs + m) (Z.of_nat i) result
  = scan_refs curr len m (Z.of_nat (i + length rs)) (result ++ ys).
Proof.
  intros Hrs Hd Hlen. revert i result Hrs Hlen.
  induction Hd as [|r y rs ys Hr Hd IH]; intros i result Hrs Hlen.
  { by rewrite app_nil_r, Nat.add_0_r. }
  cbn [length Nat.add scan_refs]. rewrite (peek_ref curr i r).
  2:{ specialize (Hrs 0 r eq_refl). by rewrite Nat.add_0_r in Hrs. }
  cbn [wrap_err mbind res_bind].
  replace ((len =? 4) && (Z.of_nat i =? 3))%Z with false.
  2:{ cbn [length] in Hlen. symmetry. apply andb_false_iff. lia. }
  destruct Hr as [s' ->]. cbn [wrap_err mbind res_bind fst snd].
  replace (Z.of_nat i + 1)%Z with (Z.of_nat (S i)) by lia.
  rewrite IH.
  - rewrite <- app_assoc. cbn. f_equal. lia.
  - intros k r' Hk. specialize (Hrs (S k) r' Hk). by rewrite Nat.add_succ_r in Hrs.
  - cbn [length] in Hlen. lia.
Qed.

Lemma unpack_refs_loop_spec fuel bs c acc xs :
  chunks full_refs some_refs bs xs → linked bs c → Depth c < fuel →
  unpack_refs_loop fuel c acc = Ok (acc ++ xs).
Proof.
  intros Hch. revert fuel c acc.
  induction Hch as [b ys [Hl Hd]|b bs ys zs [Hl Hd] Hch IH]; intros fuel c acc Hlk Hf;
    (destruct fuel as [|fuel]; [lia|]); cbn [unpack_refs_loop];
    rewrite refs_num; inversion Hlk as [? ? Hcb Hcr|? ? ? n Hn Hcb Hcr]; subst.
  2:{ inversion Hn. }
  - rewrite Hcr. unfold MaxInt. replace (2 ^ 63 - 1 <? Z.of_nat (length (brefs b)))%Z with false by lia.
    rewrite Nat2Z.id, <- (Nat.add_0_r (length (brefs b))).
    rewrite (scan_refs_decode c _ 0 (brefs b) ys 0) by (rewrite ?Hcr; auto; lia). cbn.
    by replace (Z.of_nat (length (brefs b) + 0) <? 4)%Z with true by lia.
  - inversion Hch.
  - rewrite Hcr, length_app. cbn [length]. unfold MaxInt.
    replace (2 ^ 63 - 1 <? Z.of_nat (length (brefs b) + 1))%Z with false by lia.
    rewrite Nat2Z.id, (scan_refs_decode c _ 1 (brefs b) ys 0); try done; [|..|right; cbn; lia].
    2:{ intros k r Hk. rewrite Hcr. by apply lookup_app_l_Some. }
    cbn [scan_refs Nat.add]. rewrite (peek_ref c _ n).
    2:{ rewrite Hcr, lookup_app_r by lia. cbn. by rewrite Nat.sub_diag. }
    rewrite Hl. change (Z.of_nat (3 + 1)) with 4%Z. change (Z.of_nat 3) with 3%Z.
    change (Z.of_nat 4) with 4%Z. cbn -[Z.eqb Z.ltb].
    change ((4 =? 4) && (3 =? 3))%Z with true. change (4 <? 4)%Z with false. cbn.
    rewrite (IH fuel n); [by rewrite <- app_assoc|done|].
    pose proof (linked_depth b c n Hcr). lia.
Qed.

Lemma SnakeRef_packed xs :
  Forall dom xs →
  ∃ bs c, packArrayWithRefChaining xs = Ok (Some c) ∧ linked bs c ∧ chunks full_refs some_refs bs xs.
Proof.
  intros Hxs.
  destruct (pack_refs_loop_spec xs [] BeginCell []) as (bs & Hp & Hch); [done|apply begin_bits| |].
  { split; rewrite begin_refs; [cbn; lia|constructor]. }
  destruct (chunks_refs full_refs some_refs bs xs) as [Hne Hrefs]; [..|done|].
  { intros b ys [-> _]. done. }
  { by intros b ys [? _]. }
  destruct (link_cells_linked "failed to store ref at cell" bs Hne Hrefs) as (c & Hc & Hlk).
  exists bs, c. unfold packArrayWithRefChaining. rewrite Hp. cbn. by rewrite Hc.
Qed.

Lemma SnakeRef_lawful : cell_lawful (SnakeRef TT) (Forall dom).
Proof.
  intros xs Hxs. destruct (SnakeRef_packed xs Hxs) as (bs & c & Hc & Hlk & Hch). exists c.
  cbn [ToCell LoadFromCell SnakeRef]. unfold decodes. rewrite Hc. split; [done|].
  cbn [LoadFromCell SnakeRef].
  destruct (slice_to_cell (BeginParse c)) as (c' & -> & Hcb & Hcr). cbn [wrap_err mbind res_bind].
  rewrite parse_bits in Hcb. rewrite parse_refs in Hcr.
  change (unpackArrayWithRefChaining (Some c')) with (unpack_refs_loop (TT:=TT) (S (Depth c')) c' []).
  rewrite (unpack_refs_loop_spec _ bs c' [] xs Hch); [by eexists|by eapply linked_ext|lia].
Qed.
End SnakeRef.

(** ** SnakeData *)

Section SnakeData.
Context {AL : AddrLib} {CL : CellLib} {CV : CellView} {CW : CellLaws}.
Context {T : Type} {TT : Tlb T} {dom : T → Prop} {nb : nat}.
Context (HT : stream_lawful TT dom 1 nb 0).

(** [bits] is the concatenation of encodings of [ys]. *)
Inductive reads_list : list bool → list T → Prop :=
| reads_nil : reads_list [] []
| reads_cons bits rest y ys :
    1 ≤ length bits → reads (LoadFromCell (T:=T)) bits [] y → reads_list rest ys →
    reads_list (bits ++ rest) (y :: ys).

Definition data_chunk (b : Builder) (ys : list T) : Prop := brefs b = [] ∧ reads_list (bbits b) ys.

Lemma reads_list_snoc bits1 ys bits2 y :
  reads_list bits1 ys → 1 ≤ length bits2 → reads (LoadFromCell (T:=T)) bits2 [] y →
  reads_list (bits1 ++ bits2) (ys ++ [y]).
Proof.
  intros H1 Hl Hy. induction H1 as [|b1 r1 z zs ?? _ IH]; cbn.
  - rewrite <- (app_nil_r bits2). constructor; [done..|constructor].
  - rewrite <- app_assoc. by constructor.
Qed.

Lemma reads_list_length bits ys : reads_list bits ys → length ys ≤ length bits.
Proof. induction 1; rewrite ?length_app; cbn; lia. Qed.

Lemma pack_static_loop_spec xs prev b ys :
  Forall dom xs → data_chunk b ys →
  ∃ bs, pack_static_loop xs prev b = Ok (prev ++ bs) ∧ chunks data_chunk data_chunk bs (ys ++ xs).
Proof.
  intros Hxs. revert prev b ys. induction Hxs as [|x xs Hx Hxs IH]; intros prev b ys [Hr Hd].
  { exists [b]. rewrite app_nil_r. split; [done|]. by left. }
  destruct (HT x Hx) as (c & Hc & [Hmb _] & Hnr & Hreads). cbn. rewrite Hc. cbn [wrap_err mbind res_bind].
  assert (crefs c = []) as Hcr by (destruct (crefs c); [done|cbn in Hnr; lia]).
  rewrite Hcr in Hreads. rewrite bits_left, bits_size.
  pose proof (store_builder (ToBuilder c)) as Hst.
  setoid_rewrite to_builder_bits in Hst. setoid_rewrite to_builder_refs in Hst. rewrite Hcr in Hst.
  pose proof (cell_bits_max c).
  destruct (decide (1023 - Z.of_nat (length (bbits b)) < Z.of_nat (length (cbits c)))%Z) as [E|E].
  - rewrite (proj2 (Z.ltb_lt _ _) E).
    destruct (stores_fit _ _ _ _ (Hst BeginCell)) as (b1 & -> & Hb1 & Hr1);
      rewrite ?begin_bits, ?begin_refs; cbn; try lia.
    rewrite begin_refs in Hr1. rewrite begin_bits in Hb1.
    destruct (IH (prev ++ [b]) b1 [x]) as (bs & -> & Hch).
    { split; [done|]. rewrite Hb1. cbn. rewrite <- (app_nil_r (cbits c)).
      constructor; [done..|constructor]. }
    exists (b :: bs). rewrite <- app_assoc. split; [done|]. by right.
  - rewrite (proj2 (Z.ltb_ge _ _)) by lia.
    destruct (stores_fit _ _ _ _ (Hst b)) as (b1 & -> & Hb1 & Hr1); rewrite ?Hr; cbn; try lia.
    rewrite Hr in Hr1.
    destruct (IH prev b1 (ys ++ [x])) as (bs & -> & Hch).
    { split; [done|]. rewrite Hb1. by apply reads_list_snoc. }
    exists bs. rewrite <- app_assoc in Hch. done.
Qed.

Lemma read_elems_spec fuel s bits ys result :
  reads_list bits ys → sbits s = bits → length ys < fuel →
  read_elems fuel s result = Ok (result ++ ys).
Proof.
  intros Hl. revert fuel s result.
  induction Hl as [|bits rest y ys Hn Hy Hl IH]; intros fuel s result Hs Hf;
    (destruct fuel as [|fuel]; [cbn in Hf; lia|]); cbn [read_elems]; rewrite slice_bits_left, Hs.
  - by rewrite app_nil_r.
  - rewrite (proj2 (Z.ltb_lt _ _)) by (rewrite length_app; lia).
    destruct (Hy s rest (srefs s) Hs) as (s' & -> & Hs' & _); [done|]. cbn.
    rewrite IH; [by rewrite <- app_assoc|done|cbn in Hf; lia].
Qed.

Lemma unpack_static_loop_spec fuel bs c acc xs :
  chunks data_chunk data_chunk bs xs → linked bs c → Depth c < fuel →
  unpack_static_loop fuel (Some c) acc = Ok (acc ++ xs).
Proof.
  intros Hch. revert fuel c acc.
  induction Hch as [b ys [Hr Hd]|b bs ys zs [Hr Hd] Hch IH]; intros fuel c acc Hlk Hf;
    (destruct fuel as [|fuel]; [lia|]); cbn [unpack_static_loop];
    rewrite slice_bits_left, Nat2Z.id, parse_bits;
    inversion Hlk as [? ? Hcb Hcr|? ? ? n Hn Hcb Hcr]; subst.
  2:{ inversion Hn. }
  2:{ inversion Hch. }
  - rewrite (read_elems_spec _ _ (bbits b) ys); [|done|by rewrite parse_bits|].
    + cbn. rewrite next_cell_none by by rewrite Hcr. by destruct fuel.
    + pose proof (reads_list_length _ _ Hd). rewrite Hcb. lia.
  - rewrite (read_elems_spec _ _ (bbits b) ys); [|done|by rewrite parse_bits|].
    + cbn. rewrite (next_cell_some c n []) by by rewrite Hcr, Hr. cbn.
      rewrite (IH fuel n); [by rewrite <- app_assoc|done|].
      pose proof (linked_depth b c n Hcr). lia.
    + pose proof (reads_list_length _ _ Hd). rewrite Hcb. lia.
Qed.

Lemma SnakeData_packed xs :
  Forall dom xs →
  ∃ bs c, packArrayWithStaticType xs = Ok (Some c) ∧ linked bs c ∧ chunks data_chunk data_chunk bs xs.
Proof.
  intros Hxs.
  destruct (pack_static_loop_spec xs [] BeginCell []) as (bs & Hp & Hch); [done| |].
  { split; [apply begin_refs|]. rewrite begin_bits. constructor. }
  destruct (chunks_refs data_chunk data_chunk bs xs) as [Hne Hrefs]; [..|done|].
  1,2: intros b ys [-> _]; cbn; lia.
  destruct (link_cells_linked "failed to store ref at cell" bs Hne Hrefs) as (c & Hc & Hlk).
  exists bs, c. unfold packArrayWithStaticType. rewrite Hp. cbn. by rewrite Hc.
Qed.

Lemma SnakeData_lawful : cell_lawful (SnakeData TT) (Forall dom).
Proof.
  intros xs Hxs. destruct (SnakeData_packed xs Hxs) as (bs & c & Hc & Hlk & Hch). exists c.
  cbn [ToCell LoadFromCell SnakeData]. unfold decodes. rewrite Hc. split; [done|].
  cbn [LoadFromCell SnakeData].
  destruct (slice_to_cell (BeginParse c)) as (c' & -> & Hcb & Hcr). cbn [wrap_err mbind res_bind].
  rewrite parse_bits in Hcb. rewrite parse_refs in Hcr.
  change (unpackArrayWithStaticType (Some c'))
    with (unpack_static_loop (TT:=TT) (S (Depth c')) (Some c') []).
  rewrite (unpack_static_loop_spec _ bs c' [] xs Hch); [by eexists|by eapply linked_ext|lia].
Qed.
End SnakeData.

(** The two container lemmas in the form the bindings use. *)
Lemma snake_data_lawful `{CW : CellLaws} {T} (t : Tlb T) dom mb nb :
  stream_lawful t dom mb nb 0 → 1 ≤ mb → cell_lawful (SnakeData t) (Forall dom).
Proof. intros Ht Hmb. eapply SnakeData_lawful, stream_weaken; [exact Ht|done..]. Qed.

Lemma snake_ref_lawful `{CW : CellLaws} {T} (t : Tlb T) dom mb nb nr :
  stream_lawful t dom mb nb nr → cell_lawful (SnakeRef t) (Forall dom).
Proof. intros Ht. by eapply SnakeRef_lawful, stream_cell. Qed.

(** ** SnakeBytes *)

Section SnakeBytes.
Context {AL : AddrLib} {CL : CellLib} {CV : CellView} {CW : CellLaws}.

Definition byte_chunk (b : Builder) (ys : bytes) : Prop := brefs b = [] ∧ bbits b = bytes_bits ys.

Lemma pack_bytes_loop_spec fuel data prev b ys :
  byte_chunk b ys →
  2 * length data + (if decide (length ys = 127) then 1 else 0) < fuel →
  ∃ bs, pack_bytes_loop fuel data prev b = Ok (prev ++ bs)
      ∧ chunks byte_chunk byte_chunk bs (ys ++ data).
Proof.
  revert data prev b ys. induction fuel as [|fuel IH]; intros data prev b ys [Hr Hb] Hf; [lia|].
  cbn [pack_bytes_loop]. destruct data as [|d ds].
  { exists [b]. rewrite app_nil_r. split; [done|]. by left. }
  remember (d :: ds) as data eqn:E. assert (1 <= length data) as Hd by (subst; cbn; lia). clear E d ds.
  rewrite bits_left, Hb, bytes_bits_length.
  pose proof (builder_bits_max b) as Hmax. rewrite Hb, bytes_bits_length in Hmax.
  assert ((1023 - Z.of_nat (8 * length ys)) / 8 = 127 - Z.of_nat (length ys))%Z as ->.
  { symmetry. apply (Z.div_unique _ _ _ 7); lia. }
  unfold MaxInt. rewrite (proj2 (Z.ltb_ge _ _)) by lia.
  set (w := if (_ <? Z.of_nat (length data))%Z then _ else _).
  assert (w = Z.min (127 - Z.of_nat (length ys)) (Z.of_nat (length data))) as Hw.
  { unfold w. destruct (_ <? _)%Z eqn:E; lia. }
  clearbody w. rewrite (proj2 (Z.ltb_ge _ _)) by lia.
  destruct (decide (length ys = 127)) as [E|E].
  - rewrite (proj2 (Z.ltb_ge _ _)) by lia.
    destruct (IH data (prev ++ [b]) BeginCell []) as (bs & -> & Hch).
    { split; [apply begin_refs|apply begin_bits]. }
    { cbn [length]. rewrite decide_False by done. lia. }
    exists (b :: bs). rewrite <- app_assoc. split; [done|]. by right.
  - rewrite (proj2 (Z.ltb_lt _ _)) by lia.
    destruct (stores_fit _ _ _ _ (store_slice (take (Z.to_nat w) data) (w * 8)%Z b
                ltac:(rewrite length_take; lia))) as (b1 & -> & Hb1 & Hr1).
    { rewrite Hb, !bytes_bits_length, length_take. lia. }
    { rewrite Hr. cbn. lia. }
    destruct (IH (drop (Z.to_nat w) data) prev b1 (ys ++ take (Z.to_nat w) data)) as (bs & Hp & Hch).
    { split; [by rewrite Hr1, Hr|]. by rewrite Hb1, Hb, bytes_bits_app. }
    { rewrite length_drop, length_app, length_take. destruct (decide _); lia. }
    exists bs. cbn. rewrite Hp. split; [done|]. by rewrite <- app_assoc, take_drop in Hch.
Qed.

Lemma drain_bits_spec s result :
  drain_bits (S (Z.to_nat (SliceBitsLeft s))) s result = Ok (result ++ pack_bits (sbits s)).
Proof.
  cbn [drain_bits]. rewrite !slice_bits_left. destruct (sbits s) as [|x l] eqn:E.
  { by rewrite app_nil_r. }
  cbn [length]. rewrite (proj2 (Z.ltb_lt _ _)) by lia. rewrite Nat2Z.id.
  destruct (load_slice (x :: l) _ eq_refl s [] (srefs s)) as (s' & E' & Hs' & _);
    [by rewrite app_nil_r|done|].
  cbn [length] in E'. rewrite E'. cbn [wrap_err mbind res_bind drain_bits fst snd].
  by rewrite slice_bits_left, Hs'.
Qed.

Lemma unload_loop_spec fuel bs c acc xs :
  chunks byte_chunk byte_chunk bs xs → linked bs c → Depth c < fuel →
  unload_loop fuel (Some c) acc = Ok (acc ++ xs).
Proof.
  intros Hch. revert fuel c acc.
  induction Hch as [b ys [Hr Hb]|b bs ys zs [Hr Hb] Hch IH]; intros fuel c acc Hlk Hf;
    (destruct fuel as [|fuel]; [lia|]); cbn [unload_loop];
    rewrite drain_bits_spec, parse_bits;
    inversion Hlk as [? ? Hcb Hcr|? ? ? n Hn Hcb Hcr]; subst; rewrite Hcb, Hb, pack_bytes_bits.
  2:{ inversion Hn. }
  2:{ inversion Hch. }
  - cbn. rewrite next_cell_none by by rewrite Hcr. by destruct fuel.
  - cbn. rewrite (next_cell_some c n []) by by rewrite Hcr, Hr. cbn.
    rewrite (IH fuel n); [by rewrite <- app_assoc|done|].
    pose proof (linked_depth b c n Hcr). lia.
Qed.

(** The chain that [packByteArrayToCell] builds. *)
Lemma pack_bytes_linked data :
  ∃ bs c, packByteArrayToCell data = Ok (Some c) ∧ linked bs c ∧ chunks byte_chunk byte_chunk bs data.
Proof.
  assert (byte_chunk BeginCell []) as H0 by (split; [apply begin_refs|apply begin_bits]).
  unfold packByteArrayToCell. destruct data as [|d ds].
  { exists [BeginCell], (EndCell BeginCell). split; [done|]. split; [|by left].
    left; [apply end_bits|apply end_refs]. }
  destruct (pack_bytes_loop_spec (S (2 * length (d :: ds))) (d :: ds) [] BeginCell [] H0)
    as (bs & -> & Hch); [rewrite decide_False by done; lia|].
  destruct (chunks_refs byte_chunk byte_chunk bs (d :: ds)) as [Hne Hrefs]; [..|done|].
  1,2: intros b ys [-> _]; cbn; lia.
  destruct (link_cells_linked "failed to link cell" bs Hne Hrefs) as (c & Hc & Hlk). by exists bs, c.
Qed.

Lemma SnakeBytes_lawful : cell_lawful SnakeBytes (λ _, True).
Proof.
  intros data _. destruct (pack_bytes_linked data) as (bs & c & Hp & Hlk & Hch). exists c.
  cbn [ToCell LoadFromCell SnakeBytes]. unfold decodes. rewrite Hp. split; [done|].
  cbn [LoadFromCell SnakeBytes]. destruct (slice_to_cell (BeginParse c)) as (c' & -> & Hcb & Hcr).
  rewrite parse_bits in Hcb. rewrite parse_refs in Hcr. cbn [wrap_err mbind res_bind].
  change (unloadCellToByteArray (Some c')) with (unload_loop (S (Depth c')) (Some c') []).
  rewrite (unload_loop_spec _ bs c' [] data Hch); [by eexists|by eapply linked_ext|lia].
Qed.

Lemma snake_bytes_list_lawful : cell_lawful (SnakeRef SnakeBytes) (λ _, True).
Proof. intros xs _. apply (SnakeRef_lawful SnakeBytes_lawful). by apply Forall_true. Qed.

End SnakeBytes.

(** ** CrossChainAddress *)

Section CrossChain.
Context {AL : AddrLib} {CL : CellLib} {CV : CellView} {CW : CellLaws}.

Definition xaddr_ok (a : bytes) : Prop := 1 ≤ length a ≤ 64.

Lemma xaddr_between_lawful j k :
  1 ≤ j → k ≤ 64 →
  stream_lawful CrossChainAddress (λ a, j ≤ length a ≤ k) (8 + 8 * j) (8 + 8 * k) 0.
Proof.
  intros Hj Hk a [Ha1 Ha2]. cbn. unfold CrossChainAddress_ToCell.
  rewrite (proj2 (Z.ltb_ge _ _)) by lia. rewrite (proj2 (Z.eqb_neq _ _)) by lia.
  pose proof (store_slice [byte_of_Z (Z.of_nat (length a))] 8 BeginCell eq_refl) as H1.
  destruct (stores_fit _ _ _ _ H1) as (b1 & -> & Eb1 & Er1);
    rewrite ?begin_bits, ?begin_refs, ?bytes_bits_length; cbn; try lia.
  rewrite begin_bits in Eb1. rewrite begin_refs in Er1.
  destruct (stores_fit _ _ _ _ (store_slice a (Z.of_nat (length a) * 8) b1 ltac:(lia)))
    as (b2 & -> & Eb2 & Er2); rewrite ?Eb1, ?Er1, ?length_app, ?bytes_bits_length; cbn; try lia.
  rewrite Eb1 in Eb2. rewrite Er1 in Er2. exists (EndCell b2).
  rewrite end_bits, end_refs, Er2, Eb2. cbn [app].
  rewrite length_app, !bytes_bits_length. cbn [length].
  split; [done|]. split; [lia|]. split; [cbn; lia|].
  intros s rb rr Hb Hr. rewrite <- app_assoc in Hb.
  unfold CrossChainAddress_LoadFromCell.
  rewrite slice_bits_left, Hb, !length_app, bytes_bits_length. cbn [length].
  rewrite (proj2 (Z.ltb_ge _ _)) by lia.
  destruct (load_slice (bytes_bits [byte_of_Z (Z.of_nat (length a))]) 8 eq_refl s _ _ Hb Hr) as (s1 & -> & Hb1 & Hr1). cbn [wrap_err mbind res_bind].
  rewrite pack_bytes_bits, byte_to_of_Z. unfold u8. rewrite Z.mod_small by lia.
  rewrite (proj2 (orb_false_iff _ _)) by lia.
  rewrite slice_bits_left, Hb1, length_app, bytes_bits_length.
  rewrite (proj2 (Z.ltb_ge _ _)) by lia.
  destruct (load_slice (bytes_bits a) (Z.of_nat (length a) * 8) ltac:(rewrite bytes_bits_length; lia)
              s1 _ _ Hb1 Hr1) as (s2 & -> & Hb2 & Hr2).
  exists s2. by rewrite pack_bytes_bits.
Qed.

Lemma xaddr_upto_lawful k :
  k ≤ 64 → stream_lawful CrossChainAddress (λ a, 1 ≤ length a ≤ k) 16 (8 + 8 * k) 0.
Proof. apply (xaddr_between_lawful 1 k). lia. Qed.

Lemma CrossChainAddress_lawful : stream_lawful CrossChainAddress xaddr_ok 16 520 0.
Proof. by apply (xaddr_upto_lawful 64). Qed.

Lemma CrossChainAddress_rejects a : ¬ xaddr_ok a → is_err (CrossChainAddress_ToCell a) = true.
Proof.
  unfold xaddr_ok, CrossChainAddress_ToCell. intros Ha.
  destruct (64 <? _)%Z eqn:E1; [done|]. destruct (_ =? 0)%Z eqn:E2; [done|]. lia.
Qed.

Lemma load_slice_length n k s bs s' :
  LoadSlice n s = Ok (bs, s') → n = (8 * Z.of_nat k)%Z → length bs = k.
Proof.
  intros E ->. destruct (decide (8 * k ≤ length (sbits s))) as [Hk|Hk].
  - destruct (load_slice (take (8 * k) (sbits s)) (8 * Z.of_nat k)) with (s := s)
      (rb := drop (8 * k) (sbits s)) (rr := srefs s) as (s2 & E2 & _).
    + rewrite length_take. lia.
    + by rewrite take_drop.
    + done.
    + rewrite E in E2. injection E2 as -> _. apply pack_bits_length. rewrite length_take. lia.
  - assert (is_err (LoadSlice (8 * Z.of_nat k) s) = true) as Hs by (apply load_slice_short; lia).
    by rewrite E in Hs.
Qed.

Lemma CrossChainAddress_load_ok s a s' :
  CrossChainAddress_LoadFromCell s = Ok (a, s') → xaddr_ok a.
Proof.
  unfold CrossChainAddress_LoadFromCell, xaddr_ok. destruct (_ <? 8)%Z; [done|].
  intros H. apply bind_ok in H as ([l s1] & H1 & H). destruct l as [|b l]; [done|].
  destruct (_ || _)%Z eqn:E; [done|]. apply orb_false_iff in E as [E1 E2].
  destruct (SliceBitsLeft s1 <? _)%Z; [done|]. apply wrap_err_ok in H.
  apply (load_slice_length _ (Z.to_nat (byte_to_Z b))) in H; [|lia]. lia.
Qed.
End CrossChain.

(** ** Elements with references in a SnakeData *)

Section lost_refs.
Context {AL : AddrLib} {CL : CellLib} {CV : CellView} {CW : CellLaws}.
Context {T : Type} {TT : Tlb T}.

Lemma read_elems_S n s acc :
  read_elems (TT:=TT) (5 + n) s acc
  = if (0 <? SliceBitsLeft s)%Z then
      r ← wrap_err "failed to decode element" (LoadFromCell (T:=T) s);
      read_elems (4 + n) r.2 (acc ++ [r.1])
    else Ok acc.
Proof. done. Qed.

Lemma read_elems_grows fuel s acc xs :
  read_elems (TT:=TT) fuel s acc = Ok xs → ∃ ys, xs = acc ++ ys.
Proof.
  revert s acc. induction fuel as [|fuel IH]; intros s acc H; cbn in H; [done|].
  destruct (0 <? _)%Z.
  - apply bind_ok in H as (r & _ & H). apply IH in H as [ys ->].
    exists (r.1 :: ys). by rewrite <- app_assoc.
  - injection H as <-. exists []. by rewrite app_nil_r.
Qed.

Lemma unpack_static_loop_grows fuel c acc xs :
  unpack_static_loop (TT:=TT) fuel c acc = Ok xs → ∃ ys, xs = acc ++ ys.
Proof.
  revert c acc. induction fuel as [|fuel IH]; intros [c|] acc H; cbn -[read_elems Nat.add] in H; try done.
  1,3: injection H as <-; exists []; by rewrite app_nil_r.
  apply bind_ok in H as (acc' & H1 & H). apply bind_ok in H as (n & _ & H).
  apply read_elems_grows in H1 as [ys ->]. apply IH in H as [zs ->].
  exists (ys ++ zs). by rewrite app_assoc.
Qed.

(** Reading a cell that still has bits yields a further element or fails. *)
Lemma unpack_static_loop_more fuel c acc xs :
  cbits c ≠ [] → unpack_static_loop (TT:=TT) fuel (Some c) acc = Ok xs →
  length acc < length xs.
Proof.
  intros Hc H. destruct fuel as [|fuel]; [done|]. cbn [unpack_static_loop] in H.
  apply bind_ok in H as (acc' & H1 & H). apply bind_ok in H as (n & _ & H).
  apply unpack_static_loop_grows in H as [zs ->].
  rewrite read_elems_S, slice_bits_left, parse_bits in H1.
  rewrite (proj2 (Z.ltb_lt _ _)) in H1 by (destruct (cbits c); [done|cbn; lia]).
  apply bind_ok in H1 as (r & _ & H1). apply read_elems_grows in H1 as [ys ->].
  rewrite !length_app. cbn. lia.
Qed.

(** The first reference of an element is taken for the chain: a single
    element whose referenced cell is not empty does not come back. *)
Lemma SnakeData_ref_lost v c r rs :
  ToCell v = Ok c → crefs c = r :: rs → cbits r ≠ [] → 1 ≤ length (cbits c) →
  reads (LoadFromCell (T:=T)) (cbits c) (crefs c) v →
  ∀ root s s', @ToCell _ _ _ (SnakeData TT) [v] = Ok root →
    @LoadFromCell _ _ _ (SnakeData TT) (BeginParse root) = Ok (s, s') → s ≠ [v].
Proof.
  intros Hc Hrefs Hr Hb Hreads root s s' Ht Hl ->.
  cbn [ToCell SnakeData] in Ht. unfold packArrayWithStaticType in Ht.
  cbn [pack_static_loop] in Ht. rewrite Hc in Ht. cbn [wrap_err mbind res_bind] in Ht.
  rewrite bits_left, bits_size, begin_bits in Ht. pose proof (cell_bits_max c).
  rewrite (proj2 (Z.ltb_ge _ _)) in Ht by (cbn; lia).
  pose proof (store_builder (ToBuilder c) BeginCell) as Hst.
  rewrite to_builder_bits, to_builder_refs in Hst.
  destruct (StoreBuilder (ToBuilder c) BeginCell) as [b| | |]; try discriminate.
  apply (stores_ok _ _ b) in Hst as [Eb Er]; [|done].
  rewrite begin_bits in Eb. rewrite begin_refs in Er. cbn in Ht, Eb, Er. injection Ht as <-.
  cbn [LoadFromCell SnakeData] in Hl.
  destruct (slice_to_cell (BeginParse (EndCell b))) as (root & E & Hcb & Hcr). rewrite E in Hl.
  rewrite parse_bits, end_bits, Eb in Hcb. rewrite parse_refs, end_refs, Er in Hcr.
  cbn [wrap_err mbind res_bind] in Hl. apply bind_ok in Hl as (xs & Hl & [= -> _]).
  change (unpackArrayWithStaticType (Some root))
    with (unpack_static_loop (S (Depth root)) (Some root) []) in Hl.
  cbn [unpack_static_loop] in Hl.
  destruct (Hreads (BeginParse root) [] []) as (s1 & E1 & Hs1 & _);
    [by rewrite parse_bits, app_nil_r|by rewrite parse_refs, app_nil_r|].
  assert (read_elems (5 + Z.to_nat (SliceBitsLeft (BeginParse root))) (BeginParse root) [] = Ok [v]) as Hre.
  { rewrite read_elems_S, slice_bits_left, parse_bits, Hcb.
    rewrite (proj2 (Z.ltb_lt _ _)) by lia. rewrite E1. cbn. by rewrite slice_bits_left, Hs1. }
  rewrite Hre in Hl. cbn [mbind res_bind] in Hl.
  rewrite (next_cell_some root r rs) in Hl by by rewrite Hcr. cbn [mbind res_bind] in Hl.
  apply unpack_static_loop_more in Hl; [|done]. cbn in Hl. lia.
Qed.
End lost_refs.
