(* ===== verification/Ocr.v ===== *)
(** * Ocr: pkg/ccip/bindings/ocr, the report structs and their TL-B layout

    [commitreport.go] and [executereport.go].  Every struct is a record and a
    codec that lists its tags in order; the lemmas bound its size and show that
    it is lawful on the values that the field widths admit. *)

From S2P Require Import Prelude Cells Tlb Snake SnakeFacts.

Local Open Scope tlb_scope.

(** ** commitreport.go *)

Section commit.
Context {AL : AddrLib}.

Record SignatureEd25519 := { sig_R : bytes; sig_S : bytes; sig_Signer : bytes }.

Record TokenPriceUpdate := { tpu_SourceToken : Address; tpu_UsdPerToken : option Z }.
Record GasPriceUpdate := { gpu_DestChainSelector : Z; gpu_UsdPerUnitGas : option Z }.
Record MerkleRoot := {
  mr_SourceChainSelector : Z;
  mr_OnRampAddress : bytes;
  mr_MinSeqNr : Z;
  mr_MaxSeqNr : Z;
  mr_MerkleRoot : bytes;
}.
Record PriceUpdates := {
  pu_TokenPriceUpdates : list TokenPriceUpdate;
  pu_GasPriceUpdates : list GasPriceUpdate;
}.
Record MerkleRoots := {
  mrs_BlessedMerkleRoots : list MerkleRoot;
  mrs_UnblessedMerkleRoots : list MerkleRoot;
}.
Record CommitReport := {
  cr_PriceUpdates : PriceUpdates;
  cr_MerkleRoot : MerkleRoots;
  cr_RMNSignatures : list bytes;
}.

Context {CL : CellLib}.

Definition SignatureEd25519_tlb : Tlb SignatureEd25519 := tlb_struct (f_iso
  (λ '(r, (s, k)), {| sig_R := r; sig_S := s; sig_Signer := k |})
  (λ v, (sig_R v, (sig_S v, sig_Signer v)))
  (f_bits 256 ⊗ f_bits 256 ⊗ f_bits 256)).

Definition TokenPriceUpdate_tlb : Tlb TokenPriceUpdate := tlb_struct (f_iso
  (λ '(a, p), {| tpu_SourceToken := a; tpu_UsdPerToken := p |})
  (λ v, (tpu_SourceToken v, tpu_UsdPerToken v))
  (f_addr ⊗ f_big 256)).

Definition GasPriceUpdate_tlb : Tlb GasPriceUpdate := tlb_struct (f_iso
  (λ '(c, p), {| gpu_DestChainSelector := c; gpu_UsdPerUnitGas := p |})
  (λ v, (gpu_DestChainSelector v, gpu_UsdPerUnitGas v))
  (f_uint 64 ⊗ f_big 256)).

Definition MerkleRoot_tlb : Tlb MerkleRoot := tlb_struct (f_iso
  (λ '(c, (a, (lo, (hi, r)))),
    {| mr_SourceChainSelector := c; mr_OnRampAddress := a; mr_MinSeqNr := lo; mr_MaxSeqNr := hi;
       mr_MerkleRoot := r |})
  (λ v, (mr_SourceChainSelector v, (mr_OnRampAddress v, (mr_MinSeqNr v, (mr_MaxSeqNr v,
         mr_MerkleRoot v)))))
  (f_uint 64 ⊗ f_inline CrossChainAddress ⊗ f_uint 64 ⊗ f_uint 64 ⊗ f_bits 256)).

Definition PriceUpdates_tlb : Tlb PriceUpdates := tlb_struct (f_iso
  (λ '(t, g), {| pu_TokenPriceUpdates := t; pu_GasPriceUpdates := g |})
  (λ v, (pu_TokenPriceUpdates v, pu_GasPriceUpdates v))
  (f_ref (SnakeData TokenPriceUpdate_tlb) ⊗ f_ref (SnakeData GasPriceUpdate_tlb))).

Definition MerkleRoots_tlb : Tlb MerkleRoots := tlb_struct (f_iso
  (λ '(b, u), {| mrs_BlessedMerkleRoots := b; mrs_UnblessedMerkleRoots := u |})
  (λ v, (mrs_BlessedMerkleRoots v, mrs_UnblessedMerkleRoots v))
  (f_ref (SnakeData MerkleRoot_tlb) ⊗ f_ref (SnakeData MerkleRoot_tlb))).

Definition CommitReport_tlb : Tlb CommitReport := tlb_struct (f_iso
  (λ '(p, (m, r)), {| cr_PriceUpdates := p; cr_MerkleRoot := m; cr_RMNSignatures := r |})
  (λ v, (cr_PriceUpdates v, (cr_MerkleRoot v, cr_RMNSignatures v)))
  (f_ref PriceUpdates_tlb ⊗ f_ref MerkleRoots_tlb ⊗ f_ref (SnakeRef SnakeBytes))).
End commit.

(** ** executereport.go *)

Section execute.
Context {AL : AddrLib} {CL : CellLib}.

Record RampMessageHeader := {
  rh_MessageID : bytes;
  rh_SourceChainSelector : Z;
  rh_DestChainSelector : Z;
  rh_SequenceNumber : Z;
  rh_Nonce : Z;
}.
Record Any2TVMTokenTransfer := {
  tt_SourcePoolAddress : bytes;
  tt_DestPoolAddress : Address;
  tt_DestGasAmount : Z;
  tt_ExtraData : Cell;
  tt_Amount : option Z;
}.
Record Any2TVMRampMessage := {
  rm_Header : RampMessageHeader;
  rm_Sender : bytes;
  rm_Data : bytes;
  rm_Receiver : Address;
  rm_GasLimit : Z;
  rm_TokenAmounts : list Any2TVMTokenTransfer;
}.
Record ExecuteReport := {
  er_SourceChainSelector : Z;
  er_Messages : list Any2TVMRampMessage;
  er_OffChainTokenData : list bytes;
  er_Proofs : list bytes;
  er_ProofFlagBits : option Z;
}.

Definition RampMessageHeader_tlb : Tlb RampMessageHeader := tlb_struct (f_iso
  (λ '(m, (s, (d, (n, k)))),
    {| rh_MessageID := m; rh_SourceChainSelector := s; rh_DestChainSelector := d;
       rh_SequenceNumber := n; rh_Nonce := k |})
  (λ v, (rh_MessageID v, (rh_SourceChainSelector v, (rh_DestChainSelector v,
         (rh_SequenceNumber v, rh_Nonce v)))))
  (f_bits 256 ⊗ f_uint 64 ⊗ f_uint 64 ⊗ f_uint 64 ⊗ f_uint 64)).

Definition Any2TVMTokenTransfer_tlb : Tlb Any2TVMTokenTransfer := tlb_struct (f_iso
  (λ '(p, (a, (g, (e, m)))),
    {| tt_SourcePoolAddress := p; tt_DestPoolAddress := a; tt_DestGasAmount := g;
       tt_ExtraData := e; tt_Amount := m |})
  (λ v, (tt_SourcePoolAddress v, (tt_DestPoolAddress v, (tt_DestGasAmount v,
         (tt_ExtraData v, tt_Amount v)))))
  (f_inline CrossChainAddress ⊗ f_addr ⊗ f_uint 32 ⊗ f_cell ⊗ f_big 256)).

Definition Any2TVMRampMessage_tlb : Tlb Any2TVMRampMessage := tlb_struct (f_iso
  (λ '(h, (s, (d, (r, (g, t))))),
    {| rm_Header := h; rm_Sender := s; rm_Data := d; rm_Receiver := r; rm_GasLimit := g;
       rm_TokenAmounts := t |})
  (λ v, (rm_Header v, (rm_Sender v, (rm_Data v, (rm_Receiver v, (rm_GasLimit v,
         rm_TokenAmounts v))))))
  (f_inline RampMessageHeader_tlb ⊗ f_ref CrossChainAddress ⊗ f_ref SnakeBytes ⊗ f_addr
     ⊗ f_coins ⊗ f_ref (SnakeRef Any2TVMTokenTransfer_tlb))).

Definition ExecuteReport_tlb : Tlb ExecuteReport := tlb_struct (f_iso
  (λ '(c, (m, (o, (p, f)))),
    {| er_SourceChainSelector := c; er_Messages := m; er_OffChainTokenData := o; er_Proofs := p;
       er_ProofFlagBits := f |})
  (λ v, (er_SourceChainSelector v, (er_Messages v, (er_OffChainTokenData v, (er_Proofs v,
         er_ProofFlagBits v)))))
  (f_uint 64 ⊗ f_ref (SnakeRef Any2TVMRampMessage_tlb) ⊗ f_ref (SnakeRef SnakeBytes)
     ⊗ f_ref (SnakeRef SnakeBytes) ⊗ f_big 256)).
End execute.

(** ** Well-formed values and lawfulness *)

Section laws.
Context {AL : AddrLib} {CL : CellLib} {CV : CellView} {CW : CellLaws}.

Definition SignatureEd25519_ok (v : SignatureEd25519) : Prop :=
  bits_ok 256 (sig_R v) ∧ bits_ok 256 (sig_S v) ∧ bits_ok 256 (sig_Signer v).
Definition TokenPriceUpdate_ok (v : TokenPriceUpdate) : Prop :=
  std_addr (tpu_SourceToken v) ∧ big_ok 256 (tpu_UsdPerToken v).
Definition GasPriceUpdate_ok (v : GasPriceUpdate) : Prop :=
  uint_ok 64 (gpu_DestChainSelector v) ∧ big_ok 256 (gpu_UsdPerUnitGas v).
Definition MerkleRoot_ok (v : MerkleRoot) : Prop :=
  uint_ok 64 (mr_SourceChainSelector v) ∧ xaddr_ok (mr_OnRampAddress v) ∧
  uint_ok 64 (mr_MinSeqNr v) ∧ uint_ok 64 (mr_MaxSeqNr v) ∧ bits_ok 256 (mr_MerkleRoot v).
Definition PriceUpdates_ok (v : PriceUpdates) : Prop :=
  Forall TokenPriceUpdate_ok (pu_TokenPriceUpdates v) ∧ Forall GasPriceUpdate_ok (pu_GasPriceUpdates v).
Definition MerkleRoots_ok (v : MerkleRoots) : Prop :=
  Forall MerkleRoot_ok (mrs_BlessedMerkleRoots v) ∧ Forall MerkleRoot_ok (mrs_UnblessedMerkleRoots v).
Definition CommitReport_ok (v : CommitReport) : Prop :=
  PriceUpdates_ok (cr_PriceUpdates v) ∧ MerkleRoots_ok (cr_MerkleRoot v).

Lemma SignatureEd25519_lawful : stream_lawful SignatureEd25519_tlb SignatureEd25519_ok 768 768 0.
Proof. solve_lawful. Qed.
Lemma TokenPriceUpdate_lawful : stream_lawful TokenPriceUpdate_tlb TokenPriceUpdate_ok 523 523 0.
Proof. solve_lawful. Qed.
Lemma GasPriceUpdate_lawful : stream_lawful GasPriceUpdate_tlb GasPriceUpdate_ok 320 320 0.
Proof. solve_lawful. Qed.
Lemma MerkleRoot_lawful : stream_lawful MerkleRoot_tlb MerkleRoot_ok 464 968 0.
Proof. pose proof CrossChainAddress_lawful. solve_lawful. Qed.

Lemma PriceUpdates_lawful : stream_lawful PriceUpdates_tlb PriceUpdates_ok 0 0 2.
Proof.
  assert (cell_lawful (SnakeData TokenPriceUpdate_tlb) (Forall TokenPriceUpdate_ok)).
  { eapply snake_data_lawful; [apply TokenPriceUpdate_lawful|lia]. }
  assert (cell_lawful (SnakeData GasPriceUpdate_tlb) (Forall GasPriceUpdate_ok)).
  { eapply snake_data_lawful; [apply GasPriceUpdate_lawful|lia]. }
  solve_lawful.
Qed.

Lemma MerkleRoots_lawful : stream_lawful MerkleRoots_tlb MerkleRoots_ok 0 0 2.
Proof.
  assert (cell_lawful (SnakeData MerkleRoot_tlb) (Forall MerkleRoot_ok)).
  { eapply snake_data_lawful; [apply MerkleRoot_lawful|lia]. }
  solve_lawful.
Qed.

Lemma CommitReport_lawful : stream_lawful CommitReport_tlb CommitReport_ok 0 0 3.
Proof.
  pose proof PriceUpdates_lawful. pose proof MerkleRoots_lawful. pose proof snake_bytes_list_lawful.
  solve_lawful.
Qed.

Definition RampMessageHeader_ok (v : RampMessageHeader) : Prop :=
  bits_ok 256 (rh_MessageID v) ∧ uint_ok 64 (rh_SourceChainSelector v) ∧
  uint_ok 64 (rh_DestChainSelector v) ∧ uint_ok 64 (rh_SequenceNumber v) ∧ uint_ok 64 (rh_Nonce v).
(** A source pool address of up to 57 bytes leaves room for the rest of the
    struct in one cell (8 + 8*57 + 267 + 32 + 256 = 1019 bits). *)
Definition pool_addr_ok (a : bytes) : Prop := 1 ≤ length a ≤ 57.
Definition Any2TVMTokenTransfer_ok (v : Any2TVMTokenTransfer) : Prop :=
  pool_addr_ok (tt_SourcePoolAddress v) ∧ std_addr (tt_DestPoolAddress v) ∧
  uint_ok 32 (tt_DestGasAmount v) ∧ big_ok 256 (tt_Amount v).
Definition Any2TVMRampMessage_ok (v : Any2TVMRampMessage) : Prop :=
  RampMessageHeader_ok (rm_Header v) ∧ xaddr_ok (rm_Sender v) ∧ std_addr (rm_Receiver v) ∧
  coins_ok (rm_GasLimit v) ∧ Forall Any2TVMTokenTransfer_ok (rm_TokenAmounts v).
Definition ExecuteReport_ok (v : ExecuteReport) : Prop :=
  uint_ok 64 (er_SourceChainSelector v) ∧ Forall Any2TVMRampMessage_ok (er_Messages v) ∧
  big_ok 256 (er_ProofFlagBits v).

Lemma RampMessageHeader_lawful : stream_lawful RampMessageHeader_tlb RampMessageHeader_ok 512 512 0.
Proof. solve_lawful. Qed.

Lemma Any2TVMTokenTransfer_lawful :
  stream_lawful Any2TVMTokenTransfer_tlb Any2TVMTokenTransfer_ok 571 1019 1.
Proof.
  assert (stream_lawful CrossChainAddress pool_addr_ok 16 464 0) by by apply (xaddr_upto_lawful 57); lia.
  solve_lawful.
Qed.

(** The same fields with a pool address that a [CrossChainAddress] may have. *)
Definition long_pool_ok (v : Any2TVMTokenTransfer) : Prop :=
  58 ≤ length (tt_SourcePoolAddress v) ≤ 64 ∧ std_addr (tt_DestPoolAddress v) ∧
  uint_ok 32 (tt_DestGasAmount v) ∧ big_ok 256 (tt_Amount v).

Lemma Any2TVMTokenTransfer_overflow v :
  long_pool_ok v → is_err (ToCell (Tlb:=Any2TVMTokenTransfer_tlb) v) = true.
Proof.
  assert (stream_lawful CrossChainAddress (λ a, 58 ≤ length a ≤ 64) 472 520 0) as Hx.
  { by apply (xaddr_between_lawful 58 64); lia. }
  eapply (lawful_overflow _ long_pool_ok 1027 1075 1); [|lia].
  eapply (lawful_weaken _ long_pool_ok).
  - eapply lawful_iso.
    + repeat (first [eapply lawful_pair | solve [eauto 8 with tlb]]).
    + intros [] Hv. hnf in Hv. cbn in Hv |- *. destruct_and?.
      repeat (first [assumption | exact I | split]).
    + by intros [].
  - done.
  - cbn; lia.
  - cbn; lia.
  - cbn; lia.
Qed.

Lemma Any2TVMRampMessage_lawful :
  stream_lawful Any2TVMRampMessage_tlb Any2TVMRampMessage_ok 783 903 3.
Proof.
  pose proof RampMessageHeader_lawful. pose proof CrossChainAddress_lawful.
  pose proof SnakeBytes_lawful.
  assert (cell_lawful (SnakeRef Any2TVMTokenTransfer_tlb) (Forall Any2TVMTokenTransfer_ok)).
  { eapply snake_ref_lawful, Any2TVMTokenTransfer_lawful. }
  solve_lawful.
Qed.

Lemma ExecuteReport_lawful : stream_lawful ExecuteReport_tlb ExecuteReport_ok 320 320 3.
Proof.
  assert (cell_lawful (SnakeRef Any2TVMRampMessage_tlb) (Forall Any2TVMRampMessage_ok)).
  { eapply snake_ref_lawful, Any2TVMRampMessage_lawful. }
  pose proof snake_bytes_list_lawful. solve_lawful.
Qed.
End laws.
