(* ===== verification/Onramp.v ===== *)
(** * Onramp: pkg/ccip/bindings/onramp/onramp.go and the shared structs of common.go

    The on-ramp's events, extra-args messages and storage as TL-B structs. *)

From S2P Require Import Prelude Cells Tlb Snake SnakeFacts.

Local Open Scope tlb_scope.

Section types.
Context {AL : AddrLib} {CL : CellLib}.

(** common.go *)
Record Ownable2Step := { ow_Owner : Address; ow_PendingOwner : option Address }.
Record Signature := { sg_Sig : bytes }.

(** onramp.go *)
Record GenericExtraArgsV2 := { gea_GasLimit : option Z; gea_AllowOutOfOrderExecution : bool }.
Record SVMExtraArgsV1 := {
  sea_ComputeUnits : Z;
  sea_AccountIsWritableBitmap : Z;
  sea_AllowOutOfOrderExecution : bool;
  sea_TokenReceiver : bytes;
  sea_Accounts : list bytes;
}.
Record TokenAmount := { ta_Amount : option Z; ta_Token : Address }.
Record CCIPSend := {
  cs_QueryID : Z;
  cs_DestinationChainSelector : Z;
  cs_Receiver : bytes;
  cs_TokenAmounts : list TokenAmount;
  cs_ExtraArgs : Cell;
}.
Record CCIPMessageSent := { ms_DestChainSelector : Z; ms_SequenceNumber : Z; ms_Message : CCIPSend }.
Record DestChainConfig := {
  dcc_Router : Address;
  dcc_SequenceNumber : Z;
  dcc_AllowListEnabled : bool;
  dcc_AllowedSender : Dict;
}.
Record DynamicConfig := {
  dc_FeeQuoter : Address;
  dc_FeeAggregator : Address;
  dc_AllowListAdmin : Address;
}.
Record Storage := {
  st_Ownable : Ownable2Step;
  st_ChainSelector : Z;
  st_Config : list DynamicConfig;
  st_DestChainConfigs : Dict;
}.

Definition Ownable2Step_tlb : Tlb Ownable2Step := tlb_struct (f_iso
  (λ '(o, p), {| ow_Owner := o; ow_PendingOwner := p |})
  (λ v, (ow_Owner v, ow_PendingOwner v))
  (f_addr ⊗ f_maybe f_addr)).

Definition Signature_tlb : Tlb Signature := tlb_struct (f_iso
  (λ s, {| sg_Sig := s |}) (λ v, sg_Sig v) (f_bits 256)).

Definition evmExtraArgsV2Tag : Z := 0x181dcf10.
Definition svmExtraArgsV1Tag : Z := 0x1f3b3aba.

Definition GenericExtraArgsV2_tlb : Tlb GenericExtraArgsV2 := tlb_struct (f_iso
  (λ '(_, (g, a)), {| gea_GasLimit := g; gea_AllowOutOfOrderExecution := a |})
  (λ v, (tt, (gea_GasLimit v, gea_AllowOutOfOrderExecution v)))
  (f_magic evmExtraArgsV2Tag ⊗ f_big 256 ⊗ f_bool)).

Definition SVMExtraArgsV1_tlb : Tlb SVMExtraArgsV1 := tlb_struct (f_iso
  (λ '(_, (c, (m, (a, (r, l))))),
    {| sea_ComputeUnits := c; sea_AccountIsWritableBitmap := m; sea_AllowOutOfOrderExecution := a;
       sea_TokenReceiver := r; sea_Accounts := l |})
  (λ v, (tt, (sea_ComputeUnits v, (sea_AccountIsWritableBitmap v, (sea_AllowOutOfOrderExecution v,
         (sea_TokenReceiver v, sea_Accounts v))))))
  (f_magic svmExtraArgsV1Tag ⊗ f_uint 32 ⊗ f_uint 64 ⊗ f_bool ⊗ f_bits 256
     ⊗ f_ref (SnakeRef SnakeBytes))).

Definition TokenAmount_tlb : Tlb TokenAmount := tlb_struct (f_iso
  (λ '(a, t), {| ta_Amount := a; ta_Token := t |})
  (λ v, (ta_Amount v, ta_Token v))
  (f_big 256 ⊗ f_addr)).

Definition CCIPSend_tlb : Tlb CCIPSend := tlb_struct (f_iso
  (λ '(q, (d, (r, (t, e)))),
    {| cs_QueryID := q; cs_DestinationChainSelector := d; cs_Receiver := r; cs_TokenAmounts := t;
       cs_ExtraArgs := e |})
  (λ v, (cs_QueryID v, (cs_DestinationChainSelector v, (cs_Receiver v, (cs_TokenAmounts v,
         cs_ExtraArgs v)))))
  (f_uint 64 ⊗ f_uint 64 ⊗ f_inline CrossChainAddress ⊗ f_ref (SnakeData TokenAmount_tlb) ⊗ f_cell)).

Definition CCIPMessageSent_tlb : Tlb CCIPMessageSent := tlb_struct (f_iso
  (λ '(d, (s, m)), {| ms_DestChainSelector := d; ms_SequenceNumber := s; ms_Message := m |})
  (λ v, (ms_DestChainSelector v, (ms_SequenceNumber v, ms_Message v)))
  (f_uint 64 ⊗ f_uint 64 ⊗ f_ref CCIPSend_tlb)).

Definition DestChainConfig_tlb : Tlb DestChainConfig := tlb_struct (f_iso
  (λ '(r, (s, (a, d))),
    {| dcc_Router := r; dcc_SequenceNumber := s; dcc_AllowListEnabled := a; dcc_AllowedSender := d |})
  (λ v, (dcc_Router v, (dcc_SequenceNumber v, (dcc_AllowListEnabled v, dcc_AllowedSender v))))
  (f_addr ⊗ f_uint 64 ⊗ f_bool ⊗ f_dict 267)).

Definition DynamicConfig_tlb : Tlb DynamicConfig := tlb_struct (f_iso
  (λ '(q, (g, a)), {| dc_FeeQuoter := q; dc_FeeAggregator := g; dc_AllowListAdmin := a |})
  (λ v, (dc_FeeQuoter v, (dc_FeeAggregator v, dc_AllowListAdmin v)))
  (f_addr ⊗ f_addr ⊗ f_addr)).

Definition Storage_tlb : Tlb Storage := tlb_struct (f_iso
  (λ '(o, (c, (g, d))),
    {| st_Ownable := o; st_ChainSelector := c; st_Config := g; st_DestChainConfigs := d |})
  (λ v, (st_Ownable v, (st_ChainSelector v, (st_Config v, st_DestChainConfigs v))))
  (f_ref Ownable2Step_tlb ⊗ f_uint 64 ⊗ f_ref (SnakeData DynamicConfig_tlb) ⊗ f_dict 64)).
End types.

Section laws.
Context {AL : AddrLib} {CL : CellLib} {CV : CellView} {CW : CellLaws}.

Definition Ownable2Step_ok (v : Ownable2Step) : Prop :=
  std_addr (ow_Owner v) ∧ opt_ok std_addr (ow_PendingOwner v).
Definition GenericExtraArgsV2_ok (v : GenericExtraArgsV2) : Prop := big_ok 256 (gea_GasLimit v).
Definition SVMExtraArgsV1_ok (v : SVMExtraArgsV1) : Prop :=
  uint_ok 32 (sea_ComputeUnits v) ∧ uint_ok 64 (sea_AccountIsWritableBitmap v) ∧
  bits_ok 256 (sea_TokenReceiver v).
Definition TokenAmount_ok (v : TokenAmount) : Prop :=
  big_ok 256 (ta_Amount v) ∧ std_addr (ta_Token v).
Definition CCIPSend_ok (v : CCIPSend) : Prop :=
  uint_ok 64 (cs_QueryID v) ∧ uint_ok 64 (cs_DestinationChainSelector v) ∧
  xaddr_ok (cs_Receiver v) ∧ Forall TokenAmount_ok (cs_TokenAmounts v).
Definition CCIPMessageSent_ok (v : CCIPMessageSent) : Prop :=
  uint_ok 64 (ms_DestChainSelector v) ∧ uint_ok 64 (ms_SequenceNumber v) ∧ CCIPSend_ok (ms_Message v).
Definition DestChainConfig_ok (v : DestChainConfig) : Prop :=
  std_addr (dcc_Router v) ∧ uint_ok 64 (dcc_SequenceNumber v) ∧ dict_ok 267 (dcc_AllowedSender v).
Definition DynamicConfig_ok (v : DynamicConfig) : Prop :=
  std_addr (dc_FeeQuoter v) ∧ std_addr (dc_FeeAggregator v) ∧ std_addr (dc_AllowListAdmin v).
Definition Storage_ok (v : Storage) : Prop :=
  Ownable2Step_ok (st_Ownable v) ∧ uint_ok 64 (st_ChainSelector v) ∧
  Forall DynamicConfig_ok (st_Config v) ∧ dict_ok 64 (st_DestChainConfigs v).

Lemma Ownable2Step_lawful : stream_lawful Ownable2Step_tlb Ownable2Step_ok 268 535 0.
Proof. solve_lawful. Qed.
Lemma GenericExtraArgsV2_lawful : stream_lawful GenericExtraArgsV2_tlb GenericExtraArgsV2_ok 289 289 0.
Proof. solve_lawful. Qed.
Lemma SVMExtraArgsV1_lawful : stream_lawful SVMExtraArgsV1_tlb SVMExtraArgsV1_ok 385 385 1.
Proof. pose proof snake_bytes_list_lawful. solve_lawful. Qed.
Lemma TokenAmount_lawful : stream_lawful TokenAmount_tlb TokenAmount_ok 523 523 0.
Proof. solve_lawful. Qed.

Lemma CCIPSend_lawful : stream_lawful CCIPSend_tlb CCIPSend_ok 144 648 2.
Proof.
  pose proof CrossChainAddress_lawful.
  assert (cell_lawful (SnakeData TokenAmount_tlb) (Forall TokenAmount_ok)).
  { eapply snake_data_lawful; [apply TokenAmount_lawful|lia]. }
  solve_lawful.
Qed.

Lemma CCIPMessageSent_lawful : stream_lawful CCIPMessageSent_tlb CCIPMessageSent_ok 128 128 1.
Proof. pose proof CCIPSend_lawful. solve_lawful. Qed.
Lemma DestChainConfig_lawful : stream_lawful DestChainConfig_tlb DestChainConfig_ok 333 333 1.
Proof. solve_lawful. Qed.
Lemma DynamicConfig_lawful : stream_lawful DynamicConfig_tlb DynamicConfig_ok 801 801 0.
Proof. solve_lawful. Qed.

Lemma Storage_lawful : stream_lawful Storage_tlb Storage_ok 65 65 3.
Proof.
  pose proof Ownable2Step_lawful.
  assert (cell_lawful (SnakeData DynamicConfig_tlb) (Forall DynamicConfig_ok)).
  { eapply snake_data_lawful; [apply DynamicConfig_lawful|lia]. }
  solve_lawful.
Qed.
End laws.
