(* ===== verification/Rbac.v ===== *)
(** * Rbac: pkg/bindings/lib/access/rbac/types.go

    The access-control messages, events and storage of the contracts that
    manage roles, as TL-B structs. *)

From S2P Require Import Prelude Cells Tlb Snake SnakeFacts.

Module rbac.
Local Open Scope tlb_scope.

Section types.
Context {AL : AddrLib} {CL : CellLib}.

Record GrantRole := { gr_QueryID : Z; gr_Role : option Z; gr_Account : Address }.
Record RevokeRole := { rv_QueryID : Z; rv_Role : option Z; rv_Account : Address }.
Record RenounceRole := { rn_QueryID : Z; rn_Role : option Z; rn_CallerConfirmation : Address }.
Record RoleGranted := {
  rg_QueryID : Z;
  rg_Role : option Z;
  rg_Account : Address;
  rg_Sender : Address;
}.
Record RoleRevoked := {
  rr_QueryID : Z;
  rr_Role : option Z;
  rr_Account : Address;
  rr_Sender : Address;
}.
Record RoleAdminChanged := {
  rac_QueryID : Z;
  rac_Role : option Z;
  rac_PreviousAdminRole : option Z;
  rac_NewAdminRole : option Z;
}.
Record Data := { rd_Roles : Dict }.
Record RoleData := { rdt_AdminRole : option Z; rdt_MembersLen : Z; rdt_HasRole : Dict }.

Definition GrantRole_tlb : Tlb GrantRole := tlb_struct (f_iso
  (λ '(_, (a, (b, c))), {| gr_QueryID := a; gr_Role := b; gr_Account := c |})
  (λ v, (tt, (gr_QueryID v, (gr_Role v, gr_Account v))))
  (f_magic 0x95cd540f ⊗ f_uint 64 ⊗ f_big 256 ⊗ f_addr)).
Definition RevokeRole_tlb : Tlb RevokeRole := tlb_struct (f_iso
  (λ '(_, (a, (b, c))), {| rv_QueryID := a; rv_Role := b; rv_Account := c |})
  (λ v, (tt, (rv_QueryID v, (rv_Role v, rv_Account v))))
  (f_magic 0x969b0db9 ⊗ f_uint 64 ⊗ f_big 256 ⊗ f_addr)).
Definition RenounceRole_tlb : Tlb RenounceRole := tlb_struct (f_iso
  (λ '(_, (a, (b, c))), {| rn_QueryID := a; rn_Role := b; rn_CallerConfirmation := c |})
  (λ v, (tt, (rn_QueryID v, (rn_Role v, rn_CallerConfirmation v))))
  (f_magic 0x39452c46 ⊗ f_uint 64 ⊗ f_big 256 ⊗ f_addr)).
Definition RoleGranted_tlb : Tlb RoleGranted := tlb_struct (f_iso
  (λ '(_, (a, (b, (c, d)))), {| rg_QueryID := a; rg_Role := b; rg_Account := c;
    rg_Sender := d |})
  (λ v, (tt, (rg_QueryID v, (rg_Role v, (rg_Account v, rg_Sender v)))))
  (f_magic 0xcf3ca837 ⊗ f_uint 64 ⊗ f_big 256 ⊗ f_addr ⊗ f_addr)).
Definition RoleRevoked_tlb : Tlb RoleRevoked := tlb_struct (f_iso
  (λ '(_, (a, (b, (c, d)))), {| rr_QueryID := a; rr_Role := b; rr_Account := c;
    rr_Sender := d |})
  (λ v, (tt, (rr_QueryID v, (rr_Role v, (rr_Account v, rr_Sender v)))))
  (f_magic 0x990fe1c7 ⊗ f_uint 64 ⊗ f_big 256 ⊗ f_addr ⊗ f_addr)).
Definition RoleAdminChanged_tlb : Tlb RoleAdminChanged := tlb_struct (f_iso
  (λ '(_, (a, (b, (c, d)))), {| rac_QueryID := a; rac_Role := b; rac_PreviousAdminRole
    := c; rac_NewAdminRole := d |})
  (λ v, (tt, (rac_QueryID v, (rac_Role v, (rac_PreviousAdminRole v, rac_NewAdminRole
    v)))))
  (f_magic 0xbd7e8bce ⊗ f_uint 64 ⊗ f_big 256 ⊗ f_big 256 ⊗ f_big 256)).
Definition Data_tlb : Tlb Data := tlb_struct (f_iso
  (λ a, {| rd_Roles := a |})
  (λ v, rd_Roles v)
  (f_dict 32)).
Definition RoleData_tlb : Tlb RoleData := tlb_struct (f_iso
  (λ '(a, (b, c)), {| rdt_AdminRole := a; rdt_MembersLen := b; rdt_HasRole := c |})
  (λ v, (rdt_AdminRole v, (rdt_MembersLen v, rdt_HasRole v)))
  (f_big 256 ⊗ f_uint 64 ⊗ f_dict 267)).

(** The messages with an opcode, incoming then outgoing, each with its decoder. *)
Definition messages : list (Z * (Slice → bool)) := [
  (0x95cd540f%Z, accepts GrantRole_tlb);
  (0x969b0db9%Z, accepts RevokeRole_tlb);
  (0x39452c46%Z, accepts RenounceRole_tlb);
  (0xcf3ca837%Z, accepts RoleGranted_tlb);
  (0x990fe1c7%Z, accepts RoleRevoked_tlb);
  (0xbd7e8bce%Z, accepts RoleAdminChanged_tlb)
].
End types.

Definition DefaultAdminRole : Z := 0x00.
Definition ErrorAccessControlUnauthorizedAccount : Z := 90.
Definition ErrorAccessControlBadConfirmation : Z := 91.

Section laws.
Context {AL : AddrLib} {CL : CellLib} {CV : CellView} {CW : CellLaws}.

Definition GrantRole_ok (v : GrantRole) : Prop :=
  uint_ok 64 (gr_QueryID v) ∧ big_ok 256 (gr_Role v) ∧ std_addr (gr_Account v).
Definition RevokeRole_ok (v : RevokeRole) : Prop :=
  uint_ok 64 (rv_QueryID v) ∧ big_ok 256 (rv_Role v) ∧ std_addr (rv_Account v).
Definition RenounceRole_ok (v : RenounceRole) : Prop :=
  uint_ok 64 (rn_QueryID v) ∧ big_ok 256 (rn_Role v) ∧ std_addr (rn_CallerConfirmation v).
Definition RoleGranted_ok (v : RoleGranted) : Prop :=
  uint_ok 64 (rg_QueryID v) ∧ big_ok 256 (rg_Role v) ∧ std_addr (rg_Account v) ∧ std_addr
  (rg_Sender v).
Definition RoleRevoked_ok (v : RoleRevoked) : Prop :=
  uint_ok 64 (rr_QueryID v) ∧ big_ok 256 (rr_Role v) ∧ std_addr (rr_Account v) ∧ std_addr
  (rr_Sender v).
Definition RoleAdminChanged_ok (v : RoleAdminChanged) : Prop :=
  uint_ok 64 (rac_QueryID v) ∧ big_ok 256 (rac_Role v) ∧ big_ok 256 (rac_PreviousAdminRole
  v) ∧ big_ok 256 (rac_NewAdminRole v).
Definition Data_ok (v : Data) : Prop :=
  dict_ok 32 (rd_Roles v).
Definition RoleData_ok (v : RoleData) : Prop :=
  big_ok 256 (rdt_AdminRole v) ∧ uint_ok 64 (rdt_MembersLen v) ∧ dict_ok 267 (rdt_HasRole v).

Lemma GrantRole_lawful : stream_lawful GrantRole_tlb GrantRole_ok 619 619 0.
Proof. solve_lawful. Qed.
Lemma RevokeRole_lawful : stream_lawful RevokeRole_tlb RevokeRole_ok 619 619 0.
Proof. solve_lawful. Qed.
Lemma RenounceRole_lawful : stream_lawful RenounceRole_tlb RenounceRole_ok 619 619 0.
Proof. solve_lawful. Qed.
Lemma RoleGranted_lawful : stream_lawful RoleGranted_tlb RoleGranted_ok 886 886 0.
Proof. solve_lawful. Qed.
Lemma RoleRevoked_lawful : stream_lawful RoleRevoked_tlb RoleRevoked_ok 886 886 0.
Proof. solve_lawful. Qed.
Lemma RoleAdminChanged_lawful : stream_lawful RoleAdminChanged_tlb RoleAdminChanged_ok 864 864 0.
Proof. solve_lawful. Qed.
Lemma rbac_Data_lawful : stream_lawful Data_tlb Data_ok 1 1 1.
Proof. solve_lawful. Qed.
Lemma RoleData_lawful : stream_lawful RoleData_tlb RoleData_ok 321 321 1.
Proof. solve_lawful. Qed.

Lemma rbac_messages_table : opcode_table messages.
Proof. solve_table. Qed.
End laws.
End rbac.
