(* ===== verification/Timelock.v ===== *)
(** * Timelock: pkg/bindings/mcms/timelock/types.go

    The RBAC timelock's messages, events and storage as TL-B structs. *)

From S2P Require Import Prelude Cells Tlb Snake SnakeFacts Rbac.

Module timelock.
Local Open Scope tlb_scope.

Section types.
Context {AL : AddrLib} {CL : CellLib}.

Record Call := { cl_Target : Address; cl_Value : option Z; cl_Data : Cell }.
Record Init := {
  it_QueryID : Z;
  it_MinDelay : Z;
  it_Admin : Address;
  it_Proposers : list Address;
  it_Executors : list Address;
  it_Cancellers : list Address;
  it_Bypassers : list Address;
}.
Record TopUp := { tu_QueryID : Z }.
Record ScheduleBatch := {
  sb_QueryID : Z;
  sb_Calls : list Call;
  sb_Predecessor : option Z;
  sb_Salt : option Z;
  sb_Delay : Z;
}.
Record Cancel := { cn_QueryID : Z; cn_ID : option Z }.
Record ExecuteBatch := {
  eb_QueryID : Z;
  eb_Calls : list Call;
  eb_Predecessor : option Z;
  eb_Salt : option Z;
}.
Record UpdateDelay := { ud_QueryID : Z; ud_NewDelay : Z }.
Record BlockFunctionSelector := { bf_QueryID : Z; bf_Selector : Z }.
Record UnblockFunctionSelector := { uf_QueryID : Z; uf_Selector : Z }.
Record BypasserExecuteBatch := { be_QueryID : Z; be_Calls : list Call }.
Record CallScheduled := {
  csd_QueryID : Z;
  csd_ID : option Z;
  csd_Index : Z;
  csd_Call : Call;
  csd_Predecessor : option Z;
  csd_Salt : option Z;
  csd_Delay : Z;
}.
Record CallExecuted := {
  ce_QueryID : Z;
  ce_ID : option Z;
  ce_Index : Z;
  ce_Target : Address;
  ce_Value : Z;
  ce_Data : Cell;
}.
Record BypasserCallExecuted := {
  bce_QueryID : Z;
  bce_Index : Z;
  bce_Target : Address;
  bce_Value : Z;
  bce_Data : Cell;
}.
Record Cancelled := { cd_QueryID : Z; cd_ID : option Z }.
Record MinDelayChange := { mdc_QueryID : Z; mdc_OldDuration : Z; mdc_NewDuration : Z }.
Record FunctionSelectorBlocked := { fsb_QueryID : Z; fsb_Selector : Z }.
Record FunctionSelectorUnblocked := { fsu_QueryID : Z; fsu_Selector : Z }.
Record Data := {
  td_ID : Z;
  td_MinDelay : Z;
  td_Timestamps : Dict;
  td_BlockedFnSelectorsLen : Z;
  td_BlockedFnSelectors : Dict;
  td_RBAC : rbac.Data;
}.
Record OperationBatch := { ob_Calls : list Call; ob_Predecessor : option Z; ob_Salt : option Z }.

(** How the tlb package writes a bare [address.Address] inside an array. *)
Context (address_tlb : Tlb Address).

Definition Call_tlb : Tlb Call := tlb_struct (f_iso
  (λ '(a, (b, c)), {| cl_Target := a; cl_Value := b; cl_Data := c |})
  (λ v, (cl_Target v, (cl_Value v, cl_Data v)))
  (f_addr ⊗ f_big 256 ⊗ f_cell)).
Definition Init_tlb : Tlb Init := tlb_struct (f_iso
  (λ '(_, (a, (b, (c, (d, (e, (f, g))))))), {| it_QueryID := a; it_MinDelay := b;
    it_Admin := c; it_Proposers := d; it_Executors := e; it_Cancellers := f; it_Bypassers
    := g |})
  (λ v, (tt, (it_QueryID v, (it_MinDelay v, (it_Admin v, (it_Proposers v, (it_Executors
    v, (it_Cancellers v, it_Bypassers v))))))))
  (f_magic 0x4982fcfd ⊗ f_uint 64 ⊗ f_uint 64 ⊗ f_addr ⊗ f_ref (SnakeData address_tlb) ⊗
    f_ref (SnakeData address_tlb) ⊗ f_ref (SnakeData address_tlb) ⊗ f_ref (SnakeData
    address_tlb))).
Definition TopUp_tlb : Tlb TopUp := tlb_struct (f_iso
  (λ '(_, a), {| tu_QueryID := a |})
  (λ v, (tt, tu_QueryID v))
  (f_magic 0xfee62ba6 ⊗ f_uint 64)).
Definition ScheduleBatch_tlb : Tlb ScheduleBatch := tlb_struct (f_iso
  (λ '(_, (a, (b, (c, (d, e))))), {| sb_QueryID := a; sb_Calls := b; sb_Predecessor :=
    c; sb_Salt := d; sb_Delay := e |})
  (λ v, (tt, (sb_QueryID v, (sb_Calls v, (sb_Predecessor v, (sb_Salt v, sb_Delay v))))))
  (f_magic 0x094718f4 ⊗ f_uint 64 ⊗ f_ref (SnakeData Call_tlb) ⊗ f_big 256 ⊗ f_big 256 ⊗
    f_uint 64)).
Definition Cancel_tlb : Tlb Cancel := tlb_struct (f_iso
  (λ '(_, (a, b)), {| cn_QueryID := a; cn_ID := b |})
  (λ v, (tt, (cn_QueryID v, cn_ID v)))
  (f_magic 0xaf3bf1d0 ⊗ f_uint 64 ⊗ f_big 256)).
Definition ExecuteBatch_tlb : Tlb ExecuteBatch := tlb_struct (f_iso
  (λ '(_, (a, (b, (c, d)))), {| eb_QueryID := a; eb_Calls := b; eb_Predecessor := c;
    eb_Salt := d |})
  (λ v, (tt, (eb_QueryID v, (eb_Calls v, (eb_Predecessor v, eb_Salt v)))))
  (f_magic 0x6e9bf263 ⊗ f_uint 64 ⊗ f_ref (SnakeData Call_tlb) ⊗ f_big 256 ⊗ f_big 256)).
Definition UpdateDelay_tlb : Tlb UpdateDelay := tlb_struct (f_iso
  (λ '(_, (a, b)), {| ud_QueryID := a; ud_NewDelay := b |})
  (λ v, (tt, (ud_QueryID v, ud_NewDelay v)))
  (f_magic 0x7a57a45c ⊗ f_uint 64 ⊗ f_uint 64)).
Definition BlockFunctionSelector_tlb : Tlb BlockFunctionSelector := tlb_struct (f_iso
  (λ '(_, (a, b)), {| bf_QueryID := a; bf_Selector := b |})
  (λ v, (tt, (bf_QueryID v, bf_Selector v)))
  (f_magic 0x2637af77 ⊗ f_uint 64 ⊗ f_uint 32)).
Definition UnblockFunctionSelector_tlb : Tlb UnblockFunctionSelector := tlb_struct (f_iso
  (λ '(_, (a, b)), {| uf_QueryID := a; uf_Selector := b |})
  (λ v, (tt, (uf_QueryID v, uf_Selector v)))
  (f_magic 0x26f19f4e ⊗ f_uint 64 ⊗ f_uint 32)).
Definition BypasserExecuteBatch_tlb : Tlb BypasserExecuteBatch := tlb_struct (f_iso
  (λ '(_, (a, b)), {| be_QueryID := a; be_Calls := b |})
  (λ v, (tt, (be_QueryID v, be_Calls v)))
  (f_magic 0xbb0e9f7d ⊗ f_uint 64 ⊗ f_ref (SnakeData Call_tlb))).
Definition CallScheduled_tlb : Tlb CallScheduled := tlb_struct (f_iso
  (λ '(_, (a, (b, (c, (d, (e, (f, g))))))), {| csd_QueryID := a; csd_ID := b; csd_Index
    := c; csd_Call := d; csd_Predecessor := e; csd_Salt := f; csd_Delay := g |})
  (λ v, (tt, (csd_QueryID v, (csd_ID v, (csd_Index v, (csd_Call v, (csd_Predecessor v,
    (csd_Salt v, csd_Delay v))))))))
  (f_magic 0xc55fca54 ⊗ f_uint 64 ⊗ f_big 256 ⊗ f_uint 64 ⊗ f_ref Call_tlb ⊗ f_big 256 ⊗
    f_big 256 ⊗ f_uint 64)).
Definition CallExecuted_tlb : Tlb CallExecuted := tlb_struct (f_iso
  (λ '(_, (a, (b, (c, (d, (e, f)))))), {| ce_QueryID := a; ce_ID := b; ce_Index := c;
    ce_Target := d; ce_Value := e; ce_Data := f |})
  (λ v, (tt, (ce_QueryID v, (ce_ID v, (ce_Index v, (ce_Target v, (ce_Value v, ce_Data
    v)))))))
  (f_magic 0x49ea5d0e ⊗ f_uint 64 ⊗ f_big 256 ⊗ f_uint 64 ⊗ f_addr ⊗ f_coins ⊗ f_cell)).
Definition BypasserCallExecuted_tlb : Tlb BypasserCallExecuted := tlb_struct (f_iso
  (λ '(_, (a, (b, (c, (d, e))))), {| bce_QueryID := a; bce_Index := b; bce_Target := c;
    bce_Value := d; bce_Data := e |})
  (λ v, (tt, (bce_QueryID v, (bce_Index v, (bce_Target v, (bce_Value v, bce_Data v))))))
  (f_magic 0x9c7f3010 ⊗ f_uint 64 ⊗ f_uint 64 ⊗ f_addr ⊗ f_coins ⊗ f_cell)).
Definition Cancelled_tlb : Tlb Cancelled := tlb_struct (f_iso
  (λ '(_, (a, b)), {| cd_QueryID := a; cd_ID := b |})
  (λ v, (tt, (cd_QueryID v, cd_ID v)))
  (f_magic 0x580e80f2 ⊗ f_uint 64 ⊗ f_big 256)).
Definition MinDelayChange_tlb : Tlb MinDelayChange := tlb_struct (f_iso
  (λ '(_, (a, (b, c))), {| mdc_QueryID := a; mdc_OldDuration := b; mdc_NewDuration := c
    |})
  (λ v, (tt, (mdc_QueryID v, (mdc_OldDuration v, mdc_NewDuration v))))
  (f_magic 0x904b14e0 ⊗ f_uint 64 ⊗ f_uint 64 ⊗ f_uint 64)).
Definition FunctionSelectorBlocked_tlb : Tlb FunctionSelectorBlocked := tlb_struct (f_iso
  (λ '(_, (a, b)), {| fsb_QueryID := a; fsb_Selector := b |})
  (λ v, (tt, (fsb_QueryID v, fsb_Selector v)))
  (f_magic 0x9c4d6d94 ⊗ f_uint 64 ⊗ f_uint 32)).
Definition FunctionSelectorUnblocked_tlb : Tlb FunctionSelectorUnblocked := tlb_struct (f_iso
  (λ '(_, (a, b)), {| fsu_QueryID := a; fsu_Selector := b |})
  (λ v, (tt, (fsu_QueryID v, fsu_Selector v)))
  (f_magic 0xf410a31b ⊗ f_uint 64 ⊗ f_uint 32)).
Definition Data_tlb : Tlb Data := tlb_struct (f_iso
  (λ '(a, (b, (c, (d, (e, f))))), {| td_ID := a; td_MinDelay := b; td_Timestamps := c;
    td_BlockedFnSelectorsLen := d; td_BlockedFnSelectors := e; td_RBAC := f |})
  (λ v, (td_ID v, (td_MinDelay v, (td_Timestamps v, (td_BlockedFnSelectorsLen v,
    (td_BlockedFnSelectors v, td_RBAC v))))))
  (f_uint 32 ⊗ f_uint 64 ⊗ f_dict 64 ⊗ f_uint 32 ⊗ f_dict 32 ⊗ f_ref rbac.Data_tlb)).
Definition OperationBatch_tlb : Tlb OperationBatch := tlb_struct (f_iso
  (λ '(a, (b, c)), {| ob_Calls := a; ob_Predecessor := b; ob_Salt := c |})
  (λ v, (ob_Calls v, (ob_Predecessor v, ob_Salt v)))
  (f_ref (SnakeData Call_tlb) ⊗ f_big 256 ⊗ f_big 256)).

(** The messages with an opcode, incoming then outgoing, each with its decoder. *)
Definition messages : list (Z * (Slice → bool)) := [
  (0x4982fcfd%Z, accepts Init_tlb);
  (0xfee62ba6%Z, accepts TopUp_tlb);
  (0x094718f4%Z, accepts ScheduleBatch_tlb);
  (0xaf3bf1d0%Z, accepts Cancel_tlb);
  (0x6e9bf263%Z, accepts ExecuteBatch_tlb);
  (0x7a57a45c%Z, accepts UpdateDelay_tlb);
  (0x2637af77%Z, accepts BlockFunctionSelector_tlb);
  (0x26f19f4e%Z, accepts UnblockFunctionSelector_tlb);
  (0xbb0e9f7d%Z, accepts BypasserExecuteBatch_tlb);
  (0xc55fca54%Z, accepts CallScheduled_tlb);
  (0x49ea5d0e%Z, accepts CallExecuted_tlb);
  (0x9c7f3010%Z, accepts BypasserCallExecuted_tlb);
  (0x580e80f2%Z, accepts Cancelled_tlb);
  (0x904b14e0%Z, accepts MinDelayChange_tlb);
  (0x9c4d6d94%Z, accepts FunctionSelectorBlocked_tlb);
  (0xf410a31b%Z, accepts FunctionSelectorUnblocked_tlb)
].
End types.

Definition DoneTimestamp : Z := 1.

(** Error codes of the contract. *)
Definition ErrorSelectorIsBlocked : Z := 101.
Definition ErrorOperationNotReady : Z := 102.
Definition ErrorOperationMissingDependency : Z := 103.
Definition ErrorOperationCannotBeCancelled : Z := 104.
Definition ErrorOperationAlreadyScheduled : Z := 105.
Definition ErrorInsufficientDelay : Z := 106.

Section laws.
Context {AL : AddrLib} {CL : CellLib} {CV : CellView} {CW : CellLaws}.

Definition Call_ok (v : Call) : Prop :=
  std_addr (cl_Target v) ∧ big_ok 256 (cl_Value v).
Definition Init_ok (v : Init) : Prop :=
  uint_ok 64 (it_QueryID v) ∧ uint_ok 64 (it_MinDelay v) ∧ std_addr (it_Admin v) ∧ Forall
  std_addr (it_Proposers v) ∧ Forall std_addr (it_Executors v) ∧ Forall std_addr
  (it_Cancellers v) ∧ Forall std_addr (it_Bypassers v).
Definition TopUp_ok (v : TopUp) : Prop :=
  uint_ok 64 (tu_QueryID v).
Definition Cancel_ok (v : Cancel) : Prop :=
  uint_ok 64 (cn_QueryID v) ∧ big_ok 256 (cn_ID v).
Definition UpdateDelay_ok (v : UpdateDelay) : Prop :=
  uint_ok 64 (ud_QueryID v) ∧ uint_ok 64 (ud_NewDelay v).
Definition BlockFunctionSelector_ok (v : BlockFunctionSelector) : Prop :=
  uint_ok 64 (bf_QueryID v) ∧ uint_ok 32 (bf_Selector v).
Definition UnblockFunctionSelector_ok (v : UnblockFunctionSelector) : Prop :=
  uint_ok 64 (uf_QueryID v) ∧ uint_ok 32 (uf_Selector v).
Definition CallScheduled_ok (v : CallScheduled) : Prop :=
  uint_ok 64 (csd_QueryID v) ∧ big_ok 256 (csd_ID v) ∧ uint_ok 64 (csd_Index v) ∧ Call_ok
  (csd_Call v) ∧ big_ok 256 (csd_Predecessor v) ∧ big_ok 256 (csd_Salt v) ∧ uint_ok 64
  (csd_Delay v).
Definition CallExecuted_ok (v : CallExecuted) : Prop :=
  uint_ok 64 (ce_QueryID v) ∧ big_ok 256 (ce_ID v) ∧ uint_ok 64 (ce_Index v) ∧ std_addr
  (ce_Target v) ∧ coins_ok (ce_Value v).
Definition BypasserCallExecuted_ok (v : BypasserCallExecuted) : Prop :=
  uint_ok 64 (bce_QueryID v) ∧ uint_ok 64 (bce_Index v) ∧ std_addr (bce_Target v) ∧ coins_ok
  (bce_Value v).
Definition Cancelled_ok (v : Cancelled) : Prop :=
  uint_ok 64 (cd_QueryID v) ∧ big_ok 256 (cd_ID v).
Definition MinDelayChange_ok (v : MinDelayChange) : Prop :=
  uint_ok 64 (mdc_QueryID v) ∧ uint_ok 64 (mdc_OldDuration v) ∧ uint_ok 64 (mdc_NewDuration
  v).
Definition FunctionSelectorBlocked_ok (v : FunctionSelectorBlocked) : Prop :=
  uint_ok 64 (fsb_QueryID v) ∧ uint_ok 32 (fsb_Selector v).
Definition FunctionSelectorUnblocked_ok (v : FunctionSelectorUnblocked) : Prop :=
  uint_ok 64 (fsu_QueryID v) ∧ uint_ok 32 (fsu_Selector v).
Definition Data_ok (v : Data) : Prop :=
  uint_ok 32 (td_ID v) ∧ uint_ok 64 (td_MinDelay v) ∧ dict_ok 64 (td_Timestamps v) ∧ uint_ok
  32 (td_BlockedFnSelectorsLen v) ∧ dict_ok 32 (td_BlockedFnSelectors v) ∧ rbac.Data_ok
  (td_RBAC v).

Lemma Call_lawful : stream_lawful Call_tlb Call_ok 523 523 1.
Proof. solve_lawful. Qed.
Lemma Init_lawful (address_tlb : Tlb Address) :
  stream_lawful address_tlb std_addr 267 267 0 →
  stream_lawful (Init_tlb address_tlb) Init_ok 427 427 4.
Proof.
  intros Ha. assert (cell_lawful (SnakeData address_tlb) (Forall std_addr)).
  { eapply snake_data_lawful; [exact Ha|lia]. }
  solve_lawful.
Qed.
Lemma timelock_TopUp_lawful : stream_lawful TopUp_tlb TopUp_ok 96 96 0.
Proof. solve_lawful. Qed.
Lemma Cancel_lawful : stream_lawful Cancel_tlb Cancel_ok 352 352 0.
Proof. solve_lawful. Qed.
Lemma UpdateDelay_lawful : stream_lawful UpdateDelay_tlb UpdateDelay_ok 160 160 0.
Proof. solve_lawful. Qed.
Lemma BlockFunctionSelector_lawful : stream_lawful BlockFunctionSelector_tlb BlockFunctionSelector_ok 128 128 0.
Proof. solve_lawful. Qed.
Lemma UnblockFunctionSelector_lawful : stream_lawful UnblockFunctionSelector_tlb UnblockFunctionSelector_ok 128 128 0.
Proof. solve_lawful. Qed.
Lemma CallScheduled_lawful : stream_lawful CallScheduled_tlb CallScheduled_ok 992 992 1.
Proof. pose proof Call_lawful. solve_lawful. Qed.
Lemma CallExecuted_lawful : stream_lawful CallExecuted_tlb CallExecuted_ok 687 807 1.
Proof. solve_lawful. Qed.
Lemma BypasserCallExecuted_lawful : stream_lawful BypasserCallExecuted_tlb BypasserCallExecuted_ok 431 551 1.
Proof. solve_lawful. Qed.
Lemma Cancelled_lawful : stream_lawful Cancelled_tlb Cancelled_ok 352 352 0.
Proof. solve_lawful. Qed.
Lemma MinDelayChange_lawful : stream_lawful MinDelayChange_tlb MinDelayChange_ok 224 224 0.
Proof. solve_lawful. Qed.
Lemma FunctionSelectorBlocked_lawful : stream_lawful FunctionSelectorBlocked_tlb FunctionSelectorBlocked_ok 128 128 0.
Proof. solve_lawful. Qed.
Lemma FunctionSelectorUnblocked_lawful : stream_lawful FunctionSelectorUnblocked_tlb FunctionSelectorUnblocked_ok 128 128 0.
Proof. solve_lawful. Qed.
Lemma timelock_Data_lawful : stream_lawful Data_tlb Data_ok 130 130 3.
Proof. pose proof rbac.rbac_Data_lawful. solve_lawful. Qed.

Lemma timelock_messages_table (address_tlb : Tlb Address) : opcode_table (messages address_tlb).
Proof. solve_table. Qed.
End laws.
End timelock.
