(* ===== verification/Mcms.v ===== *)
(** * Mcms: pkg/bindings/mcms/mcms/types.go

    The many-chain multisig's messages, events and data as TL-B structs. *)

From S2P Require Import Prelude Cells Tlb Snake SnakeFacts Ocr.

Module mcms.
Local Open Scope tlb_scope.

Section types.
Context {AL : AddrLib} {CL : CellLib}.

Record RootMetadata := {
  md_ChainID : option Z;
  md_MultiSig : Address;
  md_PreOpCount : Z;
  md_PostOpCount : Z;
  md_OverridePreviousRoot : bool;
}.
Record Proof := { pf_Value : option Z }.
Record Op := {
  op_ChainID : option Z;
  op_MultiSig : Address;
  op_Nonce : Z;
  op_To : Address;
  op_Value : Z;
  op_Data : Cell;
}.
Record Config := { cf_Signers : Dict; cf_GroupQuorums : Dict; cf_GroupParents : Dict }.
Record TopUp := { tu_QueryID : Z }.
Record SetRoot := {
  sr_QueryID : Z;
  sr_Root : option Z;
  sr_ValidUntil : Z;
  sr_Metadata : RootMetadata;
  sr_MetadataProof : list Proof;
  sr_Signatures : list SignatureEd25519;
}.
Record Execute := { ex_QueryID : Z; ex_Op : Op; ex_Proof : list Proof }.
Record SetConfig := {
  sc_QueryID : Z;
  sc_SignerKeys : list (option Z);
  sc_SignerGroups : list Z;
  sc_GroupQuorums : Dict;
  sc_GroupParents : Dict;
  sc_ClearRoot : bool;
}.
Record NewRoot := {
  nr_QueryID : Z;
  nr_Root : option Z;
  nr_ValidUntil : Z;
  nr_Metadata : RootMetadata;
}.
Record ConfigSet := { ct_QueryID : Z; ct_Config : Config; ct_IsRootCleared : bool }.
Record OpExecuted := {
  oe_QueryID : Z;
  oe_Nonce : Z;
  oe_To : Address;
  oe_Data : Cell;
  oe_Value : Z;
}.

(** How the tlb package writes a bare [*big.Int] and a bare [uint8] inside an array. *)
Context (bigint_tlb : Tlb (option Z)) (uint8_tlb : Tlb Z).

Definition RootMetadata_tlb : Tlb RootMetadata := tlb_struct (f_iso
  (λ '(a, (b, (c, (d, e)))), {| md_ChainID := a; md_MultiSig := b; md_PreOpCount := c;
    md_PostOpCount := d; md_OverridePreviousRoot := e |})
  (λ v, (md_ChainID v, (md_MultiSig v, (md_PreOpCount v, (md_PostOpCount v,
    md_OverridePreviousRoot v)))))
  (f_big 256 ⊗ f_addr ⊗ f_uint 40 ⊗ f_uint 40 ⊗ f_bool)).
Definition Proof_tlb : Tlb Proof := tlb_struct (f_iso
  (λ a, {| pf_Value := a |})
  (λ v, pf_Value v)
  (f_big 256)).
Definition Op_tlb : Tlb Op := tlb_struct (f_iso
  (λ '(a, (b, (c, (d, (e, f))))), {| op_ChainID := a; op_MultiSig := b; op_Nonce := c;
    op_To := d; op_Value := e; op_Data := f |})
  (λ v, (op_ChainID v, (op_MultiSig v, (op_Nonce v, (op_To v, (op_Value v, op_Data
    v))))))
  (f_big 256 ⊗ f_addr ⊗ f_uint 40 ⊗ f_addr ⊗ f_coins ⊗ f_cell)).
Definition Config_tlb : Tlb Config := tlb_struct (f_iso
  (λ '(a, (b, c)), {| cf_Signers := a; cf_GroupQuorums := b; cf_GroupParents := c |})
  (λ v, (cf_Signers v, (cf_GroupQuorums v, cf_GroupParents v)))
  (f_dict 8 ⊗ f_dict 8 ⊗ f_dict 8)).
Definition TopUp_tlb : Tlb TopUp := tlb_struct (f_iso
  (λ '(_, a), {| tu_QueryID := a |})
  (λ v, (tt, tu_QueryID v))
  (f_magic 0x5f427bb3 ⊗ f_uint 64)).
Definition SetRoot_tlb : Tlb SetRoot := tlb_struct (f_iso
  (λ '(_, (a, (b, (c, (d, (e, f)))))), {| sr_QueryID := a; sr_Root := b; sr_ValidUntil
    := c; sr_Metadata := d; sr_MetadataProof := e; sr_Signatures := f |})
  (λ v, (tt, (sr_QueryID v, (sr_Root v, (sr_ValidUntil v, (sr_Metadata v,
    (sr_MetadataProof v, sr_Signatures v)))))))
  (f_magic 0xe7fabde3 ⊗ f_uint 64 ⊗ f_big 256 ⊗ f_uint 32 ⊗ f_inline RootMetadata_tlb ⊗
    f_ref (SnakeData Proof_tlb) ⊗ f_ref (SnakeData SignatureEd25519_tlb))).
Definition Execute_tlb : Tlb Execute := tlb_struct (f_iso
  (λ '(_, (a, (b, c))), {| ex_QueryID := a; ex_Op := b; ex_Proof := c |})
  (λ v, (tt, (ex_QueryID v, (ex_Op v, ex_Proof v))))
  (f_magic 0x9b9ce96a ⊗ f_uint 64 ⊗ f_ref Op_tlb ⊗ f_ref (SnakeData Proof_tlb))).
Definition SetConfig_tlb : Tlb SetConfig := tlb_struct (f_iso
  (λ '(_, (a, (b, (c, (d, (e, f)))))), {| sc_QueryID := a; sc_SignerKeys := b;
    sc_SignerGroups := c; sc_GroupQuorums := d; sc_GroupParents := e; sc_ClearRoot := f
    |})
  (λ v, (tt, (sc_QueryID v, (sc_SignerKeys v, (sc_SignerGroups v, (sc_GroupQuorums v,
    (sc_GroupParents v, sc_ClearRoot v)))))))
  (f_magic 0x89277f4b ⊗ f_uint 64 ⊗ f_ref (SnakeData bigint_tlb) ⊗ f_ref (SnakeData
    uint8_tlb) ⊗ f_dict 8 ⊗ f_dict 8 ⊗ f_bool)).
Definition NewRoot_tlb : Tlb NewRoot := tlb_struct (f_iso
  (λ '(_, (a, (b, (c, d)))), {| nr_QueryID := a; nr_Root := b; nr_ValidUntil := c;
    nr_Metadata := d |})
  (λ v, (tt, (nr_QueryID v, (nr_Root v, (nr_ValidUntil v, nr_Metadata v)))))
  (f_magic 0xa6533a3d ⊗ f_uint 64 ⊗ f_big 256 ⊗ f_uint 32 ⊗ f_inline RootMetadata_tlb)).
Definition ConfigSet_tlb : Tlb ConfigSet := tlb_struct (f_iso
  (λ '(_, (a, (b, c))), {| ct_QueryID := a; ct_Config := b; ct_IsRootCleared := c |})
  (λ v, (tt, (ct_QueryID v, (ct_Config v, ct_IsRootCleared v))))
  (f_magic 0xd80be574 ⊗ f_uint 64 ⊗ f_inline Config_tlb ⊗ f_bool)).
Definition OpExecuted_tlb : Tlb OpExecuted := tlb_struct (f_iso
  (λ '(_, (a, (b, (c, (d, e))))), {| oe_QueryID := a; oe_Nonce := b; oe_To := c; oe_Data
    := d; oe_Value := e |})
  (λ v, (tt, (oe_QueryID v, (oe_Nonce v, (oe_To v, (oe_Data v, oe_Value v))))))
  (f_magic 0x7cf37cbf ⊗ f_uint 64 ⊗ f_uint 40 ⊗ f_addr ⊗ f_cell ⊗ f_ref (tlb_struct
    f_coins))).

(** The messages with an opcode, incoming then outgoing, each with its decoder. *)
Definition messages : list (Z * (Slice → bool)) := [
  (0x5f427bb3%Z, accepts TopUp_tlb);
  (0xe7fabde3%Z, accepts SetRoot_tlb);
  (0x9b9ce96a%Z, accepts Execute_tlb);
  (0x89277f4b%Z, accepts SetConfig_tlb);
  (0xa6533a3d%Z, accepts NewRoot_tlb);
  (0xd80be574%Z, accepts ConfigSet_tlb);
  (0x7cf37cbf%Z, accepts OpExecuted_tlb)
].
End types.

(** Error codes of the contract. *)
Definition ErrorOutOfBoundsNumSigners : Z := 100.
Definition ErrorSignerGroupsLengthMismatch : Z := 101.
Definition ErrorOutOfBoundsGroup : Z := 102.
Definition ErrorGroupTreeNotWellFormed : Z := 103.
Definition ErrorOutOfBoundsGroupQuorum : Z := 104.
Definition ErrorSignerInDisabledGroup : Z := 105.
Definition ErrorSignersKeysMustBeStrictlyIncreasing : Z := 106.
Definition ErrorInvalidSigner : Z := 107.
Definition ErrorInsufficientSigners : Z := 108.
Definition ErrorWrongChainID : Z := 109.
Definition ErrorWrongMultiSig : Z := 110.
Definition ErrorWrongPostOpCount : Z := 111.
Definition ErrorPendingOps : Z := 112.
Definition ErrorWrongPreOpCount : Z := 113.
Definition ErrorProofCannotBeVerified : Z := 114.
Definition ErrorRootExpired : Z := 115.
Definition ErrorWrongNonce : Z := 116.
Definition ErrorPostOpCountReached : Z := 117.
Definition ErrorCallReverted : Z := 118.
Definition ErrorValidUntilHasAlreadyPassed : Z := 119.
Definition ErrorMissingConfig : Z := 120.
Definition ErrorSignedHashAlreadySeen : Z := 121.

Section laws.
Context {AL : AddrLib} {CL : CellLib} {CV : CellView} {CW : CellLaws}.

Definition RootMetadata_ok (v : RootMetadata) : Prop :=
  big_ok 256 (md_ChainID v) ∧ std_addr (md_MultiSig v) ∧ uint_ok 40 (md_PreOpCount v) ∧
  uint_ok 40 (md_PostOpCount v).
Definition Proof_ok (v : Proof) : Prop :=
  big_ok 256 (pf_Value v).
Definition Op_ok (v : Op) : Prop :=
  big_ok 256 (op_ChainID v) ∧ std_addr (op_MultiSig v) ∧ uint_ok 40 (op_Nonce v) ∧ std_addr
  (op_To v) ∧ coins_ok (op_Value v).
Definition Config_ok (v : Config) : Prop :=
  dict_ok 8 (cf_Signers v) ∧ dict_ok 8 (cf_GroupQuorums v) ∧ dict_ok 8 (cf_GroupParents v).
Definition TopUp_ok (v : TopUp) : Prop :=
  uint_ok 64 (tu_QueryID v).
Definition SetRoot_ok (v : SetRoot) : Prop :=
  uint_ok 64 (sr_QueryID v) ∧ big_ok 256 (sr_Root v) ∧ uint_ok 32 (sr_ValidUntil v) ∧
  RootMetadata_ok (sr_Metadata v) ∧ Forall Proof_ok (sr_MetadataProof v) ∧ Forall
  SignatureEd25519_ok (sr_Signatures v).
Definition Execute_ok (v : Execute) : Prop :=
  uint_ok 64 (ex_QueryID v) ∧ Op_ok (ex_Op v) ∧ Forall Proof_ok (ex_Proof v).
Definition SetConfig_ok (v : SetConfig) : Prop :=
  uint_ok 64 (sc_QueryID v) ∧ Forall (big_ok 256) (sc_SignerKeys v) ∧ Forall (uint_ok 8)
  (sc_SignerGroups v) ∧ dict_ok 8 (sc_GroupQuorums v) ∧ dict_ok 8 (sc_GroupParents v).
Definition NewRoot_ok (v : NewRoot) : Prop :=
  uint_ok 64 (nr_QueryID v) ∧ big_ok 256 (nr_Root v) ∧ uint_ok 32 (nr_ValidUntil v) ∧
  RootMetadata_ok (nr_Metadata v).
Definition ConfigSet_ok (v : ConfigSet) : Prop :=
  uint_ok 64 (ct_QueryID v) ∧ Config_ok (ct_Config v).
Definition OpExecuted_ok (v : OpExecuted) : Prop :=
  uint_ok 64 (oe_QueryID v) ∧ uint_ok 40 (oe_Nonce v) ∧ std_addr (oe_To v) ∧ coins_ok
  (oe_Value v).

Lemma RootMetadata_lawful : stream_lawful RootMetadata_tlb RootMetadata_ok 604 604 0.
Proof. solve_lawful. Qed.
Lemma Proof_lawful : stream_lawful Proof_tlb Proof_ok 256 256 0.
Proof. solve_lawful. Qed.
Lemma Op_lawful : stream_lawful Op_tlb Op_ok 834 954 1.
Proof. solve_lawful. Qed.
Lemma Config_lawful : stream_lawful Config_tlb Config_ok 3 3 3.
Proof. solve_lawful. Qed.

Lemma proofs_lawful : cell_lawful (SnakeData Proof_tlb) (Forall Proof_ok).
Proof. eapply snake_data_lawful; [apply Proof_lawful|lia]. Qed.
Lemma signatures_lawful :
  cell_lawful (SnakeData SignatureEd25519_tlb) (Forall SignatureEd25519_ok).
Proof. eapply snake_data_lawful; [apply SignatureEd25519_lawful|lia]. Qed.
Lemma coins_cell_lawful : cell_lawful (tlb_struct f_coins) coins_ok.
Proof. eapply stream_cell, struct_stream; [apply lawful_coins|lia..]. Qed.

Lemma mcms_TopUp_lawful : stream_lawful TopUp_tlb TopUp_ok 96 96 0.
Proof. solve_lawful. Qed.
Lemma SetRoot_lawful : stream_lawful SetRoot_tlb SetRoot_ok 988 988 2.
Proof. pose proof proofs_lawful. pose proof RootMetadata_lawful. pose proof signatures_lawful. solve_lawful. Qed.
Lemma Execute_lawful : stream_lawful Execute_tlb Execute_ok 96 96 2.
Proof. pose proof proofs_lawful. pose proof Op_lawful. solve_lawful. Qed.
Lemma SetConfig_lawful (bigint_tlb : Tlb (option Z)) (uint8_tlb : Tlb Z) :
  stream_lawful bigint_tlb (big_ok 256) 256 256 0 → stream_lawful uint8_tlb (uint_ok 8) 8 8 0 →
  stream_lawful (SetConfig_tlb bigint_tlb uint8_tlb) SetConfig_ok 99 99 4.
Proof.
  intros Hb Hu. assert (cell_lawful (SnakeData bigint_tlb) (Forall (big_ok 256))).
  { eapply snake_data_lawful; [exact Hb|lia]. }
  assert (cell_lawful (SnakeData uint8_tlb) (Forall (uint_ok 8))).
  { eapply snake_data_lawful; [exact Hu|lia]. }
  solve_lawful.
Qed.
Lemma NewRoot_lawful : stream_lawful NewRoot_tlb NewRoot_ok 988 988 0.
Proof. pose proof RootMetadata_lawful. solve_lawful. Qed.
Lemma ConfigSet_lawful : stream_lawful ConfigSet_tlb ConfigSet_ok 100 100 3.
Proof. pose proof Config_lawful. solve_lawful. Qed.
Lemma OpExecuted_lawful : stream_lawful OpExecuted_tlb OpExecuted_ok 403 403 2.
Proof. pose proof coins_cell_lawful. solve_lawful. Qed.

Lemma mcms_messages_table (bigint_tlb : Tlb (option Z)) (uint8_tlb : Tlb Z) : opcode_table (messages bigint_tlb uint8_tlb).
Proof. solve_table. Qed.
End laws.
End mcms.

(** pkg/bindings/mcms/proxy/types.go: the storage of the call proxy. *)
Module proxy.
Local Open Scope tlb_scope.
Section types.
Context {AL : AddrLib} {CL : CellLib}.
Record Data := { pd_ID : Z; pd_Target : Address }.
Definition Data_tlb : Tlb Data := tlb_struct (f_iso
  (λ '(i, a), {| pd_ID := i; pd_Target := a |})
  (λ v, (pd_ID v, pd_Target v))
  (f_uint 32 ⊗ f_addr)).
End types.

Section laws.
Context {AL : AddrLib} {CL : CellLib} {CV : CellView} {CW : CellLaws}.
Definition Data_ok (v : Data) : Prop := uint_ok 32 (pd_ID v) ∧ std_addr (pd_Target v).
Lemma proxy_Data_lawful : stream_lawful Data_tlb Data_ok 299 299 0.
Proof. solve_lawful. Qed.
End laws.
End proxy.
