(* ===== verification/BindingsSpec.v ===== *)
(** * BindingsSpec: what the CCIP and MCMS bindings promise

    The properties of the chained containers, of the cross-chain addresses and
    of the TL-B messages, each with a run on the concrete cells of [BitCells]. *)

From S2P Require Import Prelude Cells BitCells Tlb Snake SnakeFacts Ocr Onramp Rbac Timelock Mcms.

(** ** Reference notions *)

Section reference.
Context {AL : AddrLib} {CL : CellLib} {CV : CellView}.

(** The cells met when the first reference is followed from [c] on. *)
Inductive first_chain : Cell → list Cell → Prop :=
| chain_last c : crefs c = [] → first_chain c [c]
| chain_next c n rs cs : crefs c = n :: rs → first_chain n cs → first_chain c (c :: cs).

(** The bytes of a chain: each cell's bits, the last byte padded with zero bits. *)
Definition chain_bytes (cs : list Cell) : bytes := cs ≫= λ c, pack_bits (cbits c).
End reference.

Section containers.
Context {AL : AddrLib} {CL : CellLib} {CV : CellView} {CW : CellLaws}.

Lemma unload_loop_chain fuel c acc :
  Depth c < fuel →
  ∃ cs, first_chain c cs ∧ unload_loop fuel (Some c) acc = Ok (acc ++ chain_bytes cs).
Proof.
  revert c acc. induction fuel as [|fuel IH]; intros c acc Hd; [lia|].
  cbn [unload_loop]. rewrite drain_bits_spec, parse_bits. cbn [mbind res_bind].
  destruct (crefs c) as [|n rs] eqn:Er.
  - rewrite next_cell_none by done. cbn. exists [c]. split; [by constructor|].
    destruct fuel; cbn; by rewrite app_nil_r.
  - rewrite (next_cell_some c n rs) by done. cbn [mbind res_bind].
    assert (Depth n < Depth c) by (apply depth_ref; rewrite Er; apply list_elem_of_here).
    destruct (IH n (acc ++ pack_bits (cbits c))) as (cs & Hcs & E); [lia|].
    exists (c :: cs). split; [by econstructor|]. rewrite E. unfold chain_bytes.
    by rewrite bind_cons, app_assoc.
Qed.

(** Packing any byte string into a chain of cells succeeds, and
    unpacking the root cell yields the byte string again. *)
Theorem snake_bytes_roundtrip (data : bytes) :
  ∃ root, packByteArrayToCell data = Ok (Some root) ∧ unloadCellToByteArray (Some root) = Ok data.
Proof.
  destruct (pack_bytes_linked data) as (bs & c & Hc & Hl & Hch). exists c. split; [done|].
  apply (unload_loop_spec _ bs c [] data); [done..|lia].
Qed.

(** Unpacking a byte string never fails, panics or loops: on every cell
    it returns the bytes of the chain that starts at the cell. *)
Theorem snake_bytes_unload_total (c : Cell) :
  ∃ cs, first_chain c cs ∧ unloadCellToByteArray (Some c) = Ok (chain_bytes cs).
Proof. apply (unload_loop_chain (S (Depth c)) c []). lia. Qed.

(** An array of references, of any length and of any element type with a
    round trip, is packed without error and unpacked to the same array. *)
Theorem snake_ref_roundtrip {T} (TT : Tlb T) (dom : T → Prop) (xs : list T)
    (HT : cell_lawful TT dom) (Hxs : Forall dom xs) :
  ∃ root, packArrayWithRefChaining xs = Ok (Some root) ∧
    unpackArrayWithRefChaining (Some root) = Ok xs.
Proof.
  destruct (SnakeRef_packed HT xs Hxs) as (bs & c & Hc & Hl & Hch). exists c. split; [done|].
  apply (unpack_refs_loop_spec (TT:=TT) _ bs c [] xs); [done..|lia].
Qed.

(** An array stored in the bits of a chain, of any length and of any
    element type that is written without references, is packed without error and
    unpacked to the same array. *)
Theorem snake_data_roundtrip {T} (TT : Tlb T) (dom : T → Prop) (nb : nat) (xs : list T)
    (HT : stream_lawful TT dom 1 nb 0) (Hxs : Forall dom xs) :
  ∃ root, packArrayWithStaticType xs = Ok (Some root) ∧
    unpackArrayWithStaticType (Some root) = Ok xs.
Proof.
  destruct (SnakeData_packed HT xs Hxs) as (bs & c & Hc & Hl & Hch). exists c. split; [done|].
  apply (unpack_static_loop_spec (TT:=TT) _ bs c [] xs); [done..|lia].
Qed.

Lemma call_refs (v : timelock.Call) c :
  timelock.Call_ok v → ToCell (Tlb:=timelock.Call_tlb) v = Ok c → crefs c = [timelock.cl_Data v].
Proof.
  intros [Ha Hv] E. destruct (timelock.cl_Value v) as [z|] eqn:Ez; [|done].
  cbn [ToCell timelock.Call_tlb tlb_struct] in E. apply bind_ok in E as (b & Hb & [= <-]).
  rewrite end_refs.
  assert (stores (put (f_addr ⊗ f_big 256 ⊗ f_cell)%tlb
           (timelock.cl_Target v, (Some z, timelock.cl_Data v)) BeginCell) BeginCell
           (addr_bits (timelock.cl_Target v) ++ Z_bits 256 z ++ [])
           ([] ++ [] ++ [timelock.cl_Data v])) as Hst.
  { cbn [put f_pair f_addr f_big f_cell fst snd].
    apply (stores_bind _ _ _ _ []); [by apply store_addr|intros b1].
    apply (stores_bind _ _ _ _ []); [apply store_bigint; [lia|done]|intros b2]. apply store_ref. }
  cbn [put f_iso] in Hb. rewrite Ez in Hb.
  apply (stores_ok _ _ b) in Hst as [_ ->]; [|done]. by rewrite begin_refs.
Qed.

(** A batch of one timelock call whose payload cell is not empty is not
    read back: the payload, the first reference of the cell, is taken for the
    next cell of the chain. *)
Theorem timelock_calls_lost (v : timelock.Call) (root : Cell) (vs : list timelock.Call) (s : Slice)
    (Hv : timelock.Call_ok v) (Hd : cbits (timelock.cl_Data v) ≠ [])
    (Hput : ToCell (Tlb:=SnakeData timelock.Call_tlb) [v] = Ok root)
    (Hget : LoadFromCell (Tlb:=SnakeData timelock.Call_tlb) (BeginParse root) = Ok (vs, s)) :
  vs ≠ [v].
Proof.
  destruct (timelock.Call_lawful v Hv) as (c & Ec & Hb & Hr & Hreads).
  assert (crefs c = [timelock.cl_Data v]) as Hrefs by by apply (call_refs v c).
  eapply (SnakeData_ref_lost (TT:=timelock.Call_tlb)); try done; lia.
Qed.
End containers.

Section messages.
Context {AL : AddrLib} {CL : CellLib} {CV : CellView} {CW : CellLaws}.

(** A cross-chain address of 1 to 64 bytes is written and read back; any
    other length is refused with an error, on both sides. *)
Theorem xaddr_roundtrip (a : bytes) :
  if bool_decide (1 ≤ length a ≤ 64)
  then ∃ c s, CrossChainAddress_ToCell a = Ok c ∧
              CrossChainAddress_LoadFromCell (BeginParse c) = Ok (a, s)
  else is_err (CrossChainAddress_ToCell a) = true ∧
       ∀ s s', CrossChainAddress_LoadFromCell s ≠ Ok (a, s').
Proof.
  case_bool_decide as Ha.
  - destruct (stream_cell _ _ _ _ _ CrossChainAddress_lawful a Ha) as (c & Ec & s & Es). by exists c, s.
  - split; [by apply CrossChainAddress_rejects|]. intros s s' E.
    by apply Ha, (CrossChainAddress_load_ok s a s').
Qed.

(** A commit report whose fields are in range is written to a cell, and
    the cell is read back as the same report. *)
Theorem commit_report_roundtrip (v : CommitReport) (Hv : CommitReport_ok v) :
  ∃ c s, ToCell (Tlb:=CommitReport_tlb) v = Ok c ∧
         LoadFromCell (Tlb:=CommitReport_tlb) (BeginParse c) = Ok (v, s).
Proof. destruct (stream_cell _ _ _ _ _ CommitReport_lawful v Hv) as (c & Ec & s & Es). by exists c, s. Qed.

(** C31: an execute report whose fields are in range, with source pool
    addresses of at most 57 bytes, is written to a cell and read back. *)
Theorem execute_report_roundtrip (v : ExecuteReport) (Hv : ExecuteReport_ok v) :
  ∃ c s, ToCell (Tlb:=ExecuteReport_tlb) v = Ok c ∧
         LoadFromCell (Tlb:=ExecuteReport_tlb) (BeginParse c) = Ok (v, s).
Proof. destruct (stream_cell _ _ _ _ _ ExecuteReport_lawful v Hv) as (c & Ec & s & Es). by exists c, s. Qed.

(** A token transfer whose source pool address has 58 to 64 bytes, a
    legal cross-chain address, does not fit into its cell: encoding it fails. *)
Theorem token_transfer_overflow (v : Any2TVMTokenTransfer) (Hv : long_pool_ok v) :
  xaddr_ok (tt_SourcePoolAddress v) ∧ is_err (ToCell (Tlb:=Any2TVMTokenTransfer_tlb) v) = true.
Proof.
  split; [|by apply Any2TVMTokenTransfer_overflow].
  destruct Hv as [? _]. unfold xaddr_ok. lia.
Qed.

(** The onRamp's messages and storage (CCIPSend, CCIPMessageSent, the two
    extra-args layouts, the contract storage) are read back as written. *)
Theorem onramp_roundtrip :
  cell_lawful CCIPSend_tlb CCIPSend_ok ∧ cell_lawful CCIPMessageSent_tlb CCIPMessageSent_ok ∧
  cell_lawful GenericExtraArgsV2_tlb GenericExtraArgsV2_ok ∧
  cell_lawful SVMExtraArgsV1_tlb SVMExtraArgsV1_ok ∧
  cell_lawful DestChainConfig_tlb DestChainConfig_ok ∧ cell_lawful Storage_tlb Storage_ok.
Proof.
  split_and!; eapply stream_cell;
    first [apply CCIPSend_lawful | apply CCIPMessageSent_lawful | apply GenericExtraArgsV2_lawful
          | apply SVMExtraArgsV1_lawful | apply DestChainConfig_lawful | apply Storage_lawful].
Qed.

(** The messages the timelock handles (its own and those of its access
    control) have distinct opcodes, so no slice is accepted as two of them. *)
Theorem timelock_opcodes_unique (address_tlb : Tlb Address) (s : Slice) (i j : nat)
    (m n : Z * (Slice → bool))
    (Hi : (timelock.messages address_tlb ++ rbac.messages) !! i = Some m)
    (Hj : (timelock.messages address_tlb ++ rbac.messages) !! j = Some n)
    (Hm : m.2 s = true) (Hn : n.2 s = true) : i = j.
Proof.
  refine (opcode_table_unique _ _ _ _ _ _ _ _ Hi Hj Hm Hn); [|apply distinct_NoDup; reflexivity].
  apply Forall_app. split; [apply timelock.timelock_messages_table|apply rbac.rbac_messages_table].
Qed.

(** The messages of the multisig have distinct opcodes, so no slice is
    accepted as two of them. *)
Theorem mcms_opcodes_unique (bigint_tlb : Tlb (option Z)) (uint8_tlb : Tlb Z) (s : Slice)
    (i j : nat) (m n : Z * (Slice → bool))
    (Hi : mcms.messages bigint_tlb uint8_tlb !! i = Some m)
    (Hj : mcms.messages bigint_tlb uint8_tlb !! j = Some n)
    (Hm : m.2 s = true) (Hn : n.2 s = true) : i = j.
Proof.
  refine (opcode_table_unique _ _ _ _ _ _ _ _ Hi Hj Hm Hn); [|apply distinct_NoDup; reflexivity].
  apply mcms.mcms_messages_table.
Qed.

(** The multisig's root, execution and configuration messages are read
    back as written. *)
Theorem mcms_roundtrip (bigint_tlb : Tlb (option Z)) (uint8_tlb : Tlb Z)
    (Hb : stream_lawful bigint_tlb (big_ok 256) 256 256 0)
    (Hu : stream_lawful uint8_tlb (uint_ok 8) 8 8 0) :
  cell_lawful mcms.SetRoot_tlb mcms.SetRoot_ok ∧ cell_lawful mcms.Execute_tlb mcms.Execute_ok ∧
  cell_lawful (mcms.SetConfig_tlb bigint_tlb uint8_tlb) mcms.SetConfig_ok ∧
  cell_lawful mcms.NewRoot_tlb mcms.NewRoot_ok ∧ cell_lawful mcms.ConfigSet_tlb mcms.ConfigSet_ok ∧
  cell_lawful mcms.OpExecuted_tlb mcms.OpExecuted_ok.
Proof.
  split_and!; eapply stream_cell;
    first [apply mcms.SetRoot_lawful | apply mcms.Execute_lawful | by apply mcms.SetConfig_lawful
          | apply mcms.NewRoot_lawful | apply mcms.ConfigSet_lawful | apply mcms.OpExecuted_lawful].
Qed.

(** The timelock's initialisation, administration and event messages and
    its storage are read back as written. *)
Theorem timelock_roundtrip (address_tlb : Tlb Address)
    (Ha : stream_lawful address_tlb std_addr 267 267 0) :
  cell_lawful (timelock.Init_tlb address_tlb) timelock.Init_ok ∧
  cell_lawful timelock.Cancel_tlb timelock.Cancel_ok ∧
  cell_lawful timelock.UpdateDelay_tlb timelock.UpdateDelay_ok ∧
  cell_lawful timelock.BlockFunctionSelector_tlb timelock.BlockFunctionSelector_ok ∧
  cell_lawful timelock.CallScheduled_tlb timelock.CallScheduled_ok ∧
  cell_lawful timelock.CallExecuted_tlb timelock.CallExecuted_ok ∧
  cell_lawful timelock.Data_tlb timelock.Data_ok.
Proof.
  split_and!; eapply stream_cell;
    first [by apply timelock.Init_lawful | apply timelock.Cancel_lawful | apply timelock.UpdateDelay_lawful
          | apply timelock.BlockFunctionSelector_lawful | apply timelock.CallScheduled_lawful
          | apply timelock.CallExecuted_lawful | apply timelock.timelock_Data_lawful].
Qed.

(** The test helper [NewDummyCell] stores the first 12 bits of its 12 bytes. *)
Theorem NewDummyCell_bits :
  ∃ c, NewDummyCell = Ok c ∧ cbits c = take 12 (bytes_bits (String.list_byte_of_string "place holder")).
Proof.
  unfold NewDummyCell. change (length _) with 12.
  destruct (stores_fit _ _ _ _
    (store_slice_bits (String.list_byte_of_string "place holder") 12 BeginCell ltac:(cbn; lia)))
    as (b & -> & Hb & _).
  - rewrite begin_bits. cbn. lia.
  - rewrite begin_refs. cbn. lia.
  - exists (EndCell b). split; [done|]. by rewrite end_bits, Hb, begin_bits.
Qed.
End messages.

(** ** Runs on concrete cells *)

Module Runs.
Import BitCells.

Definition addr1 : Address := NewAddress x00 x00 (replicate 32 x01).
Lemma addr1_ok : std_addr addr1.
Proof. by exists x00, (replicate 32 x01). Qed.

Definition call1 : timelock.Call :=
  {| timelock.cl_Target := addr1; timelock.cl_Value := Some 5%Z;
     timelock.cl_Data := BCell [true; false; true] [] |}.
Definition header1 : RampMessageHeader :=
  {| rh_MessageID := replicate 32 x02; rh_SourceChainSelector := 1%Z; rh_DestChainSelector := 2%Z;
     rh_SequenceNumber := 3%Z; rh_Nonce := 0%Z |}.
Definition transfer1 (n : nat) : Any2TVMTokenTransfer :=
  {| tt_SourcePoolAddress := replicate n x07; tt_DestPoolAddress := addr1; tt_DestGasAmount := 100%Z;
     tt_ExtraData := BCell [] []; tt_Amount := Some 1000%Z |}.
Definition message1 : Any2TVMRampMessage :=
  {| rm_Header := header1; rm_Sender := replicate 20 x03; rm_Data := replicate 300 x04;
     rm_Receiver := addr1; rm_GasLimit := 1000000%Z; rm_TokenAmounts := [transfer1 20; transfer1 57] |}.
Definition execute1 : ExecuteReport :=
  {| er_SourceChainSelector := 1%Z; er_Messages := [message1]; er_OffChainTokenData := [[x01]];
     er_Proofs := [replicate 32 x09]; er_ProofFlagBits := Some 0%Z |}.
Definition root1 : MerkleRoot :=
  {| mr_SourceChainSelector := 1%Z; mr_OnRampAddress := replicate 20 x05; mr_MinSeqNr := 1%Z;
     mr_MaxSeqNr := 10%Z; mr_MerkleRoot := replicate 32 x06 |}.
Definition commit1 : CommitReport :=
  {| cr_PriceUpdates :=
       {| pu_TokenPriceUpdates := [{| tpu_SourceToken := addr1; tpu_UsdPerToken := Some 7%Z |}];
          pu_GasPriceUpdates := [{| gpu_DestChainSelector := 2%Z; gpu_UsdPerUnitGas := Some 9%Z |}] |};
     cr_MerkleRoot := {| mrs_BlessedMerkleRoots := [root1; root1]; mrs_UnblessedMerkleRoots := [] |};
     cr_RMNSignatures := [replicate 64 x0a] |}.

Lemma call1_ok : timelock.Call_ok call1.
Proof. split; [apply addr1_ok|]. by vm_compute. Qed.
Lemma transfer1_ok n : 1 ≤ n ≤ 57 → Any2TVMTokenTransfer_ok (transfer1 n).
Proof.
  intros Hn. split_and!; [|apply addr1_ok|by vm_compute|by vm_compute].
  unfold pool_addr_ok. cbn. by rewrite length_replicate.
Qed.
Lemma header1_ok : RampMessageHeader_ok header1.
Proof. by vm_compute. Qed.
Lemma execute1_ok : ExecuteReport_ok execute1.
Proof.
  split_and!; [by vm_compute| |by vm_compute]. constructor; [|constructor].
  split_and!; [apply header1_ok|by vm_compute; lia|apply addr1_ok|by vm_compute|].
  repeat (constructor; [apply transfer1_ok; lia|]). constructor.
Qed.
Lemma root1_ok : MerkleRoot_ok root1.
Proof. split_and!; [by vm_compute|vm_compute; lia|by vm_compute..]. Qed.
Lemma commit1_ok : CommitReport_ok commit1.
Proof.
  pose proof root1_ok. pose proof addr1_ok. split; split; repeat constructor; try done; by vm_compute.
Qed.

Lemma snake_bytes_roundtrip_witness :
  ∃ root, packByteArrayToCell (replicate 300 x04) = Ok (Some root) ∧
    unloadCellToByteArray (Some root) = Ok (replicate 300 x04).
Proof. exact (snake_bytes_roundtrip (CW:=BitLaws) (replicate 300 x04)). Defined.

Lemma snake_bytes_unload_total_witness :
  ∃ cs, first_chain (BCell (replicate 12 true) []) cs ∧
    unloadCellToByteArray (Some (BCell (replicate 12 true) [])) = Ok (chain_bytes cs).
Proof. exact (snake_bytes_unload_total (CW:=BitLaws) (BCell (replicate 12 true) [])). Defined.

Lemma snake_ref_roundtrip_witness :
  let xs := [transfer1 20; transfer1 57; transfer1 1; transfer1 2] in
  ∃ root, packArrayWithRefChaining (TT:=Any2TVMTokenTransfer_tlb) xs = Ok (Some root) ∧
    unpackArrayWithRefChaining (TT:=Any2TVMTokenTransfer_tlb) (Some root) = Ok xs.
Proof.
  apply (snake_ref_roundtrip (CW:=BitLaws) Any2TVMTokenTransfer_tlb Any2TVMTokenTransfer_ok).
  - eapply stream_cell, Any2TVMTokenTransfer_lawful.
  - repeat (constructor; [apply transfer1_ok; lia|]). constructor.
Defined.

Lemma snake_data_roundtrip_witness :
  ∃ root, packArrayWithStaticType (TT:=MerkleRoot_tlb) [root1; root1; root1] = Ok (Some root) ∧
    unpackArrayWithStaticType (TT:=MerkleRoot_tlb) (Some root) = Ok [root1; root1; root1].
Proof.
  apply (snake_data_roundtrip (CW:=BitLaws) MerkleRoot_tlb MerkleRoot_ok 968).
  - eapply stream_weaken; [apply MerkleRoot_lawful|lia..].
  - repeat (constructor; [apply root1_ok|]). constructor.
Defined.

(** The cell of the batch and what is read back from it: the call, and then the
    attempt to read the payload as a further call. *)
Definition lost_call : timelock.Call := {| timelock.cl_Target := addr1;
  timelock.cl_Value := Some 5%Z; timelock.cl_Data := BCell (take 523 (bytes_bits (replicate 66 x08))) [BCell [] []] |}.
Definition lost_root : Cell :=
  match ToCell (Tlb:=SnakeData timelock.Call_tlb) [lost_call] with Ok c => c | _ => BCell [] [] end.
Definition lost_read : list timelock.Call * Slice :=
  match LoadFromCell (Tlb:=SnakeData timelock.Call_tlb) (BeginParse lost_root) with
  | Ok r => r | _ => ([], BCell [] []) end.

Lemma lost_read_ok :
  LoadFromCell (Tlb:=SnakeData timelock.Call_tlb) (BeginParse lost_root) = Ok (lost_read.1, lost_read.2).
Proof.
  assert (is_ok (LoadFromCell (Tlb:=SnakeData timelock.Call_tlb) (BeginParse lost_root)) = true) as H
    by (vm_compute; reflexivity).
  unfold lost_read. by destruct (LoadFromCell (BeginParse lost_root)) as [[]| | |].
Qed.

Lemma timelock_calls_lost_witness : length lost_read.1 = 2 ∧ lost_read.1 ≠ [lost_call].
Proof.
  split; [vm_compute; reflexivity|].
  apply (timelock_calls_lost (CW:=BitLaws) lost_call lost_root lost_read.1 lost_read.2).
  - split; [apply addr1_ok|by vm_compute].
  - vm_compute. discriminate.
  - vm_compute. reflexivity.
  - apply lost_read_ok.
Defined.

Lemma xaddr_roundtrip_witness :
  ∃ c s, CrossChainAddress_ToCell (replicate 20 x05) = Ok c ∧
    CrossChainAddress_LoadFromCell (BeginParse c) = Ok (replicate 20 x05, s).
Proof. exact (xaddr_roundtrip (CW:=BitLaws) (replicate 20 x05)). Defined.

Lemma commit_report_roundtrip_witness :
  ∃ c s, ToCell (Tlb:=CommitReport_tlb) commit1 = Ok c ∧
    LoadFromCell (Tlb:=CommitReport_tlb) (BeginParse c) = Ok (commit1, s).
Proof. exact (commit_report_roundtrip (CW:=BitLaws) commit1 commit1_ok). Defined.

Lemma execute_report_roundtrip_witness :
  ∃ c s, ToCell (Tlb:=ExecuteReport_tlb) execute1 = Ok c ∧
    LoadFromCell (Tlb:=ExecuteReport_tlb) (BeginParse c) = Ok (execute1, s).
Proof. exact (execute_report_roundtrip (CW:=BitLaws) execute1 execute1_ok). Defined.

Lemma token_transfer_overflow_witness :
  xaddr_ok (replicate 60 x07) ∧ is_err (ToCell (Tlb:=Any2TVMTokenTransfer_tlb) (transfer1 60)) = true.
Proof.
  apply (token_transfer_overflow (CW:=BitLaws) (transfer1 60)).
  split_and!; [vm_compute; lia|vm_compute; lia|apply addr1_ok|by vm_compute|by vm_compute].
Defined.

Lemma onramp_roundtrip_witness :
  cell_lawful CCIPSend_tlb CCIPSend_ok ∧ cell_lawful CCIPMessageSent_tlb CCIPMessageSent_ok ∧
  cell_lawful GenericExtraArgsV2_tlb GenericExtraArgsV2_ok ∧
  cell_lawful SVMExtraArgsV1_tlb SVMExtraArgsV1_ok ∧
  cell_lawful DestChainConfig_tlb DestChainConfig_ok ∧ cell_lawful Storage_tlb Storage_ok.
Proof. exact (onramp_roundtrip (CW:=BitLaws)). Defined.

Definition timelock_slice : Slice := BCell (Z_bits 32 0xfee62ba6 ++ Z_bits 64 9) [].

Lemma timelock_opcodes_unique_witness :
  let s := timelock_slice in
  (timelock.messages (tlb_struct f_addr) ++ rbac.messages).*1 !! 1 = Some 0xfee62ba6%Z ∧
  accepts timelock.TopUp_tlb s = true ∧ 1 = 1.
Proof.
  split_and!; [reflexivity|by vm_compute|].
  eapply (timelock_opcodes_unique (CL:=BitCell) (tlb_struct f_addr)
    timelock_slice 1 1);
    [reflexivity|reflexivity|by vm_compute|by vm_compute].
Defined.

Definition mcms_slice : Slice := BCell (Z_bits 32 0x5f427bb3 ++ Z_bits 64 9) [].

Lemma mcms_opcodes_unique_witness :
  let s := mcms_slice in
  accepts mcms.TopUp_tlb s = true ∧ 0 = 0.
Proof.
  split; [by vm_compute|].
  eapply (mcms_opcodes_unique (CL:=BitCell) (tlb_struct (f_big 256)) (tlb_struct (f_uint 8))
    mcms_slice 0 0);
    [reflexivity|reflexivity|by vm_compute|by vm_compute].
Defined.

Lemma mcms_roundtrip_witness :
  cell_lawful (mcms.SetConfig_tlb (tlb_struct (f_big 256)) (tlb_struct (f_uint 8))) mcms.SetConfig_ok.
Proof.
  apply (mcms_roundtrip (CW:=BitLaws) (tlb_struct (f_big 256)) (tlb_struct (f_uint 8)));
    eapply struct_stream; first [apply lawful_big; lia | apply lawful_uint; lia | lia].
Defined.

Lemma timelock_roundtrip_witness :
  cell_lawful (timelock.Init_tlb (tlb_struct f_addr)) timelock.Init_ok.
Proof.
  apply (timelock_roundtrip (CW:=BitLaws) (tlb_struct f_addr)).
  eapply struct_stream; first [apply lawful_addr | lia].
Defined.
End Runs.
