(* ===== verification/AddressCodec.v ===== *)
(** * AddressCodec: pkg/ccip/codec/addresscodec.go

    Conversions between the raw format of an address (4 bytes of workchain, 32
    bytes of account id), the address type of tonutils-go and its user-friendly
    string. *)

From S2P Require Import Prelude Cells.

(** ** [base64.RawURLEncoding.DecodeString] of the Go standard library *)

Definition b64_digit (c : byte) : option Z :=
  let z := byte_to_Z c in
  if ((65 <=? z) && (z <=? 90))%Z then Some (z - 65)%Z
  else if ((97 <=? z) && (z <=? 122))%Z then Some (z - 71)%Z
  else if ((48 <=? z) && (z <=? 57))%Z then Some (z + 4)%Z
  else if (z =? 45)%Z then Some 62%Z
  else if (z =? 95)%Z then Some 63%Z
  else None.

(** Groups of four digits give three bytes; two or three digits may be left at
    the end, a single one is an error. *)
Fixpoint b64_groups (ds : list Z) : res bytes :=
  match ds with
  | a :: b :: c :: d :: ds' =>
      rest ← b64_groups ds';
      Ok (be_bytes 3 (((a * 64 + b) * 64 + c) * 64 + d) ++ rest)
  | [a; b; c] => Ok (be_bytes 2 (((a * 64 + b) * 64 + c) / 4))
  | [a; b] => Ok (be_bytes 1 ((a * 64 + b) / 16))
  | [_] => Err "illegal base64 data"
  | [] => Ok []
  end.

Definition RawURLDecode (s : string) : res bytes :=
  let cs := filter (λ c, c ≠ x0a ∧ c ≠ x0d) (String.list_byte_of_string s) in
  ds ← res_map (λ c, from_option Ok (Err "illegal base64 data") (b64_digit c)) cs;
  b64_groups ds.

(** ** The codec *)

Section codec.
Context {AL : AddrLib}.

(** [RawAddr] is Go's [[36]byte]. *)
Definition ToRawAddr (addr : Address) : bytes :=
  be_bytes 4 (u32 (Workchain addr)) ++ go_copy (replicate 32 x00) (Data addr).

Definition AddressBytesToString (bs : bytes) : res string :=
  if negb (length bs =? 36) then Err "invalid address length: expected 36 bytes" else
  let rawAddr := go_copy (replicate 36 x00) bs in
  let workchain := i32 (be_value (take 4 rawAddr)) in
  let addr := NewAddress x00 (byte_of_Z workchain) (drop 4 rawAddr) in
  Ok (AddrString addr).

Definition AddressStringToBytes (addrString : string) : res bytes :=
  addr ← wrap_err "failed to decode TVM address" (ParseAddr addrString);
  Ok (ToRawAddr addr).

Definition OracleIDAsAddressBytes (oracleID : Z) : res bytes :=
  let addr := be_bytes 4 (u32 oracleID) ++ replicate 28 x00 in
  let tonAddr := NewAddress x00 x00 addr in
  wrap_err "failed to decode TVM address bytes" (RawURLDecode (AddrString tonAddr)).

Definition TransmitterBytesToString (addr : bytes) : res string := AddressBytesToString addr.
End codec.

(** ** Facts *)

Section facts.
Context {AL : AddrLib} {LL : AddrLaws}.

(** The raw format as [ToRawAddr] writes it for the workchain byte [w]: the
    workchain is sign-extended to four bytes. *)
Definition raw_of (w : byte) (d : bytes) : bytes := be_bytes 4 (u32 (i8 (byte_to_Z w))) ++ d.

Lemma ToRawAddr_new f w d : length d = 32 → ToRawAddr (NewAddress f w d) = raw_of w d.
Proof.
  intros Hd. unfold ToRawAddr, raw_of. by rewrite new_workchain, new_data, go_copy_same.
Qed.

Lemma ToRawAddr_length a : length (Data a) = 32 → length (ToRawAddr a) = 36.
Proof.
  intros Hd. unfold ToRawAddr. rewrite go_copy_same by by rewrite length_replicate.
  by rewrite length_app, be_bytes_length, Hd.
Qed.

(** The workchain byte that [AddressBytesToString] keeps of four bytes. *)
Lemma low_byte b0 b1 b2 b3 : byte_of_Z (i32 (be_value [b0; b1; b2; b3])) = b3.
Proof.
  apply byte_to_Z_inj. rewrite byte_to_of_Z. rewrite !be_value_cons. unfold i32, swrap, u8. cbn [length be_value foldl].
  pose proof (byte_to_Z_bound b0). pose proof (byte_to_Z_bound b1).
  pose proof (byte_to_Z_bound b2). pose proof (byte_to_Z_bound b3).
  change (2 ^ (32 - 1))%Z with 2147483648%Z. change (2 ^ 32)%Z with 4294967296%Z.
  change (2 ^ 8)%Z with 256%Z. change (256 ^ Z.of_nat 3)%Z with 16777216%Z.
  change (256 ^ Z.of_nat 2)%Z with 65536%Z. change (256 ^ Z.of_nat 1)%Z with 256%Z.
  change (256 ^ Z.of_nat 0)%Z with 1%Z.
  Z.to_euclidean_division_equations. lia.
Qed.

Lemma AddressBytesToString_ok b0 b1 b2 b3 d :
  length d = 32 →
  AddressBytesToString (b0 :: b1 :: b2 :: b3 :: d) = Ok (AddrString (NewAddress x00 b3 d)).
Proof.
  intros Hd. unfold AddressBytesToString. cbn [length]. rewrite Hd. cbn [Nat.eqb negb].
  rewrite go_copy_same by (cbn; by rewrite Hd). cbn [take drop]. by rewrite low_byte.
Qed.
End facts.


(** ** Arithmetic of the workchain bytes *)

Module AddressCodecFacts.
Lemma be_value_4 b0 b1 b2 b3 :
  be_value [b0; b1; b2; b3]
  = (byte_to_Z b0 * 16777216 + byte_to_Z b1 * 65536 + byte_to_Z b2 * 256 + byte_to_Z b3)%Z.
Proof. rewrite !be_value_cons. cbn [length]. unfold be_value. cbn [foldl]. lia. Qed.

Lemma raw_value w d :
  ∃ b0 b1 b2, raw_of w d = b0 :: b1 :: b2 :: w :: d ∧ i32 (be_value [b0; b1; b2; w]) = i8 (byte_to_Z w).
Proof.
  assert (byte_of_Z (u32 (i8 (byte_to_Z w))) = w) as E.
  { apply byte_to_Z_inj. rewrite byte_to_of_Z. unfold u8, u32, i8, swrap.
    pose proof (byte_to_Z_bound w). change (2 ^ (8 - 1))%Z with 128%Z.
    change (2 ^ 32)%Z with 4294967296%Z. change (2 ^ 8)%Z with 256%Z.
    Z.to_euclidean_division_equations. lia. }
  unfold raw_of. cbn [be_bytes app]. change (256 ^ Z.of_nat 0)%Z with 1%Z. rewrite Z.div_1_r, E.
  eexists _, _, _. split; [done|].
  pose proof (be_value_bytes 4 (u32 (i8 (byte_to_Z w)))) as H. cbn [be_bytes] in H.
  change (256 ^ Z.of_nat 0)%Z with 1%Z in H. rewrite Z.div_1_r, E in H. rewrite H.
  change (256 ^ Z.of_nat 4)%Z with 4294967296%Z. unfold i32, i8, u32, swrap.
  pose proof (byte_to_Z_bound w). change (2 ^ (8 - 1))%Z with 128%Z. change (2 ^ (32 - 1))%Z with 2147483648%Z.
  change (2 ^ 32)%Z with 4294967296%Z. change (2 ^ 8)%Z with 256%Z.
  Z.to_euclidean_division_equations. lia.
Qed.

(** The raw form is the given one exactly when the workchain fits a byte. *)
Lemma raw_same b0 b1 b2 w c0 c1 c2 (d : bytes) :
  i32 (be_value [c0; c1; c2; w]) = i8 (byte_to_Z w) →
  c0 :: c1 :: c2 :: w :: d = b0 :: b1 :: b2 :: w :: d ↔
  (-128 ≤ i32 (be_value [b0; b1; b2; w]) < 128)%Z.
Proof.
  intros E. pose proof (byte_to_Z_bound w). pose proof (byte_to_Z_bound b0).
  pose proof (byte_to_Z_bound b1). pose proof (byte_to_Z_bound b2). pose proof (byte_to_Z_bound c0).
  pose proof (byte_to_Z_bound c1). pose proof (byte_to_Z_bound c2).
  rewrite be_value_4 in E |- *. unfold i32, i8, swrap in *.
  change (2 ^ (8 - 1))%Z with 128%Z in *. change (2 ^ (32 - 1))%Z with 2147483648%Z in *.
  change (2 ^ 32)%Z with 4294967296%Z in *. change (2 ^ 8)%Z with 256%Z in *. split.
  - intros [= -> -> ->]. rewrite E. Z.to_euclidean_division_equations. lia.
  - intros Hr.
    assert (byte_to_Z c0 = byte_to_Z b0 ∧ byte_to_Z c1 = byte_to_Z b1 ∧ byte_to_Z c2 = byte_to_Z b2)
      as (E0 & E1 & E2) by (Z.to_euclidean_division_equations; lia).
    by rewrite (byte_to_Z_inj _ _ E0), (byte_to_Z_inj _ _ E1), (byte_to_Z_inj _ _ E2).
Qed.
End AddressCodecFacts.
