(* ===== verification/ExtraData.v ===== *)
(** * ExtraData: pkg/ccip/codec/extradatacodec.go and the map helpers of executecodec.go

    The decoder of extra arguments and of destination execution data into Go
    maps, and the two functions that read those maps.  A [map[string]any] is a
    [gmap]; a [range] loop over it runs over a list that enumerates it in an
    order the language leaves open, so the loops take that list. *)

From S2P Require Import Prelude Cells Tlb Snake SnakeFacts Onramp.

(** Go's [any] for the types that are stored in these maps. *)
Inductive anyv :=
| AUint32 (v : Z)
| AUint64 (v : Z)
| ABool (v : bool)
| ABigInt (v : option Z)
| ABytes (v : bytes)
| ASnakeRef (v : list bytes)
| AOther (typ : string).

Definition tvmDestExecDataKey : string := "destGasAmount".
Definition svmExtraArgsV1Tag : bytes := [x1f; x3b; x3a; xba].
Definition evmExtraArgsV2Tag : bytes := [x18; x1d; xcf; x10].

(** [strings.ToLower] on the ASCII range. *)
Definition lower_ascii (c : Ascii.ascii) : Ascii.ascii :=
  let n := Ascii.nat_of_ascii c in
  if (65 <=? n) && (n <=? 90) then Ascii.ascii_of_nat (n + 32) else c.
Fixpoint to_lower (s : string) : string :=
  match s with
  | EmptyString => EmptyString
  | String c s' => String (lower_ascii c) (to_lower s')
  end.

Section decoder.
Context {AL : AddrLib} {CL : CellLib}.

(** The reflection loop stores the exported fields under their names. *)
Definition GenericExtraArgsV2_map (args : GenericExtraArgsV2) : gmap string anyv :=
  list_to_map [("GasLimit", ABigInt (gea_GasLimit args));
               ("AllowOutOfOrderExecution", ABool (gea_AllowOutOfOrderExecution args))].
Definition SVMExtraArgsV1_map (args : SVMExtraArgsV1) : gmap string anyv :=
  list_to_map [("ComputeUnits", AUint32 (sea_ComputeUnits args));
               ("AccountIsWritableBitmap", AUint64 (sea_AccountIsWritableBitmap args));
               ("AllowOutOfOrderExecution", ABool (sea_AllowOutOfOrderExecution args));
               ("TokenReceiver", ABytes (sea_TokenReceiver args));
               ("Accounts", ASnakeRef (sea_Accounts args))].

Definition DecodeExtraArgsToMap (extraArgs : bytes) : res (gmap string anyv) :=
  if length extraArgs <? 4 then Err "extra args too short" else
  c ← wrap_err "failed to decode BOC" (FromBOC extraArgs);
  tag ← wrap_err "failed to load tag from cell" (LoadSlice 32 (BeginParse c));
  if bool_decide (tag.1 = evmExtraArgsV2Tag) then
    args ← wrap_err "failed to tlb load extra args from cell"
             (LoadFromCell (Tlb:=GenericExtraArgsV2_tlb) (BeginParse c));
    Ok (GenericExtraArgsV2_map args.1)
  else if bool_decide (tag.1 = svmExtraArgsV1Tag) then
    args ← wrap_err "failed to tlb load extra args from cell"
             (LoadFromCell (Tlb:=SVMExtraArgsV1_tlb) (BeginParse c));
    Ok (SVMExtraArgsV1_map args.1)
  else Err "unknown extra args tag".

(** [binary.BigEndian.Uint32] panics on fewer than four bytes. *)
Definition BigEndian_Uint32 (b : bytes) : res Z :=
  if length b <? 4 then Panic "index out of range" else Ok (be_value (take 4 b)).

Definition DecodeDestExecDataToMap (destExecData : bytes) : res (gmap string anyv) :=
  v ← BigEndian_Uint32 destExecData; Ok {[ tvmDestExecDataKey := AUint32 v ]}.
End decoder.

Fixpoint extractDestGasAmountFromMap (input : list (string * anyv)) : res Z :=
  match input with
  | [] => Err "invalid token message, dest gas amount not found in the DestExecDataDecoded map"
  | (fieldName, fieldValue) :: input' =>
      if bool_decide (to_lower fieldName = "destgasamount") then
        match fieldValue with
        | AUint32 val => Ok val
        | _ => Err "invalid type for destgasamount, expected uint32"
        end
      else extractDestGasAmountFromMap input'
  end.

Fixpoint parseExtraArgsMap (input : list (string * anyv)) : res (option Z) :=
  match input with
  | [] => Err "gas limit not found in extra data map"
  | (fieldName, fieldValue) :: input' =>
      if bool_decide (to_lower fieldName = "gaslimit") then
        match fieldValue with
        | ABigInt val => Ok val
        | _ => Err "unexpected type for gas limit"
        end
      else parseExtraArgsMap input'
  end.

(** ** Facts *)

(** An enumeration of a map in the order a [range] loop may meet it. *)
Definition enumerates (l : list (string * anyv)) (m : gmap string anyv) : Prop := l ≡ₚ map_to_list m.

(** With a single key of the given spelling the order does not matter. *)
Lemma extractDestGas_found l k v :
  (∀ k' v', (k', v') ∈ l → to_lower k' = "destgasamount"%string → v' = AUint32 v) →
  (k, AUint32 v) ∈ l → to_lower k = "destgasamount"%string →
  extractDestGasAmountFromMap l = Ok v.
Proof.
  intros Hall Hin Hk. induction l as [|[k' v'] l IH]; [by apply elem_of_nil in Hin|].
  cbn. case_bool_decide as E.
  - rewrite (Hall k' v'); [done|apply list_elem_of_here|done].
  - apply IH.
    + intros k2 v2 H2. apply Hall. by apply list_elem_of_further.
    + apply elem_of_cons in Hin as [[= -> _]|Hin]; done.
Qed.

Lemma parseExtraArgs_found l k v :
  (∀ k' v', (k', v') ∈ l → to_lower k' = "gaslimit"%string → v' = ABigInt v) →
  (k, ABigInt v) ∈ l → to_lower k = "gaslimit"%string → parseExtraArgsMap l = Ok v.
Proof.
  intros Hall Hin Hk. induction l as [|[k' v'] l IH]; [by apply elem_of_nil in Hin|].
  cbn. case_bool_decide as E.
  - rewrite (Hall k' v'); [done|apply list_elem_of_here|done].
  - apply IH.
    + intros k2 v2 H2. apply Hall. by apply list_elem_of_further.
    + apply elem_of_cons in Hin as [[= -> _]|Hin]; done.
Qed.

Lemma parseExtraArgs_missing l :
  (∀ k v, (k, v) ∈ l → to_lower k ≠ "gaslimit"%string) →
  parseExtraArgsMap l = Err "gas limit not found in extra data map".
Proof.
  induction l as [|[k v] l IH]; intros H; [done|]. cbn.
  rewrite bool_decide_eq_false_2 by apply (H k v), list_elem_of_here.
  apply IH. intros k' v' Hin. apply (H k' v'). by apply list_elem_of_further.
Qed.
