(* ===== verification/CommitCodec.v ===== *)
(** * CommitCodec: pkg/ccip/codec/commitcodec.go

    The commit plugin's reports between the chainlink-common types and the
    cells of [Ocr].  The records below have the fields of the chainlink-common
    types that the codec reads and writes; [*big.Int] is an option (None is
    nil), a Go array is a list with its length in the domain predicate. *)

From S2P Require Import Prelude Cells Tlb Snake SnakeFacts Ocr AddressCodec.

Record TokenPrice := { tp_TokenID : string; tp_Price : option Z }.
Record GasPriceChain := { gp_ChainSel : Z; gp_GasPrice : option Z }.
Record MerkleRootChain := {
  mc_ChainSel : Z;
  mc_OnRampAddress : bytes;
  mc_SeqNumsRange : Z * Z;
  mc_MerkleRoot : bytes;
}.
Record RMNECDSASignature := { rs_R : bytes; rs_S : bytes }.
Record CommitPluginReport := {
  cp_TokenPriceUpdates : list TokenPrice;
  cp_GasPriceUpdates : list GasPriceChain;
  cp_BlessedMerkleRoots : list MerkleRootChain;
  cp_UnblessedMerkleRoots : list MerkleRootChain;
  cp_RMNSignatures : list RMNECDSASignature;
}.

(** [BigInt.IsEmpty] and the sign test of the decoder. *)
Definition IsEmpty (b : option Z) : bool := match b with None => true | Some _ => false end.
Definition decode_price (p : option Z) : option Z :=
  match p with
  | Some v => if (Z.sgn v =? 0)%Z then Some 0%Z else p
  | None => None
  end.

Section codec.
Context {AL : AddrLib} {CL : CellLib}.

Definition encode_token_price (tpu : TokenPrice) : res TokenPriceUpdate :=
  addr ← wrap_err "cannot parse token address" (ParseAddr (tp_TokenID tpu));
  if IsEmpty (tp_Price tpu) then Err "empty token price" else
  Ok {| tpu_SourceToken := addr; tpu_UsdPerToken := tp_Price tpu |}.

Definition encode_gas_price (gpu : GasPriceChain) : res GasPriceUpdate :=
  if IsEmpty (gp_GasPrice gpu) then Err "empty gas price for chain selector" else
  Ok {| gpu_DestChainSelector := gp_ChainSel gpu; gpu_UsdPerUnitGas := gp_GasPrice gpu |}.

Definition encode_merkle_root (mr : MerkleRootChain) : MerkleRoot :=
  {| mr_SourceChainSelector := mc_ChainSel mr;
     mr_OnRampAddress := mc_OnRampAddress mr;
     mr_MinSeqNr := (mc_SeqNumsRange mr).1;
     mr_MaxSeqNr := (mc_SeqNumsRange mr).2;
     mr_MerkleRoot := mc_MerkleRoot mr |}.

Definition encode_signature (sig : RMNECDSASignature) : bytes :=
  go_copy (replicate 32 x00) (rs_R sig) ++ go_copy (replicate 32 x00) (rs_S sig).

Definition commit_cell_report (tpu : list TokenPriceUpdate) (gpu : list GasPriceUpdate)
    (report : CommitPluginReport) : CommitReport :=
  {| cr_PriceUpdates := {| pu_TokenPriceUpdates := tpu; pu_GasPriceUpdates := gpu |};
     cr_MerkleRoot :=
       {| mrs_BlessedMerkleRoots := encode_merkle_root <$> cp_BlessedMerkleRoots report;
          mrs_UnblessedMerkleRoots := encode_merkle_root <$> cp_UnblessedMerkleRoots report |};
     cr_RMNSignatures := encode_signature <$> cp_RMNSignatures report |}.

Definition CommitPlugin_Encode (report : CommitPluginReport) : res bytes :=
  tpuSlice ← res_map encode_token_price (cp_TokenPriceUpdates report);
  gpuSlice ← res_map encode_gas_price (cp_GasPriceUpdates report);
  let cellReport := commit_cell_report tpuSlice gpuSlice report in
  c ← wrap_err "cannot encode commit report to cell" (ToCell (Tlb:=CommitReport_tlb) cellReport);
  Ok (ToBOC c).

Definition decode_token_price (update : TokenPriceUpdate) : TokenPrice :=
  {| tp_TokenID := AddrString (tpu_SourceToken update);
     tp_Price := decode_price (tpu_UsdPerToken update) |}.

Definition decode_gas_price (update : GasPriceUpdate) : GasPriceChain :=
  {| gp_ChainSel := gpu_DestChainSelector update; gp_GasPrice := decode_price (gpu_UsdPerUnitGas update) |}.

Definition decode_signature (sig : bytes) : res RMNECDSASignature :=
  if negb (length sig =? 64) then Err "invalid RMN signature length" else
  Ok {| rs_R := go_copy (replicate 32 x00) (take 32 sig); rs_S := go_copy (replicate 32 x00) (drop 32 sig) |}.

Definition decode_merkle_root (mr : MerkleRoot) : res MerkleRootChain :=
  root ← to_array 32 (mr_MerkleRoot mr);
  Ok {| mc_ChainSel := mr_SourceChainSelector mr;
        mc_OnRampAddress := mr_OnRampAddress mr;
        mc_SeqNumsRange := (mr_MinSeqNr mr, mr_MaxSeqNr mr);
        mc_MerkleRoot := root |}.

Definition CommitPlugin_Decode (bs : bytes) : res CommitPluginReport :=
  c ← wrap_err "cannot decode BOC" (FromBOC bs);
  r ← wrap_err "cannot decode commit report from cell"
        (LoadFromCell (Tlb:=CommitReport_tlb) (BeginParse c));
  let report := r.1 in
  let tpuSlice := decode_token_price <$> pu_TokenPriceUpdates (cr_PriceUpdates report) in
  let gpuSlice := decode_gas_price <$> pu_GasPriceUpdates (cr_PriceUpdates report) in
  sigSlice ← res_map decode_signature (cr_RMNSignatures report);
  bmrSlice ← res_map decode_merkle_root (mrs_BlessedMerkleRoots (cr_MerkleRoot report));
  unblessedMrSlice ← res_map decode_merkle_root (mrs_UnblessedMerkleRoots (cr_MerkleRoot report));
  Ok {| cp_TokenPriceUpdates := tpuSlice; cp_GasPriceUpdates := gpuSlice;
        cp_BlessedMerkleRoots := bmrSlice; cp_UnblessedMerkleRoots := unblessedMrSlice;
        cp_RMNSignatures := sigSlice |}.
End codec.

(** ** Facts *)

Section facts.
Context {AL : AddrLib} {LL : AddrLaws} {CL : CellLib} {CV : CellView} {CW : CellLaws}.

(** The address a cell keeps: the user-friendly flags are dropped. *)
Definition clear_flags (a : Address) : Address :=
  NewAddress x00 (byte_of_Z (Workchain a)) (Data a).

Lemma clear_flags_new f w d : length d = 32 → clear_flags (NewAddress f w d) = NewAddress x00 w d.
Proof.
  intros Hd. unfold clear_flags. rewrite new_workchain, new_data by done. f_equal.
  apply byte_to_Z_inj. rewrite byte_to_of_Z. unfold u8, i8, swrap. pose proof (byte_to_Z_bound w).
  change (2 ^ (8 - 1))%Z with 128%Z. change (2 ^ 8)%Z with 256%Z.
  Z.to_euclidean_division_equations. lia.
Qed.

Lemma clear_flags_std a : std_addr a → clear_flags a = a.
Proof. intros (w & d & Hd & ->). by apply clear_flags_new. Qed.

Lemma parsed_clear s a : ParseAddr s = Ok a → std_addr (clear_flags a).
Proof.
  intros (f & w & d & Hd & ->)%parse_std. rewrite clear_flags_new by done. by exists w, d.
Qed.

Lemma parsed_store s a b : ParseAddr s = Ok a → StoreAddr a b = StoreAddr (clear_flags a) b.
Proof.
  intros (f & w & d & Hd & ->)%parse_std. rewrite clear_flags_new by done. by apply store_addr_flags.
Qed.

(** A packed array only depends on the cells of its elements. *)
Lemma pack_static_loop_cells {T} (TT : Tlb T) xs ys prev b :
  Forall2 (λ x y, ToCell x = ToCell y) xs ys →
  pack_static_loop (TT:=TT) xs prev b = pack_static_loop ys prev b.
Proof.
  intros H. revert prev b. induction H as [|x y xs ys E _ IH]; intros prev b; [done|].
  cbn [pack_static_loop]. rewrite E. destruct (wrap_err _ (ToCell y)) as [c| | |]; [|done..].
  cbn [mbind res_bind]. destruct (_ <? _)%Z; cbn; destruct (wrap_err _ (StoreBuilder _ _)); cbn; auto.
Qed.

Definition clear_token (u : TokenPriceUpdate) : TokenPriceUpdate :=
  {| tpu_SourceToken := clear_flags (tpu_SourceToken u); tpu_UsdPerToken := tpu_UsdPerToken u |}.

Lemma clear_token_cell tpu gpu report :
  Forall (λ u, ∃ s, ParseAddr s = Ok (tpu_SourceToken u)) tpu →
  ToCell (Tlb:=CommitReport_tlb) (commit_cell_report tpu gpu report)
  = ToCell (Tlb:=CommitReport_tlb) (commit_cell_report (clear_token <$> tpu) gpu report).
Proof.
  intros H.
  assert (ToCell (Tlb:=SnakeData TokenPriceUpdate_tlb) tpu
          = ToCell (Tlb:=SnakeData TokenPriceUpdate_tlb) (clear_token <$> tpu)) as E.
  { cbn [ToCell SnakeData]. unfold packArrayWithStaticType.
    rewrite (pack_static_loop_cells _ tpu (clear_token <$> tpu)); [done|].
    rewrite Forall2_fmap_r. apply Forall_Forall2_diag. eapply Forall_impl; [exact H|].
    intros u [s Hs]. cbn. by rewrite (parsed_store s). }
  cbn [CommitReport_tlb PriceUpdates_tlb ToCell tlb_struct put f_iso f_pair f_ref commit_cell_report
       cr_PriceUpdates pu_TokenPriceUpdates fst snd]. by rewrite E.
Qed.

(** *** The domain of the codec and the normal form of a report *)

Definition TokenPrice_ok (t : TokenPrice) : Prop :=
  is_ok (ParseAddr (tp_TokenID t)) = true ∧ big_ok 256 (tp_Price t).
Definition GasPriceChain_ok (g : GasPriceChain) : Prop :=
  uint_ok 64 (gp_ChainSel g) ∧ big_ok 256 (gp_GasPrice g).
Definition MerkleRootChain_ok (m : MerkleRootChain) : Prop :=
  uint_ok 64 (mc_ChainSel m) ∧ xaddr_ok (mc_OnRampAddress m) ∧
  uint_ok 64 (mc_SeqNumsRange m).1 ∧ uint_ok 64 (mc_SeqNumsRange m).2 ∧ length (mc_MerkleRoot m) = 32.
Definition RMNSignature_ok (s : RMNECDSASignature) : Prop := length (rs_R s) = 32 ∧ length (rs_S s) = 32.
Definition CommitPluginReport_ok (r : CommitPluginReport) : Prop :=
  Forall TokenPrice_ok (cp_TokenPriceUpdates r) ∧ Forall GasPriceChain_ok (cp_GasPriceUpdates r) ∧
  Forall MerkleRootChain_ok (cp_BlessedMerkleRoots r) ∧
  Forall MerkleRootChain_ok (cp_UnblessedMerkleRoots r) ∧ Forall RMNSignature_ok (cp_RMNSignatures r).

(** The token's address in its default user-friendly form. *)
Definition canonical_id (id : string) : string :=
  match ParseAddr id with Ok a => AddrString (clear_flags a) | _ => id end.
Definition canonical_token (t : TokenPrice) : TokenPrice :=
  {| tp_TokenID := canonical_id (tp_TokenID t); tp_Price := tp_Price t |}.
Definition canonical_report (r : CommitPluginReport) : CommitPluginReport :=
  {| cp_TokenPriceUpdates := canonical_token <$> cp_TokenPriceUpdates r;
     cp_GasPriceUpdates := cp_GasPriceUpdates r;
     cp_BlessedMerkleRoots := cp_BlessedMerkleRoots r;
     cp_UnblessedMerkleRoots := cp_UnblessedMerkleRoots r;
     cp_RMNSignatures := cp_RMNSignatures r |}.

Lemma decode_price_id p : decode_price p = p.
Proof. destruct p as [v|]; [|done]. cbn. destruct v; done. Qed.

Lemma encode_tokens ts :
  Forall TokenPrice_ok ts →
  ∃ us, res_map encode_token_price ts = Ok us ∧
    Forall (λ u, ∃ s, ParseAddr s = Ok (tpu_SourceToken u)) us ∧
    Forall TokenPriceUpdate_ok (clear_token <$> us) ∧
    decode_token_price <$> (clear_token <$> us) = canonical_token <$> ts.
Proof.
  induction 1 as [|t ts [Ht Hp] _ (us & E & H1 & H2 & H3)]; [by exists []|].
  destruct (ParseAddr (tp_TokenID t)) as [a| | |] eqn:Ea; try done.
  destruct (tp_Price t) as [v|] eqn:Ev; [|done].
  exists ({| tpu_SourceToken := a; tpu_UsdPerToken := Some v |} :: us).
  split; [apply res_map_cons; [|done]; unfold encode_token_price; by rewrite Ea, Ev|].
  split; [constructor; [by eexists|done]|].
  split; [rewrite fmap_cons; constructor; [|done]|].
  - split; [by eapply parsed_clear|done].
  - rewrite !fmap_cons, H3. f_equal. unfold decode_token_price, canonical_token, canonical_id.
    cbn [tpu_SourceToken tpu_UsdPerToken clear_token]. by rewrite decode_price_id, Ea, Ev.
Qed.

Lemma encode_gas_prices gs :
  Forall GasPriceChain_ok gs →
  ∃ us, res_map encode_gas_price gs = Ok us ∧ Forall GasPriceUpdate_ok us ∧
    decode_gas_price <$> us = gs.
Proof.
  induction 1 as [|g gs [Hc Hp] _ (us & E & H1 & H2)]; [by exists []|].
  destruct g as [c p]. cbn [gp_GasPrice] in Hp. destruct p as [v|]; [|done].
  exists ({| gpu_DestChainSelector := c; gpu_UsdPerUnitGas := Some v |} :: us).
  split; [by apply res_map_cons|]. split; [by constructor|].
  rewrite fmap_cons, H2. unfold decode_gas_price. cbn [gpu_UsdPerUnitGas gpu_DestChainSelector].
  by rewrite decode_price_id.
Qed.

Lemma decode_encode_signatures ss :
  Forall RMNSignature_ok ss → res_map decode_signature (encode_signature <$> ss) = Ok ss.
Proof.
  induction 1 as [|[r s] ss [Hr Hs] _ IH]; [done|]. cbn in Hr, Hs. rewrite fmap_cons.
  apply res_map_cons; [|done].
  unfold encode_signature, decode_signature. cbn [rs_R rs_S].
  rewrite !(go_copy_same (replicate 32 x00) r), !(go_copy_same (replicate 32 x00) s) by done.
  rewrite length_app, Hr, Hs. cbn [Nat.add Nat.eqb negb].
  rewrite take_app_length', drop_app_length' by done. by rewrite !go_copy_same.
Qed.

Lemma decode_encode_roots ms :
  Forall MerkleRootChain_ok ms → res_map decode_merkle_root (encode_merkle_root <$> ms) = Ok ms.
Proof.
  induction 1 as [|m ms (_ & _ & _ & _ & Hr) _ IH]; [done|]. rewrite fmap_cons.
  apply res_map_cons; [|done]. unfold decode_merkle_root. cbn [mr_MerkleRoot encode_merkle_root].
  rewrite to_array_exact by done. by destruct m as [? ? [] ?].
Qed.

Lemma encode_roots_ok ms : Forall MerkleRootChain_ok ms → Forall MerkleRoot_ok (encode_merkle_root <$> ms).
Proof.
  intros H. apply Forall_fmap. eapply Forall_impl; [exact H|].
  intros m (? & ? & ? & ? & Hr). split_and!; try done. unfold bits_ok. cbn. by rewrite Hr.
Qed.

(** The work-horse: encoding succeeds and decodes to the normal form. *)
Lemma commit_codec r :
  CommitPluginReport_ok r →
  ∃ bs, CommitPlugin_Encode r = Ok bs ∧ CommitPlugin_Decode bs = Ok (canonical_report r).
Proof.
  intros (Ht & Hg & Hb & Hu & Hs).
  destruct (encode_tokens _ Ht) as (ts & Et & Hp & Hts & Dt).
  destruct (encode_gas_prices _ Hg) as (gs & Eg & Hgs & Dg).
  set (rep := commit_cell_report (clear_token <$> ts) gs r).
  assert (CommitReport_ok rep) as Hrep.
  { split; split; [done|done|by apply encode_roots_ok|by apply encode_roots_ok]. }
  destruct (stream_cell _ _ _ _ _ CommitReport_lawful rep Hrep) as (c & Ec & s & Es).
  exists (ToBOC c). split.
  - unfold CommitPlugin_Encode. rewrite Et, Eg. cbn [mbind res_bind].
    rewrite clear_token_cell by done. fold rep. by rewrite Ec.
  - unfold CommitPlugin_Decode. rewrite boc_roundtrip. cbn [wrap_err mbind res_bind]. rewrite Es.
    cbn [wrap_err mbind res_bind fst rep commit_cell_report cr_RMNSignatures cr_PriceUpdates cr_MerkleRoot
         pu_TokenPriceUpdates pu_GasPriceUpdates mrs_BlessedMerkleRoots mrs_UnblessedMerkleRoots].
    rewrite decode_encode_signatures, !decode_encode_roots, Dt, Dg by done. by destruct r.
Qed.
End facts.
