(* ===== verification/ExecuteCodec.v ===== *)
(** * ExecuteCodec: pkg/ccip/codec/executecodec.go

    The execute plugin's reports between the chainlink-common types and the
    cells of [Ocr].  The extra-data codec (a registry of other chains' decoders)
    and [tlb.FromNano] are not part of the repository: the section's variables
    stand for them, and [range_map] for the order in which a [range] loop meets
    the entries of a map. *)

From S2P Require Import Prelude Cells Tlb Snake SnakeFacts Ocr Onramp AddressCodec ExtraData CommitCodec.

(** The fields of the chainlink-common types that the codec uses. *)
Record RampTokenAmount := {
  ra_SourcePoolAddress : bytes;
  ra_DestTokenAddress : bytes;
  ra_ExtraData : bytes;
  ra_Amount : option Z;
  ra_DestExecData : bytes;
}.
Record MessageHeader := {
  mh_MessageID : bytes;
  mh_SourceChainSelector : Z;
  mh_DestChainSelector : Z;
  mh_SequenceNumber : Z;
  mh_Nonce : Z;
}.
Record Message := {
  me_Header : MessageHeader;
  me_Sender : bytes;
  me_Data : bytes;
  me_Receiver : bytes;
  me_ExtraArgs : bytes;
  me_TokenAmounts : list RampTokenAmount;
}.
Record ExecutePluginReportSingleChain := {
  ch_SourceChainSelector : Z;
  ch_Messages : list Message;
  ch_OffchainTokenData : list (list bytes);
  ch_Proofs : list bytes;
  ch_ProofFlagBits : option Z;
}.
Abbreviation ExecutePluginReport := (list ExecutePluginReportSingleChain).

Section codec.
Context {AL : AddrLib} {CL : CellLib}.

(** [ccipocr3.ExtraDataCodec] and [tlb.FromNano]. *)
Variables (DecodeTokenAmountDestExecData DecodeExtraArgs : bytes → Z → res (gmap string anyv)).
Variable FromNano : Z → nat → res Z.
Variable range_map : gmap string anyv → list (string * anyv).

(** The destination gas amount of a token transfer. *)
Definition token_gas (sel : Z) (tokenAmount : RampTokenAmount) : res Z :=
  destExecDataDecodedMap ← wrap_err "failed to decode dest exec data"
    (DecodeTokenAmountDestExecData (ra_DestExecData tokenAmount) sel);
  wrap_err "extract dest gas amount" (extractDestGasAmountFromMap (range_map destExecDataDecodedMap)).

Definition encode_token_amount (sel : Z) (tokenAmount : RampTokenAmount) : res Any2TVMTokenTransfer :=
  match ra_Amount tokenAmount with
  | None => Err "empty amount for token"
  | Some amount =>
      if (Z.sgn amount <? 0)%Z then Err "negative amount for token" else
      if negb (length (ra_DestTokenAddress tokenAmount) =? 36) then Err "invalid destTokenAddress address" else
      destGasAmount ← token_gas sel tokenAmount;
      extraData ← wrap_err "pack extra data" (ToCell (Tlb:=SnakeBytes) (ra_ExtraData tokenAmount));
      if length (ra_DestTokenAddress tokenAmount) <? 36 then Err "invalid dest token address length" else
      destTokenAddrStr ← AddressBytesToString (ra_DestTokenAddress tokenAmount);
      DestPoolTonAddr ← wrap_err "invalid dest token address" (ParseAddr destTokenAddrStr);
      Ok {| tt_SourcePoolAddress := ra_SourcePoolAddress tokenAmount;
            tt_ExtraData := extraData;
            tt_DestPoolAddress := DestPoolTonAddr;
            tt_Amount := Some amount;
            tt_DestGasAmount := destGasAmount |}
  end.

(** The gas limit of a message; the zero value of [tlb.Coins] stands for no limit. *)
Definition encode_gas_limit (sel : Z) (msg : Message) : res Z :=
  gasLimitBigInt ←
    (if 0 <? length (me_ExtraArgs msg) then
       extraArgsDecodeMap ← wrap_err "failed to decode extra args" (DecodeExtraArgs (me_ExtraArgs msg) sel);
       wrap_err "parse extra args map to get gas limit" (parseExtraArgsMap (range_map extraArgsDecodeMap))
     else Ok None);
  match gasLimitBigInt with
  | Some g => wrap_err "convert gas limit to TON cell" (FromNano g 0)
  | None => Ok 0%Z
  end.

Definition encode_message (sel : Z) (msg : Message) : res Any2TVMRampMessage :=
  tokenAmounts ← res_map (encode_token_amount sel) (me_TokenAmounts msg);
  let header := {|
    rh_MessageID := mh_MessageID (me_Header msg);
    rh_SourceChainSelector := mh_SourceChainSelector (me_Header msg);
    rh_DestChainSelector := mh_DestChainSelector (me_Header msg);
    rh_SequenceNumber := mh_SequenceNumber (me_Header msg);
    rh_Nonce := mh_Nonce (me_Header msg) |} in
  tonReceiverAddrStr ← wrap_err "error convert receiver address" (AddressBytesToString (me_Receiver msg));
  tonReceiverAddr ← wrap_err "invalid receiver address" (ParseAddr tonReceiverAddrStr);
  gasLimit ← encode_gas_limit sel msg;
  Ok {| rm_Header := header;
        rm_Sender := me_Sender msg;
        rm_Data := me_Data msg;
        rm_Receiver := tonReceiverAddr;
        rm_GasLimit := gasLimit;
        rm_TokenAmounts := tokenAmounts |}.

(** Only the token data of the first message is kept. *)
Definition encode_token_data (chainReport : ExecutePluginReportSingleChain) : list bytes :=
  match ch_Messages chainReport, ch_OffchainTokenData chainReport with
  | _ :: _, data :: _ => data
  | _, _ => []
  end.

Definition encode_chain_report (chainReport : ExecutePluginReportSingleChain) : res ExecuteReport :=
  rampMessages ← res_map (encode_message (ch_SourceChainSelector chainReport)) (ch_Messages chainReport);
  Ok {| er_SourceChainSelector := ch_SourceChainSelector chainReport;
        er_OffChainTokenData := encode_token_data chainReport;
        er_Messages := rampMessages;
        er_Proofs := ch_Proofs chainReport;
        er_ProofFlagBits := ch_ProofFlagBits chainReport |}.

(** [None] is the nil byte slice returned for a report without chain reports. *)
Definition ExecutePlugin_Encode (report : ExecutePluginReport) : res (option bytes) :=
  match report with
  | [] => Ok None
  | _ =>
      tonReports ← res_map encode_chain_report report;
      chainedReports ← wrap_err "pack execute reports" (ToCell (Tlb:=SnakeRef ExecuteReport_tlb) tonReports);
      Ok (Some (ToBOC chainedReports))
  end.

Definition decode_token_amount (tokenAmount : Any2TVMTokenTransfer) : res RampTokenAmount :=
  extraData ← wrap_err "unpack extra data"
    (LoadFromCell (Tlb:=SnakeBytes) (BeginParse (tt_ExtraData tokenAmount)));
  destTokenAddr ← AddressStringToBytes (AddrString (tt_DestPoolAddress tokenAmount));
  Ok {| ra_SourcePoolAddress := tt_SourcePoolAddress tokenAmount;
        ra_DestTokenAddress := destTokenAddr;
        ra_ExtraData := extraData.1;
        ra_Amount := tt_Amount tokenAmount;
        ra_DestExecData := be_bytes 4 (tt_DestGasAmount tokenAmount) |}.

(** The extra arguments that are rebuilt from a gas limit. *)
Definition rebuilt_extra_args (gasLimit : Z) : GenericExtraArgsV2 :=
  {| gea_GasLimit := Some gasLimit; gea_AllowOutOfOrderExecution := true |}.

Definition decode_message (msg : Any2TVMRampMessage) : res Message :=
  tokenAmounts ← res_map decode_token_amount (rm_TokenAmounts msg);
  receiverAddr ← AddressStringToBytes (AddrString (rm_Receiver msg));
  extraArgsCell ← wrap_err "convert extra args to cell"
    (ToCell (Tlb:=GenericExtraArgsV2_tlb) (rebuilt_extra_args (rm_GasLimit msg)));
  messageID ← to_array 32 (rh_MessageID (rm_Header msg));
  Ok {| me_Header := {|
          mh_MessageID := messageID;
          mh_SourceChainSelector := rh_SourceChainSelector (rm_Header msg);
          mh_DestChainSelector := rh_DestChainSelector (rm_Header msg);
          mh_SequenceNumber := rh_SequenceNumber (rm_Header msg);
          mh_Nonce := rh_Nonce (rm_Header msg) |};
        me_Sender := rm_Sender msg;
        me_Data := rm_Data msg;
        me_Receiver := receiverAddr;
        me_ExtraArgs := ToBOC extraArgsCell;
        me_TokenAmounts := tokenAmounts |}.

Definition decode_token_data (data : list bytes) : list (list bytes) :=
  match data with [] => [] | _ => [data] end.

Definition decode_chain_report (tonReport : ExecuteReport) : res ExecutePluginReportSingleChain :=
  proofs ← res_map (to_array 32) (er_Proofs tonReport);
  messages ← res_map decode_message (er_Messages tonReport);
  Ok {| ch_SourceChainSelector := er_SourceChainSelector tonReport;
        ch_Messages := messages;
        ch_OffchainTokenData := decode_token_data (er_OffChainTokenData tonReport);
        ch_Proofs := proofs;
        ch_ProofFlagBits := er_ProofFlagBits tonReport |}.

Definition ExecutePlugin_Decode (data : bytes) : res ExecutePluginReport :=
  c ← wrap_err "decode BOC" (FromBOC data);
  unpackedReports ← wrap_err "unpack execute reports"
    (LoadFromCell (Tlb:=SnakeRef ExecuteReport_tlb) (BeginParse c));
  res_map decode_chain_report unpackedReports.1.
End codec.

(** ** Facts *)

Section facts.
Context {AL : AddrLib} {LL : AddrLaws} {CL : CellLib} {CV : CellView} {CW : CellLaws}.
Variables (DecodeTokenAmountDestExecData DecodeExtraArgs : bytes → Z → res (gmap string anyv)).
Variable FromNano : Z → nat → res Z.
Variable range_map : gmap string anyv → list (string * anyv).

Local Abbreviation token_gas := (token_gas DecodeTokenAmountDestExecData range_map).
Local Abbreviation encode_token_amount := (encode_token_amount DecodeTokenAmountDestExecData range_map).
Local Abbreviation encode_gas_limit := (encode_gas_limit DecodeExtraArgs FromNano range_map).
Local Abbreviation encode_message :=
  (encode_message DecodeTokenAmountDestExecData DecodeExtraArgs FromNano range_map).
Local Abbreviation encode_chain_report :=
  (encode_chain_report DecodeTokenAmountDestExecData DecodeExtraArgs FromNano range_map).
Local Abbreviation Encode :=
  (ExecutePlugin_Encode DecodeTokenAmountDestExecData DecodeExtraArgs FromNano range_map).

(** *** Domain *)

Definition RampTokenAmount_ok (sel : Z) (t : RampTokenAmount) : Prop :=
  pool_addr_ok (ra_SourcePoolAddress t) ∧ length (ra_DestTokenAddress t) = 36 ∧
  big_ok 256 (ra_Amount t) ∧ ∃ g, token_gas sel t = Ok g ∧ uint_ok 32 g.
Definition MessageHeader_ok (h : MessageHeader) : Prop :=
  length (mh_MessageID h) = 32 ∧ uint_ok 64 (mh_SourceChainSelector h) ∧
  uint_ok 64 (mh_DestChainSelector h) ∧ uint_ok 64 (mh_SequenceNumber h) ∧ uint_ok 64 (mh_Nonce h).
Definition Message_ok (sel : Z) (m : Message) : Prop :=
  MessageHeader_ok (me_Header m) ∧ xaddr_ok (me_Sender m) ∧ length (me_Receiver m) = 36 ∧
  (∃ g, encode_gas_limit sel m = Ok g ∧ coins_ok g) ∧ Forall (RampTokenAmount_ok sel) (me_TokenAmounts m).
Definition ChainReport_ok (r : ExecutePluginReportSingleChain) : Prop :=
  uint_ok 64 (ch_SourceChainSelector r) ∧ Forall (Message_ok (ch_SourceChainSelector r)) (ch_Messages r) ∧
  Forall (λ p, length p = 32) (ch_Proofs r) ∧ big_ok 256 (ch_ProofFlagBits r).

(** *** Normal form: what decoding an encoded report yields *)

(** A raw address with the workchain that survives: its low byte, sign-extended. *)
Definition normal_addr (a : bytes) : bytes :=
  match a with
  | _ :: _ :: _ :: w :: d => raw_of w d
  | _ => a
  end.
Definition ok_or {A} (d : A) (r : res A) : A := match r with Ok a => a | _ => d end.
Definition normal_token (sel : Z) (t : RampTokenAmount) : RampTokenAmount :=
  {| ra_SourcePoolAddress := ra_SourcePoolAddress t;
     ra_DestTokenAddress := normal_addr (ra_DestTokenAddress t);
     ra_ExtraData := ra_ExtraData t;
     ra_Amount := ra_Amount t;
     ra_DestExecData := be_bytes 4 (ok_or 0%Z (token_gas sel t)) |}.
Definition extra_args_of (g : Z) : bytes :=
  match ToCell (Tlb:=GenericExtraArgsV2_tlb) (rebuilt_extra_args g) with Ok c => ToBOC c | _ => [] end.
Definition normal_message (sel : Z) (m : Message) : Message :=
  {| me_Header := me_Header m; me_Sender := me_Sender m; me_Data := me_Data m;
     me_Receiver := normal_addr (me_Receiver m);
     me_ExtraArgs := extra_args_of (ok_or 0%Z (encode_gas_limit sel m));
     me_TokenAmounts := normal_token sel <$> me_TokenAmounts m |}.
Definition normal_chain_report (r : ExecutePluginReportSingleChain) : ExecutePluginReportSingleChain :=
  {| ch_SourceChainSelector := ch_SourceChainSelector r;
     ch_Messages := normal_message (ch_SourceChainSelector r) <$> ch_Messages r;
     ch_OffchainTokenData := decode_token_data (encode_token_data r);
     ch_Proofs := ch_Proofs r;
     ch_ProofFlagBits := ch_ProofFlagBits r |}.

(** *** The address of 36 raw bytes, there and back *)

Lemma addr_through_string a :
  length a = 36 →
  ∃ s p, AddressBytesToString a = Ok s ∧ ParseAddr s = Ok p ∧ std_addr p ∧
    AddressStringToBytes (AddrString p) = Ok (normal_addr a).
Proof.
  intros Ha. do 4 (destruct a as [|? a]; [done|]). cbn [length] in Ha.
  assert (length a = 32) as Hd by lia.
  assert (std_addr (NewAddress x00 b2 a)) as Hs by by exists b2, a.
  eexists _, (NewAddress x00 b2 a). split; [by apply AddressBytesToString_ok|].
  rewrite parse_string by done. split_and!; [done|done|].
  unfold AddressStringToBytes. rewrite parse_string by done. cbn [wrap_err mbind res_bind normal_addr]. by rewrite ToRawAddr_new.
Qed.

Lemma token_codec sel t :
  RampTokenAmount_ok sel t →
  ∃ u, encode_token_amount sel t = Ok u ∧ Any2TVMTokenTransfer_ok u ∧
    decode_token_amount u = Ok (normal_token sel t).
Proof.
  intros (Hp & Ha & Hv & g & Hg & Hu). destruct (ra_Amount t) as [v|] eqn:Ev; [|done].
  destruct (addr_through_string _ Ha) as (s & p & Es & Ep & Hstd & Eb).
  destruct (SnakeBytes_lawful (ra_ExtraData t) I) as (c & Ec & s' & Ed).
  unfold ExecuteCodec.encode_token_amount. rewrite Ev, Ha, Hg, Ec, Es. cbn in Hv.
  rewrite (proj2 (Z.ltb_ge _ _)) by (destruct v; cbn; lia). cbn [Nat.eqb Nat.ltb Nat.leb negb wrap_err mbind res_bind].
  rewrite Ep. eexists. split; [reflexivity|]. split; [by split_and!|].
  unfold decode_token_amount. cbn [tt_ExtraData tt_DestPoolAddress]. rewrite Ed, Eb.
  cbn. unfold normal_token. by rewrite Hg, Ev.
Qed.

Lemma extra_args_cell g :
  coins_ok g → ∃ c, ToCell (Tlb:=GenericExtraArgsV2_tlb) (rebuilt_extra_args g) = Ok c.
Proof.
  intros Hg. destruct (stream_cell _ _ _ _ _ GenericExtraArgsV2_lawful (rebuilt_extra_args g)) as (c & E & _).
  - unfold GenericExtraArgsV2_ok, coins_ok in *. cbn [big_ok gea_GasLimit rebuilt_extra_args].
    assert (2 ^ 120 < 2 ^ Z.of_nat 256)%Z by (by vm_compute). lia.
  - by exists c.
Qed.

Lemma message_codec sel m :
  Message_ok sel m →
  ∃ u, encode_message sel m = Ok u ∧ Any2TVMRampMessage_ok u ∧ decode_message u = Ok (normal_message sel m).
Proof.
  intros ((H1 & H2 & H3 & H4 & H5) & Hs & Hr & (g & Eg & Hg) & Ht).
  destruct (res_map_codec _ _ _ _ _ _ (token_codec sel) Ht) as (us & Eus & Hus & Dus).
  destruct (addr_through_string _ Hr) as (s & p & Es & Ep & Hstd & Eb).
  destruct (extra_args_cell g Hg) as [c Ec].
  unfold ExecuteCodec.encode_message. rewrite Eus, Es, Eg. cbn [wrap_err mbind res_bind]. rewrite Ep.
  eexists. split; [reflexivity|].
  split; [split; [split_and!; try done; unfold bits_ok; cbn [rm_Header rh_MessageID]; lia|by split_and!]|].
  unfold decode_message. cbn [rm_TokenAmounts rm_Receiver rm_GasLimit rm_Header rh_MessageID].
  rewrite Dus, Eb, Ec, to_array_exact by done. cbn. unfold normal_message, extra_args_of. rewrite Eg. cbn [ok_or].
  rewrite Ec. by destruct (me_Header m).
Qed.

Lemma chain_report_codec r :
  ChainReport_ok r →
  ∃ u, encode_chain_report r = Ok u ∧ ExecuteReport_ok u ∧ decode_chain_report u = Ok (normal_chain_report r).
Proof.
  intros (Hs & Hm & Hp & Hb).
  destruct (res_map_codec _ _ _ _ _ _ (message_codec _) Hm) as (us & Eus & Hus & Dus).
  unfold ExecuteCodec.encode_chain_report. rewrite Eus. cbn [mbind res_bind].
  eexists. split; [reflexivity|]. split; [by split_and!|].
  unfold decode_chain_report. cbn [er_Proofs er_Messages].
  rewrite (res_map_fmap _ id), list_fmap_id.
  - cbn [mbind res_bind]. by rewrite Dus.
  - eapply Forall_impl; [exact Hp|]. intros p. apply to_array_exact.
Qed.

Lemma execute_codec r :
  r ≠ [] → Forall ChainReport_ok r →
  ∃ bs, Encode r = Ok (Some bs) ∧ ExecutePlugin_Decode bs = Ok (normal_chain_report <$> r).
Proof.
  intros Hne Hr.
  destruct (res_map_codec _ _ _ _ _ _ chain_report_codec Hr) as (us & Eus & Hus & Dus).
  destruct (snake_ref_lawful _ _ _ _ _ ExecuteReport_lawful us Hus) as (c & Ec & s & Es).
  exists (ToBOC c). split.
  - unfold ExecutePlugin_Encode. destruct r; [done|]. rewrite Eus. cbn [mbind res_bind]. by rewrite Ec.
  - unfold ExecutePlugin_Decode. rewrite boc_roundtrip. cbn [wrap_err mbind res_bind]. by rewrite Es.
Qed.
End facts.
