(* ===== verification/CodecSpec.v ===== *)
(** * CodecSpec: what the CCIP codecs promise

    Round trips up to an explicit normal form, the inputs the encoders refuse,
    and the gas amounts that the executor reads from extra data. *)

From S2P Require Import Prelude Cells BitCells Tlb Snake SnakeFacts Ocr Onramp.
From S2P Require Import AddressCodec ExtraData CommitCodec ExecuteCodec.

Section address.
Context {AL : AddrLib} {LL : AddrLaws}.

(** 36 raw bytes are turned into a string that is turned back into the
    same account id, with the workchain reduced to its low byte and
    sign-extended; the bytes come back unchanged exactly when the workchain
    fits into a signed byte.  Any other length is an error. *)
Theorem address_codec_roundtrip (bs : bytes) :
  if bool_decide (length bs = 36)
  then ∃ s raw, AddressBytesToString bs = Ok s ∧ AddressStringToBytes s = Ok raw ∧
         drop 4 raw = drop 4 bs ∧ i32 (be_value (take 4 raw)) = i8 (byte_to_Z (default x00 (bs !! 3))) ∧
         (raw = bs ↔ (-128 ≤ i32 (be_value (take 4 bs)) < 128)%Z)
  else is_err (AddressBytesToString bs) = true.
Proof.
  case_bool_decide as Hl.
  - do 4 (destruct bs as [|? bs]; [done|]). cbn [length] in Hl.
    assert (length bs = 32) as Hd by lia.
    destruct (AddressCodecFacts.raw_value b2 bs) as (c0 & c1 & c2 & Er & Ev).
    exists (AddrString (NewAddress x00 b2 bs)), (raw_of b2 bs).
    split; [by apply AddressBytesToString_ok|]. split.
    { unfold AddressStringToBytes. rewrite parse_string by by exists b2, bs.
      cbn [wrap_err mbind res_bind]. by rewrite ToRawAddr_new. }
    rewrite Er. cbn [take drop lookup list_lookup default]. split; [done|]. split; [done|].
    by apply (AddressCodecFacts.raw_same b b0 b1 b2 c0 c1 c2 bs).
  - unfold AddressBytesToString. apply Nat.eqb_neq in Hl. by rewrite Hl.
Qed.
End address.

Section commit.
Context {AL : AddrLib} {LL : AddrLaws} {CL : CellLib} {CV : CellView} {CW : CellLaws}.

(** C16: every commit report whose fields are in range is encoded, and decoding
    the bytes yields the report with the token addresses in their default
    user-friendly form; a report whose addresses have that form comes back
    unchanged. *)
Theorem commit_codec_roundtrip (r : CommitPluginReport) (Hr : CommitPluginReport_ok r) :
  (∃ bs, CommitPlugin_Encode r = Ok bs ∧ CommitPlugin_Decode bs = Ok (canonical_report r)) ∧
  (Forall (λ t, ∃ a, std_addr a ∧ tp_TokenID t = AddrString a) (cp_TokenPriceUpdates r) →
   canonical_report r = r).
Proof.
  split; [by apply commit_codec|]. intros Hc. destruct r as [ts gs bs us ss]. unfold canonical_report.
  cbn [cp_TokenPriceUpdates] in *. f_equal. clear Hr. induction Hc as [|t ts (a & Ha & E) _ IH]; [done|].
  rewrite fmap_cons, IH. f_equal. destruct t as [id p]. cbn in E. subst id.
  unfold canonical_token, canonical_id. cbn. by rewrite parse_string, clear_flags_std.
Qed.
End commit.

Section commit_checks.
Context {AL : AddrLib} {CL : CellLib}.

(** The commit encoder only accepts reports in which every token address
    parses and every token and gas price is present. *)
Theorem commit_encode_checks (r : CommitPluginReport) (bs : bytes)
    (HE : CommitPlugin_Encode r = Ok bs) :
  Forall (λ t, is_ok (ParseAddr (tp_TokenID t)) = true ∧ tp_Price t ≠ None) (cp_TokenPriceUpdates r) ∧
  Forall (λ g, gp_GasPrice g ≠ None) (cp_GasPriceUpdates r).
Proof.
  unfold CommitPlugin_Encode in HE. apply bind_ok in HE as (ts & Ht & HE).
  apply bind_ok in HE as (gs & Hg & _).
  apply res_map_ok_inv, Forall2_Forall_l with (Q := λ t, is_ok (ParseAddr (tp_TokenID t)) = true ∧ tp_Price t ≠ None)
    in Ht; [|apply Forall_true; intros u t E; unfold encode_token_price in E;
             destruct (ParseAddr (tp_TokenID t)); try done; by destruct (tp_Price t)].
  apply res_map_ok_inv, Forall2_Forall_l with (Q := λ g, gp_GasPrice g ≠ None) in Hg; [done|].
  apply Forall_true. intros u g E. unfold encode_gas_price in E. by destruct (gp_GasPrice g).
Qed.

(** A report in which some price is missing is refused with an error that
    says so, provided the token addresses before it parse. *)
Theorem commit_encode_empty_price (r : CommitPluginReport) (pre post : list TokenPrice) (t : TokenPrice)
    (Hsplit : cp_TokenPriceUpdates r = pre ++ t :: post)
    (Hpre : Forall (λ t, is_ok (ParseAddr (tp_TokenID t)) = true ∧ tp_Price t ≠ None) pre)
    (Ht : is_ok (ParseAddr (tp_TokenID t)) = true) (Hp : tp_Price t = None) :
  CommitPlugin_Encode r = Err "empty token price".
Proof.
  unfold CommitPlugin_Encode. rewrite Hsplit.
  assert (res_map encode_token_price (pre ++ t :: post) = Err "empty token price") as ->; [|done].
  clear Hsplit. induction Hpre as [|u pre [Hu Hup] _ IH]; cbn [app res_map].
  - unfold encode_token_price at 2. destruct (ParseAddr (tp_TokenID t)); try done. by rewrite Hp.
  - destruct (encode_token_price u) eqn:Eu; cbn; [by rewrite IH|..];
      unfold encode_token_price in Eu; destruct (ParseAddr (tp_TokenID u)); try done; by destruct (tp_Price u).
Qed.
End commit_checks.

Section execute.
Context {AL : AddrLib} {LL : AddrLaws} {CL : CellLib} {CV : CellView} {CW : CellLaws}.
Variables (DecodeTokenAmountDestExecData DecodeExtraArgs : bytes → Z → res (gmap string anyv)).
Variable FromNano : Z → nat → res Z.
Variable range_map : gmap string anyv → list (string * anyv).

(** C17: every non-empty execute report whose fields are in range is encoded,
    and decoding the bytes yields its normal form: the raw addresses with the
    workchain reduced to a byte, the execution data rebuilt from the gas amount, the
    extra arguments rebuilt from the gas limit, the token data of the first
    message.  A report without chain reports is encoded as nil. *)
Theorem execute_codec_roundtrip (r : ExecutePluginReport)
    (Hr : Forall (ChainReport_ok DecodeTokenAmountDestExecData DecodeExtraArgs FromNano range_map) r) :
  match r with
  | [] => ExecutePlugin_Encode DecodeTokenAmountDestExecData DecodeExtraArgs FromNano range_map r = Ok None
  | _ => ∃ bs,
      ExecutePlugin_Encode DecodeTokenAmountDestExecData DecodeExtraArgs FromNano range_map r = Ok (Some bs) ∧
      ExecutePlugin_Decode bs
      = Ok (normal_chain_report DecodeTokenAmountDestExecData DecodeExtraArgs FromNano range_map <$> r)
  end.
Proof. destruct r as [|c r]; [done|]. by apply execute_codec. Qed.
End execute.

Section execute_checks.
Context {AL : AddrLib} {CL : CellLib}.
Variables (DecodeTokenAmountDestExecData DecodeExtraArgs : bytes → Z → res (gmap string anyv)).
Variable FromNano : Z → nat → res Z.
Variable range_map : gmap string anyv → list (string * anyv).
Local Abbreviation Encode :=
  (ExecutePlugin_Encode DecodeTokenAmountDestExecData DecodeExtraArgs FromNano range_map).

(** What the encoder has checked of a token transfer and of a message. *)
Definition token_checked (sel : Z) (t : RampTokenAmount) : Prop :=
  (∃ v, ra_Amount t = Some v ∧ (0 ≤ v)%Z) ∧ length (ra_DestTokenAddress t) = 36 ∧
  is_ok (token_gas DecodeTokenAmountDestExecData range_map sel t) = true.
Definition message_checked (sel : Z) (m : Message) : Prop :=
  Forall (token_checked sel) (me_TokenAmounts m) ∧ length (me_Receiver m) = 36 ∧
  is_ok (encode_gas_limit DecodeExtraArgs FromNano range_map sel m) = true.

Lemma encode_token_checked sel t u :
  encode_token_amount DecodeTokenAmountDestExecData range_map sel t = Ok u → token_checked sel t.
Proof.
  unfold encode_token_amount, token_checked. destruct (ra_Amount t) as [v|]; [|done].
  destruct (Z.ltb_spec (Z.sgn v) 0); [done|].
  destruct (Nat.eqb_spec (length (ra_DestTokenAddress t)) 36); [|done]. cbn [negb].
  destruct (token_gas _ _ _ _); try done. intros _. split_and!; [|done|done].
  exists v. split; [done|]. destruct v; cbn in *; lia.
Qed.

Lemma encode_message_checked sel m u :
  encode_message DecodeTokenAmountDestExecData DecodeExtraArgs FromNano range_map sel m = Ok u →
  message_checked sel m.
Proof.
  unfold encode_message. intros H. apply bind_ok in H as (ts & Ht & H).
  apply bind_ok in H as (s & Hs & H). apply bind_ok in H as (a & _ & H). apply bind_ok in H as (g & Hg & _).
  split; [|split].
  - eapply Forall2_Forall_l; [by apply res_map_ok_inv|]. apply Forall_true. intros v t. apply encode_token_checked.
  - apply wrap_err_ok in Hs. unfold AddressBytesToString in Hs.
    by destruct (Nat.eqb_spec (length (me_Receiver m)) 36).
  - by rewrite Hg.
Qed.

(** The execute encoder only accepts reports in which every transferred
    amount is present and not negative, every destination token and receiver
    address has 36 bytes, and a gas amount was found for every transfer and message. *)
Theorem execute_encode_checks (r : ExecutePluginReport) (bs : option bytes) (HE : Encode r = Ok bs) :
  Forall (λ c, Forall (message_checked (ch_SourceChainSelector c)) (ch_Messages c)) r.
Proof.
  destruct r as [|c r]; [constructor|]. unfold ExecutePlugin_Encode in HE.
  apply bind_ok in HE as (us & Hu & _). apply res_map_ok_inv in Hu.
  eapply Forall2_Forall_l; [exact Hu|]. apply Forall_true. intros u c' E. unfold encode_chain_report in E.
  apply bind_ok in E as (ms & Hm & _). eapply Forall2_Forall_l; [by apply res_map_ok_inv|].
  apply Forall_true. intros v m. apply encode_message_checked.
Qed.
End execute_checks.

Section extra.
Context {AL : AddrLib} {CL : CellLib} {CV : CellView} {CW : CellLaws}.

(** The first four bytes of the root cell select the layout. *)
Lemma DecodeExtraArgs_tag c tag :
  take 32 (cbits c) = bytes_bits tag → length tag = 4 →
  DecodeExtraArgsToMap (ToBOC c) =
  if bool_decide (tag = evmExtraArgsV2Tag) then
    args ← wrap_err "failed to tlb load extra args from cell"
             (LoadFromCell (Tlb:=GenericExtraArgsV2_tlb) (BeginParse c));
    Ok (GenericExtraArgsV2_map args.1)
  else if bool_decide (tag = svmExtraArgsV1Tag) then
    args ← wrap_err "failed to tlb load extra args from cell"
             (LoadFromCell (Tlb:=SVMExtraArgsV1_tlb) (BeginParse c));
    Ok (SVMExtraArgsV1_map args.1)
  else Err "unknown extra args tag".
Proof.
  intros Hb Hl.
  assert (∃ s, LoadSlice 32 (BeginParse c) = Ok (tag, s)) as [s Es].
  { destruct (load_slice (bytes_bits tag) 32 ltac:(rewrite bytes_bits_length, Hl; lia)
      (BeginParse c) (drop 32 (cbits c)) (crefs c)) as (s & E & _).
    - by rewrite parse_bits, <- Hb, take_drop.
    - by rewrite parse_refs.
    - exists s. by rewrite E, pack_bytes_bits. }
  unfold DecodeExtraArgsToMap. pose proof (boc_magic c).
  rewrite (proj2 (Nat.ltb_ge _ _)), boc_roundtrip by done. cbn [wrap_err mbind res_bind].
  by rewrite Es.
Qed.

Lemma generic_args_prefix a c :
  GenericExtraArgsV2_ok a → ToCell (Tlb:=GenericExtraArgsV2_tlb) a = Ok c →
  take 32 (cbits c) = bytes_bits evmExtraArgsV2Tag.
Proof.
  intros Ha Ec. transitivity (Z_bits 32 Onramp.evmExtraArgsV2Tag); [|reflexivity].
  eapply magic_prefix; [done| |..|exact Ec].
  - eapply lawful_pair; [apply lawful_big; lia|apply lawful_bool].
  - by split.
Qed.

Lemma svm_args_prefix a c :
  SVMExtraArgsV1_ok a → ToCell (Tlb:=SVMExtraArgsV1_tlb) a = Ok c →
  take 32 (cbits c) = bytes_bits svmExtraArgsV1Tag.
Proof.
  intros (H1 & H2 & H3) Ec. transitivity (Z_bits 32 Onramp.svmExtraArgsV1Tag); [|reflexivity].
  eapply magic_prefix; [done| |..|exact Ec].
  - eapply lawful_pair; [apply lawful_uint; lia|]. eapply lawful_pair; [apply lawful_uint; lia|].
    eapply lawful_pair; [apply lawful_bool|]. eapply lawful_pair; [apply lawful_bits|].
    apply lawful_ref, snake_bytes_list_lawful.
  - by split_and!.
Qed.

Lemma generic_args_decoded a c :
  GenericExtraArgsV2_ok a → ToCell (Tlb:=GenericExtraArgsV2_tlb) a = Ok c →
  DecodeExtraArgsToMap (ToBOC c) = Ok (GenericExtraArgsV2_map a).
Proof.
  intros Ha Ec. rewrite (DecodeExtraArgs_tag c evmExtraArgsV2Tag); [|by apply generic_args_prefix with a|done].
  destruct (stream_cell _ _ _ _ _ GenericExtraArgsV2_lawful a Ha) as (c' & Ec' & s & Es).
  rewrite Ec in Ec'. injection Ec' as <-. rewrite bool_decide_eq_true_2 by done. by rewrite Es.
Qed.

Lemma svm_args_decoded a c :
  SVMExtraArgsV1_ok a → ToCell (Tlb:=SVMExtraArgsV1_tlb) a = Ok c →
  DecodeExtraArgsToMap (ToBOC c) = Ok (SVMExtraArgsV1_map a).
Proof.
  intros Ha Ec. rewrite (DecodeExtraArgs_tag c svmExtraArgsV1Tag); [|by apply svm_args_prefix with a|done].
  destruct (stream_cell _ _ _ _ _ SVMExtraArgsV1_lawful a Ha) as (c' & Ec' & s & Es).
  rewrite Ec in Ec'. injection Ec' as <-. rewrite bool_decide_eq_false_2, bool_decide_eq_true_2 by done.
  by rewrite Es.
Qed.

(** The gas limit of generic extra arguments is found again in the map
    their encoding decodes to, in whatever order the map is ranged over; extra
    arguments for the SVM have no gas limit and are refused. *)
Theorem extra_args_gas_limit (a : GenericExtraArgsV2) (v : SVMExtraArgsV1) (c d : Cell)
    (Ha : GenericExtraArgsV2_ok a) (Hv : SVMExtraArgsV1_ok v)
    (Hc : ToCell (Tlb:=GenericExtraArgsV2_tlb) a = Ok c) (Hd : ToCell (Tlb:=SVMExtraArgsV1_tlb) v = Ok d) :
  (∃ m, DecodeExtraArgsToMap (ToBOC c) = Ok m ∧
     ∀ l, enumerates l m → parseExtraArgsMap l = Ok (gea_GasLimit a)) ∧
  (∃ m, DecodeExtraArgsToMap (ToBOC d) = Ok m ∧
     ∀ l, enumerates l m → parseExtraArgsMap l = Err "gas limit not found in extra data map").
Proof.
  split; [exists (GenericExtraArgsV2_map a)|exists (SVMExtraArgsV1_map v)].
  - split; [by apply generic_args_decoded|]. intros l Hl.
    eapply (parseExtraArgs_found l "GasLimit"); [|rewrite Hl; by apply elem_of_map_to_list|done].
    intros k w Hin. rewrite Hl in Hin. apply elem_of_map_to_list in Hin.
    apply elem_of_list_to_map_2 in Hin. set_unfold in Hin. destruct Hin as [[= -> ->]|[[= -> ->]|[]]]; done.
  - split; [by apply svm_args_decoded|]. intros l Hl. apply parseExtraArgs_missing.
    intros k w Hin. rewrite Hl in Hin. apply elem_of_map_to_list in Hin.
    apply elem_of_list_to_map_2 in Hin. set_unfold in Hin.
    repeat (destruct Hin as [[= -> ->]|Hin]; [done|]). done.
Qed.
End extra.

(** Execution data of at least four bytes gives the gas amount of its first
    four bytes, in whatever order the map is ranged over; shorter data makes the
    decoder panic. *)
Theorem dest_exec_data_gas (data : bytes) :
  if bool_decide (4 ≤ length data)
  then ∃ m, DecodeDestExecDataToMap data = Ok m ∧
         ∀ l, enumerates l m → extractDestGasAmountFromMap l = Ok (be_value (take 4 data))
  else is_panic (DecodeDestExecDataToMap data) = true.
Proof.
  unfold DecodeDestExecDataToMap, BigEndian_Uint32. case_bool_decide as Hl.
  - rewrite (proj2 (Nat.ltb_ge _ _)) by lia. eexists. split; [reflexivity|]. intros l El.
    unfold enumerates in El. rewrite map_to_list_singleton in El.
    apply Permutation_singleton_r in El as ->. done.
  - rewrite (proj2 (Nat.ltb_lt _ _)) by lia. done.
Qed.

(** ** Runs on concrete values *)

Module CodecRuns.
Import BitCells.

Definition acc1 : bytes := replicate 32 x01.
Definition id1 : string := AddrString (NewAddress x00 x00 acc1).
(** The same account in a form with other flags. *)
Definition id2 : string := AddrString (NewAddress x51 x00 acc1).
Definition raw1 : bytes := [x00; x00; x00; x00] ++ acc1.

Definition commit_report1 : CommitPluginReport :=
  let root := {| mc_ChainSel := 1%Z; mc_OnRampAddress := replicate 20 x05; mc_SeqNumsRange := (1, 10)%Z;
                 mc_MerkleRoot := replicate 32 x06 |} in
  {| cp_TokenPriceUpdates := [{| tp_TokenID := id2; tp_Price := Some 0%Z |};
                              {| tp_TokenID := id1; tp_Price := Some 7%Z |}];
     cp_GasPriceUpdates := [{| gp_ChainSel := 2%Z; gp_GasPrice := Some 9%Z |}];
     cp_BlessedMerkleRoots := [root]; cp_UnblessedMerkleRoots := [root];
     cp_RMNSignatures := [{| rs_R := replicate 32 x0a; rs_S := replicate 32 x0b |}] |}.

Lemma commit_report1_ok : CommitPluginReport_ok commit_report1.
Proof.
  split_and!; repeat (apply Forall_cons; split); try apply Forall_nil_2;
    repeat split; try (vm_compute; lia); by vm_compute.
Qed.

Lemma commit_codec_roundtrip_witness :
  ∃ bs, CommitPlugin_Encode commit_report1 = Ok bs ∧
        CommitPlugin_Decode bs = Ok (canonical_report commit_report1).
Proof. apply (commit_codec_roundtrip (LL:=BitAddrLaws) (CW:=BitLaws) commit_report1 commit_report1_ok). Defined.

Definition commit_bytes1 : bytes := ok_or [] (CommitPlugin_Encode commit_report1).

Lemma commit_encode_checks_witness : Forall (λ g, gp_GasPrice g ≠ None) (cp_GasPriceUpdates commit_report1).
Proof. apply (commit_encode_checks commit_report1 commit_bytes1). vm_compute. reflexivity. Defined.

Definition commit_report2 : CommitPluginReport :=
  {| cp_TokenPriceUpdates := [{| tp_TokenID := id1; tp_Price := Some 7%Z |};
                              {| tp_TokenID := id1; tp_Price := None |}];
     cp_GasPriceUpdates := []; cp_BlessedMerkleRoots := []; cp_UnblessedMerkleRoots := [];
     cp_RMNSignatures := [] |}.

Lemma commit_encode_empty_price_witness : CommitPlugin_Encode commit_report2 = Err "empty token price".
Proof.
  apply (commit_encode_empty_price commit_report2 [{| tp_TokenID := id1; tp_Price := Some 7%Z |}] []
           {| tp_TokenID := id1; tp_Price := None |}); [reflexivity| |by vm_compute|reflexivity].
  apply Forall_singleton. split; [by vm_compute|done].
Defined.

Definition gas_map (d : bytes) (_ : Z) : res (gmap string anyv) := DecodeDestExecDataToMap d.
Definition args_map (a : bytes) (_ : Z) : res (gmap string anyv) := DecodeExtraArgsToMap a.
Definition from_nano (v : Z) (_ : nat) : res Z := Ok v.
Definition range_map : gmap string anyv → list (string * anyv) := map_to_list.
Definition args_cell1 : Cell :=
  match ToCell (Tlb:=GenericExtraArgsV2_tlb) (rebuilt_extra_args 1000) with
  | Ok c => c | _ => BCell [] [] end.

Definition message1 : Message :=
  {| me_Header := {| mh_MessageID := replicate 32 x0c; mh_SourceChainSelector := 1%Z;
       mh_DestChainSelector := 2%Z; mh_SequenceNumber := 3%Z; mh_Nonce := 0%Z |};
     me_Sender := replicate 20 x05; me_Data := replicate 200 x0d; me_Receiver := raw1;
     me_ExtraArgs := ToBOC args_cell1;
     me_TokenAmounts := [{| ra_SourcePoolAddress := replicate 20 x05; ra_DestTokenAddress := raw1;
       ra_ExtraData := replicate 150 x0e; ra_Amount := Some 12%Z;
       ra_DestExecData := [x00; x00; x01; x00; xff] |}] |}.
Definition execute_report1 : ExecutePluginReport :=
  [{| ch_SourceChainSelector := 1%Z; ch_Messages := [message1];
      ch_OffchainTokenData := [[[x01]; [x02; x03]]]; ch_Proofs := [replicate 32 x0f];
      ch_ProofFlagBits := Some 1%Z |}].

Lemma message1_gas : encode_gas_limit args_map from_nano range_map 1 message1 = Ok 1000%Z.
Proof. vm_compute. reflexivity. Qed.
Lemma message1_token_gas :
  Forall (λ t, token_gas gas_map range_map 1 t = Ok 256%Z) (me_TokenAmounts message1).
Proof. repeat constructor. Qed.

Lemma message1_ok : Message_ok gas_map args_map from_nano range_map 1 message1.
Proof.
  split_and!; try done; [vm_compute; lia|exists 1000%Z; split; [apply message1_gas|by vm_compute]|].
  apply Forall_singleton. split_and!; [vm_compute; lia|reflexivity|by vm_compute|].
  exists 256%Z. split; [|by vm_compute]. apply (proj1 (Forall_singleton _ _) message1_token_gas).
Qed.

Lemma execute_codec_roundtrip_witness :
  ∃ bs, ExecutePlugin_Encode gas_map args_map from_nano range_map execute_report1 = Ok (Some bs) ∧
    ExecutePlugin_Decode bs
    = Ok (normal_chain_report gas_map args_map from_nano range_map <$> execute_report1).
Proof.
  apply (execute_codec_roundtrip (LL:=BitAddrLaws) (CW:=BitLaws) gas_map args_map from_nano range_map execute_report1).
  apply Forall_singleton. split_and!; [by vm_compute| |by apply Forall_singleton|by vm_compute].
  apply Forall_singleton, message1_ok.
Defined.

Definition execute_bytes1 : option bytes :=
  ok_or None (ExecutePlugin_Encode gas_map args_map from_nano range_map execute_report1).

Lemma execute_encode_checks_witness :
  Forall (λ c, Forall (message_checked gas_map args_map from_nano range_map (ch_SourceChainSelector c))
                 (ch_Messages c)) execute_report1.
Proof.
  apply (execute_encode_checks gas_map args_map from_nano range_map execute_report1 execute_bytes1).
  vm_compute. reflexivity.
Defined.

Lemma address_codec_roundtrip_witness :
  ∃ s raw, AddressBytesToString raw1 = Ok s ∧ AddressStringToBytes s = Ok raw ∧
    drop 4 raw = drop 4 raw1 ∧ i32 (be_value (take 4 raw)) = i8 (byte_to_Z (default x00 (raw1 !! 3))) ∧
    (raw = raw1 ↔ (-128 ≤ i32 (be_value (take 4 raw1)) < 128)%Z).
Proof. exact (address_codec_roundtrip (LL:=BitAddrLaws) raw1). Defined.

Definition svm_args1 : SVMExtraArgsV1 :=
  {| sea_ComputeUnits := 5%Z; sea_AccountIsWritableBitmap := 3%Z; sea_AllowOutOfOrderExecution := true;
     sea_TokenReceiver := replicate 32 x01; sea_Accounts := [replicate 32 x02] |}.
Definition svm_cell1 : Cell :=
  match ToCell (Tlb:=SVMExtraArgsV1_tlb) svm_args1 with Ok c => c | _ => BCell [] [] end.

Lemma extra_args_gas_limit_witness :
  ∃ m, DecodeExtraArgsToMap (ToBOC args_cell1) = Ok m ∧
    ∀ l, enumerates l m → parseExtraArgsMap l = Ok (Some 1000%Z).
Proof.
  apply (extra_args_gas_limit (CW:=BitLaws) (rebuilt_extra_args 1000) svm_args1 args_cell1 svm_cell1);
    [by vm_compute|split_and!; by vm_compute|vm_compute; reflexivity|vm_compute; reflexivity].
Defined.
End CodecRuns.
