(* ===== verification/ExitCodes.v ===== *)
(** * ExitCodes: pkg/ton/tvm/exit_codes.go

    The exit codes of the TVM and of the Tolk and Tact compilers, and their
    descriptions.  [ExitCode] is Go's int32. *)

From stdpp Require Import pretty.
From S2P Require Import Prelude.

Abbreviation ExitCode := Z.

Definition ExitCodeSuccess : ExitCode := 0%Z.
Definition ExitCodeSuccessVariant : ExitCode := 1%Z.
Definition ExitCodeStackUnderflow : ExitCode := 2%Z.
Definition ExitCodeStackOverflow : ExitCode := 3%Z.
Definition ExitCodeIntegerOverflow : ExitCode := 4%Z.
Definition ExitCodeIntegerOutOfExpectedRange : ExitCode := 5%Z.
Definition ExitCodeInvalidOpcode : ExitCode := 6%Z.
Definition ExitCodeTypeCheckError : ExitCode := 7%Z.
Definition ExitCodeCellOverflow : ExitCode := 8%Z.
Definition ExitCodeCellUnderflow : ExitCode := 9%Z.
Definition ExitCodeDictionaryError : ExitCode := 10%Z.
Definition ExitCodeUnknownError : ExitCode := 11%Z.
Definition ExitCodeFatalError : ExitCode := 12%Z.
Definition ExitCodeOutOfGasError : ExitCode := 13%Z.
Definition ExitCodeOutOfGasErrorVariant : ExitCode := (-14)%Z.
Definition ExitCodeVirtualizationError : ExitCode := 14%Z.
Definition ExitCodeActionListIsInvalid : ExitCode := 32%Z.
Definition ExitCodeActionListIsTooLong : ExitCode := 33%Z.
Definition ExitCodeActionIsInvalidOrNotSupported : ExitCode := 34%Z.
Definition ExitCodeInvalidSourceAddressInOutboundMessage : ExitCode := 35%Z.
Definition ExitCodeInvalidDestinationAddressInOutboundMessage : ExitCode := 36%Z.
Definition ExitCodeNotEnoughToncoin : ExitCode := 37%Z.
Definition ExitCodeNotEnoughExtraCurrencies : ExitCode := 38%Z.
Definition ExitCodeOutboundMessageDoesNotFitIntoACellAfterRewriting : ExitCode := 39%Z.
Definition ExitCodeCannotProcessAMessage : ExitCode := 40%Z.
Definition ExitCodeLibraryReferenceIsNull : ExitCode := 41%Z.
Definition ExitCodeLibraryChangeActionError : ExitCode := 42%Z.
Definition ExitCodeExceededMaximumNumberOfCellsInTheLibraryOrTheMaximumDepthOfTheMerkleTree : ExitCode := 43%Z.
Definition ExitCodeAccountStateSizeExceededLimits : ExitCode := 50%Z.
Definition ExitCodeTolkUnmatchedOpcode : ExitCode := 63%Z.
Definition ExitCodeNullReferenceException : ExitCode := 128%Z.
Definition ExitCodeInvalidSerializationPrefix : ExitCode := 129%Z.
Definition ExitCodeTactInvalidIncomingMessage : ExitCode := 130%Z.
Definition ExitCodeTactConstraintsError : ExitCode := 131%Z.
Definition ExitCodeTactAccessDenied : ExitCode := 132%Z.
Definition ExitCodeTactContractStopped : ExitCode := 133%Z.
Definition ExitCodeTactInvalidArgument : ExitCode := 134%Z.
Definition ExitCodeTactCodeOfAContractWasNotFound : ExitCode := 135%Z.
Definition ExitCodeTactInvalidStandardAddress : ExitCode := 136%Z.
Definition ExitCodeTactNotABasechainAddress : ExitCode := 138%Z.

Definition IsSuccessfulDeployment (c : ExitCode) : bool :=
  (c =? ExitCodeSuccess)%Z || (c =? ExitCodeTolkUnmatchedOpcode)%Z || (c =? ExitCodeTactInvalidIncomingMessage)%Z.

(** The cases of the switch in [Describe], in order. *)
Definition descriptions : list (ExitCode * string) := [
  (ExitCodeSuccess, "Success"%string);
  (ExitCodeStackUnderflow, "Stack underflow"%string);
  (ExitCodeStackOverflow, "Stack overflow"%string);
  (ExitCodeIntegerOverflow, "Integer overflow"%string);
  (ExitCodeIntegerOutOfExpectedRange, "Integer out of expected range"%string);
  (ExitCodeInvalidOpcode, "Invalid opcode"%string);
  (ExitCodeTypeCheckError, "Type check error"%string);
  (ExitCodeCellOverflow, "Cell overflow"%string);
  (ExitCodeCellUnderflow, "Cell underflow"%string);
  (ExitCodeDictionaryError, "Dictionary error"%string);
  (ExitCodeUnknownError, "'Unknown' error"%string);
  (ExitCodeFatalError, "Fatal error"%string);
  (ExitCodeOutOfGasError, "Out of gas error"%string);
  (ExitCodeVirtualizationError, "Virtualization error"%string);
  (ExitCodeActionListIsInvalid, "Action list is invalid"%string);
  (ExitCodeActionListIsTooLong, "Action list is too long"%string);
  (ExitCodeActionIsInvalidOrNotSupported, "Action is invalid or not supported"%string);
  (ExitCodeInvalidSourceAddressInOutboundMessage, "Invalid source address in outbound message"%string);
  (ExitCodeInvalidDestinationAddressInOutboundMessage, "Invalid destination address in outbound message"%string);
  (ExitCodeNotEnoughToncoin, "Not enough Toncoin"%string);
  (ExitCodeNotEnoughExtraCurrencies, "Not enough extra currencies"%string);
  (ExitCodeOutboundMessageDoesNotFitIntoACellAfterRewriting, "Outbound message does not fit into a cell after rewriting"%string);
  (ExitCodeCannotProcessAMessage, "Cannot process a message"%string);
  (ExitCodeLibraryReferenceIsNull, "Library reference is null"%string);
  (ExitCodeLibraryChangeActionError, "Library change action error"%string);
  (ExitCodeExceededMaximumNumberOfCellsInTheLibraryOrTheMaximumDepthOfTheMerkleTree, "Exceeded maximum number of cells in the library or the maximum depth of the Merkle tree"%string);
  (ExitCodeAccountStateSizeExceededLimits, "Account state size exceeded limits"%string);
  (ExitCodeNullReferenceException, "Null reference exception"%string);
  (ExitCodeInvalidSerializationPrefix, "Invalid serialization prefix"%string);
  (ExitCodeTactInvalidIncomingMessage, "Invalid incoming message"%string);
  (ExitCodeTactConstraintsError, "Constraints error"%string);
  (ExitCodeTactAccessDenied, "Access denied"%string);
  (ExitCodeTactContractStopped, "Contract stopped"%string);
  (ExitCodeTactInvalidArgument, "Invalid argument"%string);
  (ExitCodeTactCodeOfAContractWasNotFound, "Code of a contract was not found"%string);
  (ExitCodeTactInvalidStandardAddress, "Invalid standard address"%string);
  (ExitCodeTactNotABasechainAddress, "Not a basechain address"%string)
].

Fixpoint describe_in (cases : list (ExitCode * string)) (c : ExitCode) : option string :=
  match cases with
  | [] => None
  | (k, s) :: cases' => if (c =? k)%Z then Some s else describe_in cases' c
  end.

Definition Describe (c : ExitCode) : string :=
  match describe_in descriptions c with
  | Some s => s
  | None => ("Non-standard exit code: " ++ pretty c)%string
  end.

(** ** Facts *)

Lemma describe_in_elem cases c s : describe_in cases c = Some s → (c, s) ∈ cases.
Proof.
  induction cases as [|[k t] cases IH]; cbn; [done|]. destruct (Z.eqb_spec c k) as [->|].
  - intros [= ->]. apply list_elem_of_here.
  - intros H. by apply list_elem_of_further, IH.
Qed.

(** [prefix] and the first letters of two strings. *)
Definition non_standard (s : string) : bool := String.prefix "Non-standard" s.

Lemma descriptions_standard : forallb (λ d, negb (non_standard d.2)) descriptions = true.
Proof. reflexivity. Qed.

Fixpoint distinct_strings (l : list string) : bool :=
  match l with
  | [] => true
  | s :: l' => forallb (λ t, negb (String.eqb s t)) l' && distinct_strings l'
  end.

Lemma distinct_strings_inj {A} (l : list (A * string)) a b s :
  distinct_strings l.*2 = true → (a, s) ∈ l → (b, s) ∈ l → a = b.
Proof.
  induction l as [|[c t] l IH]; cbn; [by intros _ ?%elem_of_nil|].
  intros [H1 H2]%andb_true_iff Ha Hb.
  assert (∀ x, (x, t) ∉ l) as Hn.
  { intros x Hx. rewrite forallb_forall in H1.
    specialize (H1 t). rewrite String.eqb_refl in H1. discriminate H1.
    apply list_elem_of_In, list_elem_of_fmap. by exists (x, t). }
  apply elem_of_cons in Ha as [Ha|Ha], Hb as [Hb|Hb].
  - congruence.
  - injection Ha as -> ->. by apply Hn in Hb.
  - injection Hb as -> ->. by apply Hn in Ha.
  - by apply IH.
Qed.

Lemma describe_in_standard c s : describe_in descriptions c = Some s → non_standard s = false.
Proof.
  intros H%describe_in_elem. pose proof descriptions_standard as Hd.
  rewrite forallb_forall in Hd. apply list_elem_of_In in H. by apply Hd, negb_true_iff in H.
Qed.

(** Two exit codes with the same description are equal: the descriptions
    of the listed codes are pairwise distinct, and none of them is the text for a
    code that is not listed. *)
Theorem Describe_injective (c d : ExitCode) (H : Describe c = Describe d) : c = d.
Proof.
  unfold Describe in H.
  destruct (describe_in descriptions c) as [s|] eqn:Ec, (describe_in descriptions d) as [t|] eqn:Ed.
  - subst t. apply describe_in_elem in Ec, Ed. revert Ec Ed. by apply distinct_strings_inj.
  - apply describe_in_standard in Ec. by rewrite H in Ec.
  - apply describe_in_standard in Ed. by rewrite <- H in Ed.
  - apply (inj (String.append "Non-standard exit code: ")) in H. by apply (inj pretty) in H.
Qed.

Lemma Describe_injective_witness : Describe (-14)%Z = "Non-standard exit code: -14"%string ∧ (-14)%Z = (-14)%Z.
Proof. split; [reflexivity|]. by apply (Describe_injective (-14) (-14)). Defined.

(** A deployment counts as successful for exactly three exit codes: success
    and the two codes of contracts that do not handle an empty message. *)
Theorem IsSuccessfulDeployment_spec (c : ExitCode) :
  IsSuccessfulDeployment c = true ↔ c = 0%Z ∨ c = 63%Z ∨ c = 130%Z.
Proof.
  unfold IsSuccessfulDeployment. rewrite !orb_true_iff, !Z.eqb_eq.
  unfold ExitCodeSuccess, ExitCodeTolkUnmatchedOpcode, ExitCodeTactInvalidIncomingMessage. tauto.
Qed.
