(* ===== verification/Trace.v ===== *)
(** * Trace: pkg/ton/tracetracking/message.go

    Messages, the transactions they turn into and the traces they start.  The
    code links [ReceivedMessage]s by pointers and updates them in place, so the
    model has a heap: a list of messages, a pointer being an index.  The
    [tlb.Transaction] data is third-party; the records hold the fields the code reads. *)

From S2P Require Import Prelude Cells ExitCodes.

Inductive MsgStatus := NotFound | Received | Cascading | Finalized.
(** The constants of the Go enumeration ([iota] is 1 on the second line). *)
Definition MsgStatus_value (s : MsgStatus) : Z :=
  match s with NotFound => -1 | Received => 1 | Cascading => 2 | Finalized => 3 end.

Section types.
Context {AL : AddrLib} {CL : CellLib}.

(** ** tlb data *)
Record InternalMessage := {
  im_SrcAddr : Address;
  im_DstAddr : Address;
  im_CreatedLT : Z;
  im_Amount : Z;
  im_FwdFee : Z;
  im_Bounced : bool;
  im_Body : Cell;
}.
Record ExternalMessageIn := { xi_SrcAddr : Address; xi_DstAddr : Address; xi_Body : Cell; xi_ImportFee : Z }.
Record ExternalMessageOut := { xo_CreatedAt : Z; xo_CreatedLT : Z; xo_Body : Cell }.
Inductive Message :=
| MsgTypeInternal (m : InternalMessage)
| MsgTypeExternalIn (m : ExternalMessageIn)
| MsgTypeExternalOut (m : ExternalMessageOut).
Record ComputePhaseVM := { cv_Success : bool; cv_ExitCode : Z; cv_GasFees : Z }.
(** An ordinary transaction: whether a bounce phase is present and is
    [BouncePhaseOk], the compute phase if the VM ran, the storage fees if there
    is a storage phase, the action fees if there is an action phase that names them. *)
Record TransactionDescriptionOrdinary := {
  td_BouncePhase : option bool;
  td_ComputePhase : option ComputePhaseVM;
  td_StoragePhase : option Z;
  td_ActionPhase : option (option Z);
}.
(** [tx_In] is nil, [tx_Out] nil or the outcome of [ToSlice], [tx_Description]
    None for the descriptions the code ignores. *)
Record Transaction := {
  tx_In : option Message;
  tx_Out : option (res (list Message));
  tx_LT : Z;
  tx_TotalFees : Z;
  tx_Description : option TransactionDescriptionOrdinary;
}.

(** ** The package's own data *)
Record SentMessage := {
  sm_InternalMsg : InternalMessage;
  sm_Amount : Z;
  sm_LamportTime : Z;
  sm_FwdFee : Z;
}.
Record OutgoingExternalMessages := { oe_CreatedAt : Z; oe_LT : Z; oe_Body : Cell }.

(** [LoadStringSnake] of tonutils-go. *)
Variable LoadStringSnake : Slice → res string.
Definition AsString (e : OutgoingExternalMessages) : res string :=
  wrap_err "failed to parse event body" (LoadStringSnake (BeginParse (oe_Body e))).

Abbreviation ptr := nat.

Record ReceivedMessage := {
  rm_InternalMsg : option InternalMessage;
  rm_Amount : Z;
  rm_ExternalMsg : option ExternalMessageIn;
  rm_LamportTime : Z;
  rm_ImportFee : Z;
  rm_FwdFee : Z;
  rm_StorageFeeCharged : Z;
  rm_MsgFeesChargedToSender : Z;
  rm_TotalActionFees : Z;
  rm_GasFee : Z;
  rm_MagicFee : Z;
  rm_EmittedBouncedMessage : bool;
  rm_Success : bool;
  rm_ExitCode : ExitCode;
  rm_Sent : list SentMessage;
  rm_Received : list (option ptr);
  rm_External : list OutgoingExternalMessages;
}.

Definition NewSentMessage (internalMessage : InternalMessage) : SentMessage :=
  {| sm_InternalMsg := internalMessage;
     sm_Amount := im_Amount internalMessage;
     sm_LamportTime := im_CreatedLT internalMessage;
     sm_FwdFee := im_FwdFee internalMessage |}.

(** Field updates. *)
Definition set_phases (m : ReceivedMessage) (bounced success : bool) (code : ExitCode)
    (gas storage action magic : Z) : ReceivedMessage :=
  {| rm_InternalMsg := rm_InternalMsg m; rm_Amount := rm_Amount m; rm_ExternalMsg := rm_ExternalMsg m;
     rm_LamportTime := rm_LamportTime m; rm_ImportFee := rm_ImportFee m; rm_FwdFee := rm_FwdFee m;
     rm_StorageFeeCharged := storage; rm_MsgFeesChargedToSender := rm_MsgFeesChargedToSender m;
     rm_TotalActionFees := action; rm_GasFee := gas; rm_MagicFee := magic;
     rm_EmittedBouncedMessage := bounced; rm_Success := success; rm_ExitCode := code;
     rm_Sent := rm_Sent m; rm_Received := rm_Received m; rm_External := rm_External m |}.
Definition set_outgoing (m : ReceivedMessage) (fees : Z) (sent : list SentMessage)
    (received : list (option ptr)) (external : list OutgoingExternalMessages) : ReceivedMessage :=
  {| rm_InternalMsg := rm_InternalMsg m; rm_Amount := rm_Amount m; rm_ExternalMsg := rm_ExternalMsg m;
     rm_LamportTime := rm_LamportTime m; rm_ImportFee := rm_ImportFee m; rm_FwdFee := rm_FwdFee m;
     rm_StorageFeeCharged := rm_StorageFeeCharged m; rm_MsgFeesChargedToSender := fees;
     rm_TotalActionFees := rm_TotalActionFees m; rm_GasFee := rm_GasFee m; rm_MagicFee := rm_MagicFee m;
     rm_EmittedBouncedMessage := rm_EmittedBouncedMessage m; rm_Success := rm_Success m;
     rm_ExitCode := rm_ExitCode m; rm_Sent := sent; rm_Received := received; rm_External := external |}.
Definition set_TotalActionFees (m : ReceivedMessage) (z : Z) : ReceivedMessage :=
  set_phases m (rm_EmittedBouncedMessage m) (rm_Success m) (rm_ExitCode m) (rm_GasFee m)
    (rm_StorageFeeCharged m) z (rm_MagicFee m).

(** ** From a transaction to a message *)

Definition AppendEvent (m : ReceivedMessage) (outMsg : ExternalMessageOut) : ReceivedMessage :=
  set_outgoing m (rm_MsgFeesChargedToSender m) (rm_Sent m) (rm_Received m)
    (rm_External m ++ [{| oe_CreatedAt := xo_CreatedAt outMsg; oe_LT := xo_CreatedLT outMsg;
                          oe_Body := xo_Body outMsg |}]).

Definition AppendSentMessage (m : ReceivedMessage) (outgoing : InternalMessage) : ReceivedMessage :=
  set_outgoing m (rm_MsgFeesChargedToSender m + im_FwdFee outgoing)%Z
    (rm_Sent m ++ [NewSentMessage outgoing]) (rm_Received m) (rm_External m).

Fixpoint append_outgoing (m : ReceivedMessage) (outgoingMessages : list Message) : res ReceivedMessage :=
  match outgoingMessages with
  | [] => Ok m
  | MsgTypeInternal i :: ms => append_outgoing (AppendSentMessage m i) ms
  | MsgTypeExternalOut e :: ms => append_outgoing (AppendEvent m e) ms
  | MsgTypeExternalIn _ :: _ =>
      Panic "ReceivedMessage should not contain external in messages, only external out messages"
  end.

Definition mapOutgoingMessages (m : ReceivedMessage) (outgoingMessages : list Message) : res ReceivedMessage :=
  append_outgoing (set_outgoing m (rm_MsgFeesChargedToSender m) [] (rm_Received m) (rm_External m))
    outgoingMessages.

(** The literal [res := ReceivedMessage{...}] of [MapToReceivedMessage]. *)
Definition initial_message (tx : Transaction) (incoming : Message) : ReceivedMessage :=
  let internalMessage := match incoming with MsgTypeInternal i => Some i | _ => None end in
  let externalMessage := match incoming with MsgTypeExternalIn e => Some e | _ => None end in
  let importFee := from_option xi_ImportFee 0%Z externalMessage in
  {| rm_InternalMsg := internalMessage;
     rm_Amount := from_option im_Amount 0%Z internalMessage;
     rm_ExternalMsg := externalMessage;
     rm_LamportTime := tx_LT tx;
     rm_ImportFee := importFee;
     rm_FwdFee := from_option im_FwdFee 0%Z internalMessage;
     rm_StorageFeeCharged := 0;
     rm_MsgFeesChargedToSender := 0;
     rm_TotalActionFees := 0;
     rm_GasFee := 0;
     rm_MagicFee := tx_TotalFees tx - importFee;
     rm_EmittedBouncedMessage := false;
     rm_Success := false;
     rm_ExitCode := 0;
     rm_Sent := []; rm_Received := []; rm_External := [] |}.

(** The phases of an ordinary transaction, in the order of the code. *)
Definition apply_phases (m : ReceivedMessage) (dsc : TransactionDescriptionOrdinary) : ReceivedMessage :=
  let bounced := match td_BouncePhase dsc with Some true => true | _ => rm_EmittedBouncedMessage m end in
  let '(success, code, gas, magic) :=
    match td_ComputePhase dsc with
    | Some c => (cv_Success c, cv_ExitCode c, cv_GasFees c, rm_MagicFee m - cv_GasFees c)%Z
    | None => (rm_Success m, rm_ExitCode m, rm_GasFee m, rm_MagicFee m)
    end in
  let '(storage, magic) :=
    match td_StoragePhase dsc with
    | Some s => (s, magic - s)%Z
    | None => (rm_StorageFeeCharged m, magic)
    end in
  let '(action, magic) :=
    match td_ActionPhase dsc with
    | Some (Some a) => (a, magic - a)%Z
    | _ => (rm_TotalActionFees m, magic)
    end in
  set_phases m bounced success code gas storage action magic.

Definition MapToReceivedMessage (tx : Transaction) : res ReceivedMessage :=
  match tx_In tx with
  | None => Panic "nil pointer dereference"
  | Some incoming =>
      let m := initial_message tx incoming in
      let m := match tx_Description tx with Some dsc => apply_phases m dsc | None => m end in
      match tx_Out tx with
      | None => Ok m
      | Some out =>
          outgoingMessages ← wrap_err "failed to get outgoing messages" out;
          mapOutgoingMessages m outgoingMessages
      end
  end.

(** ** Fees and amounts *)

Definition Sum (values : list Z) : Z := foldl Z.add 0%Z values.

(** ** The heap *)

Abbreviation heap := (list ReceivedMessage).

Definition deref (h : heap) (p : option ptr) : res ReceivedMessage :=
  match p with
  | Some i => match h !! i with Some m => Ok m | None => Panic "dangling pointer" end
  | None => Panic "nil pointer dereference"
  end.

Fixpoint deref_all (h : heap) (ps : list (option ptr)) : res (list ReceivedMessage) :=
  match ps with
  | [] => Ok []
  | p :: ps' => m ← deref h p; ms ← deref_all h ps'; Ok (m :: ms)
  end.

(** [total := m.TotalActionFees] copies the pointer: the additions update the
    message as well as the result. *)
Definition TotalActionPhaseFees (h : heap) (i : ptr) : res (Z * heap) :=
  m ← deref h (Some i);
  let total := foldl (λ t s, t + sm_FwdFee s)%Z (rm_TotalActionFees m) (rm_Sent m) in
  rs ← deref_all h (rm_Received m);
  let total := foldl (λ t r, t + rm_FwdFee r)%Z total rs in
  Ok (total, <[i := set_TotalActionFees m total]> h).

Definition TotalTransactionExecutionFee (h : heap) (i : ptr) : res (Z * heap) :=
  m ← deref h (Some i);
  r ← TotalActionPhaseFees h i;
  Ok (Sum [rm_ImportFee m; rm_GasFee m; r.1; rm_MagicFee m], r.2).

Definition Status (m : ReceivedMessage) : MsgStatus :=
  if length (rm_Sent m) =? 0 then Finalized
  else if negb (length (rm_Received m) =? 0) then Cascading
  else Received.

Definition OutgoingAmount (h : heap) (m : ReceivedMessage) : res Z :=
  let base := foldl (λ t s, t + sm_Amount s)%Z 0%Z (rm_Sent m) in
  rs ← deref_all h (rm_Received m);
  Ok (foldl (λ t r, t + rm_Amount r)%Z base rs).

Definition NetCreditResult (h : heap) (m : ReceivedMessage) : res Z :=
  out ← OutgoingAmount h m; Ok (rm_Amount m - out)%Z.

(** ** Waiting for the outgoing messages *)

(** What a subscription delivers for an address from a Lamport time on: the
    transactions in order, and whether the channel is closed after them (an
    open channel blocks). *)
Abbreviation subscription := (Address → Z → list Transaction * bool).

Definition MatchesReceived (m : SentMessage) (incomingMessage : InternalMessage) : bool :=
  let sentMessage := sm_InternalMsg m in
  let isSameMessage := true in
  let isSameMessage :=
    if negb (AddrEquals (im_SrcAddr incomingMessage) (im_SrcAddr sentMessage)) then false else isSameMessage in
  let isSameMessage :=
    if negb (AddrEquals (im_DstAddr incomingMessage) (im_DstAddr sentMessage)) then false else isSameMessage in
  if negb (im_CreatedLT incomingMessage =? im_CreatedLT sentMessage)%Z then false else isSameMessage.

Definition MapToReceivedMessageIfMatches (m : SentMessage) (rTX : Transaction) : res (option ReceivedMessage) :=
  match tx_In rTX with
  | Some (MsgTypeInternal incommingMessage) =>
      if negb (MatchesReceived m incommingMessage) then Ok None else
      receivedMessage ← wrap_err "failed to parse sent message" (MapToReceivedMessage rTX);
      Ok (Some receivedMessage)
  | _ => Err "transaction is not internal"
  end.

(** The loop over the channel; [None] when the channel is closed first. *)
Fixpoint receive_match (sent : SentMessage) (txs : list Transaction) (closed : bool)
    : res (option ReceivedMessage) :=
  match txs with
  | [] => if closed then Ok None else Diverge
  | rTX :: txs' =>
      match tx_In rTX with
      | Some (MsgTypeInternal _) =>
          r ← wrap_err "failed to process incoming message" (MapToReceivedMessageIfMatches sent rTX);
          match r with
          | Some received => Ok (Some received)
          | None => receive_match sent txs' closed
          end
      | _ => receive_match sent txs' closed
      end
  end.

(** Taking the address of a fresh message. *)
Definition alloc (h : heap) (r : option ReceivedMessage) : heap * option ptr :=
  match r with
  | Some m => (h ++ [m], Some (length h))
  | None => (h, None)
  end.

Fixpoint WaitForOutgoing (fuel : nat) (sub : subscription) (h : heap) (i : ptr) : res heap :=
  m ← deref h (Some i);
  match rm_Sent m with
  | [] => Ok h
  | sentMessage :: rest =>
      match fuel with
      | O => Diverge
      | S fuel' =>
          let h := <[i := set_outgoing m (rm_MsgFeesChargedToSender m) rest (rm_Received m) (rm_External m)]> h in
          let '(txs, closed) := sub (im_DstAddr (sm_InternalMsg sentMessage)) (rm_LamportTime m) in
          receivedMessage ← receive_match sentMessage txs closed;
          let '(h, p) := alloc h receivedMessage in
          m ← deref h (Some i);
          let m := set_outgoing m (rm_MsgFeesChargedToSender m) (rm_Sent m) (rm_Received m ++ [p]) (rm_External m) in
          WaitForOutgoing fuel' sub (<[i := m]> h) i
      end
  end.

(** The loop runs once per message still to be received. *)
Definition WaitForOutgoingMessagesToBeReceived (sub : subscription) (h : heap) (i : ptr) : res heap :=
  m ← deref h (Some i); WaitForOutgoing (length (rm_Sent m)) sub h i.

Fixpoint wait_trace_loop (fuel : nat) (sub : subscription) (h : heap) (queue : list (option ptr)) : res heap :=
  match queue with
  | [] => Ok h
  | p :: queue' =>
      match fuel, p with
      | O, _ => Diverge
      | S _, None => Panic "nil pointer dereference"
      | S fuel', Some i =>
          h ← wrap_err "failed to wait for outgoing messages" (WaitForOutgoingMessagesToBeReceived sub h i);
          m ← deref h (Some i);
          wait_trace_loop fuel' sub h (queue' ++ rm_Received m)
      end
  end.

Definition WaitForTrace (fuel : nat) (sub : subscription) (h : heap) (i : ptr) : res heap :=
  m ← deref h (Some i);
  match Status m with
  | Finalized => Ok h
  | _ => wait_trace_loop fuel sub h [Some i]
  end.

(** ** The outcome of a trace *)

(** The stack grows at its head; pushing the children from the last to the
    first leaves the first on top. *)
Fixpoint outcome_loop (fuel : nat) (h : heap) (stack : list (option ptr)) : res ExitCode :=
  match stack with
  | [] => Ok ExitCodeSuccess
  | p :: stack' =>
      match fuel with
      | O => Diverge
      | S fuel' =>
          curr ← deref h p;
          if negb (rm_Success curr) then Ok (rm_ExitCode curr)
          else outcome_loop fuel' h (rm_Received curr ++ stack')
      end
  end.

Definition OutcomeExitCode (fuel : nat) (h : heap) (m : option ptr) : res ExitCode :=
  match m with
  | None => Ok ExitCodeSuccess
  | Some i => outcome_loop fuel h [Some i]
  end.

Fixpoint all_succeed (check : option ptr → res bool) (ps : list (option ptr)) : res bool :=
  match ps with
  | [] => Ok true
  | p :: ps' => b ← check p; if negb b then Ok false else all_succeed check ps'
  end.

Fixpoint TraceSucceeded (fuel : nat) (h : heap) (p : option ptr) : res bool :=
  match fuel with
  | O => Diverge
  | S fuel' =>
      m ← deref h p;
      if negb (rm_Success m) then Ok false
      else all_succeed (TraceSucceeded fuel' h) (rm_Received m)
  end.
End types.

Abbreviation ptr := nat.
Abbreviation heap := (list ReceivedMessage).
Abbreviation subscription := (Address → Z → list Transaction * bool).
