(* ===== verification/TraceSpec.v ===== *)
(** * TraceSpec: what the trace tracking promises

    Fee accounting of a received message, the outcome of a trace against a
    pre-order walk of the message tree, and what waiting for a trace leaves in
    the heap. *)

From S2P Require Import Prelude Cells BitCells ExitCodes Trace.

(** ** Sums *)

Definition sumZ {A} (f : A → Z) (l : list A) : Z := foldr (λ a t, f a + t)%Z 0%Z l.

Lemma foldl_sum {A} (f : A → Z) l t : foldl (λ t a, t + f a)%Z t l = (t + sumZ f l)%Z.
Proof. revert t. induction l as [|a l IH]; intros t; cbn; [lia|]. rewrite IH. unfold sumZ. lia. Qed.

Lemma sumZ_app {A} (f : A → Z) l k : sumZ f (l ++ k) = (sumZ f l + sumZ f k)%Z.
Proof. induction l as [|a l IH]; [done|]. unfold sumZ in *. cbn. rewrite IH. lia. Qed.

Section fees.
Context {AL : AddrLib} {CL : CellLib}.

(** The internal and external messages among the outgoing ones. *)
Definition internals (ms : list Message) : list InternalMessage :=
  omap (λ m, match m with MsgTypeInternal i => Some i | _ => None end) ms.
Definition events (ms : list Message) : list ExternalMessageOut :=
  omap (λ m, match m with MsgTypeExternalOut e => Some e | _ => None end) ms.
Definition event_of (e : ExternalMessageOut) : OutgoingExternalMessages :=
  {| oe_CreatedAt := xo_CreatedAt e; oe_LT := xo_CreatedLT e; oe_Body := xo_Body e |}.

Lemma append_outgoing_ok ms m r :
  append_outgoing m ms = Ok r →
  r = set_outgoing m (rm_MsgFeesChargedToSender m + sumZ im_FwdFee (internals ms))%Z
        (rm_Sent m ++ (NewSentMessage <$> internals ms)) (rm_Received m)
        (rm_External m ++ (event_of <$> events ms)).
Proof.
  revert m. induction ms as [|[i|e|e] ms IH]; intros m H; cbn in H; try done.
  - injection H as <-. cbn. rewrite Z.add_0_r, !app_nil_r. by destruct m.
  - apply IH in H as ->. cbn. rewrite <- app_assoc, Z.add_assoc. by destruct m.
  - apply IH in H as ->. cbn. rewrite <- app_assoc. by destruct m.
Qed.

(** The outgoing messages of a transaction, when they can be listed. *)
Definition out_messages (tx : Transaction) : list Message :=
  match tx_Out tx with Some (Ok ms) => ms | _ => [] end.

Lemma MapToReceivedMessage_ok tx r :
  MapToReceivedMessage tx = Ok r →
  ∃ inc, tx_In tx = Some inc ∧
    let m0 := initial_message tx inc in
    let m1 := match tx_Description tx with Some dsc => apply_phases m0 dsc | None => m0 end in
    r = set_outgoing m1 (sumZ im_FwdFee (internals (out_messages tx)))
          (NewSentMessage <$> internals (out_messages tx)) [] (event_of <$> events (out_messages tx)).
Proof.
  unfold MapToReceivedMessage, out_messages. destruct (tx_In tx) as [inc|]; [|done]. intros H.
  exists inc. split; [done|]. cbn zeta in *.
  set (m1 := match tx_Description tx with Some dsc => _ | None => _ end) in *.
  assert (rm_MsgFeesChargedToSender m1 = 0%Z ∧ rm_Sent m1 = [] ∧ rm_Received m1 = [] ∧ rm_External m1 = []) as (E1 & E2 & E3 & E4).
  { unfold m1. destruct (tx_Description tx) as [[[[]|] [] [] [[]|]]|]; done. }
  destruct (tx_Out tx) as [[ms| | |]|]; cbn in H; try done.
  - apply append_outgoing_ok in H as ->. cbn. rewrite E1, E3, E4. by destruct m1.
  - injection H as <-. cbn. clearbody m1. destruct m1. cbn in *. by subst.
Qed.

(** A received message splits the total fees of its transaction: import,
    compute, storage and action fees and the magic fee, which takes up the rest, add up to
    the total; its outgoing internal messages and events are those of the
    transaction, in order, and none has been received yet. *)
Theorem MapToReceivedMessage_accounts (tx : Transaction) (r : ReceivedMessage)
    (H : MapToReceivedMessage tx = Ok r) :
  (rm_ImportFee r + rm_GasFee r + rm_StorageFeeCharged r + rm_TotalActionFees r + rm_MagicFee r
   = tx_TotalFees tx)%Z ∧
  rm_MsgFeesChargedToSender r = sumZ sm_FwdFee (rm_Sent r) ∧
  rm_Sent r = NewSentMessage <$> internals (out_messages tx) ∧
  rm_External r = event_of <$> events (out_messages tx) ∧ rm_Received r = [].
Proof.
  apply MapToReceivedMessage_ok in H as (inc & Hin & ->). cbn. split_and!; try done.
  - destruct (tx_Description tx) as [[[[]|] [] [] [[]|]]|]; cbn; lia.
  - generalize (internals (out_messages tx)). intros l. unfold sumZ. induction l as [|i l IH]; cbn; [done|]. by rewrite IH.
Qed.

(** The forward fees of the messages that the message at [i] sent. *)
Definition forward_fees (h : heap) (m : ReceivedMessage) : res Z :=
  rs ← deref_all h (rm_Received m);
  Ok (sumZ sm_FwdFee (rm_Sent m) + sumZ rm_FwdFee rs)%Z.

Lemma deref_all_insert (g : ReceivedMessage → Z) h i m m' ps :
  h !! i = Some m → g m' = g m →
  (∃ rs, deref_all h ps = Ok rs) →
  ∃ rs rs', deref_all h ps = Ok rs ∧ deref_all (<[i := m']> h) ps = Ok rs' ∧ sumZ g rs' = sumZ g rs.
Proof.
  intros Hi Hf. induction ps as [|p ps IH]; intros [rs H]; [by exists [], []|].
  cbn in H. apply bind_ok in H as (r & Hr & H). apply bind_ok in H as (rs1 & Hrs & _).
  destruct IH as (rs2 & rs' & E1 & E2 & E3); [by eexists|].
  assert (∃ r', deref (<[i:=m']> h) p = Ok r' ∧ g r' = g r) as (r' & Er & Ef).
  { destruct p as [j|]; [|done]. cbn in *. destruct (decide (j = i)) as [->|].
    - rewrite list_lookup_insert_eq by by eapply lookup_lt_Some. exists m'. split; [done|].
      rewrite Hi in Hr. injection Hr as <-. done.
    - rewrite list_lookup_insert_ne by done. by exists r. }
  exists (r :: rs2), (r' :: rs'). cbn [deref_all]. rewrite Hr, Er. cbn. rewrite E1, E2. cbn.
  split_and!; [done..|]. unfold sumZ in *. cbn. lia.
Qed.

Lemma TotalActionPhaseFees_value h i m f :
  h !! i = Some m → forward_fees h m = Ok f →
  TotalActionPhaseFees h i
  = Ok (rm_TotalActionFees m + f, <[i := set_TotalActionFees m (rm_TotalActionFees m + f)]> h)%Z.
Proof.
  unfold forward_fees, TotalActionPhaseFees. intros Hi H. cbn [deref]. rewrite Hi. cbn [mbind res_bind].
  apply bind_ok in H as (rs & Hrs & [= <-]). rewrite Hrs. cbn [mbind res_bind].
  by rewrite !foldl_sum, Z.add_assoc.
Qed.

(** Adding the fees into the message itself leaves its forward fees and amounts. *)
Lemma forward_fees_set h i m t f :
  h !! i = Some m → forward_fees h m = Ok f →
  forward_fees (<[i := set_TotalActionFees m t]> h) (set_TotalActionFees m t) = Ok f.
Proof.
  intros Hi Hf. unfold forward_fees in *. apply bind_ok in Hf as (rs & Hrs & [= <-]).
  destruct (deref_all_insert rm_FwdFee h i m (set_TotalActionFees m t) (rm_Received m)) as (rs1 & rs2 & E1 & E2 & E3);
    [done|done|by eexists|].
  rewrite Hrs in E1. injection E1 as <-. change (rm_Received (set_TotalActionFees m t)) with (rm_Received m).
  rewrite E2. cbn. by rewrite E3.
Qed.
Lemma NetCreditResult_set h i m t out :
  h !! i = Some m → NetCreditResult h m = Ok out →
  NetCreditResult (<[i := set_TotalActionFees m t]> h) (set_TotalActionFees m t) = Ok out.
Proof.
  intros Hi Hf. unfold NetCreditResult, OutgoingAmount in *. apply bind_ok in Hf as (o & Ho & [= <-]).
  apply bind_ok in Ho as (rs & Hrs & [= <-]).
  destruct (deref_all_insert rm_Amount h i m (set_TotalActionFees m t) (rm_Received m)) as (rs1 & rs2 & E1 & E2 & E3);
    [done|done|by eexists|].
  rewrite Hrs in E1. injection E1 as <-. change (rm_Received (set_TotalActionFees m t)) with (rm_Received m).
  rewrite E2. cbn. by rewrite !foldl_sum, E3.
Qed.

(** The first call of TotalActionPhaseFees returns the action fees plus the
    forward fees; since it adds into the message's own field, a second call
    returns the forward fees twice. *)
Theorem TotalActionPhaseFees_twice (h : heap) (i : ptr) (m : ReceivedMessage) (f : Z)
    (Hi : h !! i = Some m) (Hf : forward_fees h m = Ok f) :
  ∃ h1 h2, TotalActionPhaseFees h i = Ok (rm_TotalActionFees m + f, h1)%Z ∧
    TotalActionPhaseFees h1 i = Ok (rm_TotalActionFees m + 2 * f, h2)%Z.
Proof.
  set (m' := set_TotalActionFees m (rm_TotalActionFees m + f)).
  pose proof (forward_fees_set h i m (rm_TotalActionFees m + f)%Z f Hi Hf) as Hf'.
  eexists _, _. split; [by apply TotalActionPhaseFees_value|].
  rewrite (TotalActionPhaseFees_value _ i m' f).
  - cbn. f_equal. f_equal. lia.
  - apply list_lookup_insert_eq. by eapply lookup_lt_Some.
  - done.
Qed.

(** For a message just mapped from a transaction, the execution fee and the
    storage fee add up to the transaction's total fees and the forward fees of the
    messages it sends. *)
Theorem TotalTransactionExecutionFee_conservation (tx : Transaction) (r : ReceivedMessage) (pre : heap)
    (H : MapToReceivedMessage tx = Ok r) :
  ∃ fee h', TotalTransactionExecutionFee (pre ++ [r]) (length pre) = Ok (fee, h') ∧
    (fee + rm_StorageFeeCharged r = tx_TotalFees tx + sumZ sm_FwdFee (rm_Sent r))%Z.
Proof.
  apply MapToReceivedMessage_ok in H as (inc & Hin & E). cbn zeta in E.
  assert ((pre ++ [r]) !! length pre = Some r) as Hi by (by rewrite lookup_app_r, Nat.sub_diag).
  assert (forward_fees (pre ++ [r]) r = Ok (sumZ sm_FwdFee (rm_Sent r))) as Hf.
  { unfold forward_fees. rewrite E. cbn. by rewrite Z.add_0_r. }
  unfold TotalTransactionExecutionFee. cbn [deref]. rewrite Hi. cbn [mbind res_bind].
  rewrite (TotalActionPhaseFees_value _ _ r _ Hi Hf). cbn [mbind res_bind fst snd].
  eexists _, _. split; [done|]. clear Hi Hf. subst r. unfold Sum. cbn.
  destruct (tx_Description tx) as [[[[]|] [] [] [[]|]]|]; cbn; lia.
Qed.
End fees.

(** ** Traces as trees *)

(** A message, whether it succeeded, its exit code and the traces it caused. *)
#[warnings="-register-all"]
Inductive trace := Trace (ok : bool) (code : ExitCode) (children : list trace).

(** The messages of a trace in pre-order: a message before those it caused. *)
Fixpoint preorder (t : trace) : list (bool * ExitCode) :=
  let '(Trace ok code ts) := t in (ok, code) :: concat (preorder <$> ts).

Fixpoint first_failure (l : list (bool * ExitCode)) : ExitCode :=
  match l with
  | [] => ExitCodeSuccess
  | (true, _) :: l' => first_failure l'
  | (false, code) :: _ => code
  end.

Section outcome.
Context {AL : AddrLib} {CL : CellLib}.

(** [shows h p t]: the messages reachable from [p] form the tree [t]. *)
#[warnings="-register-all"]
Inductive shows (h : heap) : option ptr → trace → Prop :=
| shows_node i m ts :
    h !! i = Some m → Forall2 (shows h) (rm_Received m) ts →
    shows h (Some i) (Trace (rm_Success m) (rm_ExitCode m) ts).

Lemma outcome_loop_spec h fuel stack ts :
  Forall2 (shows h) stack ts → length (concat (preorder <$> ts)) ≤ fuel →
  outcome_loop fuel h stack = Ok (first_failure (concat (preorder <$> ts))).
Proof.
  revert stack ts. induction fuel as [|fuel IH]; intros stack ts H Hf.
  - destruct H as [|p t stack ts Hp H]; [done|]. destruct t. cbn in Hf. lia.
  - destruct H as [|p t stack ts Hp H]; [done|]. destruct Hp as [i m us Hi Hus].
    cbn [outcome_loop deref]. rewrite Hi. cbn [mbind res_bind fmap list_fmap concat preorder] in *.
    destruct (rm_Success m); cbn [negb].
    + rewrite (IH _ (us ++ ts)).
      * by rewrite fmap_app, concat_app.
      * by apply Forall2_app.
      * rewrite fmap_app, concat_app. cbn in Hf. rewrite !length_app in *. lia.
    + done.
Qed.

Lemma OutcomeExitCode_value h fuel p t :
  shows h p t → length (preorder t) ≤ fuel →
  OutcomeExitCode fuel h p = Ok (first_failure (preorder t)).
Proof.
  intros Ht Hf. destruct Ht as [i m ts Hi Hts]. unfold OutcomeExitCode.
  rewrite (outcome_loop_spec h fuel [Some i] [Trace (rm_Success m) (rm_ExitCode m) ts]).
  - cbn [fmap list_fmap concat]. by rewrite app_nil_r.
  - constructor; [by constructor|constructor].
  - cbn [fmap list_fmap concat]. by rewrite app_nil_r.
Qed.

(** With enough steps for the messages of the trace, OutcomeExitCode
    returns the exit code of the first failed message in pre-order, or the success
    code when every message succeeded. *)
Theorem OutcomeExitCode_spec (h : heap) (p : option ptr) (t : trace) (fuel : nat)
    (Ht : shows h p t) (Hf : length (preorder t) ≤ fuel) :
  OutcomeExitCode fuel h p = Ok (first_failure (preorder t)).
Proof. by apply OutcomeExitCode_value. Qed.

Lemma TraceSucceeded_value h fuel p t :
  shows h p t → length (preorder t) ≤ fuel →
  TraceSucceeded fuel h p = Ok (forallb fst (preorder t)).
Proof.
  revert p t. induction fuel as [|fuel IH]; intros p t Ht Hf; [destruct t; cbn in Hf; lia|].
  destruct Ht as [i m ts Hi Hts]. cbn [TraceSucceeded deref]. rewrite Hi.
  cbn [mbind res_bind preorder forallb fst length] in *.
  destruct (rm_Success m); cbn [negb andb]; [|done].
  assert (length (concat (preorder <$> ts)) ≤ fuel) as Hc by lia. clear Hf Hi.
  induction Hts as [|q u qs us Hq _ IHs]; [done|]. cbn [fmap list_fmap concat] in *.
  rewrite length_app in Hc. cbn [all_succeed]. rewrite (IH q u Hq) by lia. cbn [mbind res_bind].
  rewrite forallb_app. destruct (forallb fst (preorder u)); cbn [negb andb]; [|done].
  apply IHs. lia.
Qed.

(** With enough steps for the messages of the trace, TraceSucceeded returns
    whether every message of it succeeded. *)
Theorem TraceSucceeded_spec (h : heap) (p : option ptr) (t : trace) (fuel : nat)
    (Ht : shows h p t) (Hf : length (preorder t) ≤ fuel) :
  TraceSucceeded fuel h p = Ok (forallb fst (preorder t)).
Proof. by apply TraceSucceeded_value. Qed.

Lemma first_failure_all l : forallb fst l = true → first_failure l = ExitCodeSuccess.
Proof.
  induction l as [|[[] c] l IH]; [done|cbn|done]. auto.
Qed.

Lemma first_failure_some l :
  forallb fst l = false → ∃ c, (false, c) ∈ l ∧ first_failure l = c.
Proof.
  induction l as [|[[] c] l IH]; [done|cbn|].
  - intros (c' & Hin & E)%IH. exists c'. split; [by apply list_elem_of_further|done].
  - intros _. exists c. split; [apply list_elem_of_here|done].
Qed.

(** The two outcomes agree (the exit code is the success code exactly when
    the trace succeeded) as long as no failed message carries the success code; a
    message whose compute phase was skipped does, and then the exit code reports
    success although the trace failed. *)
Theorem outcome_agrees (h : heap) (p : option ptr) (t : trace) (fuel : nat)
    (Ht : shows h p t) (Hf : length (preorder t) ≤ fuel) :
  ((∀ c, (false, c) ∈ preorder t → c ≠ ExitCodeSuccess) →
   (OutcomeExitCode fuel h p = Ok ExitCodeSuccess ↔ TraceSucceeded fuel h p = Ok true)) ∧
  (∀ tx r, MapToReceivedMessage tx = Ok r → 
     (∀ dsc, tx_Description tx = Some dsc → td_ComputePhase dsc = None) →
     rm_Success r = false ∧ rm_ExitCode r = ExitCodeSuccess).
Proof.
  split.
  - intros Hc. rewrite (TraceSucceeded_value h fuel p t Ht Hf), (OutcomeExitCode_value h fuel p t Ht Hf).
    destruct (forallb fst (preorder t)) eqn:E.
    + by rewrite first_failure_all.
    + apply first_failure_some in E as (c & Hin & ->). split; [|done]. intros [= ->]. by apply Hc in Hin.
  - intros tx r (inc & _ & ->)%MapToReceivedMessage_ok Hd.
    destruct (tx_Description tx) as [dsc|]; [|done]. specialize (Hd dsc eq_refl).
    cbn. unfold apply_phases. rewrite Hd. by destruct (td_StoragePhase dsc), (td_ActionPhase dsc) as [[]|].
Qed.
End outcome.

(** ** Waiting *)

Section waiting.
Context {AL : AddrLib} {CL : CellLib}.
Variable sub : subscription.

(** [r] is the message of a transaction that the subscription to the sent
    message's destination delivered and that matches it. *)
Definition received_from (lt : Z) (s : SentMessage) (r : ReceivedMessage) : Prop :=
  ∃ tx inc, tx ∈ (sub (im_DstAddr (sm_InternalMsg s)) lt).1 ∧ tx_In tx = Some (MsgTypeInternal inc) ∧
    MatchesReceived s inc = true ∧ MapToReceivedMessage tx = Ok r.

Lemma receive_match_ok s txs closed r :
  receive_match s txs closed = Ok (Some r) →
  ∃ tx inc, tx ∈ txs ∧ tx_In tx = Some (MsgTypeInternal inc) ∧ MatchesReceived s inc = true ∧
    MapToReceivedMessage tx = Ok r.
Proof.
  induction txs as [|tx txs IH]; cbn; [by destruct closed|]. intros H.
  assert (receive_match s txs closed = Ok (Some r) → ∃ tx0 inc, tx0 ∈ tx :: txs ∧
    tx_In tx0 = Some (MsgTypeInternal inc) ∧ MatchesReceived s inc = true ∧ MapToReceivedMessage tx0 = Ok r) as Hrec.
  { intros (tx0 & inc & Hin & ?)%IH. exists tx0, inc. split; [by apply list_elem_of_further|done]. }
  destruct (tx_In tx) as [[inc|e|e]|] eqn:Ein; try by apply Hrec.
  apply bind_ok in H as (o & Ho & H). apply wrap_err_ok in Ho.
  unfold MapToReceivedMessageIfMatches in Ho. rewrite Ein in Ho.
  destruct (MatchesReceived s inc) eqn:Em; cbn [negb] in Ho.
  - apply bind_ok in Ho as (r' & Hr & [= <-]). apply wrap_err_ok in Hr. injection H as <-.
    exists tx, inc. split; [apply list_elem_of_here|done].
  - injection Ho as <-. by apply Hrec.
Qed.

(** What one pointer of the result stands for: a match that was received, or
    nil when the channel was closed first. *)
Definition settled_ptr (h : heap) (lt : Z) (s : SentMessage) (p : option ptr) : Prop :=
  match p with
  | Some j => ∃ r, h !! j = Some r ∧ received_from lt s r
  | None => True
  end.

(** [h'] extends [h]: the message at [i] may have changed its outgoing
    lists, the new messages are those listed in [ps]. *)
Definition waited (h h' : heap) (i : ptr) (m : ReceivedMessage) (ps : list (option ptr)) : Prop :=
  length h ≤ length h' ∧
  (∀ j, j ≠ i → j < length h → h' !! j = h !! j) ∧
  h' !! i = Some (set_outgoing m (rm_MsgFeesChargedToSender m) [] (rm_Received m ++ ps) (rm_External m)) ∧
  (∀ j, length h ≤ j < length h' → Some j ∈ ps) ∧
  (∀ j, Some j ∈ ps → length h ≤ j < length h') ∧
  (∀ j r, length h ≤ j → h' !! j = Some r → rm_Received r = []).

Lemma waited_refl h i m :
  h !! i = Some m → rm_Sent m = [] → waited h h i m [].
Proof.
  intros Hi Es. split_and!; try done; try (intros; lia).
  - rewrite Hi, app_nil_r. destruct m; cbn in *; by subst.
  - intros j. by intros ?%elem_of_nil.
  - intros j r Hj Hl. apply lookup_lt_Some in Hl. lia.
Qed.

(** Allocating an optional message after the update of [i]. *)
Lemma alloc_after h i m1 o h1 p :
  i < length h → alloc (<[i := m1]> h) o = (h1, p) →
  h1 !! i = Some m1 ∧ length h ≤ length h1 ∧ (∀ j, j ≠ i → j < length h → h1 !! j = h !! j) ∧
  (∀ j r, length h ≤ j → h1 !! j = Some r → p = Some j ∧ o = Some r) ∧
  (∀ j, p = Some j → length h ≤ j < length h1).
Proof.
  intros Hlt Ea. destruct o as [r0|]; cbn in Ea; injection Ea as <- <-;
    rewrite ?length_app, length_insert; cbn.
  - split_and!; try lia.
    + rewrite lookup_app_l by by rewrite length_insert. by apply list_lookup_insert_eq.
    + intros j Hne Hj. rewrite lookup_app_l by by rewrite length_insert. by apply list_lookup_insert_ne.
    + intros j r Hj Hr. apply lookup_lt_Some in Hr as Hr'. rewrite length_app, length_insert in Hr'.
      cbn in Hr'. assert (j = length h) as -> by lia.
      rewrite lookup_app_r, length_insert, Nat.sub_diag in Hr by (rewrite length_insert; lia).
      by injection Hr as ->.
    + intros j [= <-]. lia.
  - split_and!; try lia; [by apply list_lookup_insert_eq|intros; by apply list_lookup_insert_ne| |done].
    intros j r Hj Hr. apply lookup_lt_Some in Hr. rewrite length_insert in Hr. lia.
Qed.

Lemma waited_step h h1 h' i m m1 m2 p ps rest o s lt txs closed :
  h1 !! i = Some m1 → length h ≤ length h1 → (∀ j, j ≠ i → j < length h → h1 !! j = h !! j) →
  (∀ j r, length h ≤ j → h1 !! j = Some r → p = Some j ∧ o = Some r) →
  (∀ j, p = Some j → length h ≤ j < length h1) → i < length h →
  m1 = set_outgoing m (rm_MsgFeesChargedToSender m) rest (rm_Received m) (rm_External m) →
  m2 = set_outgoing m1 (rm_MsgFeesChargedToSender m1) (rm_Sent m1) (rm_Received m1 ++ [p]) (rm_External m1) →
  sub (im_DstAddr (sm_InternalMsg s)) lt = (txs, closed) → receive_match s txs closed = Ok o →
  waited (<[i := m2]> h1) h' i m2 ps →
  waited h h' i m (p :: ps) ∧ settled_ptr h' lt s p.
Proof.
  intros Hi1 Hl1 Hj1 Hnew Hp Hlt -> -> Esub Ho (W1 & W2 & W3 & W4 & W5 & W6).
  rewrite length_insert in *. split; [split_and!|].
  - lia.
  - intros j Hne Hj. rewrite W2 by lia. rewrite list_lookup_insert_ne by done. by apply Hj1.
  - rewrite W3. cbn. by rewrite <- app_assoc.
  - intros j Hj. destruct (decide (length h1 ≤ j)) as [Hge|Hge].
    + apply list_elem_of_further, W4. lia.
    + destruct (lookup_lt_is_Some_2 h1 j) as [r Hr]; [lia|].
      destruct (Hnew j r) as [-> _]; [lia|done|]. apply list_elem_of_here.
  - intros j [Hj|Hj]%elem_of_cons; [specialize (Hp j (eq_sym Hj)); lia|specialize (W5 j Hj); lia].
  - intros j r Hj Hr. destruct (decide (length h1 ≤ j)) as [Hge|Hge]; [by apply (W6 j)|].
    rewrite W2, list_lookup_insert_ne in Hr by lia. destruct (Hnew j r) as [_ ->]; [done..|].
    apply receive_match_ok in Ho as (tx & inc & _ & _ & _ & (inc' & _ & ->)%MapToReceivedMessage_ok). done.
  - destruct p as [j|]; [|done]. specialize (Hp j eq_refl).
    destruct (lookup_lt_is_Some_2 h1 j) as [r Hr]; [lia|].
    destruct (Hnew j r) as [_ ->]; [lia|done|]. exists r. split.
    + rewrite W2, list_lookup_insert_ne by lia. done.
    + apply receive_match_ok in Ho. unfold received_from. by rewrite Esub.
Qed.

Lemma WaitForOutgoing_ok fuel h i h' m :
  WaitForOutgoing fuel sub h i = Ok h' → h !! i = Some m →
  ∃ ps, waited h h' i m ps ∧ Forall2 (settled_ptr h' (rm_LamportTime m)) (rm_Sent m) ps.
Proof.
  revert h m. induction fuel as [|fuel IH]; intros h m H Hi; cbn [WaitForOutgoing deref] in H;
    rewrite Hi in H; cbn [mbind res_bind] in H; destruct (rm_Sent m) as [|s rest] eqn:Es; try done.
  1,2: injection H as <-; exists []; split; [by apply waited_refl|constructor].
  pose proof (lookup_lt_Some _ _ _ Hi) as Hlt. destruct (sub _ _) as [txs closed] eqn:Esub.
  apply bind_ok in H as (o & Ho & H).
  set (m1 := set_outgoing m (rm_MsgFeesChargedToSender m) rest (rm_Received m) (rm_External m)) in *.
  destruct (alloc (<[i := m1]> h) o) as [h1 p] eqn:Ea.
  destruct (alloc_after _ _ _ _ _ _ Hlt Ea) as (Hi1 & Hl1 & Hj1 & Hnew & Hp).
  cbn [deref] in H. rewrite Hi1 in H. cbn [mbind res_bind] in H. set (m2 := set_outgoing m1 _ _ _ _) in H.
  assert (<[i := m2]> h1 !! i = Some m2) as Hi2 by (apply list_lookup_insert_eq; lia).
  destruct (IH _ m2 H Hi2) as (ps & W & HF). exists (p :: ps).
  destruct (waited_step h h1 h' i m m1 m2 p ps rest o s (rm_LamportTime m) txs closed) as [HW Hs]; try done.
  split; [done|]. by constructor.
Qed.

(** Waiting for the outgoing messages does return when each of them is
    eventually delivered: it ends after one round per message. *)
Lemma WaitForOutgoing_terminates (h : heap) (i : ptr) (m : ReceivedMessage) (Hi : h !! i = Some m)
    (Hsub : ∀ s, s ∈ rm_Sent m → let c := sub (im_DstAddr (sm_InternalMsg s)) (rm_LamportTime m) in
              ∃ r, receive_match s c.1 c.2 = Ok r) :
  ∃ h', WaitForOutgoingMessagesToBeReceived sub h i = Ok h'.
Proof.
  unfold WaitForOutgoingMessagesToBeReceived. cbn [deref]. rewrite Hi. cbn [mbind res_bind].
  remember (rm_Sent m) as ss eqn:Es.
  assert (∀ h m, h !! i = Some m → rm_Sent m = ss → (∀ s, s ∈ ss →
    ∃ r, receive_match s (sub (im_DstAddr (sm_InternalMsg s)) (rm_LamportTime m)).1
                         (sub (im_DstAddr (sm_InternalMsg s)) (rm_LamportTime m)).2 = Ok r) →
    ∃ h', WaitForOutgoing (length ss) sub h i = Ok h') as Hgen; [|by apply (Hgen h m Hi)].
  clear. induction ss as [|s ss IH]; intros h m Hi Es Hsub; cbn [length WaitForOutgoing deref];
    rewrite Hi; cbn [mbind res_bind]; rewrite Es; [by eexists|].
  destruct (Hsub s) as [o Ho]; [apply list_elem_of_here|].
  destruct (sub (im_DstAddr (sm_InternalMsg s)) (rm_LamportTime m)) as [txs closed] eqn:Esub.
  cbn [fst snd] in Ho. rewrite Ho. cbn [mbind res_bind].
  set (m1 := set_outgoing m _ ss _ _). destruct (alloc (<[i := m1]> h) o) as [h1 p] eqn:Ea.
  pose proof (lookup_lt_Some _ _ _ Hi) as Hlt.
  destruct (alloc_after _ _ _ _ _ _ Hlt Ea) as (Hi1 & Hl1 & _). cbn [deref]. rewrite Hi1. cbn [mbind res_bind].
  eapply IH; [apply list_lookup_insert_eq; lia|done|].
  intros s' Hs'. apply Hsub. by apply list_elem_of_further.
Qed.

(** C27: when every outgoing message of a message is delivered or its subscription
    is closed, waiting for them returns; each of them is, in order, paired with the
    message of a transaction its destination received (same source, destination and
    creation time), or with nil when the subscription was closed first; nothing is left to
    wait for and no other message changes. *)
Theorem WaitForOutgoing_spec (h : heap) (i : ptr) (m : ReceivedMessage) (Hi : h !! i = Some m)
    (Hsub : ∀ s, s ∈ rm_Sent m → let c := sub (im_DstAddr (sm_InternalMsg s)) (rm_LamportTime m) in
              ∃ r, receive_match s c.1 c.2 = Ok r) :
  ∃ h' ps, WaitForOutgoingMessagesToBeReceived sub h i = Ok h' ∧
    h' !! i = Some (set_outgoing m (rm_MsgFeesChargedToSender m) [] (rm_Received m ++ ps) (rm_External m)) ∧
    Forall2 (settled_ptr h' (rm_LamportTime m)) (rm_Sent m) ps ∧
    ∀ j, j ≠ i → j < length h → h' !! j = h !! j.
Proof.
  destruct (WaitForOutgoing_terminates h i m Hi Hsub) as [h' H]. exists h'. pose proof H as Hw.
  unfold WaitForOutgoingMessagesToBeReceived in H. cbn [deref] in H. rewrite Hi in H. cbn in H.
  destruct (WaitForOutgoing_ok _ _ _ _ _ H Hi) as (ps & (W1 & W2 & W3 & _) & HF). by exists ps.
Qed.

(** *** The whole trace *)

(** Every message is settled or still queued, and children come after their parent. *)
Definition trace_inv (h : heap) (queue : list (option ptr)) : Prop :=
  (∀ i m, h !! i = Some m → Some i ∈ queue ∨ rm_Sent m = []) ∧
  (∀ i m p, h !! i = Some m → p ∈ rm_Received m →
     match p with Some j => i < j < length h | None => None ∈ queue end).

Lemma trace_inv_step h h' i m ps queue :
  trace_inv h (Some i :: queue) → h !! i = Some m → waited h h' i m ps →
  trace_inv h' (queue ++ (rm_Received m ++ ps)).
Proof.
  intros [I1 I2] Hi (W1 & W2 & W3 & W4 & W5 & W6). pose proof (lookup_lt_Some _ _ _ Hi) as Hlt. split.
  - intros j r Hj. destruct (decide (j = i)) as [->|Hne]; [rewrite W3 in Hj; injection Hj as <-; by right|].
    destruct (decide (j < length h)) as [Hlj|Hlj].
    + rewrite W2 in Hj by done. destruct (I1 j r Hj) as [Hq|?]; [left|by right]. set_solver.
    + left. apply lookup_lt_Some in Hj. specialize (W4 j). set_solver by lia.
  - intros j r p Hj Hp. destruct (decide (j = i)) as [->|Hne].
    + rewrite W3 in Hj. injection Hj as <-. cbn in Hp. destruct p as [k|]; [|set_solver].
      apply elem_of_app in Hp as [Hp|Hp]; [specialize (I2 i m (Some k) Hi Hp); cbn in I2; lia|].
      specialize (W5 k Hp). lia.
    + destruct (decide (j < length h)) as [Hlj|Hlj].
      * rewrite W2 in Hj by done. specialize (I2 j r p Hj Hp). destruct p; [lia|set_solver].
      * rewrite (W6 j r) in Hp by (done || lia). by apply elem_of_nil in Hp.
Qed.

Lemma wait_trace_loop_ok fuel h queue h' :
  wait_trace_loop fuel sub h queue = Ok h' → trace_inv h queue → trace_inv h' [] ∧ length h ≤ length h'.
Proof.
  revert h queue. induction fuel as [|fuel IH]; intros h queue H Hinv.
  - destruct queue; cbn in H; [|done]. by injection H as <-.
  - destruct queue as [|[i|] queue]; cbn [wait_trace_loop] in H; [by injection H as <-| |done].
    apply bind_ok in H as (h1 & H1 & H). apply wrap_err_ok in H1.
    unfold WaitForOutgoingMessagesToBeReceived in H1. apply bind_ok in H1 as (m & Hm & H1).
    assert (h !! i = Some m) as Hi by (cbn in Hm; destruct (h !! i); [by injection Hm as ->|done]).
    destruct (WaitForOutgoing_ok _ _ _ _ _ H1 Hi) as (ps & HW & _).
    pose proof (trace_inv_step _ _ _ _ _ _ Hinv Hi HW) as Hinv'.
    destruct HW as (W1 & _ & W3 & _). cbn [deref] in H. rewrite W3 in H. cbn [mbind res_bind] in H.
    apply IH in H; [|done]. split; [apply H|lia].
Qed.

Lemma settled_shows h i :
  trace_inv h [] → i < length h → ∃ t, shows h (Some i) t.
Proof.
  intros [_ I2].
  remember (length h - i) as n eqn:En. revert i En.
  induction (lt_wf n) as [n _ IH]; intros i En Hi.
  destruct (lookup_lt_is_Some_2 h i Hi) as [m Hm].
  assert (∃ ts, Forall2 (shows h) (rm_Received m) ts) as [ts Hts]; [|eexists; by constructor].
  assert (∀ p, p ∈ rm_Received m → ∃ t, shows h p t) as Hall.
  { intros p Hp. specialize (I2 i m p Hm Hp). destruct p as [j|]; [|by apply elem_of_nil in I2].
    apply (IH (length h - j)); lia. }
  clear -Hall. induction (rm_Received m) as [|p ps IHps]; [by exists []|].
  destruct (Hall p) as [t Ht]; [apply list_elem_of_here|].
  destruct IHps as [ts Hts]; [intros q Hq; apply Hall; by apply list_elem_of_further|].
  exists (t :: ts). by constructor.
Qed.

(** What holds when waiting for the trace of a fresh message returns. *)
Lemma WaitForTrace_ok (fuel : nat) (m : ReceivedMessage) (h' : heap)
    (Hm : rm_Received m = []) (H : WaitForTrace fuel sub [m] 0 = Ok h') :
  (∀ i r, h' !! i = Some r → rm_Sent r = [] ∧ None ∉ rm_Received r) ∧ ∃ t, shows h' (Some 0) t.
Proof.
  assert (trace_inv h' [] ∧ 1 ≤ length h') as [Hinv Hl].
  { unfold WaitForTrace in H. cbn [deref lookup list_lookup mbind res_bind] in H.
    assert (rm_Sent m ≠ [] → wait_trace_loop fuel sub [m] [Some 0] = Ok h' → trace_inv h' [] ∧ 1 ≤ length h') as Hloop.
    { intros _ Hw. apply wait_trace_loop_ok in Hw; [done|]. split.
      - intros [|i] r Hr; [left; apply list_elem_of_here|done].
      - intros [|i] r p Hr Hp; [|done]. injection Hr as <-. rewrite Hm in Hp. by apply elem_of_nil in Hp. }
    unfold Status in H. destruct (rm_Sent m) eqn:Es; cbn in H.
    - injection H as <-. split; [|cbn; lia]. split.
      + intros [|i] r Hr; [|done]. injection Hr as <-. by right.
      + intros [|i] r p Hr Hp; [|done]. injection Hr as <-. rewrite Hm in Hp. by apply elem_of_nil in Hp.
    - rewrite Hm in H. by apply Hloop. }
  split; [|by apply settled_shows].
  destruct Hinv as [I1 I2]. intros i r Hr. split.
  - by destruct (I1 i r Hr) as [?%elem_of_nil|?].
  - intros Hn. by apply (I2 i r None Hr), elem_of_nil in Hn.
Qed.

(** *** The wait ends *)

(** The subscription delivers the sent message as [r]. *)
Definition receives (lt : Z) (s : SentMessage) (r : ReceivedMessage) : Prop :=
  let c := sub (im_DstAddr (sm_InternalMsg s)) lt in receive_match s c.1 c.2 = Ok (Some r).

(** A message is delivered with a trace of [n] messages when each message it
    sent is received, by a message that is itself delivered. *)
#[warnings="-register-all"]
Inductive delivered : ReceivedMessage → nat → Prop :=
| delivered_node m rs ns :
    rm_Received m = [] → Forall2 (receives (rm_LamportTime m)) (rm_Sent m) rs → Forall2 delivered rs ns →
    delivered m (S (sum_list ns)).

Lemma WaitForOutgoing_delivered h i m rs :
  h !! i = Some m → Forall2 (receives (rm_LamportTime m)) (rm_Sent m) rs →
  WaitForOutgoing (length (rm_Sent m)) sub h i
  = Ok (<[i := set_outgoing m (rm_MsgFeesChargedToSender m) []
                 (rm_Received m ++ (Some <$> seq (length h) (length rs))) (rm_External m)]> h ++ rs).
Proof.
  intros Hi Hrs. remember (rm_Sent m) as ss eqn:Es. remember (rm_LamportTime m) as lt eqn:Elt. revert h m Hi Es Elt.
  induction Hrs as [|s r ss rs Hr Hrs IH]; intros h m Hi Es Elt; cbn [length WaitForOutgoing deref];
    rewrite Hi; cbn [mbind res_bind]; rewrite <- Es.
  - cbn [length seq fmap list_fmap]. rewrite !app_nil_r. f_equal. symmetry. apply list_insert_id. rewrite Hi. f_equal.
    destruct m; cbn in *; by subst.
  - pose proof (lookup_lt_Some _ _ _ Hi) as Hlt. unfold receives in Hr. subst lt.
    destruct (sub (im_DstAddr (sm_InternalMsg s)) (rm_LamportTime m)) as [txs closed]. cbn [fst snd] in Hr.
    rewrite Hr. cbn [mbind res_bind alloc deref]. rewrite length_insert.
    set (m1 := set_outgoing m _ ss _ _).
    rewrite lookup_app_l, list_lookup_insert_eq by (rewrite ?length_insert; lia). cbn [mbind res_bind].
    set (m2 := set_outgoing m1 _ _ _ _).
    rewrite insert_app_l, list_insert_insert_eq by (rewrite ?length_insert; lia).
    rewrite (IH (<[i := m2]> h ++ [r]) m2).
    + f_equal. rewrite insert_app_l, list_insert_insert_eq, <- app_assoc by (rewrite ?length_insert; lia). f_equal. f_equal.
      rewrite length_app, length_insert. cbn [length]. rewrite Nat.add_1_r. cbn [seq fmap list_fmap].
      unfold m2, m1, set_outgoing. cbn. by rewrite <- app_assoc.
    + rewrite lookup_app_l by (rewrite length_insert; lia). apply list_lookup_insert_eq. lia.
    + done.
    + done.
Qed.

(** Fuel for the messages still to be visited is enough. *)
Lemma wait_trace_loop_returns fuel h queue ns :
  NoDup queue → Forall2 (λ p n, ∃ i m, p = Some i ∧ h !! i = Some m ∧ delivered m n) queue ns →
  sum_list ns ≤ fuel → ∃ h', wait_trace_loop fuel sub h queue = Ok h'.
Proof.
  revert h queue ns. induction fuel as [|fuel IH]; intros h queue ns Hnd Hq Hf;
    destruct Hq as [|p n queue ns (i & m & -> & Hi & Hm) Hq]; try (by eexists).
  { inversion Hm; subst. cbn in Hf. lia. }
  apply NoDup_cons in Hnd as [Hni Hnd]. inversion Hm as [m0 rs ks Hrec Hsent Hks]; subst m0 n.
  pose proof (lookup_lt_Some _ _ _ Hi) as Hlt. cbn [wait_trace_loop].
  unfold WaitForOutgoingMessagesToBeReceived. cbn [deref]. rewrite Hi. cbn [mbind res_bind].
  rewrite (WaitForOutgoing_delivered h i m rs Hi Hsent), Hrec. cbn [wrap_err mbind res_bind app].
  set (m' := set_outgoing _ _ _ _ _). rewrite lookup_app_l, list_lookup_insert_eq by (rewrite ?length_insert; lia).
  cbn [mbind res_bind]. change (rm_Received m') with (Some <$> seq (length h) (length rs)).
  assert (∀ q, q ∈ queue → ∃ j, q = Some j ∧ j < length h) as Hold.
  { intros q Hin. apply list_elem_of_lookup in Hin as [k Hk].
    destruct (Forall2_lookup_l _ _ _ _ _ Hq Hk) as (n & _ & j & mj & -> & Hj & _).
    exists j. split; [done|]. by apply lookup_lt_Some in Hj. }
  apply (IH _ _ (ns ++ ks)).
  - apply NoDup_app. split_and!; [done| |apply NoDup_fmap_2; [by intros ?? [=]|apply NoDup_seq]].
    intros q Hin Hin'. destruct (Hold q Hin) as (j & -> & Hj).
    apply list_elem_of_fmap in Hin' as (k & [= ->] & Hk%elem_of_seq). lia.
  - apply Forall2_app.
    + apply Forall2_same_length_lookup_2; [by eapply Forall2_length|]. intros k q n Hk Hn.
      destruct (Forall2_lookup_lr _ _ _ _ _ _ Hq Hk Hn) as (j & mj & -> & Hj & Hd). exists j, mj. split_and!; [done| |done].
      rewrite lookup_app_l by (rewrite length_insert; by apply lookup_lt_Some in Hj).
      rewrite list_lookup_insert_ne; [done|]. intros ->. apply Hni. by eapply list_elem_of_lookup_2.
    + apply Forall2_same_length_lookup_2; [rewrite length_fmap, length_seq; by eapply Forall2_length|].
      intros k q n Hk Hn. apply list_lookup_fmap_Some in Hk as (j & -> & [-> Hk]%lookup_seq).
      destruct (lookup_lt_is_Some_2 rs k Hk) as [r Hr]. exists (length h + k), r. split_and!; [done| |].
      * rewrite lookup_app_r by (rewrite length_insert; lia). rewrite length_insert.
        by replace (length h + k - length h) with k by lia.
      * by eapply (Forall2_lookup_lr _ _ _ k).
  - cbn in Hf. rewrite sum_list_with_app. unfold id in *. lia.
Qed.

(** Messages before those of the queue are not touched. *)
Lemma wait_trace_loop_frame fuel h queue h' j :
  wait_trace_loop fuel sub h queue = Ok h' → trace_inv h queue → (∀ i, Some i ∈ queue → j < i) → j < length h →
  h' !! j = h !! j.
Proof.
  revert h queue. induction fuel as [|fuel IH]; intros h queue H Hinv Hq Hj.
  - destruct queue; cbn in H; [|done]. by injection H as <-.
  - destruct queue as [|[i|] queue]; cbn [wait_trace_loop] in H; [by injection H as <-| |done].
    apply bind_ok in H as (h1 & H1 & H). apply wrap_err_ok in H1.
    unfold WaitForOutgoingMessagesToBeReceived in H1. apply bind_ok in H1 as (m & Hm & H1).
    assert (h !! i = Some m) as Hi by (cbn in Hm; destruct (h !! i); [by injection Hm as ->|done]).
    destruct (WaitForOutgoing_ok _ _ _ _ _ H1 Hi) as (ps & HW & _).
    pose proof (trace_inv_step _ _ _ _ _ _ Hinv Hi HW) as Hinv'.
    destruct HW as (W1 & W2 & W3 & _ & W5 & _). cbn [deref] in H. rewrite W3 in H. cbn [mbind res_bind] in H.
    assert (j < i) as Hji by (apply Hq, list_elem_of_here).
    rewrite (IH _ _ H Hinv'); [apply W2; lia| |lia].
    intros k [Hk|[Hk|Hk]%elem_of_app]%elem_of_app.
    + apply Hq. by apply list_elem_of_further.
    + pose proof (proj2 Hinv i m (Some k) Hi Hk) as Hik. cbn in Hik. lia.
    + specialize (W5 k Hk). lia.
Qed.

(** The message whose trace is awaited has one pointer per message it sent. *)
Lemma WaitForTrace_root (fuel : nat) (m : ReceivedMessage) (h' : heap)
    (Hm : rm_Received m = []) (H : WaitForTrace fuel sub [m] 0 = Ok h') :
  ∃ ps, h' !! 0 = Some (set_outgoing m (rm_MsgFeesChargedToSender m) [] ps (rm_External m)) ∧
    length ps = length (rm_Sent m).
Proof.
  unfold WaitForTrace in H. cbn [deref lookup list_lookup mbind res_bind] in H. unfold Status in H.
  destruct (rm_Sent m) as [|s ss] eqn:Es.
  { injection H as <-. exists []. split; [|done]. cbn. rewrite <- Hm. destruct m; cbn in *; by subst. }
  rewrite Hm in H. cbn [length Nat.eqb negb] in H. destruct fuel as [|fuel]; [done|]. cbn [wait_trace_loop] in H.
  apply bind_ok in H as (h1 & H1 & H). apply wrap_err_ok in H1.
  unfold WaitForOutgoingMessagesToBeReceived in H1. cbn [deref lookup list_lookup mbind res_bind] in H1.
  destruct (WaitForOutgoing_ok _ _ _ _ _ H1 eq_refl) as (ps & HW & HF). rewrite Es in HF.
  assert (trace_inv [m] [Some 0]) as Hinv.
  { split.
    - intros [|i] r Hr; [left; apply list_elem_of_here|done].
    - intros [|i] r p Hr Hp; [|done]. injection Hr as <-. rewrite Hm in Hp. by apply elem_of_nil in Hp. }
  pose proof (trace_inv_step _ _ _ _ _ _ Hinv eq_refl HW) as Hinv'.
  destruct HW as (W1 & _ & W3 & _ & W5 & _). cbn [deref] in H. rewrite W3 in H. cbn [mbind res_bind] in H.
  rewrite Hm in *. cbn [app rm_Received set_outgoing] in H, Hinv'. cbn [length] in W1, W5.
  exists ps. split; [|symmetry; by eapply Forall2_length]. cbn [app] in W3. rewrite <- W3.
  apply (wait_trace_loop_frame fuel h1 ps); [done|done| |lia]. intros i Hi. specialize (W5 i Hi). lia.
Qed.

(** The wait returns, for the callers of [WaitForTrace]. *)
Lemma WaitForTrace_returns (fuel n : nat) (m : ReceivedMessage) (Hm : delivered m n) (Hfuel : n ≤ fuel) :
  ∃ h', WaitForTrace fuel sub [m] 0 = Ok h' ∧
    (∀ i r, h' !! i = Some r → rm_Sent r = [] ∧ None ∉ rm_Received r) ∧ ∃ t, shows h' (Some 0) t.
Proof.
  assert (rm_Received m = []) as Hrec by by inversion Hm.
  destruct (wait_trace_loop_returns fuel [m] [Some 0] [n]) as [h' Hloop].
  - repeat constructor. by intros ?%elem_of_nil.
  - repeat constructor. by exists 0, m.
  - cbn. unfold id. lia.
  - assert (∃ h1, WaitForTrace fuel sub [m] 0 = Ok h1) as [h1 H1].
    { unfold WaitForTrace. cbn [deref lookup list_lookup mbind res_bind]. destruct (Status m); by eexists. }
    exists h1. split; [done|]. by apply (WaitForTrace_ok fuel m h1).
Qed.
(** C26: when the messages of a trace are delivered, waiting for the trace of the
    fresh message returns, with fuel for the number of its messages; then no message
    of the heap has anything left to be received, no received message is nil, and the
    messages form a finite tree, so the outcome functions are defined on it. *)
Theorem WaitForTrace_settled (fuel n : nat) (m : ReceivedMessage) (Hm : delivered m n) (Hfuel : n ≤ fuel) :
  ∃ h', WaitForTrace fuel sub [m] 0 = Ok h' ∧
    (∀ i r, h' !! i = Some r → rm_Sent r = [] ∧ None ∉ rm_Received r) ∧ ∃ t, shows h' (Some 0) t.
Proof. exact (WaitForTrace_returns fuel n m Hm Hfuel). Qed.
End waiting.

(** ** Runs on concrete transactions *)

Module TraceRuns.
Import BitCells.

Definition a1 : Address := NewAddress x00 x00 (replicate 32 x01).
Definition a2 : Address := NewAddress x00 x00 (replicate 32 x02).
Definition int1 : InternalMessage :=
  {| im_SrcAddr := a1; im_DstAddr := a2; im_CreatedLT := 11; im_Amount := 100; im_FwdFee := 3;
     im_Bounced := false; im_Body := BCell [] [] |}.
Definition event1 : ExternalMessageOut := {| xo_CreatedAt := 5; xo_CreatedLT := 12; xo_Body := BCell [true] [] |}.
Definition phases (ok : bool) (code : Z) : TransactionDescriptionOrdinary :=
  {| td_BouncePhase := None;
     td_ComputePhase := Some {| cv_Success := ok; cv_ExitCode := code; cv_GasFees := 20 |};
     td_StoragePhase := Some 2%Z; td_ActionPhase := Some (Some 4%Z) |}.
(** An external message to [a1], whose contract emits an event and pays [a2]. *)
Definition tx1 : Transaction :=
  {| tx_In := Some (MsgTypeExternalIn {| xi_SrcAddr := a2; xi_DstAddr := a1; xi_Body := BCell [] []; xi_ImportFee := 7 |});
     tx_Out := Some (Ok [MsgTypeInternal int1; MsgTypeExternalOut event1]);
     tx_LT := 10; tx_TotalFees := 40; tx_Description := Some (phases true 0) |}.
(** The payment arrives and fails. *)
Definition tx2 : Transaction :=
  {| tx_In := Some (MsgTypeInternal int1); tx_Out := None; tx_LT := 20; tx_TotalFees := 26;
     tx_Description := Some (phases false 37) |}.
Definition sub1 : subscription := λ a _, (if AddrEquals a a2 then [tx1; tx2] else [], false).

Definition msg1 : ReceivedMessage := match MapToReceivedMessage tx1 with Ok r => r | _ => initial_message tx1 (MsgTypeInternal int1) end.
Definition msg2 : ReceivedMessage := match MapToReceivedMessage tx2 with Ok r => r | _ => msg1 end.
Definition heap2 : heap :=
  [set_outgoing msg1 (rm_MsgFeesChargedToSender msg1) [] [Some 1] (rm_External msg1); msg2].
Definition trace1 : trace := Trace true 0 [Trace false 37 []].

Lemma heap2_shows : shows heap2 (Some 0) trace1.
Proof.
  apply (shows_node heap2 0 (set_outgoing msg1 (rm_MsgFeesChargedToSender msg1) [] [Some 1] (rm_External msg1))); [done|].
  repeat constructor. by apply (shows_node heap2 1 msg2 []).
Qed.

Lemma MapToReceivedMessage_accounts_witness :
  (rm_ImportFee msg1 + rm_GasFee msg1 + rm_StorageFeeCharged msg1 + rm_TotalActionFees msg1 + rm_MagicFee msg1 = 40)%Z.
Proof. apply (MapToReceivedMessage_accounts tx1 msg1). reflexivity. Defined.

Lemma TotalActionPhaseFees_twice_witness :
  ∃ h1 h2, TotalActionPhaseFees [msg1] 0 = Ok (7%Z, h1) ∧ TotalActionPhaseFees h1 0 = Ok (10%Z, h2).
Proof. exact (TotalActionPhaseFees_twice [msg1] 0 msg1 3 eq_refl eq_refl). Defined.

Lemma TotalTransactionExecutionFee_conservation_witness :
  ∃ fee h', TotalTransactionExecutionFee ([msg2] ++ [msg1]) 1 = Ok (fee, h') ∧ (fee + 2 = 40 + 3)%Z.
Proof. exact (TotalTransactionExecutionFee_conservation tx1 msg1 [msg2] eq_refl). Defined.

Lemma OutcomeExitCode_spec_witness : OutcomeExitCode 2 heap2 (Some 0) = Ok 37%Z.
Proof. apply (OutcomeExitCode_spec heap2 (Some 0) trace1 2); [apply heap2_shows|cbn; lia]. Defined.

Lemma TraceSucceeded_spec_witness : TraceSucceeded 2 heap2 (Some 0) = Ok false.
Proof. apply (TraceSucceeded_spec heap2 (Some 0) trace1 2); [apply heap2_shows|cbn; lia]. Defined.

Lemma outcome_agrees_witness :
  OutcomeExitCode 2 heap2 (Some 0) = Ok ExitCodeSuccess ↔ TraceSucceeded 2 heap2 (Some 0) = Ok true.
Proof.
  apply (outcome_agrees heap2 (Some 0) trace1 2); [apply heap2_shows|cbn; lia|].
  cbn. intros c Hc. set_unfold in Hc. by destruct Hc as [[=]|[[= ->]|[]]].
Defined.

Lemma msg1_sends : Forall2 (receives sub1 (rm_LamportTime msg1)) (rm_Sent msg1) [msg2].
Proof. constructor; [reflexivity|constructor]. Qed.

Lemma msg1_delivered : delivered sub1 msg1 2.
Proof.
  apply (delivered_node sub1 msg1 [msg2] [1]); [reflexivity|exact msg1_sends|].
  repeat constructor. apply (delivered_node sub1 msg2 [] []); constructor.
Qed.

Lemma WaitForOutgoing_spec_witness :
  ∃ h' ps, WaitForOutgoingMessagesToBeReceived sub1 [msg1] 0 = Ok h' ∧
    Forall2 (settled_ptr sub1 h' 10) (rm_Sent msg1) ps.
Proof.
  destruct (WaitForOutgoing_spec sub1 [msg1] 0 msg1 eq_refl) as (h' & ps & H & _ & HF & _).
  - cbn. intros s Hs. apply list_elem_of_singleton in Hs as ->. exists (Some msg2). reflexivity.
  - exists h', ps. split; [exact H|exact HF].
Defined.

Lemma WaitForTrace_settled_witness : ∃ h' t, WaitForTrace 2 sub1 [msg1] 0 = Ok h' ∧ shows h' (Some 0) t.
Proof.
  destruct (WaitForTrace_settled sub1 2 2 msg1 msg1_delivered (le_n 2)) as (h' & H & _ & t & Ht). by exists h', t.
Defined.
End TraceRuns.
