(* ===== verification/PrettyPrint.v ===== *)
(** * PrettyPrint: pkg/ton/tracetracking/pretty_print.go

    The printed form of a trace: one line per message, sent message and event, the
    lines below a message marked so that the tree can be read back from them. *)

From Stdlib Require Import Strings.Ascii.
From stdpp Require Import pretty.
From S2P Require Import Prelude Cells BitCells ExitCodes Trace TraceSpec.

(** ** Numbers and bytes in base 16 (the verb %x) *)

Definition hex_char (d : Z) : ascii := ascii_of_nat (Z.to_nat (if d <? 10 then 48 + d else 87 + d)%Z).
Fixpoint hex_number_aux (fuel : nat) (z : Z) (acc : string) : string :=
  match fuel with
  | O => acc
  | S fuel' =>
      let acc := String (hex_char (z mod 16)) acc in
      if (z / 16 =? 0)%Z then acc else hex_number_aux fuel' (z / 16) acc
  end.
(** 16 digits are enough for 64 bits. *)
Definition hex_number (z : Z) : string := hex_number_aux 16 z "".
Fixpoint hex_string (s : string) : string :=
  match s with
  | EmptyString => EmptyString
  | String c s' =>
      let n := Z.of_nat (nat_of_ascii c) in String (hex_char (n / 16)) (String (hex_char (n mod 16)) (hex_string s'))
  end.

Section dump.
Context {AL : AddrLib} {CL : CellLib}.
(** [LoadStringSnake] and [DumpBits] of tonutils-go, and [tlb.Coins.String]. *)
Variable LoadStringSnake : Slice → res string.
Variable DumpBits : Cell → string.
Variable CoinsString : Z → string.
Local Open Scope string_scope.

(** ** One message *)

Definition describeExitCode (exitCode : option ExitCode) : string :=
  match exitCode with
  | None => "pending"
  | Some c => if (c =? 0)%Z then "exit code 0" else "exit code: " ++ pretty c ++ " (" ++ Describe c ++ ")"
  end.

(** The format strings after the two attempts are not given to a formatter. *)
Definition describeBody (body : Cell) : string :=
  let slice := BeginParse body in
  if (SliceBitsLeft slice =? 0)%Z then "empty" else
  match LoadUInt 32 slice with
  | Ok (opcode, _) => "opcode: 0x " ++ hex_number opcode
  | _ =>
      match LoadStringSnake (BeginParse body) with
      | Ok strSnake => "stringSnake: " ++ hex_string strSnake
      | _ => "body: %s" ++ DumpBits body
      end
  end.

Definition describeEmitBody (body : Cell) : string :=
  let slice := BeginParse body in
  if (SliceBitsLeft slice =? 0)%Z then "empty" else
  match LoadStringSnake (BeginParse body) with
  | Ok strSnake => "stringSnake: " ++ hex_string strSnake
  | _ =>
      match LoadUInt 32 slice with
      | Ok (opcode, _) => "opcode: " ++ hex_number opcode
      | _ => "body: %s" ++ DumpBits body
      end
  end.

Definition describeExternalInMsg (msg : ExternalMessageIn) (exitCode : option ExitCode) : string :=
  let description := describeBody (xi_Body msg) in
  let description := description ++ ", " ++ describeExitCode exitCode in
  AddrString (xi_SrcAddr msg) ++ " -- (" ++ description ++ ") --> " ++ AddrString (xi_DstAddr msg).

Definition describeExternalOutMsg (src : string) (msg : OutgoingExternalMessages) : string :=
  src ++ " emit: (" ++ describeEmitBody (oe_Body msg) ++ ")".

Definition describeInternalMsg (msg : InternalMessage) (exitCode : option ExitCode) : string :=
  let description := describeBody (im_Body msg) in
  let description := description ++ ", amount: " ++ CoinsString (im_Amount msg) in
  let description := if im_Bounced msg then description ++ ", bounce" else description in
  let description := description ++ ", " ++ describeExitCode exitCode in
  let srcAddr := AddrString (im_SrcAddr msg) in
  let srcAddr := if String.eqb srcAddr "NONE" then "external" else srcAddr in
  srcAddr ++ " -- (" ++ description ++ ") --> " ++ AddrString (im_DstAddr msg).

(** A sent message always has its internal message here. *)
Definition SentMessage_Dump (m : SentMessage) : string := describeInternalMsg (sm_InternalMsg m) None.

(** ** The trace *)

Definition indent (j : nat) (line : string) : string := (if Nat.eqb j 0 then "└ " else "│ ") ++ line.
Definition indent_all (lines : list string) : list string := imap indent lines.

Definition first_line (m : ReceivedMessage) : string :=
  match rm_InternalMsg m, rm_ExternalMsg m with
  | Some i, _ => describeInternalMsg i (Some (rm_ExitCode m))
  | None, Some e => describeExternalInMsg e (Some (rm_ExitCode m))
  | None, None => ""
  end.
Definition from_address (m : ReceivedMessage) : string :=
  match rm_InternalMsg m, rm_ExternalMsg m with
  | Some i, _ => AddrString (im_DstAddr i)
  | None, Some e => AddrString (xi_DstAddr e)
  | None, None => ""
  end.

(** The dumps of the received messages, indented one by one. *)
Fixpoint dump_children (dump : option ptr → res (list string)) (ps : list (option ptr)) : res (list string) :=
  match ps with
  | [] => Ok []
  | p :: ps' => lines ← dump p; rest ← dump_children dump ps'; Ok (indent_all lines ++ rest)%list
  end.

Fixpoint dumpRec (fuel : nat) (h : heap) (p : option ptr) : res (list string) :=
  match fuel with
  | O => Diverge
  | S fuel' =>
      m ← deref h p;
      children ← dump_children (dumpRec fuel' h) (rm_Received m);
      Ok (first_line m :: children
          ++ ((λ s, "└ " +:+ SentMessage_Dump s) <$> rm_Sent m)
          ++ ((λ e, "└ " +:+ describeExternalOutMsg (from_address m) e) <$> rm_External m))%list
  end.

Definition Dump (fuel : nat) (h : heap) (p : option ptr) : res string :=
  lines ← dumpRec fuel h p; Ok (String.concat (String (ascii_of_nat 10) "") lines).
End dump.

(** ** Reading the tree back *)

Section blocks.
Context {AL : AddrLib} {CL : CellLib}.
Variable LoadStringSnake : Slice → res string.
Variable DumpBits : Cell → string.
Variable CoinsString : Z → string.
Local Abbreviation dumpRec := (dumpRec LoadStringSnake DumpBits CoinsString).
Local Abbreviation SentMessage_Dump := (SentMessage_Dump LoadStringSnake DumpBits CoinsString).
Local Abbreviation describeExternalOutMsg := (describeExternalOutMsg LoadStringSnake DumpBits).
Local Abbreviation first_line := (first_line LoadStringSnake DumpBits CoinsString).

(** Whether a line starts with a mark, and the line without it. *)
Fixpoint strip (mark line : string) : option string :=
  match mark, line with
  | EmptyString, _ => Some line
  | String c mark', String d line' => if Ascii.eqb c d then strip mark' line' else None
  | String _ _, EmptyString => None
  end.

(** The lines below a message, cut into the blocks of what it caused: a block
    starts at an elbow and goes on with the bars after it. *)
Fixpoint blocks (lines : list string) : option (list string * list (list string)) :=
  match lines with
  | [] => Some ([], [])
  | line :: lines' =>
      r ← blocks lines';
      match strip "└ " line, strip "│ " line with
      | Some l, _ => Some ([], (l :: r.1) :: r.2)
      | None, Some l => Some (l :: r.1, r.2)
      | None, None => None
      end
  end.
Definition read_blocks (lines : list string) : option (list (list string)) :=
  match blocks lines with Some ([], bs) => Some bs | _ => None end.

Lemma strip_app mark line : strip mark (mark +:+ line) = Some line.
Proof.
  induction mark as [|c mark IH]; [done|]. change (strip (String c mark) (String c (mark +:+ line)) = Some line).
  cbn. by rewrite Ascii.eqb_refl.
Qed.
Lemma strip_other line : strip "└ " ("│ " +:+ line) = None.
Proof. reflexivity. Qed.

Lemma blocks_bars bars rest bs :
  blocks rest = Some ([], bs) → blocks (((λ l, "│ " +:+ l) <$> bars) ++ rest) = Some (bars, bs).
Proof.
  intros H. induction bars as [|l bars IH]; [done|]. cbn [fmap list_fmap app blocks]. rewrite IH. cbn [mbind option_bind].
  rewrite strip_other, strip_app. done.
Qed.

Lemma blocks_block l ls rest bs :
  blocks rest = Some ([], bs) → blocks (indent_all (l :: ls) ++ rest) = Some ([], (l :: ls) :: bs).
Proof.
  intros H. unfold indent_all. cbn [imap app].
  assert (imap (indent ∘ S) ls = (λ l, "│ " +:+ l) <$> ls) as ->.
  { rewrite <- (imap_const (λ l, "│ " +:+ l) ls). by apply imap_ext. }
  cbn [blocks]. rewrite (blocks_bars _ _ _ H). cbn [mbind option_bind].
  unfold indent. cbn [Nat.eqb]. by rewrite strip_app.
Qed.

Lemma blocks_single {A} (f : A → string) xs rest bs :
  blocks rest = Some ([], bs) →
  blocks (((λ x, "└ " +:+ f x) <$> xs) ++ rest) = Some ([], ((λ x, [f x]) <$> xs) ++ bs).
Proof.
  intros H. induction xs as [|x xs IH]; [done|]. cbn [fmap list_fmap app blocks]. rewrite IH. cbn [mbind option_bind].
  by rewrite strip_app.
Qed.

Lemma dumpRec_returns fuel h p t :
  shows h p t → length (preorder t) ≤ fuel → ∃ l ls, dumpRec fuel h p = Ok (l :: ls).
Proof.
  revert p t. induction fuel as [|fuel IH]; intros p t Ht Hf; [destruct t; cbn in Hf; lia|].
  destruct Ht as [i m ts Hi Hts]. cbn [PrettyPrint.dumpRec deref]. rewrite Hi. cbn [mbind res_bind].
  assert (∃ c, dump_children (dumpRec fuel h) (rm_Received m) = Ok c) as [c ->]; [|by eexists _, _].
  cbn [preorder length] in Hf. assert (length (concat (preorder <$> ts)) ≤ fuel) as Hc by lia. clear Hf Hi.
  induction Hts as [|q u qs us Hq _ IHs]; [by exists []|]. cbn [fmap list_fmap concat] in Hc. rewrite length_app in Hc.
  cbn [dump_children]. destruct (IH q u Hq) as (l & ls & ->); [lia|]. cbn [mbind res_bind].
  destruct IHs as [c ->]; [lia|]. by eexists.
Qed.

(** Dumping a trace returns, and its lines can be read back: the first describes
    the message itself, and the rest falls into one block for each message that was
    received, which is the dump of that message, then one line for each message still
    to be received and one for each event. *)
Theorem Dump_readable (fuel : nat) (h : heap) (i : ptr) (m : ReceivedMessage) (t : trace)
    (Ht : shows h (Some i) t) (Hf : length (preorder t) ≤ S fuel) (Hi : h !! i = Some m) :
  ∃ rest dumps, dumpRec (S fuel) h (Some i) = Ok (first_line m :: rest) ∧
    Forall2 (λ p d, dumpRec fuel h p = Ok d) (rm_Received m) dumps ∧
    read_blocks rest = Some (dumps ++ ((λ s, [SentMessage_Dump s]) <$> rm_Sent m)
                             ++ ((λ e, [describeExternalOutMsg (from_address m) e]) <$> rm_External m)).
Proof.
  inversion Ht as [i' m' ts Hi' Hts]; subst. assert (m' = m) as -> by congruence. clear Hi'.
  cbn [preorder length] in Hf. assert (length (concat (preorder <$> ts)) ≤ fuel) as Hc by lia. clear Hf Ht.
  cbn [PrettyPrint.dumpRec deref]. rewrite Hi. cbn [mbind res_bind].
  set (tail := (_ <$> rm_Sent m) ++ (_ <$> rm_External m)). set (btail := (_ <$> rm_Sent m) ++ (_ <$> rm_External m)).
  assert (blocks tail = Some ([], btail)) as Htail.
  { unfold tail, btail. apply (blocks_single SentMessage_Dump). rewrite <- (app_nil_r (_ <$> rm_External m)).
    rewrite (blocks_single (describeExternalOutMsg (from_address m)) _ [] []) by done. by rewrite app_nil_r. }
  assert (∃ c dumps, dump_children (dumpRec fuel h) (rm_Received m) = Ok c ∧
            Forall2 (λ p d, dumpRec fuel h p = Ok d) (rm_Received m) dumps ∧
            blocks (c ++ tail) = Some ([], dumps ++ btail)) as (c & dumps & -> & Hd & Hb).
  { clear Hi. induction Hts as [|q u qs us Hq _ IHs]; [by exists [], []|]. cbn [fmap list_fmap concat] in Hc.
    rewrite length_app in Hc. destruct (dumpRec_returns fuel h q u Hq) as (l & ls & E); [lia|].
    destruct IHs as (c & dumps & E2 & Hd & Hb); [lia|]. cbn [dump_children]. rewrite E, E2. cbn [mbind res_bind].
    exists (indent_all (l :: ls) ++ c), ((l :: ls) :: dumps). split; [done|]. split; [by constructor|].
    rewrite <- app_assoc. by apply blocks_block. }
  exists (c ++ tail), dumps. split; [done|]. split; [done|]. unfold read_blocks. by rewrite Hb.
Qed.
End blocks.

(** ** Runs *)

Module DumpRuns.
Import BitCells TraceRuns.

Lemma Dump_readable_witness (snake : Slice → res string := λ _, Err "") (bits : Cell → string := λ _, ""%string)
    (coins : Z → string := λ z, pretty z) :
  ∃ l rest, dumpRec snake bits coins 2 heap2 (Some 0) = Ok (l :: rest) ∧ is_Some (read_blocks rest).
Proof.
  destruct (Dump_readable snake bits coins 1 heap2 0 _ trace1 heap2_shows ltac:(cbn; lia) eq_refl)
    as (rest & dumps & E & _ & H). eexists _, rest. split; [exact E|]. rewrite H. by eexists.
Defined.
End DumpRuns.
