(* ===== verification/TxStore.v ===== *)
(** * TxStore: pkg/txm/txstore.go, config.go and tx.go

    The store of broadcast transactions, by account and by Lamport time.  Each
    operation runs under the store's lock, so it is one step on the state.
    Ranging over a map takes the enumeration of its keys as an argument. *)

From S2P Require Import Prelude Cells ExitCodes Trace.

(** [time.Duration] in nanoseconds. *)
Record Config := {
  BroadcastChanSize : Z;
  ConfirmPollSecs : Z;
  SendRetryDelay : Z;
  MaxSendRetryAttempts : Z;
  TxExpirationMins : Z;
  StickyNodeContextEnabled : bool;
}.
Definition Second : Z := 10 ^ 9.
Definition Minute : Z := 60 * Second.
Definition DefaultConfigSet : Config := {|
  BroadcastChanSize := 100;
  ConfirmPollSecs := 5;
  SendRetryDelay := 3 * Second;
  MaxSendRetryAttempts := 5;
  TxExpirationMins := 5;
  StickyNodeContextEnabled := true;
|}.

Section types.
Context {AL : AddrLib} {CL : CellLib}.

(** The received message is nil (the zero value) until the transaction was sent. *)
Record Tx := {
  tx_Mode : Z;
  tx_From : Address;
  tx_To : Address;
  tx_Amount : Z;
  tx_Body : Cell;
  tx_StateInit : option Cell;
  tx_Bounceable : bool;
  tx_CreatedAt : Z;
  tx_Expiration : Z;
  tx_ReceivedMessage : option ReceivedMessage;
}.
Record UnconfirmedTx := { ut_LT : Z; ut_ExpirationMs : Z; ut_Tx : Tx }.
Record FinalizedTx := {
  ft_ReceivedMessage : option ReceivedMessage;
  ft_ExitCode : ExitCode;
  ft_TraceSucceeded : bool;
}.
Record TxStore := {
  unconfirmedTxs : gmap Z UnconfirmedTx;
  finalizedTxs : gmap Z FinalizedTx;
}.
Definition NewTxStore : TxStore := {| unconfirmedTxs := ∅; finalizedTxs := ∅ |}.

Definition AddUnconfirmed (lt expirationMs : Z) (tx : Tx) (s : TxStore) : res TxStore :=
  if bool_decide (is_Some (unconfirmedTxs s !! lt)) then Err "tx already exists" else
  if bool_decide (is_Some (finalizedTxs s !! lt)) then Err "tx already exists" else
  Ok {| unconfirmedTxs :=
          <[lt := {| ut_LT := lt; ut_ExpirationMs := expirationMs; ut_Tx := tx |}]> (unconfirmedTxs s);
        finalizedTxs := finalizedTxs s |}.

Definition MarkFinalized (lt : Z) (success : bool) (exitCode : ExitCode) (s : TxStore) : res TxStore :=
  match unconfirmedTxs s !! lt with
  | None => Err "no such unconfirmed tx"
  | Some unconfirmedTx =>
      if bool_decide (is_Some (finalizedTxs s !! lt)) then Err "tx already finalized" else
      Ok {| unconfirmedTxs := delete lt (unconfirmedTxs s);
            finalizedTxs :=
              <[lt := {| ft_ReceivedMessage := tx_ReceivedMessage (ut_Tx unconfirmedTx);
                         ft_ExitCode := exitCode; ft_TraceSucceeded := success |}]> (finalizedTxs s) |}
  end.

(** [sort.Slice] by expiration: a sorted permutation of the values in the order
    [keys] in which they were collected.  Merge sort keeps that order among equal
    expirations, so the choice of [keys] covers every outcome of the unstable sort. *)
Definition by_expiration (a b : UnconfirmedTx) : Prop := (ut_ExpirationMs a ≤ ut_ExpirationMs b)%Z.
#[global] Instance by_expiration_dec : RelDecision by_expiration.
Proof. intros a b. unfold by_expiration. apply _. Defined.

Definition GetUnconfirmed (keys : list Z) (s : TxStore) : list UnconfirmedTx :=
  let unconfirmed := omap (λ k, unconfirmedTxs s !! k) keys in
  merge_sort by_expiration unconfirmed.

Definition InflightCount (s : TxStore) : nat := size (unconfirmedTxs s).

(** [tlb.MustFromNano], from nanotons to [tlb.Coins]. *)
Variable MustFromNano : Z → nat → res Z.

Definition GetTxState (lt : Z) (s : TxStore) : res (MsgStatus * bool * ExitCode * Z * bool) :=
  match unconfirmedTxs s !! lt with
  | Some _ => Ok (Cascading, false, 0%Z, 0%Z, true)
  | None =>
      match finalizedTxs s !! lt with
      | Some tx =>
          match ft_ReceivedMessage tx with
          | None => Panic "nil pointer dereference"
          | Some m =>
              totalActionFees ← MustFromNano (rm_TotalActionFees m) 9;
              Ok (Finalized, ft_TraceSucceeded tx, ft_ExitCode tx, totalActionFees, true)
          end
      | None => Ok (NotFound, false, 0%Z, 0%Z, false)
      end
  end.

(** ** Stores by account *)

Abbreviation AccountStore := (gmap string TxStore).
Definition NewAccountStore : AccountStore := ∅.

Definition GetTxStore (accountAddress : string) (c : AccountStore) : TxStore * AccountStore :=
  match c !! accountAddress with
  | Some store => (store, c)
  | None => (NewTxStore, <[accountAddress := NewTxStore]> c)
  end.

Definition GetTotalInflightCount (accounts : list string) (c : AccountStore) : nat :=
  foldl (λ count a, match c !! a with Some store => count + InflightCount store | None => count end) 0 accounts.

(** The snapshot of all unconfirmed transactions; [accounts] and [keys] give
    the orders of the two range loops. *)
Definition GetAllUnconfirmed (accounts : list string) (keys : string → list Z) (c : AccountStore)
    : list (string * list UnconfirmedTx) :=
  omap (λ a, store ← c !! a; Some (a, GetUnconfirmed (keys a) store)) accounts.
End types.

Abbreviation AccountStore := (gmap string TxStore).
