(* ===== verification/Txm.v ===== *)
(** * Txm: pkg/txm/txm.go and pkg/ton/key/key.go

    The transaction manager: a bounded broadcast channel, the retrying
    broadcaster and the periodic confirmation of traces.  The keystore, the
    wallet, the clock and the chain are parameters; the two loops are given by
    their iterations, interleaved in TxmSpec.v. *)

From S2P Require Import Prelude Cells ExitCodes Trace TxStore.

(** [commontypes.TransactionStatus] of chainlink-common. *)
Inductive TransactionStatus := TSUnknown | TSPending | TSUnconfirmed | TSFinalized | TSFailed | TSFatal.

(** ** Lower-case hex of a public key ([key.PublicKeyHex]) *)

Definition hex_digit (z : Z) : Ascii.ascii :=
  Ascii.ascii_of_nat (Z.to_nat (if (z <? 10)%Z then 48 + z else 87 + z)).
Fixpoint hex_encode (bs : bytes) : string :=
  match bs with
  | [] => EmptyString
  | b :: bs' => String (hex_digit (byte_to_Z b / 16)) (String (hex_digit (byte_to_Z b mod 16)) (hex_encode bs'))
  end.
(** A Go [crypto.PublicKey]: an ed25519 key or something else. *)
Inductive PublicKey := Ed25519Key (k : bytes) | OtherKey.
Definition PublicKeyHex (pubKey : PublicKey) : res string :=
  match pubKey with
  | Ed25519Key k => Ok (hex_encode k)
  | OtherKey => Err "unsupported key type"
  end.

Section txm.
Context {AL : AddrLib} {CL : CellLib}.

Record Wallet := { w_Address : Address; w_PublicKey : PublicKey }.
Record Request := {
  rq_Mode : Z;
  rq_FromWallet : Wallet;
  rq_ContractAddress : Address;
  rq_Body : Cell;
  rq_Amount : Z;
  rq_Bounce : bool;
  rq_StateInit : option Cell;
}.

(** The state of a [Txm]: the content of the channel, oldest first, and the stores. *)
Record Txm := { BroadcastChan : list Tx; AccountStore_ : AccountStore }.

(** ** The environment *)

(** The keystore's [Sign], asked whether it can sign with a key. *)
Variable Sign : string → bytes → res bytes.
Variable config : Config.
(** The wallet of the API client. *)
Variable ClientWallet : Wallet.

Definition New : Txm := {| BroadcastChan := []; AccountStore_ := NewAccountStore |}.

(** [now1] and [now2] are the two readings of the clock.  The channel is
    buffered: a send succeeds while there is room. *)
Definition Enqueue (request : Request) (now1 now2 : Z) (t : Txm) : res Txm :=
  let pubKey := w_PublicKey (rq_FromWallet request) in
  pubKeyHex ← wrap_err "failed to convert public key to hex" (PublicKeyHex pubKey);
  _ ← wrap_err "failed to sign" (Sign pubKeyHex []);
  let txExpirationMins := i64 (Minute * i64 (TxExpirationMins config)) in
  let tx := {| tx_Mode := rq_Mode request;
               tx_From := w_Address (rq_FromWallet request);
               tx_To := rq_ContractAddress request;
               tx_Amount := rq_Amount request;
               tx_Body := rq_Body request;
               tx_StateInit := rq_StateInit request;
               tx_Bounceable := rq_Bounce request;
               tx_CreatedAt := now1;
               tx_Expiration := now2 + txExpirationMins;
               tx_ReceivedMessage := None |} in
  if (Z.of_nat (length (BroadcastChan t)) <? BroadcastChanSize config)%Z
  then Ok {| BroadcastChan := BroadcastChan t ++ [tx]; AccountStore_ := AccountStore_ t |}
  else Err "broadcast channel full, could not enqueue transaction".

(** ** Broadcasting *)

(** The message handed to the wallet.  Its state init is nil, or a pointer to the
    zero [tlb.StateInit], or to one that was loaded from a cell. *)
Record WalletMessage := {
  wm_Mode : Z;
  wm_SrcAddr : option Address;
  wm_DstAddr : Address;
  wm_Bounce : bool;
  wm_IHRDisabled : bool;
  wm_Amount : Z;
  wm_StateInit : option (option Cell);
  wm_Body : Cell;
  wm_CreatedAt : Z;
}.

(** One call of [SendWaitTransaction] per attempt, and whether [Stop] is closed
    during the delay after it. *)
Variable SendWaitTransaction : Z → Address → WalletMessage → res ReceivedMessage.
Variable stopped : Z → bool.

(** The retry loop from [attempt] on; the result is the pair of the
    variables [receivedMessage] and [err], or the early return. *)
Fixpoint send_loop (n : nat) (attempt : Z) (tx : Tx) (msg : WalletMessage)
    (received : option ReceivedMessage) (err : option string) : res (option ReceivedMessage * option string) :=
  match n with
  | O => Ok (received, err)
  | S n' =>
      match SendWaitTransaction attempt (tx_To tx) msg with
      | Ok m => Ok (Some m, None)
      | Err e => if stopped attempt then Err "broadcast aborted" else send_loop n' (attempt + 1) tx msg None (Some e)
      | Panic p => Panic p
      | Diverge => Diverge
      end
  end.

Definition set_ReceivedMessage (tx : Tx) (m : ReceivedMessage) : Tx :=
  {| tx_Mode := tx_Mode tx; tx_From := tx_From tx; tx_To := tx_To tx; tx_Amount := tx_Amount tx;
     tx_Body := tx_Body tx; tx_StateInit := tx_StateInit tx; tx_Bounceable := tx_Bounceable tx;
     tx_CreatedAt := tx_CreatedAt tx; tx_Expiration := tx_Expiration tx; tx_ReceivedMessage := Some m |}.

(** [uint64(d.Seconds())] for a non-negative duration. *)
Definition whole_seconds (d : Z) : Z := u64 (d / Second).

(** The result is the returned error and the stores, which also change when the
    error comes from [AddUnconfirmed]. *)
Definition broadcastWithRetry (tx : Tx) (msg : WalletMessage) (accounts : AccountStore)
    : res (option string * AccountStore) :=
  match send_loop (Z.to_nat (MaxSendRetryAttempts config)) 1 tx msg None None with
  | Panic p => Panic p
  | Diverge => Diverge
  | Err e => Ok (Some e, accounts)
  | Ok (_, Some e) => Ok (Some e, accounts)
  | Ok (None, None) => Panic "nil pointer dereference"
  | Ok (Some receivedMessage, None) =>
      let tx := set_ReceivedMessage tx receivedMessage in
      let lamportTime := rm_LamportTime receivedMessage in
      let lamportTimeSecs := (lamportTime / 1000)%Z in
      let expirationTimestampSecs := u64 (lamportTimeSecs + whole_seconds (SendRetryDelay config)) in
      let account := AddrString (w_Address ClientWallet) in
      let '(txStore, accounts) := GetTxStore account accounts in
      match AddUnconfirmed lamportTime expirationTimestampSecs tx txStore with
      | Ok txStore => Ok (None, <[account := txStore]> accounts)
      | Err e => Ok (Some e, accounts)
      | Panic p => Panic p
      | Diverge => Diverge
      end
  end.

(** Parsing the state init cell is [tlb.LoadFromCell] of tonutils-go: only its
    success matters here. *)
Variable LoadStateInit : Cell → res Cell.

Definition wallet_message (tx : Tx) (st : option Cell) : WalletMessage :=
  {| wm_Mode := tx_Mode tx; wm_SrcAddr := Some (tx_From tx); wm_DstAddr := tx_To tx; wm_Bounce := tx_Bounceable tx;
     wm_IHRDisabled := true; wm_Amount := tx_Amount tx; wm_StateInit := Some st; wm_Body := tx_Body tx;
     wm_CreatedAt := u32 (tx_CreatedAt tx / Second) |}.

(** One iteration of [broadcastLoop] that receives a transaction: errors are
    logged and the loop goes on.  [None] when the channel is empty. *)
Definition broadcast_once (t : Txm) : option (res Txm) :=
  match BroadcastChan t with
  | [] => None
  | tx :: chan =>
      let t := {| BroadcastChan := chan; AccountStore_ := AccountStore_ t |} in
      let st := match tx_StateInit tx with
                | None => Ok None
                | Some c => s ← LoadStateInit c; Ok (Some s)
                end in
      Some match st with
      | Err _ => Ok t
      | Panic p => Panic p
      | Diverge => Diverge
      | Ok st =>
          r ← broadcastWithRetry tx (wallet_message tx st) (AccountStore_ t);
          Ok {| BroadcastChan := chan; AccountStore_ := r.2 |}
      end
  end.

(** ** Confirming *)

Variable sub : subscription.

(** The outcome of one trace: None when the transaction is to be checked again,
    else its success and exit code.  The message is a copy of the stored one; the
    trace is followed in a heap that starts with the copy. *)
Definition resolve_trace (fuel : nat) (m : ReceivedMessage) : res (option (bool * ExitCode)) :=
  match WaitForTrace fuel sub [m] 0 with
  | Err _ => Ok None
  | Panic p => Panic p
  | Diverge => Diverge
  | Ok h =>
      receivedMessage ← deref h (Some 0);
      match Status receivedMessage with
      | Finalized =>
          exitCode ← OutcomeExitCode fuel h (Some 0);
          traceSucceeded ← TraceSucceeded fuel h (Some 0);
          Ok (Some (traceSucceeded, exitCode))
      | _ => Ok None
      end
  end.

(** The inner loop over the unconfirmed transactions of one account; an error
    of [MarkFinalized] is logged.  The zero message has nothing sent or received and
    did not succeed. *)
Fixpoint check_account (fuel : nat) (account : string) (txs : list UnconfirmedTx) (accounts : AccountStore)
    : res AccountStore :=
  match txs with
  | [] => Ok accounts
  | unconfirmedTx :: txs' =>
      r ← match tx_ReceivedMessage (ut_Tx unconfirmedTx) with
          | None => Ok (Some (false, ExitCodeSuccess))
          | Some m => resolve_trace fuel m
          end;
      let '(txStore, accounts) := GetTxStore account accounts in
      let accounts :=
        match r with
        | None => accounts
        | Some (traceSucceeded, exitCode) =>
            match MarkFinalized (ut_LT unconfirmedTx) traceSucceeded exitCode txStore with
            | Ok txStore => <[account := txStore]> accounts
            | _ => accounts
            end
        end in
      check_account fuel account txs' accounts
  end.

Fixpoint check_accounts (fuel : nat) (all : list (string * list UnconfirmedTx)) (accounts : AccountStore)
    : res AccountStore :=
  match all with
  | [] => Ok accounts
  | (account, txs) :: all' =>
      accounts ← check_account fuel account txs accounts; check_accounts fuel all' accounts
  end.

Definition checkUnconfirmed (fuel : nat) (order : list string) (keys : string → list Z) (t : Txm) : res Txm :=
  accounts ← check_accounts fuel (GetAllUnconfirmed order keys (AccountStore_ t)) (AccountStore_ t);
  Ok {| BroadcastChan := BroadcastChan t; AccountStore_ := accounts |}.

(** ** Status *)

Definition InflightCount (order : list string) (t : Txm) : nat * nat :=
  (length (BroadcastChan t), GetTotalInflightCount order (AccountStore_ t)).

Variable MustFromNano : Z → nat → res Z.

(** The status, the exit code, the fees and the error. *)
Definition GetTransactionStatus (lt : Z) (t : Txm)
    : res (TransactionStatus * ExitCode * Z * option string * Txm) :=
  let '(txStore, accounts) := GetTxStore (AddrString (w_Address ClientWallet)) (AccountStore_ t) in
  let t := {| BroadcastChan := BroadcastChan t; AccountStore_ := accounts |} in
  r ← GetTxState MustFromNano lt txStore;
  let '(status, succeeded, exitCode, totalActionFees, found) :=
    (r : MsgStatus * bool * ExitCode * Z * bool) in
  if negb found then Ok (TSUnknown, 0%Z, totalActionFees, Some "transaction with id not found"%string, t) else
  Ok match status return TransactionStatus * ExitCode * Z * option string * Txm with
     | NotFound => (TSUnknown, 0%Z, totalActionFees, Some "transaction not found in state map", t)
     | Cascading => (TSPending, 0%Z, totalActionFees, None, t)
     | Received => (TSUnconfirmed, 0%Z, totalActionFees, None, t)
     | Finalized =>
         if succeeded then (TSFinalized, exitCode, totalActionFees, None, t)
         else (TSFailed, exitCode, totalActionFees, None, t)
     end.
End txm.
