(* ===== verification/TxmSpec.v ===== *)
(** * TxmSpec: what the transaction manager promises

    The store of transactions against an abstract life cycle per Lamport time,
    the invariant of every interleaving of the manager's operations, and the behaviour
    of enqueueing, broadcasting, confirming and status queries. *)

From S2P Require Import Prelude Cells BitCells ExitCodes Trace TraceSpec TxStore Txm.

Section store.
Context {AL : AddrLib} {CL : CellLib}.

(** ** The life cycle of a transaction *)

Inductive lifecycle :=
| LUnknown
| LPending (expiration : Z) (tx : Tx)
| LDone (ft : FinalizedTx).

(** The life cycle only moves forward, and a finished transaction keeps the
    message it was broadcast with. *)
Inductive advances : lifecycle → lifecycle → Prop :=
| adv_same l : advances l l
| adv_sent e tx : advances LUnknown (LPending e tx)
| adv_done e tx ok code :
    advances (LPending e tx) (LDone {| ft_ReceivedMessage := tx_ReceivedMessage tx;
                                       ft_ExitCode := code; ft_TraceSucceeded := ok |})
| adv_both tx ok code :
    advances LUnknown (LDone {| ft_ReceivedMessage := tx_ReceivedMessage tx;
                                ft_ExitCode := code; ft_TraceSucceeded := ok |}).

#[global] Instance advances_refl : Reflexive advances.
Proof. intros l. constructor. Qed.
#[global] Instance advances_trans : Transitive advances.
Proof.
  intros a b c H1 H2. destruct H1; [done|..]; inversion H2; subst; try constructor; try done.
Qed.

(** The abstraction of a store. *)
Definition state_of (s : TxStore) (lt : Z) : lifecycle :=
  match unconfirmedTxs s !! lt with
  | Some u => LPending (ut_ExpirationMs u) (ut_Tx u)
  | None => match finalizedTxs s !! lt with Some f => LDone f | None => LUnknown end
  end.

Definition store_inv (s : TxStore) : Prop :=
  ∀ lt u, unconfirmedTxs s !! lt = Some u → ut_LT u = lt ∧ finalizedTxs s !! lt = None.

Lemma NewTxStore_inv : store_inv NewTxStore.
Proof. intros lt u. cbn. by rewrite lookup_empty. Qed.

Lemma AddUnconfirmed_ok lt e tx s s' :
  AddUnconfirmed lt e tx s = Ok s' →
  state_of s lt = LUnknown ∧ state_of s' lt = LPending e tx ∧
  (∀ k, k ≠ lt → state_of s' k = state_of s k) ∧ (store_inv s → store_inv s').
Proof.
  unfold AddUnconfirmed, state_of. case_bool_decide as H1; [done|]. case_bool_decide as H2; [done|].
  intros [= <-]. cbn. apply eq_None_not_Some in H1, H2. rewrite H1, H2, lookup_insert_eq.
  split_and!; [done|done|intros k Hk; by rewrite lookup_insert_ne|].
  intros Hinv k u. cbn. destruct (decide (k = lt)) as [->|Hk].
  - rewrite lookup_insert_eq. intros [= <-]. done.
  - rewrite lookup_insert_ne by done. apply Hinv.
Qed.

Lemma MarkFinalized_ok lt ok code s s' :
  store_inv s → MarkFinalized lt ok code s = Ok s' →
  (∃ e tx, state_of s lt = LPending e tx ∧
    state_of s' lt = LDone {| ft_ReceivedMessage := tx_ReceivedMessage tx; ft_ExitCode := code;
                              ft_TraceSucceeded := ok |}) ∧
  (∀ k, k ≠ lt → state_of s' k = state_of s k) ∧ store_inv s'.
Proof.
  intros Hinv. unfold MarkFinalized, state_of. destruct (unconfirmedTxs s !! lt) as [u|] eqn:Eu; [|done].
  case_bool_decide as H2; [done|]. intros [= <-]. cbn. split_and!.
  - exists (ut_ExpirationMs u), (ut_Tx u). by rewrite lookup_delete_eq, lookup_insert_eq.
  - intros k Hk. by rewrite lookup_delete_ne, lookup_insert_ne.
  - intros k v. cbn. destruct (decide (k = lt)) as [->|Hk]; [by rewrite lookup_delete_eq|].
    rewrite lookup_delete_ne, lookup_insert_ne by done. apply Hinv.
Qed.

(** C33: the store implements the life cycle: a Lamport time can be added once,
    while it is unknown, and finalised once, while it is pending; every other
    attempt is an error, and no operation touches another transaction.  Pending
    and finalised transactions stay disjoint. *)
Theorem store_refines_lifecycle (s : TxStore) (Hs : store_inv s) :
  (∀ lt e tx, match state_of s lt with
     | LUnknown => ∃ s', AddUnconfirmed lt e tx s = Ok s' ∧ store_inv s' ∧
                     state_of s' lt = LPending e tx ∧ ∀ k, k ≠ lt → state_of s' k = state_of s k
     | _ => AddUnconfirmed lt e tx s = Err "tx already exists"
     end) ∧
  (∀ lt ok code, match state_of s lt with
     | LPending e tx => ∃ s', MarkFinalized lt ok code s = Ok s' ∧ store_inv s' ∧
         state_of s' lt = LDone {| ft_ReceivedMessage := tx_ReceivedMessage tx; ft_ExitCode := code;
                                   ft_TraceSucceeded := ok |} ∧
         ∀ k, k ≠ lt → state_of s' k = state_of s k
     | _ => MarkFinalized lt ok code s = Err "no such unconfirmed tx"
     end).
Proof.
  split.
  - intros lt e tx. destruct (AddUnconfirmed lt e tx s) as [s'|x|x|] eqn:E.
    + destruct (AddUnconfirmed_ok _ _ _ _ _ E) as (-> & H1 & H2 & H3). exists s'. by auto.
    + unfold AddUnconfirmed in E. unfold state_of. case_bool_decide as H1.
      { destruct H1 as [u ->]. congruence. }
      apply eq_None_not_Some in H1. rewrite H1. case_bool_decide as H2; [|done].
      destruct H2 as [f ->]. congruence.
    + unfold AddUnconfirmed in E. by repeat case_bool_decide.
    + unfold AddUnconfirmed in E. by repeat case_bool_decide.
  - intros lt ok code. unfold state_of at 1, MarkFinalized.
    destruct (unconfirmedTxs s !! lt) as [u|] eqn:Eu; [|by destruct (finalizedTxs s !! lt)].
    destruct (Hs lt u Eu) as [_ Ef]. rewrite Ef. rewrite bool_decide_eq_false_2 by by intros [].
    eexists. split; [reflexivity|].
    destruct (MarkFinalized_ok lt ok code s
      {| unconfirmedTxs := delete lt (unconfirmedTxs s);
         finalizedTxs := <[lt := {| ft_ReceivedMessage := tx_ReceivedMessage (ut_Tx u);
                                    ft_ExitCode := code; ft_TraceSucceeded := ok |}]> (finalizedTxs s) |} Hs)
      as ((e & tx & H1 & H2) & H3 & H4).
    { unfold MarkFinalized. by rewrite Eu, Ef, bool_decide_eq_false_2 by by intros []. }
    split; [done|]. split; [|done]. rewrite H2. unfold state_of in H1. rewrite Eu in H1. by injection H1 as <- <-.
Qed.

(** GetUnconfirmed lists every pending transaction once, by ascending
    expiration, whatever the order in which the map is ranged over; its length is
    the in-flight count. *)
Theorem GetUnconfirmed_sorted (s : TxStore) (keys : list Z)
    (Hk : keys ≡ₚ (map_to_list (unconfirmedTxs s)).*1) :
  Sorted by_expiration (GetUnconfirmed keys s) ∧
  GetUnconfirmed keys s ≡ₚ (map_to_list (unconfirmedTxs s)).*2 ∧
  length (GetUnconfirmed keys s) = TxStore.InflightCount s.
Proof.
  pose proof (lookup_values (unconfirmedTxs s) keys Hk) as Hp.
  unfold GetUnconfirmed. split_and!.
  - apply Sorted_merge_sort. intros a b. unfold by_expiration. lia.
  - by rewrite merge_sort_Permutation.
  - rewrite merge_sort_Permutation, Hp, length_fmap. apply length_map_to_list.
Qed.
End store.

(** ** The manager *)

Section manager.
Context {AL : AddrLib} {CL : CellLib}.
Variable Sign : string → bytes → res bytes.
Variable config : Config.
Variable ClientWallet : Wallet.
Variable LoadStateInit : Cell → res Cell.
Variable MustFromNano : Z → nat → res Z.

(** The life cycle of a transaction of an account. *)
Definition tx_state (t : Txm) (account : string) (lt : Z) : lifecycle :=
  match AccountStore_ t !! account with Some s => state_of s lt | None => LUnknown end.

(** The atomic operations of the manager, as the two loops and the callers
    interleave them: [step_mark] is one [MarkFinalized] of a confirmation round. *)
Inductive txm_step : Txm → Txm → Prop :=
| step_enqueue rq now1 now2 t t' : Enqueue Sign config rq now1 now2 t = Ok t' → txm_step t t'
| step_broadcast send stopped t t' :
    broadcast_once config ClientWallet send stopped LoadStateInit t = Some (Ok t') → txm_step t t'
| step_mark account s lt ok code s' t :
    AccountStore_ t !! account = Some s → MarkFinalized lt ok code s = Ok s' →
    txm_step t {| BroadcastChan := BroadcastChan t; AccountStore_ := <[account := s']> (AccountStore_ t) |}
| step_store account t :
    txm_step t {| BroadcastChan := BroadcastChan t;
                  AccountStore_ := (GetTxStore account (AccountStore_ t)).2 |}.

(** The channel keeps within its capacity, the stores satisfy their invariant,
    and every transaction carries the message it was sent as; the Lamport time of
    that message is the key of a pending transaction. *)
Definition pending_ok (s : TxStore) : Prop :=
  (∀ lt u, unconfirmedTxs s !! lt = Some u →
     ∃ m, tx_ReceivedMessage (ut_Tx u) = Some m ∧ rm_LamportTime m = lt) ∧
  (∀ lt f, finalizedTxs s !! lt = Some f → is_Some (ft_ReceivedMessage f)).
Definition txm_inv (t : Txm) : Prop :=
  (Z.of_nat (length (BroadcastChan t)) ≤ Z.max 0 (BroadcastChanSize config))%Z ∧
  ∀ account s, AccountStore_ t !! account = Some s → store_inv s ∧ pending_ok s.

Lemma GetTxStore_lookup account c account' s :
  (GetTxStore account c).2 !! account' = Some s →
  c !! account' = Some s ∨ (account' = account ∧ c !! account = None ∧ s = NewTxStore).
Proof.
  unfold GetTxStore. destruct (c !! account) eqn:E; cbn; [by left|].
  destruct (decide (account' = account)) as [->|Hne].
  - rewrite lookup_insert_eq. intros [= <-]. by right.
  - rewrite lookup_insert_ne by done. by left.
Qed.

Lemma GetTxStore_self account c :
  (GetTxStore account c).2 !! account = Some (GetTxStore account c).1 ∧
  (GetTxStore account c).1 = default NewTxStore (c !! account).
Proof.
  unfold GetTxStore. destruct (c !! account) eqn:E; cbn; [done|]. by rewrite lookup_insert_eq.
Qed.

Lemma broadcast_ok send stopped tx msg accounts e accounts' :
  broadcastWithRetry config ClientWallet send stopped tx msg accounts = Ok (e, accounts') →
  accounts' = accounts ∨
  (let account := AddrString (w_Address ClientWallet) in
   let r := GetTxStore account accounts in
   accounts' = r.2 ∨
   ∃ m exp s', AddUnconfirmed (rm_LamportTime m) exp (set_ReceivedMessage tx m) r.1 = Ok s' ∧
     accounts' = <[account := s']> r.2).
Proof.
  unfold broadcastWithRetry. destruct (send_loop _ _ _ _ _ _ _ _) as [[[m|] [e'|]]|x|x|]; try done;
    try (intros [= <- <-]; by left).
  destruct (GetTxStore _ accounts) as [s c] eqn:E.
  destruct (AddUnconfirmed _ _ _ s) as [s'|x|x|] eqn:Ea; try done; intros [= <- <-]; right; cbn.
  - right. exists m; eexists; exists s'. by split.
  - by left.
Qed.

(** What one operation does to the stores. *)
Definition stores_ok (t : Txm) : Prop :=
  ∀ account s, AccountStore_ t !! account = Some s → store_inv s ∧ pending_ok s.
Definition effect (t t' : Txm) : Prop :=
  stores_ok t' ∧ ∀ account lt, advances (tx_state t account lt) (tx_state t' account lt).

Lemma effect_trans t1 t2 t3 : effect t1 t2 → effect t2 t3 → effect t1 t3.
Proof. intros [_ H1] [H2 H3]. split; [done|]. intros a lt. etrans; [apply H1|apply H3]. Qed.

Lemma effect_get account chan t :
  stores_ok t → effect t {| BroadcastChan := chan; AccountStore_ := (GetTxStore account (AccountStore_ t)).2 |}.
Proof.
  intros Hinv. split.
  - intros a s. cbn. intros [Hs|(_ & _ & ->)]%GetTxStore_lookup; [by eapply Hinv|].
    split; [apply NewTxStore_inv|]. split; intros lt u; cbn; by rewrite lookup_empty.
  - intros a lt. unfold GetTxStore, tx_state. cbn. destruct (AccountStore_ t !! account) eqn:E; [done|]. cbn.
    destruct (decide (a = account)) as [->|Hne]; [|by rewrite lookup_insert_ne].
    by rewrite lookup_insert_eq, E.
Qed.

Lemma effect_insert account s' chan t :
  stores_ok t → store_inv s' → pending_ok s' →
  (∀ lt, advances (tx_state t account lt) (state_of s' lt)) →
  effect t {| BroadcastChan := chan; AccountStore_ := <[account := s']> (AccountStore_ t) |}.
Proof.
  intros Hinv H1 H2 Ha. split.
  - intros a s. cbn. destruct (decide (a = account)) as [->|Hne]; [|rewrite lookup_insert_ne by done; apply Hinv].
    rewrite lookup_insert_eq. by intros [= <-].
  - intros a lt. unfold tx_state at 2. cbn. destruct (decide (a = account)) as [->|Hne].
    + rewrite lookup_insert_eq. apply Ha.
    + by rewrite lookup_insert_ne.
Qed.

Lemma AddUnconfirmed_pending m e tx s s' :
  AddUnconfirmed (rm_LamportTime m) e (set_ReceivedMessage tx m) s = Ok s' → pending_ok s → pending_ok s'.
Proof.
  unfold AddUnconfirmed. intros H [Hs Hf]. repeat case_bool_decide; try done. injection H as <-.
  split; [|exact Hf]. intros lt u. cbn. destruct (decide (lt = rm_LamportTime m)) as [->|Hk].
  - rewrite lookup_insert_eq. intros [= <-]. by exists m.
  - rewrite lookup_insert_ne by done. apply Hs.
Qed.

Lemma MarkFinalized_pending lt ok code s s' :
  MarkFinalized lt ok code s = Ok s' → pending_ok s → pending_ok s'.
Proof.
  unfold MarkFinalized. intros H [Hs Hf]. destruct (unconfirmedTxs s !! lt) as [u0|] eqn:Eu; [|done].
  case_bool_decide; [done|]. injection H as <-. split; cbn.
  - intros k u Hk. apply (Hs k). by apply lookup_delete_Some in Hk as [_ ?].
  - intros k f. destruct (decide (k = lt)) as [->|Hk]; [|rewrite lookup_insert_ne by done; apply Hf].
    rewrite lookup_insert_eq. intros [= <-]. destruct (Hs _ _ Eu) as (m & -> & _). cbn. by eexists.
Qed.

Lemma effect_mark account s lt ok code s' t :
  stores_ok t → AccountStore_ t !! account = Some s → MarkFinalized lt ok code s = Ok s' →
  effect t {| BroadcastChan := BroadcastChan t; AccountStore_ := <[account := s']> (AccountStore_ t) |}.
Proof.
  intros Hinv Hs Hm. destruct (Hinv _ _ Hs) as [I1 I2].
  destruct (MarkFinalized_ok _ _ _ _ _ I1 Hm) as ((e & tx & M1 & M2) & M3 & M4).
  apply effect_insert; [done|done|by eapply MarkFinalized_pending|]. intros k. unfold tx_state. rewrite Hs.
  destruct (decide (k = lt)) as [->|Hk]; [rewrite M1, M2; constructor|by rewrite M3].
Qed.

Lemma effect_broadcast send stopped t t' :
  stores_ok t → broadcast_once config ClientWallet send stopped LoadStateInit t = Some (Ok t') → effect t t'.
Proof.
  intros Hinv H. unfold broadcast_once in H. destruct (BroadcastChan t) as [|tx chan]; [done|].
  destruct (match tx_StateInit tx with Some _ => _ | None => _ end) as [st|x|x|]; try done.
  2:{ injection H as <-. by split. }
  injection H as H. apply bind_ok in H as ([e acc] & Hb & [= <-]). cbn [snd].
  apply broadcast_ok in Hb as [->|[->|(m & exp & s' & Ha & ->)]]; [by split|by apply effect_get|].
  set (account := AddrString (w_Address ClientWallet)) in *.
  pose proof (effect_get account chan t Hinv) as Hg. eapply effect_trans; [exact Hg|].
  destruct (GetTxStore_self account (AccountStore_ t)) as [Hself _]. destruct Hg as [Hok _].
  destruct (Hok _ _ Hself) as [I1 I2]. destruct (AddUnconfirmed_ok _ _ _ _ _ Ha) as (A1 & A2 & A3 & A4).
  apply (effect_insert account s' chan
    {| BroadcastChan := chan; AccountStore_ := (GetTxStore account (AccountStore_ t)).2 |});
    [done|by apply A4|by eapply AddUnconfirmed_pending|].
  intros lt. unfold tx_state. cbn [AccountStore_]. rewrite Hself.
  destruct (decide (lt = rm_LamportTime m)) as [->|Hk]; [rewrite A1, A2; constructor|by rewrite A3].
Qed.

Lemma txm_step_effect t t' : stores_ok t → txm_step t t' → effect t t'.
Proof.
  intros Hinv Hstep. destruct Hstep.
  - unfold Enqueue in H. apply bind_ok in H as (k & _ & H). apply bind_ok in H as (sg & _ & H).
    destruct (_ <? _)%Z; [|done]. injection H as <-. by split.
  - by eapply effect_broadcast.
  - by eapply effect_mark.
  - by apply effect_get.
Qed.

Lemma txm_step_capacity t t' :
  txm_step t t' → (Z.of_nat (length (BroadcastChan t)) ≤ Z.max 0 (BroadcastChanSize config))%Z →
  (Z.of_nat (length (BroadcastChan t')) ≤ Z.max 0 (BroadcastChanSize config))%Z.
Proof.
  intros Hstep Hl. destruct Hstep; cbn; try done.
  - unfold Enqueue in H. apply bind_ok in H as (k & _ & H). apply bind_ok in H as (sg & _ & H).
    destruct (Z.ltb_spec (Z.of_nat (length (BroadcastChan t))) (BroadcastChanSize config)); [|done].
    injection H as <-. cbn. rewrite length_app. cbn. lia.
  - unfold broadcast_once in H. destruct (BroadcastChan t) as [|tx chan]; [done|]. cbn in Hl.
    destruct (match tx_StateInit tx with Some _ => _ | None => _ end) as [st|x|x|]; try done.
    + injection H as H. apply bind_ok in H as (r & _ & [= <-]). cbn. lia.
    + injection H as <-. cbn. lia.
Qed.

(** C12: whatever way the callers and the two loops interleave their operations
    from a new manager on, the channel stays within its capacity, no Lamport time
    is both pending and finalised, every pending transaction carries the message it was
    sent as, and every later state of a transaction advances its life cycle:
    unknown, pending, finalised, and then unchanged. *)
Theorem txm_reachable (t t' : Txm) (Ht : rtc txm_step New t) (Ht' : rtc txm_step t t') :
  txm_inv t ∧ txm_inv t' ∧ ∀ account lt, advances (tx_state t account lt) (tx_state t' account lt).
Proof.
  assert (∀ t1 t2, rtc txm_step t1 t2 → txm_inv t1 →
            txm_inv t2 ∧ ∀ account lt, advances (tx_state t1 account lt) (tx_state t2 account lt)) as Hgen.
  { induction 1 as [t1|t1 t2 t3 Hs _ IH]; [by split|]. intros [Hc Hok].
    destruct (txm_step_effect _ _ Hok Hs) as [Hok2 Ha].
    destruct IH as [Hinv Ha2]; [split; [by eapply txm_step_capacity|done]|].
    split; [done|]. intros a lt. etrans; [apply Ha|apply Ha2]. }
  assert (txm_inv New) as Hnew.
  { split; [cbn; lia|]. intros a s. cbn. unfold NewAccountStore. by rewrite lookup_empty. }
  destruct (Hgen _ _ Ht Hnew) as [H1 _]. destruct (Hgen _ _ Ht' H1) as [H2 H3]. done.
Qed.
End manager.

(** ** Broadcasting, confirming, querying *)

Section operations.
Context {AL : AddrLib} {CL : CellLib}.
Variable Sign : string → bytes → res bytes.
Variable config : Config.
Variable ClientWallet : Wallet.
Variable SendWaitTransaction : Z → Address → WalletMessage → res ReceivedMessage.
Variable stopped : Z → bool.
Variable sub : subscription.
Variable MustFromNano : Z → nat → res Z.

Local Abbreviation send_loop := (send_loop SendWaitTransaction stopped).
Local Abbreviation broadcastWithRetry := (broadcastWithRetry config ClientWallet SendWaitTransaction stopped).

(** Attempt [a] fails and the manager is not stopped in the delay after it. *)
Definition fails (tx : Tx) (msg : WalletMessage) (a : Z) : Prop :=
  is_err (SendWaitTransaction a (tx_To tx) msg) = true ∧ stopped a = false.

Lemma send_loop_fails k n a tx msg r e :
  (∀ i, i < k → fails tx msg (a + Z.of_nat i)) → k ≤ n →
  ∃ e', send_loop n a tx msg r e = send_loop (n - k) (a + Z.of_nat k) tx msg (if k =? 0 then r else None) e' ∧
    (k = 0 → e' = e) ∧ (k ≠ 0 → is_Some e').
Proof.
  revert n a r e. induction k as [|k IH]; intros n a r e Hf Hk.
  - exists e. rewrite Nat.sub_0_r, Z.add_0_r. done.
  - destruct n as [|n]; [lia|]. cbn [Txm.send_loop]. destruct (Hf 0) as [He Hs]; [lia|].
    rewrite Z.add_0_r in He, Hs. destruct (SendWaitTransaction a (tx_To tx) msg) as [m|x|x|]; try done.
    rewrite Hs. destruct (IH n (a + 1)%Z None (Some x)) as (e' & E & H0 & H1); [|lia|].
    + intros i Hi. specialize (Hf (S i)). replace (a + 1 + Z.of_nat i)%Z with (a + Z.of_nat (S i))%Z by lia.
      apply Hf. lia.
    + exists e'. rewrite E. split; [|split; [done|]].
      * replace (n - k) with (S n - S k) by lia. replace (a + 1 + Z.of_nat k)%Z with (a + Z.of_nat (S k))%Z by lia.
        by destruct (k =? 0).
      * intros _. destruct k; [rewrite H0 by done; by eexists|by apply H1].
Qed.

(** The attempt after [k] failed ones stores the transaction as pending. *)
Lemma broadcastWithRetry_success (tx : Tx) (msg : WalletMessage) (accounts : AccountStore) (k : nat) (m : ReceivedMessage) :
  (Z.of_nat k < MaxSendRetryAttempts config)%Z → (∀ i, i < k → fails tx msg (1 + Z.of_nat i)) →
  SendWaitTransaction (1 + Z.of_nat k) (tx_To tx) msg = Ok m →
  let r := GetTxStore (AddrString (w_Address ClientWallet)) accounts in
  let exp := u64 (rm_LamportTime m / 1000 + whole_seconds (SendRetryDelay config)) in
  broadcastWithRetry tx msg accounts
  = match AddUnconfirmed (rm_LamportTime m) exp (set_ReceivedMessage tx m) r.1 with
    | Ok s => Ok (None, <[AddrString (w_Address ClientWallet) := s]> r.2)
    | Err e => Ok (Some e, r.2)
    | Panic p => Panic p
    | Diverge => Diverge
    end.
Proof.
  intros Hk Hf Hm r exp. unfold Txm.broadcastWithRetry.
  destruct (send_loop_fails k (Z.to_nat (MaxSendRetryAttempts config)) 1 tx msg None None Hf)
    as (e' & -> & _); [lia|].
  replace (Z.to_nat (MaxSendRetryAttempts config) - k)
    with (S (Z.to_nat (MaxSendRetryAttempts config) - k - 1)) by lia.
  cbn [Txm.send_loop]. rewrite Hm. unfold r. by destruct (GetTxStore _ accounts).
Qed.

(** Broadcasting tries at most MaxSendRetryAttempts times: if the first k
    attempts fail and the next succeeds, the transaction is stored as pending under the
    Lamport time of the received message (or the error of the store is returned); if
    all fail, the stores do not change and an error is returned; with a
    configured maximum of zero the manager panics. *)
Theorem broadcastWithRetry_spec (tx : Tx) (msg : WalletMessage) (accounts : AccountStore) :
  (MaxSendRetryAttempts config = 0%Z → is_panic (broadcastWithRetry tx msg accounts) = true) ∧
  (∀ k m, (Z.of_nat k < MaxSendRetryAttempts config)%Z →
     (∀ i, i < k → fails tx msg (1 + Z.of_nat i)) →
     SendWaitTransaction (1 + Z.of_nat k) (tx_To tx) msg = Ok m →
     let r := GetTxStore (AddrString (w_Address ClientWallet)) accounts in
     let exp := u64 (rm_LamportTime m / 1000 + whole_seconds (SendRetryDelay config)) in
     broadcastWithRetry tx msg accounts
     = match AddUnconfirmed (rm_LamportTime m) exp (set_ReceivedMessage tx m) r.1 with
       | Ok s => Ok (None, <[AddrString (w_Address ClientWallet) := s]> r.2)
       | Err e => Ok (Some e, r.2)
       | Panic p => Panic p
       | Diverge => Diverge
       end) ∧
  ((0 < MaxSendRetryAttempts config)%Z →
   (∀ i, i < Z.to_nat (MaxSendRetryAttempts config) → fails tx msg (1 + Z.of_nat i)) →
   ∃ e, broadcastWithRetry tx msg accounts = Ok (Some e, accounts)).
Proof.
  split_and!.
  - intros Hz. unfold Txm.broadcastWithRetry. by rewrite Hz.
  - intros k m. apply broadcastWithRetry_success.
  - intros Hpos Hf. unfold Txm.broadcastWithRetry.
    destruct (send_loop_fails _ (Z.to_nat (MaxSendRetryAttempts config)) 1 tx msg None None Hf)
      as (e' & -> & _ & He); [lia|]. rewrite Nat.sub_diag. cbn [Txm.send_loop].
    destruct He as [e ->]; [lia|]. destruct (_ =? 0); by exists e.
Qed.

(** A request is enqueued at the end of the channel exactly when the
    wallet's key is an ed25519 key, the keystore can sign with it, and there is room;
    otherwise an error is returned. *)
Theorem Enqueue_spec (request : Request) (now1 now2 : Z) (t : Txm)
    (Hsign : ∀ k d, is_ok (Sign k d) = true ∨ is_err (Sign k d) = true) :
  if match w_PublicKey (rq_FromWallet request) with
     | Ed25519Key k => is_ok (Sign (hex_encode k) [])
     | OtherKey => false
     end && (Z.of_nat (length (BroadcastChan t)) <? BroadcastChanSize config)%Z
  then ∃ tx, Enqueue Sign config request now1 now2 t
         = Ok {| BroadcastChan := BroadcastChan t ++ [tx]; AccountStore_ := AccountStore_ t |} ∧
       tx_To tx = rq_ContractAddress request ∧ tx_Amount tx = rq_Amount request ∧
       tx_Body tx = rq_Body request ∧ tx_Bounceable tx = rq_Bounce request ∧
       tx_StateInit tx = rq_StateInit request ∧ tx_ReceivedMessage tx = None
  else is_err (Enqueue Sign config request now1 now2 t) = true.
Proof.
  unfold Enqueue. destruct (w_PublicKey (rq_FromWallet request)) as [k|]; [|done]. cbn [PublicKeyHex wrap_err mbind res_bind].
  destruct (Hsign (hex_encode k) []) as [H|H]; destruct (Sign (hex_encode k) []); try done; cbn.
  destruct (_ <? _)%Z; [|done]. eexists. by split_and!.
Qed.

(** The status over the life cycle, for the clients of the manager. *)
Lemma GetTransactionStatus_ok (t : Txm) (lt : Z) (Hok : stores_ok t) :
  match tx_state t (AddrString (w_Address ClientWallet)) lt with
  | LUnknown => ∃ e t', GetTransactionStatus ClientWallet MustFromNano lt t = Ok (TSUnknown, 0%Z, 0%Z, Some e, t') ∧
      ∀ a k, tx_state t' a k = tx_state t a k
  | LPending _ _ => ∃ t', GetTransactionStatus ClientWallet MustFromNano lt t = Ok (TSPending, 0%Z, 0%Z, None, t') ∧
      ∀ a k, tx_state t' a k = tx_state t a k
  | LDone f => ∃ m, ft_ReceivedMessage f = Some m ∧
      match MustFromNano (rm_TotalActionFees m) 9 with
      | Ok fees => ∃ t', GetTransactionStatus ClientWallet MustFromNano lt t
          = Ok (if ft_TraceSucceeded f then TSFinalized else TSFailed, ft_ExitCode f, fees, None, t') ∧
          ∀ a k, tx_state t' a k = tx_state t a k
      | _ => is_ok (GetTransactionStatus ClientWallet MustFromNano lt t) = false
      end
  end.
Proof.
  set (account := AddrString (w_Address ClientWallet)) in *.
  set (t1 := {| BroadcastChan := BroadcastChan t; AccountStore_ := (GetTxStore account (AccountStore_ t)).2 |}).
  assert (∀ a k, tx_state t1 a k = tx_state t a k) as Hsame.
  { intros a k. unfold t1, GetTxStore, tx_state. cbn. destruct (AccountStore_ t !! account) eqn:E; [done|]. cbn.
    destruct (decide (a = account)) as [->|Hne]; [|by rewrite lookup_insert_ne]. by rewrite lookup_insert_eq, E. }
  assert (GetTransactionStatus ClientWallet MustFromNano lt t
          = (r ← GetTxState MustFromNano lt (GetTxStore account (AccountStore_ t)).1;
             let '(status, succeeded, exitCode, fees, found) := (r : MsgStatus * bool * ExitCode * Z * bool) in
             if negb found then Ok (TSUnknown, 0%Z, fees, Some "transaction with id not found"%string, t1) else
             Ok match status return TransactionStatus * ExitCode * Z * option string * Txm with
                | NotFound => (TSUnknown, 0%Z, fees, Some "transaction not found in state map"%string, t1)
                | Cascading => (TSPending, 0%Z, fees, None, t1)
                | Received => (TSUnconfirmed, 0%Z, fees, None, t1)
                | Finalized => if succeeded then (TSFinalized, exitCode, fees, None, t1)
                               else (TSFailed, exitCode, fees, None, t1)
                end)) as ->.
  { unfold GetTransactionStatus, t1. fold account. by destruct (GetTxStore account (AccountStore_ t)). }
  assert (tx_state t account lt = state_of (GetTxStore account (AccountStore_ t)).1 lt) as Hst.
  { unfold tx_state. destruct (GetTxStore_self account (AccountStore_ t)) as [_ ->].
    by destruct (AccountStore_ t !! account). }
  assert (∀ f, finalizedTxs (GetTxStore account (AccountStore_ t)).1 !! lt = Some f →
            is_Some (ft_ReceivedMessage f)) as Hinv.
  { destruct (GetTxStore_self account (AccountStore_ t)) as [_ ->]. intros f.
    destruct (AccountStore_ t !! account) as [s|] eqn:E; cbn; [by apply (Hok account s)|by rewrite lookup_empty]. }
  rewrite Hst. unfold state_of, GetTxState in *.
  destruct (unconfirmedTxs _ !! lt) as [u|]; [by exists t1|].
  destruct (finalizedTxs _ !! lt) as [f|] eqn:Ef; [|by eexists _, t1].
  destruct (Hinv f eq_refl) as [m Hm]. exists m. split; [done|]. rewrite Hm.
  destruct (MustFromNano (rm_TotalActionFees m) 9) as [fees| | |]; try done. exists t1. cbn.
  by destruct (ft_TraceSucceeded f).
Qed.

(** The status of a transaction follows its life cycle: unknown with an
    error, pending, or finalised or failed with the recorded exit code; the
    status "unconfirmed" is never reported, and asking does not change any life cycle. *)
Theorem GetTransactionStatus_spec (t : Txm) (lt : Z) (Hok : stores_ok t) :
  match tx_state t (AddrString (w_Address ClientWallet)) lt with
  | LUnknown => ∃ e t', GetTransactionStatus ClientWallet MustFromNano lt t = Ok (TSUnknown, 0%Z, 0%Z, Some e, t') ∧
      ∀ a k, tx_state t' a k = tx_state t a k
  | LPending _ _ => ∃ t', GetTransactionStatus ClientWallet MustFromNano lt t = Ok (TSPending, 0%Z, 0%Z, None, t') ∧
      ∀ a k, tx_state t' a k = tx_state t a k
  | LDone f => ∃ m, ft_ReceivedMessage f = Some m ∧
      match MustFromNano (rm_TotalActionFees m) 9 with
      | Ok fees => ∃ t', GetTransactionStatus ClientWallet MustFromNano lt t
          = Ok (if ft_TraceSucceeded f then TSFinalized else TSFailed, ft_ExitCode f, fees, None, t') ∧
          ∀ a k, tx_state t' a k = tx_state t a k
      | _ => is_ok (GetTransactionStatus ClientWallet MustFromNano lt t) = false
      end
  end.
Proof. exact (GetTransactionStatus_ok t lt Hok). Qed.

(** What confirming makes of a pending transaction, by the outcome of its trace. *)
Definition confirmed (fuel : nat) (m : ReceivedMessage) (before after : lifecycle) : Prop :=
  match resolve_trace sub fuel m with
  | Ok (Some (ok, code)) =>
      after = LDone {| ft_ReceivedMessage := Some m; ft_ExitCode := code; ft_TraceSucceeded := ok |}
  | Ok None => after = before
  | _ => False
  end.

(** The treatment of one transaction of the snapshot. *)
Definition confirm_one (a : string) (u : UnconfirmedTx) (r : option (bool * ExitCode)) (s : TxStore)
    (c : AccountStore) : AccountStore :=
  match r with
  | None => c
  | Some (ok, code) => match MarkFinalized (ut_LT u) ok code s with Ok s' => <[a := s']> c | _ => c end
  end.

Lemma confirm_one_spec fuel a u m r s c :
  c !! a = Some s → store_inv s → unconfirmedTxs s !! ut_LT u = Some u →
  tx_ReceivedMessage (ut_Tx u) = Some m → resolve_trace sub fuel m = Ok r →
  ∃ s1, confirm_one a u r s c !! a = Some s1 ∧ store_inv s1 ∧
    (∀ b, b ≠ a → confirm_one a u r s c !! b = c !! b) ∧
    (∀ lt, lt ≠ ut_LT u → state_of s1 lt = state_of s lt ∧ unconfirmedTxs s1 !! lt = unconfirmedTxs s !! lt) ∧
    confirmed fuel m (state_of s (ut_LT u)) (state_of s1 (ut_LT u)).
Proof.
  intros Hc Hs Hsu Em Hr. unfold confirmed, confirm_one. rewrite Hr. destruct r as [[ok code]|]; [|by exists s].
  assert (state_of s (ut_LT u) = LPending (ut_ExpirationMs u) (ut_Tx u)) as Hst by (unfold state_of; by rewrite Hsu).
  destruct (Hs _ _ Hsu) as [_ Ef].
  destruct (MarkFinalized (ut_LT u) ok code s) as [s1|x|x|] eqn:E;
    unfold MarkFinalized in E; rewrite Hsu, Ef, bool_decide_eq_false_2 in E by (by intros []); try done.
  assert (MarkFinalized (ut_LT u) ok code s = Ok s1) as E' by
    (unfold MarkFinalized; by rewrite Hsu, Ef, bool_decide_eq_false_2 by (by intros [])).
  destruct (MarkFinalized_ok _ _ _ _ _ Hs E') as ((e & tx & M1 & M2) & M3 & M4).
  exists s1. split_and!; [by rewrite lookup_insert_eq|done|intros b Hb; by rewrite lookup_insert_ne| |].
  - intros lt Hne. split; [by apply M3|]. injection E as <-. cbn. by rewrite lookup_delete_ne.
  - rewrite Hst in M1. injection M1 as _ <-. by rewrite M2, Em.
Qed.

Lemma check_account_spec fuel a txs c c' s :
  c !! a = Some s → store_inv s → NoDup (ut_LT <$> txs) →
  (∀ u, u ∈ txs → unconfirmedTxs s !! ut_LT u = Some u ∧ is_Some (tx_ReceivedMessage (ut_Tx u))) →
  check_account sub fuel a txs c = Ok c' →
  ∃ s', c' !! a = Some s' ∧ (∀ b, b ≠ a → c' !! b = c !! b) ∧
    (∀ lt, lt ∉ ut_LT <$> txs → state_of s' lt = state_of s lt) ∧
    (∀ u, u ∈ txs → ∃ m, tx_ReceivedMessage (ut_Tx u) = Some m ∧
       confirmed fuel m (state_of s (ut_LT u)) (state_of s' (ut_LT u))).
Proof.
  revert c s. induction txs as [|u txs IH]; intros c s Hc Hs Hnd Hall H.
  { injection H as <-. exists s. split_and!; [done..|]. intros u. by intros ?%elem_of_nil. }
  destruct (Hall u (list_elem_of_here _ _)) as [Hu [m Em]]. cbn [check_account] in H. rewrite Em in H.
  apply bind_ok in H as (r & Hr & H). unfold GetTxStore in H. rewrite Hc in H. cbn zeta in H.
  rewrite fmap_cons, NoDup_cons in Hnd. destruct Hnd as [Hnu Hnd].
  destruct (confirm_one_spec fuel a u m r s c) as (s1 & Hc1 & Hs1 & Hb & Hlt & Hcf); try done.
  assert (∀ v, v ∈ txs → ut_LT v ≠ ut_LT u) as Hne.
  { intros v Hv E. apply Hnu. rewrite <- E. apply list_elem_of_fmap. by exists v. }
  destruct (IH _ s1 Hc1 Hs1 Hnd) as (s' & P1 & P2 & P3 & P4); [|exact H|].
  { intros v Hv. destruct (Hlt (ut_LT v)) as [_ ->]; [by apply Hne|]. apply Hall. by apply list_elem_of_further. }
  exists s'. split; [done|]. split; [intros b Hnb; rewrite P2 by done; by apply Hb|]. split.
  - intros lt Hn. rewrite fmap_cons, not_elem_of_cons in Hn. destruct Hn as [Hn1 Hn2].
    rewrite P3 by done. by apply Hlt.
  - intros v [->|Hv]%elem_of_cons.
    + exists m. split; [done|]. by rewrite P3.
    + destruct (P4 v Hv) as (mv & ? & Hcv). exists mv. split; [done|].
      destruct (Hlt (ut_LT v)) as [<- _]; [by apply Hne|]. done.
Qed.

(** The snapshot entry of an account fits its store. *)
Definition fits_snapshot (c : AccountStore) (e : string * list UnconfirmedTx) : Prop :=
  ∃ s, c !! e.1 = Some s ∧ store_inv s ∧ NoDup (ut_LT <$> e.2) ∧
    ∀ u, u ∈ e.2 → unconfirmedTxs s !! ut_LT u = Some u ∧ is_Some (tx_ReceivedMessage (ut_Tx u)).

Lemma check_accounts_spec fuel all c c' :
  NoDup all.*1 → Forall (fits_snapshot c) all → check_accounts sub fuel all c = Ok c' →
  (∀ a, a ∉ all.*1 → c' !! a = c !! a) ∧
  ∀ a txs, (a, txs) ∈ all → ∃ s s', c !! a = Some s ∧ c' !! a = Some s' ∧
    (∀ lt, lt ∉ ut_LT <$> txs → state_of s' lt = state_of s lt) ∧
    (∀ u, u ∈ txs → ∃ m, tx_ReceivedMessage (ut_Tx u) = Some m ∧
       confirmed fuel m (state_of s (ut_LT u)) (state_of s' (ut_LT u))).
Proof.
  revert c. induction all as [|[a txs] all IH]; intros c Hnd Hall H.
  { injection H as <-. split; [done|]. intros a txs. by intros ?%elem_of_nil. }
  cbn [check_accounts] in H. apply bind_ok in H as (c1 & H1 & H).
  cbn [fmap list_fmap fst] in *. apply NoDup_cons in Hnd as [Ha Hnd].
  apply Forall_cons in Hall as [(s & Hs & Hinv & Hn & Hu) Hall]. cbn [fst snd] in *.
  destruct (check_account_spec fuel a txs c c1 s) as (s1 & P1 & P2 & P3 & P4); try done.
  destruct (IH c1 Hnd) as [Q1 Q2]; [|done|].
  { apply Forall_forall. intros [b ts] Hin. rewrite Forall_forall in Hall.
    destruct (Hall _ Hin) as (s2 & E2 & Hrest). exists s2. split; [|done]. cbn [fst] in *. rewrite P2; [done|].
    intros ->. apply Ha. exact (list_elem_of_fmap_2 fst all _ Hin). }
  split.
  - intros b Hb. apply not_elem_of_cons in Hb as [Hb1 Hb2]. rewrite Q1 by done. by apply P2.
  - intros b ts [[= -> ->]|Hin]%elem_of_cons.
    + exists s, s1. split; [done|]. split; [by rewrite Q1|]. done.
    + assert (b ≠ a) as Hba by (intros ->; apply Ha; by apply (list_elem_of_fmap_2 fst all (a, ts))).
      destruct (Q2 b ts Hin) as (s2 & s3 & E2 & E3 & Hrest). rewrite P2 in E2 by done. by exists s2, s3.
Qed.

(** What the snapshot of a store lists. *)
Lemma GetUnconfirmed_elem s keys u :
  store_inv s → keys ≡ₚ (map_to_list (unconfirmedTxs s)).*1 →
  u ∈ GetUnconfirmed keys s ↔ unconfirmedTxs s !! ut_LT u = Some u.
Proof.
  intros Hinv Hk. unfold GetUnconfirmed. rewrite merge_sort_Permutation, list_elem_of_omap. split.
  - intros (k & _ & E). by destruct (Hinv _ _ E) as [-> _].
  - intros E. exists (ut_LT u). split; [|done]. rewrite Hk. apply list_elem_of_fmap.
    exists (ut_LT u, u). by rewrite elem_of_map_to_list.
Qed.

Lemma GetUnconfirmed_NoDup s keys :
  store_inv s → keys ≡ₚ (map_to_list (unconfirmedTxs s)).*1 → NoDup (ut_LT <$> GetUnconfirmed keys s).
Proof.
  intros Hinv Hk. unfold GetUnconfirmed. rewrite merge_sort_Permutation.
  assert (NoDup keys) as Hnd by (rewrite Hk; apply NoDup_fst_map_to_list). clear Hk.
  induction keys as [|k keys IH]; [constructor|]. apply NoDup_cons in Hnd as [Hk Hnd]. cbn.
  destruct (unconfirmedTxs s !! k) as [u|] eqn:Eu; [|by apply IH]. rewrite fmap_cons, NoDup_cons.
  split; [|by apply IH]. intros (v & Ev & Hv)%list_elem_of_fmap.
  apply list_elem_of_omap in Hv as (k' & Hk' & Ek'). destruct (Hinv _ _ Eu) as [E1 _].
  destruct (Hinv _ _ Ek') as [E2 _]. congruence.
Qed.

Lemma snapshot_known (t : Txm) order keys a txs :
  (a, txs) ∈ GetAllUnconfirmed order keys (AccountStore_ t) →
  ∃ s, AccountStore_ t !! a = Some s ∧ txs = GetUnconfirmed (keys a) s.
Proof.
  unfold GetAllUnconfirmed. intros (b & _ & E)%list_elem_of_omap.
  destruct (AccountStore_ t !! b) as [s|] eqn:Es; [|done]. cbn in E. injection E as -> <-. by exists s.
Qed.

Lemma snapshot_fits (t : Txm) order keys :
  stores_ok t → order ≡ₚ (map_to_list (AccountStore_ t)).*1 →
  (∀ a s, AccountStore_ t !! a = Some s → keys a ≡ₚ (map_to_list (unconfirmedTxs s)).*1) →
  NoDup (GetAllUnconfirmed order keys (AccountStore_ t)).*1 ∧
  Forall (fits_snapshot (AccountStore_ t)) (GetAllUnconfirmed order keys (AccountStore_ t)) ∧
  (∀ a s, AccountStore_ t !! a = Some s → ∃ txs,
     (a, txs) ∈ GetAllUnconfirmed order keys (AccountStore_ t) ∧
     ∀ u, u ∈ txs ↔ unconfirmedTxs s !! ut_LT u = Some u).
Proof.
  intros Hok Horder Hkeys. split_and!.
  - assert (NoDup order) as Hnd by (rewrite Horder; apply NoDup_fst_map_to_list). clear Horder.
    unfold GetAllUnconfirmed. induction order as [|a order IH]; [constructor|]. apply NoDup_cons in Hnd as [Ha Hnd].
    cbn. destruct (AccountStore_ t !! a) as [s|] eqn:Es; cbn; [|by apply IH]. apply NoDup_cons.
    split; [|by apply IH]. intros ((b & txs) & Eb & Hin)%list_elem_of_fmap. cbn in Eb. subst b.
    apply list_elem_of_omap in Hin as (b & Hb & E). destruct (AccountStore_ t !! b); [|done].
    cbn in E. injection E as -> _. done.
  - apply Forall_forall. intros [a txs] Hin. destruct (snapshot_known _ _ _ _ _ Hin) as (s & Es & ->).
    destruct (Hok a s Es) as [Hinv [Hp _]]. exists s. split_and!; [done|done|by apply GetUnconfirmed_NoDup, Hkeys|].
    intros u Hu. cbn in Hu. assert (unconfirmedTxs s !! ut_LT u = Some u) as Hsu
      by (eapply GetUnconfirmed_elem; [done|by apply Hkeys|done]).
    split; [done|]. destruct (Hp _ _ Hsu) as (m & -> & _). by eexists.
  - intros a s Es. destruct (Hok a s Es) as [Hinv _]. exists (GetUnconfirmed (keys a) s). split.
    + unfold GetAllUnconfirmed. apply list_elem_of_omap. exists a. rewrite Es. split; [|done].
      rewrite Horder. apply list_elem_of_fmap. exists (a, s). by rewrite elem_of_map_to_list.
    + intros u. apply GetUnconfirmed_elem; [done|by apply Hkeys].
Qed.

(** A pending transaction whose trace the environment follows to an answer. *)
Definition resolves (fuel : nat) (tx : Tx) : Prop :=
  ∃ m r, tx_ReceivedMessage tx = Some m ∧ resolve_trace sub fuel m = Ok r.

Lemma check_account_returns fuel a txs c :
  Forall (λ u, resolves fuel (ut_Tx u)) txs → ∃ c', check_account sub fuel a txs c = Ok c'.
Proof.
  intros Hall. revert c. induction Hall as [|u txs (m & r & Em & Er) _ IH]; intros c; [by exists c|].
  cbn [check_account]. rewrite Em. cbn iota. rewrite Er. cbn [mbind res_bind]. destruct (GetTxStore a c). apply IH.
Qed.

Lemma check_accounts_returns fuel all c :
  Forall (λ e, Forall (λ u, resolves fuel (ut_Tx u)) e.2) all → ∃ c', check_accounts sub fuel all c = Ok c'.
Proof.
  intros Hall. revert c. induction Hall as [|[a txs] all He _ IH]; intros c; [by exists c|].
  cbn [check_accounts]. destruct (check_account_returns fuel a txs c He) as [c1 ->]. apply IH.
Qed.

(** A round of confirmations, for the flows that contain one. *)
Lemma checkUnconfirmed_ok (fuel : nat) (t : Txm) (order : list string) (keys : string → list Z)
    (Hok : stores_ok t) (Horder : order ≡ₚ (map_to_list (AccountStore_ t)).*1)
    (Hkeys : ∀ a s, AccountStore_ t !! a = Some s → keys a ≡ₚ (map_to_list (unconfirmedTxs s)).*1)
    (Hres : ∀ account lt e tx, tx_state t account lt = LPending e tx → resolves fuel tx) :
  ∃ t', checkUnconfirmed sub fuel order keys t = Ok t' ∧ BroadcastChan t' = BroadcastChan t ∧
  ∀ account lt, match tx_state t account lt with
    | LPending e tx => ∃ m, tx_ReceivedMessage tx = Some m ∧
        confirmed fuel m (LPending e tx) (tx_state t' account lt)
    | l => tx_state t' account lt = l
    end.
Proof.
  set (c := AccountStore_ t) in *.
  destruct (snapshot_fits t order keys Hok Horder Hkeys) as (Hnd & Hfit & Hall). fold c in Hnd, Hfit, Hall.
  assert (∃ c', check_accounts sub fuel (GetAllUnconfirmed order keys c) c = Ok c') as [c' H].
  { apply check_accounts_returns, Forall_forall. intros [a txs] Hin. apply Forall_forall. intros u Hu. cbn in Hu.
    rewrite Forall_forall in Hfit. destruct (Hfit _ Hin) as (s & Es & _ & _ & Hunc). cbn in *.
    apply (Hres a (ut_LT u) (ut_ExpirationMs u)). unfold tx_state. fold c. rewrite Es. unfold state_of.
    by rewrite (proj1 (Hunc u Hu)). }
  exists {| BroadcastChan := BroadcastChan t; AccountStore_ := c' |}.
  split; [unfold checkUnconfirmed; fold c; by rewrite H|]. split; [done|].
  destruct (check_accounts_spec fuel _ c c' Hnd Hfit H) as [Q1 Q2].
  intros a lt. unfold tx_state. cbn [AccountStore_]. fold c. destruct (c !! a) as [s|] eqn:Es.
  - destruct (Hall a s Es) as (txs & Hin & Htxs).
    destruct (Q2 a txs Hin) as (s0 & s' & E0 & -> & Hsame & Hconf). rewrite Es in E0. injection E0 as <-.
    destruct (state_of s lt) as [|e tx|f] eqn:El.
    + rewrite Hsame; [done|]. intros (u & -> & Hu)%list_elem_of_fmap.
      unfold state_of in El. apply Htxs in Hu. by rewrite Hu in El.
    + unfold state_of in El. destruct (unconfirmedTxs s !! lt) as [u|] eqn:Eu;
        [|by destruct (finalizedTxs s !! lt)]. injection El as <- <-.
      destruct (Hok a s Es) as [Hinv _]. destruct (Hinv lt u Eu) as [<- _].
      destruct (Hconf u) as (m & Hm & Hc); [by apply Htxs|]. exists m. split; [done|].
      unfold state_of at 1 in Hc. by rewrite Eu in Hc.
    + rewrite Hsame; [done|]. intros (u & -> & Hu)%list_elem_of_fmap.
      unfold state_of in El. apply Htxs in Hu. by rewrite Hu in El.
  - rewrite Q1; [by rewrite Es|]. intros ((b & txs) & Hb & Hin)%list_elem_of_fmap. cbn in Hb. subst b.
    apply (snapshot_known t order keys) in Hin as (s & E & _). unfold c in Es. congruence.
Qed.

(** C15: a confirmation round returns when every pending transaction's trace gets
    an answer; it finalises every pending transaction whose trace settled, with the success
    and exit code of the trace, leaves the others pending, and changes no transaction that
    was unknown or finalised. *)
Theorem checkUnconfirmed_spec (fuel : nat) (t : Txm) (order : list string) (keys : string → list Z)
    (Hok : stores_ok t) (Horder : order ≡ₚ (map_to_list (AccountStore_ t)).*1)
    (Hkeys : ∀ a s, AccountStore_ t !! a = Some s → keys a ≡ₚ (map_to_list (unconfirmedTxs s)).*1)
    (Hres : ∀ account lt e tx, tx_state t account lt = LPending e tx → resolves fuel tx) :
  ∃ t', checkUnconfirmed sub fuel order keys t = Ok t' ∧ BroadcastChan t' = BroadcastChan t ∧
  ∀ account lt, match tx_state t account lt with
    | LPending e tx => ∃ m, tx_ReceivedMessage tx = Some m ∧
        confirmed fuel m (LPending e tx) (tx_state t' account lt)
    | l => tx_state t' account lt = l
    end.
Proof. exact (checkUnconfirmed_ok fuel t order keys Hok Horder Hkeys Hres). Qed.
End operations.

(** ** Runs on concrete transactions *)

Module TxmRuns.
Import BitCells TraceRuns.

Definition sign1 : string → bytes → res bytes := λ k _, if bool_decide (k = "0aff"%string) then Ok [] else Err "no key".
Definition wallet1 : Wallet := {| w_Address := a1; w_PublicKey := Ed25519Key [x0a; xff] |}.
Definition request1 : Request :=
  {| rq_Mode := 1; rq_FromWallet := wallet1; rq_ContractAddress := a2; rq_Body := BCell [] []; rq_Amount := 100;
     rq_Bounce := true; rq_StateInit := None |}.
(** The first attempt fails, the second is received as [msg1]. *)
Definition send1 : Z → Address → WalletMessage → res ReceivedMessage :=
  λ a _ _, if (a =? 1)%Z then Err "timeout" else Ok msg1.
Definition never : Z → bool := λ _, false.
Definition load1 : Cell → res Cell := Ok.
Definition nano1 : Z → nat → res Z := λ z _, Ok z.
Definition account1 : string := AddrString a1.

Definition tx1' : Tx :=
  {| tx_Mode := 1; tx_From := a1; tx_To := a2; tx_Amount := 100; tx_Body := BCell [] []; tx_StateInit := None;
     tx_Bounceable := true; tx_CreatedAt := 0; tx_Expiration := 300 * Second; tx_ReceivedMessage := None |}.
Definition sent1 : Tx := set_ReceivedMessage tx1' msg1.
Definition done1 : FinalizedTx :=
  {| ft_ReceivedMessage := Some msg1; ft_ExitCode := 37; ft_TraceSucceeded := false |}.
Definition store1 : TxStore :=
  {| unconfirmedTxs := {[10%Z := {| ut_LT := 10; ut_ExpirationMs := 3; ut_Tx := sent1 |}]}; finalizedTxs := ∅ |}.
Definition txm1 : Txm := {| BroadcastChan := []; AccountStore_ := {[account1 := store1]} |}.
Definition store2 : TxStore :=
  {| unconfirmedTxs := delete 10%Z (unconfirmedTxs store1); finalizedTxs := {[10%Z := done1]} |}.
Definition txm2 : Txm := {| BroadcastChan := []; AccountStore_ := <[account1 := store2]> (AccountStore_ txm1) |}.

Lemma txm1_lookup a s : AccountStore_ txm1 !! a = Some s → a = account1 ∧ s = store1.
Proof. unfold txm1, AccountStore_. by intros [-> ->]%lookup_singleton_Some. Qed.
Lemma store1_lookup lt u :
  unconfirmedTxs store1 !! lt = Some u → lt = 10%Z ∧ u = {| ut_LT := 10; ut_ExpirationMs := 3; ut_Tx := sent1 |}.
Proof. unfold store1, unconfirmedTxs. by intros [-> ->]%lookup_singleton_Some. Qed.

Lemma store1_inv : store_inv store1 ∧ pending_ok store1.
Proof.
  split; [|split]; intros lt u; [| |cbn; by rewrite lookup_empty];
    intros [-> ->]%store1_lookup; [done|by exists msg1].
Qed.

Lemma txm1_ok : stores_ok txm1.
Proof. intros a s [-> ->]%txm1_lookup. apply store1_inv. Qed.

Lemma txm1_state a lt e tx : tx_state txm1 a lt = LPending e tx → tx = sent1.
Proof.
  unfold tx_state. destruct (AccountStore_ txm1 !! a) as [s|] eqn:E; [|done].
  apply txm1_lookup in E as [-> ->]. unfold state_of.
  destruct (unconfirmedTxs store1 !! lt) as [u|] eqn:Eu; [|cbn; by rewrite lookup_empty].
  apply store1_lookup in Eu as [-> ->]. by intros [= _ <-].
Qed.

Lemma store_refines_lifecycle_witness :
  (∃ s', MarkFinalized 10 false 37 store1 = Ok s' ∧ state_of s' 10 = LDone done1) ∧
  AddUnconfirmed 10 3 sent1 store1 = Err "tx already exists".
Proof.
  destruct (store_refines_lifecycle store1 (proj1 store1_inv)) as [H1 H2]. split; [|exact (H1 10%Z 3%Z sent1)].
  destruct (H2 10%Z false 37%Z) as (s' & ? & _ & ? & _). by exists s'.
Defined.

Lemma GetUnconfirmed_sorted_witness : length (GetUnconfirmed [10%Z] store1) = 1.
Proof. apply (GetUnconfirmed_sorted store1 [10%Z]). reflexivity. Defined.

(** A transaction is enqueued, broadcast at the second attempt and finalised. *)
Lemma run1 : rtc (txm_step sign1 DefaultConfigSet wallet1 load1) New txm1.
Proof.
  eapply rtc_l; [apply (step_enqueue _ _ _ _ request1 0 0 New
    {| BroadcastChan := [tx1']; AccountStore_ := NewAccountStore |}); reflexivity|].
  apply rtc_once, (step_broadcast _ _ _ _ send1 never). reflexivity.
Qed.

Lemma run2 : rtc (txm_step sign1 DefaultConfigSet wallet1 load1) txm1 txm2.
Proof. apply rtc_once, (step_mark _ _ _ _ account1 store1 10 false 37 store2); reflexivity. Qed.

Lemma txm_reachable_witness : advances (LPending 3 sent1) (LDone done1).
Proof.
  destruct (txm_reachable sign1 DefaultConfigSet wallet1 load1 txm1 txm2 run1 run2) as (_ & _ & H).
  exact (H account1 10%Z).
Defined.

Lemma Enqueue_spec_witness : ∃ tx, Enqueue sign1 DefaultConfigSet request1 0 0 New
  = Ok {| BroadcastChan := [tx]; AccountStore_ := NewAccountStore |} ∧ tx_To tx = a2.
Proof.
  destruct (Enqueue_spec sign1 DefaultConfigSet request1 0 0 New) as (tx & H & Ht & _);
    [intros k d; unfold sign1; case_bool_decide; by auto|]. by exists tx.
Defined.

Lemma broadcastWithRetry_spec_witness : ∃ acc,
  broadcastWithRetry DefaultConfigSet wallet1 send1 never tx1' (wallet_message tx1' None) ∅ = Ok (None, acc).
Proof.
  destruct (broadcastWithRetry_spec DefaultConfigSet wallet1 send1 never tx1' (wallet_message tx1' None) ∅)
    as (_ & H & _).
  rewrite (H 1 msg1); [by eexists|done| |done]. intros i Hi. by assert (i = 0) as -> by lia.
Defined.

Lemma GetTransactionStatus_spec_witness :
  ∃ t', GetTransactionStatus wallet1 nano1 10 txm1 = Ok (TSPending, 0%Z, 0%Z, None, t').
Proof. destruct (GetTransactionStatus_spec wallet1 nano1 txm1 10 txm1_ok) as (t' & H & _). by exists t'. Defined.

Lemma checkUnconfirmed_spec_witness :
  ∃ t', checkUnconfirmed sub1 2 [account1] (λ _, [10%Z]) txm1 = Ok t' ∧ tx_state t' account1 10 = LDone done1.
Proof.
  destruct (checkUnconfirmed_spec sub1 2 txm1 [account1] (λ _, [10%Z]) txm1_ok) as (t' & H & _ & Hst).
  - reflexivity.
  - intros a s [-> ->]%txm1_lookup. reflexivity.
  - intros a lt e tx ->%txm1_state. exists msg1, (Some (false, 37%Z)). split; reflexivity.
  - exists t'. split; [exact H|]. destruct (Hst account1 10%Z) as (m & [= <-] & Hc). exact Hc.
Defined.
End TxmRuns.
