(* ===== verification/Lifecycle.v ===== *)
(** * Lifecycle: the transaction manager as a running service (pkg/txm/txm.go)

    [Start] launches the broadcast and the confirm loop, [Close] closes the stop
    channel and waits for both; callers enqueue and ask for statuses at any time.
    A loop returns at its select only, where it looks at the stop channel: the turn it has
    begun there, the sending of a transaction or a round of confirmations, goes on to its end
    (the sending looks at the channel between two attempts, and ends), which the network may
    delay for ever.  The interleavings of all of them are the steps of a
    relation over the state of the manager and of its goroutines. *)

From S2P Require Import Prelude Cells BitCells ExitCodes Trace TraceSpec TxStore Txm TxmSpec.

(** ** The once-only state of chainlink-common *)

(** [StartStopOnce]: whether [StartOnce] and [StopOnce] run the function they are
    given, and the state they leave. *)
Class OnceLib := {
  Once : Type;
  NewOnce : Once;
  StartOnce : Once → option Once;
  StopOnce : Once → option Once;
}.

Inductive phase := Unstarted | Started | Stopped.
#[export] Instance phase_eq_dec : EqDecision phase.
Proof. solve_decision. Defined.

(** What the code relies on: a service starts once, and is stopped once after it. *)
Class OnceLaws `{OnceLib} := {
  once_phase : Once → phase;
  once_new : once_phase NewOnce = Unstarted;
  start_once o : match StartOnce o with
                 | Some o' => once_phase o = Unstarted ∧ once_phase o' = Started
                 | None => once_phase o ≠ Unstarted
                 end;
  stop_once o : match StopOnce o with
                | Some o' => once_phase o = Started ∧ once_phase o' = Stopped
                | None => once_phase o ≠ Started
                end;
}.

Section lifecycle.
Context {AL : AddrLib} {CL : CellLib} {OL : OnceLib}.
Variable Sign : string → bytes → res bytes.
Variable config : Config.
Variable ClientWallet : Wallet.
Variable LoadStateInit : Cell → res Cell.

(** ** The service *)

(** The once-only state, whether [Stop] is closed, the counter of [Done], whether the
    two loops run, the transaction that the broadcast loop has received and is sending,
    what is left of the round of the confirm loop, whether a call of [Close] waits,
    and the manager's own state. *)
Record service := {
  Starter : Once;
  Stop : bool;
  Done : nat;
  broadcastLoop : bool;
  confirmLoop : bool;
  sending : option Tx;
  checking : option (list (string * UnconfirmedTx));
  closing : bool;
  manager : Txm;
}.

Definition NewService : service :=
  {| Starter := NewOnce; Stop := false; Done := 0; broadcastLoop := false; confirmLoop := false;
     sending := None; checking := None; closing := false; manager := New |}.

Definition Start (s : service) : res service :=
  match StartOnce (Starter s) with
  | None => Err "Txm has already been started"
  | Some o => Ok {| Starter := o; Stop := Stop s; Done := Done s + 2; broadcastLoop := true; confirmLoop := true;
                    sending := None; checking := None; closing := closing s; manager := manager s |}
  end.

(** [Close] up to the wait, and its return. *)
Definition Close (s : service) : res service :=
  match StopOnce (Starter s) with
  | None => Err "Txm cannot be stopped from this state"
  | Some o =>
      if Stop s then Panic "close of closed channel" else
      Ok {| Starter := o; Stop := true; Done := Done s; broadcastLoop := broadcastLoop s;
            confirmLoop := confirmLoop s; sending := sending s; checking := checking s;
            closing := true; manager := manager s |}
  end.
Definition Close_return (s : service) : option service :=
  if closing s && (Done s =? 0)
  then Some {| Starter := Starter s; Stop := Stop s; Done := Done s; broadcastLoop := broadcastLoop s;
               confirmLoop := confirmLoop s; sending := sending s; checking := checking s;
               closing := false; manager := manager s |}
  else None.

(** A loop that is at its select, not in a turn, and returns there, which calls [Done.Done]. *)
Definition broadcastLoop_stops (s : service) : option (res service) :=
  if broadcastLoop s && bool_decide (sending s = None) && Stop s
  then Some match Done s with
            | O => Panic "negative WaitGroup counter"
            | S n => Ok {| Starter := Starter s; Stop := Stop s; Done := n; broadcastLoop := false;
                           confirmLoop := confirmLoop s; sending := None; checking := checking s;
                           closing := closing s; manager := manager s |}
            end
  else None.
Definition confirmLoop_stops (s : service) : option (res service) :=
  if confirmLoop s && bool_decide (checking s = None) && Stop s
  then Some match Done s with
            | O => Panic "negative WaitGroup counter"
            | S n => Ok {| Starter := Starter s; Stop := Stop s; Done := n; broadcastLoop := broadcastLoop s;
                           confirmLoop := false; sending := sending s; checking := None;
                           closing := closing s; manager := manager s |}
            end
  else None.

Definition set_sending (s : service) (tx : option Tx) (t : Txm) : service :=
  {| Starter := Starter s; Stop := Stop s; Done := Done s; broadcastLoop := broadcastLoop s;
     confirmLoop := confirmLoop s; sending := tx; checking := checking s; closing := closing s; manager := t |}.
Definition set_checking (s : service) (todo : option (list (string * UnconfirmedTx))) (t : Txm) : service :=
  {| Starter := Starter s; Stop := Stop s; Done := Done s; broadcastLoop := broadcastLoop s;
     confirmLoop := confirmLoop s; sending := sending s; checking := todo; closing := closing s; manager := t |}.
Definition set_manager (s : service) (t : Txm) : service := set_sending s (sending s) t.

(** ** Turns of the loops *)

(** The select of the broadcast loop receives a transaction. *)
Definition receive (t : Txm) : option (Tx * Txm) :=
  match BroadcastChan t with
  | [] => None
  | tx :: chan => Some (tx, {| BroadcastChan := chan; AccountStore_ := AccountStore_ t |})
  end.
Definition put_back (tx : Tx) (t : Txm) : Txm :=
  {| BroadcastChan := tx :: BroadcastChan t; AccountStore_ := AccountStore_ t |}.
(** What the turn does with it, when sending has come to an end. *)
Definition send_turn (send : Z → Address → WalletMessage → res ReceivedMessage) (stopped : Z → bool) (tx : Tx) (t : Txm)
    : option (res Txm) :=
  broadcast_once config ClientWallet send stopped LoadStateInit (put_back tx t).

(** A round starts with the unconfirmed transactions of that moment, account by account. *)
Definition round_of (order : list string) (keys : string → list Z) (t : Txm) : list (string * UnconfirmedTx) :=
  GetAllUnconfirmed order keys (AccountStore_ t) ≫= λ p, pair p.1 <$> p.2.
(** The turn of one of them, when its trace is there. *)
Definition check_turn (sub : subscription) (fuel : nat) (p : string * UnconfirmedTx) (t : Txm) : res Txm :=
  accounts ← check_account sub fuel p.1 [p.2] (AccountStore_ t);
  Ok {| BroadcastChan := BroadcastChan t; AccountStore_ := accounts |}.

(** A round whose turns follow one another. *)
Fixpoint round_turns (sub : subscription) (fuel : nat) (todo : list (string * UnconfirmedTx)) (t : Txm) : res Txm :=
  match todo with
  | [] => Ok t
  | p :: todo' => t ← check_turn sub fuel p t; round_turns sub fuel todo' t
  end.

Lemma account_turns sub fuel account txs rest t :
  round_turns sub fuel ((pair account <$> txs) ++ rest) t
  = (accounts ← check_account sub fuel account txs (AccountStore_ t);
     round_turns sub fuel rest {| BroadcastChan := BroadcastChan t; AccountStore_ := accounts |}).
Proof.
  revert t. induction txs as [|x txs IH]; intros t; [by destruct t|].
  cbn [fmap list_fmap app round_turns]. unfold check_turn. cbn [fst snd check_account].
  destruct (match tx_ReceivedMessage (ut_Tx x) with Some m => _ | None => _ end) as [r| | |]; cbn [mbind res_bind]; try done.
  destruct (GetTxStore account (AccountStore_ t)) as [st c]. cbn [mbind res_bind]. apply IH.
Qed.

(** It is the [checkUnconfirmed] of the manager. *)
Lemma round_whole sub fuel order keys t :
  round_turns sub fuel (round_of order keys t) t = checkUnconfirmed sub fuel order keys t.
Proof.
  unfold round_of, checkUnconfirmed. generalize (GetAllUnconfirmed order keys (AccountStore_ t)) as all. intros all.
  revert t. induction all as [|[account txs] all IH]; intros t; [by destruct t|].
  cbn [mbind list_bind fst snd check_accounts]. rewrite account_turns.
  destruct (check_account sub fuel account txs (AccountStore_ t)) as [c| | |]; cbn [mbind res_bind]; done.
Qed.

(** ** Its steps *)

(** What callers do: enqueue, or ask for a status, which looks up a store. *)
Inductive caller_step : Txm → Txm → Prop :=
| caller_enqueue rq now1 now2 t t' : Enqueue Sign config rq now1 now2 t = Ok t' → caller_step t t'
| caller_status account t :
    caller_step t {| BroadcastChan := BroadcastChan t; AccountStore_ := (GetTxStore account (AccountStore_ t)).2 |}.

(** The steps of the goroutines of the service; a select that can both receive and
    stop may do either. *)
Inductive loop_step : service → service → Prop :=
| loop_receive s tx t :
    broadcastLoop s = true → sending s = None → receive (manager s) = Some (tx, t) →
    loop_step s (set_sending s (Some tx) t)
| loop_sent send stopped s tx t :
    sending s = Some tx → send_turn send stopped tx (manager s) = Some (Ok t) → loop_step s (set_sending s None t)
| loop_broadcast_stops s s' : broadcastLoop_stops s = Some (Ok s') → loop_step s s'
| loop_tick order keys s :
    confirmLoop s = true → checking s = None → order ≡ₚ (map_to_list (AccountStore_ (manager s))).*1 →
    (∀ a st, AccountStore_ (manager s) !! a = Some st → keys a ≡ₚ (map_to_list (unconfirmedTxs st)).*1) →
    loop_step s (set_checking s (Some (round_of order keys (manager s))) (manager s))
| loop_check sub fuel s p todo t :
    checking s = Some (p :: todo) → check_turn sub fuel p (manager s) = Ok t → loop_step s (set_checking s (Some todo) t)
| loop_round_ends s : checking s = Some [] → loop_step s (set_checking s None (manager s))
| loop_confirm_stops s s' : confirmLoop_stops s = Some (Ok s') → loop_step s s'
| loop_return s s' : Close_return s = Some s' → loop_step s s'.

Inductive service_step : service → service → Prop :=
| service_start s s' : Start s = Ok s' → service_step s s'
| service_close s s' : Close s = Ok s' → service_step s s'
| service_loop s s' : loop_step s s' → service_step s s'
| service_caller s t : caller_step (manager s) t → service_step s (set_manager s t).
End lifecycle.
Arguments service {AL CL OL}.
Arguments NewService {AL CL OL}.

(** ** What the service promises *)

Section promises.
Context {AL : AddrLib} {CL : CellLib} {OL : OnceLib} {LAWS : OnceLaws}.
Variable Sign : string → bytes → res bytes.
Variable config : Config.
Variable ClientWallet : Wallet.
Variable LoadStateInit : Cell → res Cell.

Local Abbreviation loop_step := (loop_step config ClientWallet LoadStateInit).
Local Abbreviation service_step := (service_step Sign config ClientWallet LoadStateInit).
(** The wait group counts the running loops; both run between [Start] and the
    close of [Stop], and none does once [Close] has returned; only a running loop is in a turn. *)
Definition service_inv (s : service) : Prop :=
  Done s = Nat.b2n (broadcastLoop s) + Nat.b2n (confirmLoop s) ∧
  (is_Some (sending s) → broadcastLoop s = true) ∧ (is_Some (checking s) → confirmLoop s = true) ∧
  match once_phase (Starter s) with
  | Unstarted => Stop s = false ∧ broadcastLoop s = false ∧ confirmLoop s = false ∧ closing s = false
  | Started => Stop s = false ∧ broadcastLoop s = true ∧ confirmLoop s = true ∧ closing s = false
  | Stopped => Stop s = true ∧ (closing s = false → broadcastLoop s = false ∧ confirmLoop s = false)
  end.

Lemma NewService_inv : service_inv NewService.
Proof. unfold service_inv. cbn. rewrite once_new. split_and!; try done; by intros []. Qed.

(** A loop that stops at its select leaves the wait group. *)
Lemma broadcastLoop_stops_ok s :
  service_inv s → broadcastLoop s = true → sending s = None → Stop s = true →
  broadcastLoop_stops s = Some (Ok {| Starter := Starter s; Stop := true; Done := Nat.b2n (confirmLoop s);
    broadcastLoop := false; confirmLoop := confirmLoop s; sending := None; checking := checking s;
    closing := closing s; manager := manager s |}).
Proof.
  intros [Hd _] Hb Hn Hs. unfold broadcastLoop_stops. rewrite Hb, Hs, bool_decide_eq_true_2 by done. cbn.
  rewrite Hb in Hd. cbn in Hd. by rewrite Hd.
Qed.

Lemma confirmLoop_stops_ok s :
  service_inv s → confirmLoop s = true → checking s = None → Stop s = true →
  confirmLoop_stops s = Some (Ok {| Starter := Starter s; Stop := true; Done := Nat.b2n (broadcastLoop s);
    broadcastLoop := broadcastLoop s; confirmLoop := false; sending := sending s; checking := None;
    closing := closing s; manager := manager s |}).
Proof.
  intros [Hd _] Hb Hn Hs. unfold confirmLoop_stops. rewrite Hb, Hs, bool_decide_eq_true_2 by done. cbn.
  rewrite Hb, Nat.add_1_r in Hd. by rewrite Hd.
Qed.

Lemma broadcastLoop_stops_select s r :
  broadcastLoop_stops s = Some r → broadcastLoop s = true ∧ sending s = None ∧ Stop s = true.
Proof.
  unfold broadcastLoop_stops. destruct (broadcastLoop s), (Stop s); case_bool_decide; try done.
Qed.
Lemma confirmLoop_stops_select s r :
  confirmLoop_stops s = Some r → confirmLoop s = true ∧ checking s = None ∧ Stop s = true.
Proof.
  unfold confirmLoop_stops. destruct (confirmLoop s), (Stop s); case_bool_decide; try done.
Qed.

(** The loops and [Close] only work in the phase after [Start]. *)
Lemma stop_phase s : service_inv s → Stop s = true → once_phase (Starter s) = Stopped.
Proof. intros (_ & _ & _ & H) Hs. destruct (once_phase (Starter s)); [| |done]; destruct H as [H _]; congruence. Qed.

Lemma closing_stop s : service_inv s → closing s = true → Stop s = true ∧ once_phase (Starter s) = Stopped.
Proof.
  intros (_ & _ & _ & H) Hs. destruct (once_phase (Starter s)); [destruct H as (_ & _ & _ & ?); congruence..|].
  by destruct H.
Qed.

Lemma Close_return_value s :
  service_inv s → closing s = true →
  is_Some (Close_return s) ↔ broadcastLoop s = false ∧ confirmLoop s = false.
Proof.
  intros [Hd _] Hc. unfold Close_return. rewrite Hc, Hd. cbn [andb].
  destruct (broadcastLoop s), (confirmLoop s); cbn; split; try done; by intros [? ?].
Qed.

Lemma loop_step_inv s s' : service_inv s → loop_step s s' → service_inv s'.
Proof.
  intros Hinv Hstep. destruct Hstep as
    [s tx t Hb Hn H|send stopped s tx t Hb H|s s' H|order keys s Hb Hn Ho Hk|sub fuel s p todo t Hb H|s Hb|s s' H|s s' H].
  - destruct Hinv as (Hd & Hi1 & Hi2 & Hi). by split_and!.
  - destruct Hinv as (Hd & Hi1 & Hi2 & Hi). split_and!; try done. by intros [].
  - pose proof (broadcastLoop_stops_select s _ H) as (Hb & Hn & Hs).
    rewrite (broadcastLoop_stops_ok s Hinv Hb Hn Hs) in H. injection H as <-.
    pose proof (stop_phase s Hinv Hs) as Hp. destruct Hinv as (Hd & Hi1 & Hi2 & Hi). rewrite Hp in Hi.
    split_and!; [done|by intros []|done|]. cbn. rewrite Hp. split; [done|]. intros Hc. by destruct Hi as [_ [? ?]].
  - destruct Hinv as (Hd & Hi1 & Hi2 & Hi). by split_and!.
  - destruct Hinv as (Hd & Hi1 & Hi2 & Hi). split_and!; try done. intros _. apply Hi2. by rewrite Hb.
  - destruct Hinv as (Hd & Hi1 & Hi2 & Hi). split_and!; try done. by intros [].
  - pose proof (confirmLoop_stops_select s _ H) as (Hb & Hn & Hs).
    rewrite (confirmLoop_stops_ok s Hinv Hb Hn Hs) in H. injection H as <-.
    pose proof (stop_phase s Hinv Hs) as Hp. destruct Hinv as (Hd & Hi1 & Hi2 & Hi). rewrite Hp in Hi.
    split_and!; [cbn; lia|done|by intros []|]. cbn. rewrite Hp. split; [done|]. intros Hc. by destruct Hi as [_ [? ?]].
  - assert (closing s = true) as Hc by (unfold Close_return in H; by destruct (closing s)).
    destruct (closing_stop s Hinv Hc) as [Hs Hp].
    destruct (proj1 (Close_return_value s Hinv Hc) ltac:(by rewrite H)) as [Hb Hf].
    unfold Close_return in H. case_match; [|done]. injection H as <-. destruct Hinv as (Hd & Hi1 & Hi2 & Hi).
    split_and!; try done. cbn. by rewrite Hp.
Qed.

Lemma Start_inv s s' : service_inv s → Start s = Ok s' → service_inv s'.
Proof.
  intros (Hd & _ & _ & Hi) H. unfold Start in H. pose proof (start_once (Starter s)) as Ho.
  destruct (StartOnce (Starter s)) as [o|]; [|done]. destruct Ho as [Hp Ho]. rewrite Hp in Hi. injection H as <-.
  destruct Hi as (Hs & Hb & Hc & Hcl). split_and!; [|done..|].
  - cbn. rewrite Hb, Hc in Hd. cbn in Hd. lia.
  - cbn. by rewrite Ho.
Qed.

Lemma Close_inv s s' : service_inv s → Close s = Ok s' → service_inv s'.
Proof.
  intros (Hd & Hi1 & Hi2 & Hi) H. unfold Close in H. pose proof (stop_once (Starter s)) as Ho.
  destruct (StopOnce (Starter s)) as [o|]; [|done]. destruct Ho as [Hp Ho]. destruct (Stop s); [done|].
  injection H as <-. split_and!; try done. cbn. by rewrite Ho.
Qed.

Lemma service_step_inv s s' : service_inv s → service_step s s' → service_inv s'.
Proof.
  intros Hinv Hstep. destruct Hstep as [s1 s1' H|s1 s1' H|s1 s1' H|s1 t H];
    [by eapply Start_inv|by eapply Close_inv|by eapply loop_step_inv|exact Hinv].
Qed.

Lemma service_steps_inv s s' : service_inv s → rtc service_step s s' → service_inv s'.
Proof. intros Hinv H. induction H as [|s1 s2 s3 Hs _ IH]; [done|]. apply IH. by eapply service_step_inv. Qed.

(** ** The manager's own state *)

(** The manager with the transaction that is being sent, which has left the channel. *)
Definition in_flight (s : service) : Txm :=
  match sending s with Some tx => put_back tx (manager s) | None => manager s end.
(** Its place in the channel can be taken before it has been sent. *)
Definition one_more : Config :=
  {| BroadcastChanSize := BroadcastChanSize config + 1; ConfirmPollSecs := ConfirmPollSecs config;
     SendRetryDelay := SendRetryDelay config; MaxSendRetryAttempts := MaxSendRetryAttempts config;
     TxExpirationMins := TxExpirationMins config; StickyNodeContextEnabled := StickyNodeContextEnabled config |}.
Local Abbreviation txm_step := (txm_step Sign one_more ClientWallet LoadStateInit).

Lemma send_turn_chan send stopped tx t t' :
  send_turn config ClientWallet LoadStateInit send stopped tx t = Some (Ok t') → BroadcastChan t' = BroadcastChan t.
Proof.
  unfold send_turn, broadcast_once. cbn [put_back BroadcastChan].
  destruct (match tx_StateInit tx with Some _ => _ | None => _ end) as [st|x|x|]; try done.
  - intros H. injection H as H. by apply bind_ok in H as (r & _ & [= <-]).
  - by intros [= <-].
Qed.

(** The turn of one transaction of a round: a store is looked up, and perhaps it is marked. *)
Lemma check_turn_steps sub fuel p t t' chan :
  check_turn sub fuel p t = Ok t' →
  BroadcastChan t' = BroadcastChan t ∧
  rtc txm_step {| BroadcastChan := chan; AccountStore_ := AccountStore_ t |}
    {| BroadcastChan := chan; AccountStore_ := AccountStore_ t' |}.
Proof.
  unfold check_turn. intros (accounts & H & E)%bind_ok. injection E as <-. split; [done|]. cbn [AccountStore_].
  cbn [check_account] in H. apply bind_ok in H as (r & _ & H).
  set (t1 := {| BroadcastChan := chan; AccountStore_ := AccountStore_ t |}).
  eapply rtc_l; [exact (step_store _ _ _ _ p.1 t1)|]. cbn [t1 BroadcastChan AccountStore_].
  destruct (GetTxStore p.1 (AccountStore_ t)) as [st c] eqn:Eg. cbn [snd].
  assert (c !! p.1 = Some st) as Hst.
  { unfold GetTxStore in Eg. destruct (_ !! p.1) eqn:E; injection Eg as <- <-; [done|by rewrite lookup_insert_eq]. }
  destruct r as [[ok code]|]; [|by injection H as <-].
  destruct (MarkFinalized _ _ _ st) as [st'| | |] eqn:Em; injection H as <-; try done.
  apply rtc_once. by apply (step_mark _ _ _ _ p.1 st (ut_LT p.2) ok code st' {| BroadcastChan := chan; AccountStore_ := c |}).
Qed.

Lemma caller_in_flight s t :
  caller_step Sign config (manager s) t → txm_step (in_flight s) (in_flight (set_manager s t)).
Proof.
  intros H. unfold in_flight. cbn [set_manager set_sending sending manager].
  destruct H as [rq now1 now2 t t' H|account t]; [|destruct (sending s); [exact (step_store _ _ _ _ account (put_back _ _))|apply step_store]].
  apply (step_enqueue _ _ _ _ rq now1 now2). unfold Enqueue in *.
  apply bind_ok in H as (k & Ek & H). apply bind_ok in H as (sg & Es & H).
  rewrite Ek. cbn [mbind res_bind]. rewrite Es. cbn [mbind res_bind].
  destruct (Z.ltb_spec (Z.of_nat (length (BroadcastChan t))) (BroadcastChanSize config)); [|done].
  injection H as <-. destruct (sending s); cbn [put_back BroadcastChan AccountStore_ length one_more BroadcastChanSize];
    by rewrite (proj2 (Z.ltb_lt _ _)) by lia.
Qed.

(** The manager moves by its atomic operations. *)
Lemma service_step_manager s s' :
  service_inv s → service_step s s' → rtc txm_step (in_flight s) (in_flight s').
Proof.
  intros Hinv Hstep. destruct Hstep as [s s' H|s s' H|s s' H|s t H].
  - unfold Start in H. pose proof (start_once (Starter s)) as Ho. destruct (StartOnce _); [|done]. injection H as <-.
    destruct Hinv as (_ & Hi & _ & Hp), Ho as [Hu _]. rewrite Hu in Hp. unfold in_flight. cbn.
    destruct (sending s); [|done]. destruct Hp as (_ & Hb & _). by rewrite Hi in Hb.
  - unfold Close in H. destruct (StopOnce _); [|done]. destruct (Stop s); [done|]. by injection H as <-.
  - destruct H as [s tx t Hb Hn H|send stopped s tx t Hb H|s s' H|order keys s Hb Hn Ho Hk|sub fuel s p todo t Hb H|s Hb|s s' H|s s' H];
      unfold in_flight; try done.
    + unfold receive in H. cbn [set_sending sending manager]. rewrite Hn.
      destruct (manager s) as [[|tx' chan] c]; [done|]. cbn in H. by injection H as <- <-.
    + rewrite Hb. apply rtc_once. by apply (step_broadcast Sign one_more ClientWallet LoadStateInit send stopped (put_back tx (manager s)) t).
    + pose proof (broadcastLoop_stops_select s _ H) as (Hb & Hn & Hs).
      rewrite (broadcastLoop_stops_ok s Hinv Hb Hn Hs) in H. injection H as <-. cbn. by rewrite Hn.
    + cbn [set_checking sending manager]. destruct t as [ch c'].
      destruct (sending s) as [tx|]; cbn [put_back].
      * destruct (check_turn_steps sub fuel p (manager s) _ (tx :: BroadcastChan (manager s)) H) as [Hch Hst]. cbn in Hch, Hst.
        unfold put_back. cbn. by rewrite Hch.
      * destruct (check_turn_steps sub fuel p (manager s) _ (BroadcastChan (manager s)) H) as [Hch Hst]. cbn in Hch, Hst.
        rewrite Hch. by destruct (manager s).
    + pose proof (confirmLoop_stops_select s _ H) as (Hb & Hn & Hs).
      rewrite (confirmLoop_stops_ok s Hinv Hb Hn Hs) in H. by injection H as <-.
    + unfold Close_return in H. case_match; [|done]. by injection H as <-.
  - apply rtc_once. by apply caller_in_flight.
Qed.

(** The channel keeps within its capacity. *)
Definition within_capacity (s : service) : Prop :=
  (Z.of_nat (length (BroadcastChan (manager s))) ≤ Z.max 0 (BroadcastChanSize config))%Z.

Lemma service_step_capacity s s' : within_capacity s → service_step s s' → within_capacity s'.
Proof.
  unfold within_capacity. intros Hc Hstep. destruct Hstep as [s s' H|s s' H|s s' H|s t H].
  - unfold Start in H. destruct (StartOnce _); [|done]. by injection H as <-.
  - unfold Close in H. destruct (StopOnce _); [|done]. destruct (Stop s); [done|]. by injection H as <-.
  - destruct H as [s tx t Hb Hn H|send stopped s tx t Hb H|s s' H|order keys s Hb Hn Ho Hk|sub fuel s p todo t Hb H|s Hb|s s' H|s s' H];
      try done; cbn.
    + unfold receive in H. destruct (BroadcastChan (manager s)) as [|tx' chan]; [done|]. injection H as _ <-. cbn in *. lia.
    + by rewrite (send_turn_chan _ _ _ _ _ H).
    + unfold broadcastLoop_stops in H. case_match; [|done]. destruct (Done s); [done|]. by injection H as <-.
    + unfold check_turn in H. apply bind_ok in H as (c & _ & H). by injection H as <-.
    + unfold confirmLoop_stops in H. case_match; [|done]. destruct (Done s); [done|]. by injection H as <-.
    + unfold Close_return in H. case_match; [|done]. by injection H as <-.
  - cbn. destruct H as [rq now1 now2 t t' H|account t]; [|done].
    unfold Enqueue in H. apply bind_ok in H as (k & _ & H). apply bind_ok in H as (sg & _ & H).
    destruct (Z.ltb_spec (Z.of_nat (length (BroadcastChan t))) (BroadcastChanSize config)); [|done].
    injection H as <-. cbn. rewrite length_app. cbn. lia.
Qed.

Lemma service_steps_manager s s' :
  service_inv s → within_capacity s → rtc service_step s s' →
  service_inv s' ∧ within_capacity s' ∧ rtc txm_step (in_flight s) (in_flight s').
Proof.
  intros Hinv Hc H. induction H as [s|s1 s2 s3 H _ IH]; [done|].
  destruct IH as (H1 & H2 & H3); [by eapply service_step_inv|by eapply service_step_capacity|].
  split_and!; [done|done|]. etrans; [by apply service_step_manager|done].
Qed.

(** C34: from a new service on, whatever callers and goroutines do, [Start] and [Close]
    never panic, the wait group counts exactly the running loops, a loop only runs
    after [Start], both do until [Close] is called, only a running loop is in a turn,
    the channel keeps within its capacity, and the manager, taken with the transaction that
    has been received and is being sent, moves by its atomic operations alone: those of
    [txm_step], with the one place more that this transaction has left in the channel. *)
Theorem service_reachable (s : service) (Hs : rtc service_step NewService s) :
  service_inv s ∧ rtc txm_step New (in_flight s) ∧
  (Z.of_nat (length (BroadcastChan (manager s))) ≤ Z.max 0 (BroadcastChanSize config))%Z ∧
  is_panic (Start s) = false ∧ is_panic (Close s) = false ∧
  (broadcastLoop_stops s = None ∨ ∃ s', broadcastLoop_stops s = Some (Ok s')) ∧
  (confirmLoop_stops s = None ∨ ∃ s', confirmLoop_stops s = Some (Ok s')).
Proof.
  destruct (service_steps_manager NewService s NewService_inv ltac:(unfold within_capacity; cbn; lia) Hs) as (Hinv & Hc & Ht).
  split_and!; [done|done|done|unfold Start; by destruct (StartOnce _)|..].
  - unfold Close. pose proof (stop_once (Starter s)) as Ho. destruct (StopOnce (Starter s)); [|done].
    destruct (Stop s) eqn:Es; [|done]. pose proof (stop_phase s Hinv Es). destruct Ho as [Ho _]. congruence.
  - destruct (broadcastLoop_stops s) as [r|] eqn:E; [right|by left].
    pose proof (broadcastLoop_stops_select s r E) as (Hb & Hn & Hst).
    rewrite (broadcastLoop_stops_ok s Hinv Hb Hn Hst) in E. injection E as <-. by eexists.
  - destruct (confirmLoop_stops s) as [r|] eqn:E; [right|by left].
    pose proof (confirmLoop_stops_select s r E) as (Hb & Hn & Hst).
    rewrite (confirmLoop_stops_ok s Hinv Hb Hn Hst) in E. injection E as <-. by eexists.
Qed.

(** ** Closing *)

(** The steps that a waiting [Close] still waits for: the end of the sending and of what is left
    of the round, both loops, and its own return. *)
Definition sends_left (s : service) : nat :=
  if broadcastLoop s then 1 + (if sending s is Some _ then 1 else 0) else 0.
Definition checks_left (s : service) : nat :=
  if confirmLoop s then 1 + match checking s with Some todo => 1 + length todo | None => 0 end else 0.
Definition steps_left (s : service) : nat := if closing s then 1 + sends_left s + checks_left s else 0.

Lemma steps_left_step s s' : service_inv s → service_step s s' → steps_left s ≤ 1 + steps_left s'.
Proof.
  intros Hinv Hstep. unfold steps_left. destruct (closing s) eqn:Ec; [|lia].
  destruct (closing_stop s Hinv Ec) as [Hstop Hp]. destruct Hstep as [s s' H|s s' H|s s' H|s t H].
  - unfold Start in H. pose proof (start_once (Starter s)) as Ho. destruct (StartOnce _); [|done]. destruct Ho; congruence.
  - unfold Close in H. pose proof (stop_once (Starter s)) as Ho. destruct (StopOnce _); [|done]. destruct Ho; congruence.
  - destruct H as [s tx t Hb Hn H|send stopped s tx t Hb H|s s' H|order keys s Hb Hn Ho Hk|sub fuel s p todo t Hb H|s Hb|s s' H|s s' H].
    + unfold sends_left, checks_left. cbn. rewrite Ec, Hb, Hn. lia.
    + unfold sends_left, checks_left. cbn. rewrite Ec, Hb. destruct (broadcastLoop s); lia.
    + pose proof (broadcastLoop_stops_select s _ H) as (Hb & Hn & Hs).
      rewrite (broadcastLoop_stops_ok s Hinv Hb Hn Hs) in H. injection H as <-.
      unfold sends_left, checks_left. cbn. rewrite Ec, Hb, Hn. lia.
    + unfold sends_left, checks_left. cbn. rewrite Ec, Hb, Hn. lia.
    + unfold sends_left, checks_left. cbn. rewrite Ec, Hb. destruct (confirmLoop s); cbn; lia.
    + unfold sends_left, checks_left. cbn. rewrite Ec, Hb. destruct (confirmLoop s); cbn; lia.
    + pose proof (confirmLoop_stops_select s _ H) as (Hb & Hn & Hs).
      rewrite (confirmLoop_stops_ok s Hinv Hb Hn Hs) in H. injection H as <-.
      unfold sends_left, checks_left. cbn. rewrite Ec, Hb, Hn. lia.
    + destruct (proj1 (Close_return_value s Hinv Ec) ltac:(by rewrite H)) as [Hb Hf].
      unfold sends_left, checks_left. rewrite Hb, Hf. lia.
  - unfold sends_left, checks_left. cbn. rewrite Ec. lia.
Qed.

Lemma steps_left_enough n s s' :
  service_inv s → nsteps service_step n s s' → closing s' = false → steps_left s ≤ n.
Proof.
  intros Hinv H. induction H as [s|n s1 s2 s3 Hs _ IH]; intros Hc; [unfold steps_left; by rewrite Hc|].
  pose proof (steps_left_step s1 s2 Hinv Hs). specialize (IH (service_step_inv _ _ Hinv Hs) Hc). lia.
Qed.

(** The sending comes to an end, and so does the wait for each trace of the round. *)
Definition send_ends (s : service) : Prop :=
  ∀ tx, sending s = Some tx → ∃ send stopped t,
    send_turn config ClientWallet LoadStateInit send stopped tx (manager s) = Some (Ok t).
Definition round_ends (s : service) : Prop :=
  ∀ todo p m, checking s = Some todo → p ∈ todo → tx_ReceivedMessage (ut_Tx p.2) = Some m →
    ∃ sub fuel r, resolve_trace sub fuel m = Ok r.

Lemma check_turn_ends p t :
  (∀ m, tx_ReceivedMessage (ut_Tx p.2) = Some m → ∃ sub fuel r, resolve_trace sub fuel m = Ok r) →
  ∃ sub fuel t', check_turn sub fuel p t = Ok t'.
Proof.
  intros Hp. unfold check_turn. cbn [check_account].
  destruct (tx_ReceivedMessage (ut_Tx p.2)) as [m|].
  - destruct (Hp m eq_refl) as (sub & fuel & r & Hr). exists sub, fuel. rewrite Hr. cbn [mbind res_bind].
    destruct (GetTxStore _ _) as [st c]. by eexists.
  - exists (λ _ _, ([], false)), 0. cbn [mbind res_bind]. destruct (GetTxStore _ _) as [st c]. by eexists.
Qed.

Lemma closing_step s s1 :
  loop_step s s1 → steps_left s = S (steps_left s1) →
  (∃ s', nsteps loop_step (steps_left s1) s1 s' ∧ closing s' = false) →
  ∃ s', nsteps loop_step (steps_left s) s s' ∧ closing s' = false.
Proof. intros Hl -> (s' & Hst & Hc). exists s'. split; [by eapply nsteps_l|done]. Qed.

(** Both loops come to their select and leave, then [Close] returns. *)
Lemma closing_loops s :
  service_inv s → closing s = true → sending s = None → checking s = None →
  ∃ s', nsteps loop_step (steps_left s) s s' ∧ closing s' = false.
Proof.
  intros Hinv Hc Hn Hk. destruct (closing_stop s Hinv Hc) as [Hs _].
  assert (∀ s, service_inv s → closing s = true → broadcastLoop s = false → confirmLoop s = false →
    ∃ s', nsteps loop_step (steps_left s) s s' ∧ closing s' = false) as H0.
  { intros s1 Hi1 Hc1 Hb1 Hf1. destruct (proj2 (Close_return_value s1 Hi1 Hc1) (conj Hb1 Hf1)) as [s' Hr].
    exists s'. unfold steps_left, sends_left, checks_left. rewrite Hc1, Hb1, Hf1.
    split; [by apply nsteps_once, loop_return|]. unfold Close_return in Hr. case_match; [|done]. by injection Hr as <-. }
  assert (∀ s, service_inv s → closing s = true → Stop s = true → checking s = None → broadcastLoop s = false →
    ∃ s', nsteps loop_step (steps_left s) s s' ∧ closing s' = false) as H1.
  { intros s1 Hi1 Hc1 Hs1 Hk1 Hb1. destruct (confirmLoop s1) eqn:Ef; [|by apply H0].
    pose proof (loop_confirm_stops config ClientWallet LoadStateInit _ _ (confirmLoop_stops_ok s1 Hi1 Ef Hk1 Hs1)) as Hl.
    apply (closing_step _ _ Hl); [|apply (H0 _ (loop_step_inv _ _ Hi1 Hl)); done].
    unfold steps_left, sends_left, checks_left. cbn. by rewrite Hc1, Hb1, Ef, Hk1. }
  destruct (broadcastLoop s) eqn:Eb; [|by apply H1].
  pose proof (loop_broadcast_stops config ClientWallet LoadStateInit _ _ (broadcastLoop_stops_ok s Hinv Eb Hn Hs)) as Hl.
  apply (closing_step _ _ Hl); [|apply (H1 _ (loop_step_inv _ _ Hinv Hl)); done].
  unfold steps_left, sends_left, checks_left. cbn. by rewrite Hc, Eb, Hn, Hk.
Qed.

(** What is left of the round comes first. *)
Lemma closing_round s :
  service_inv s → closing s = true → sending s = None → round_ends s →
  ∃ s', nsteps loop_step (steps_left s) s s' ∧ closing s' = false.
Proof.
  intros Hinv Hc Hn Hr. destruct (checking s) as [todo|] eqn:Hk; [|by apply closing_loops].
  assert (confirmLoop s = true) as Hf by (destruct Hinv as (_ & _ & Hi & _); apply Hi; by rewrite Hk).
  revert s Hinv Hc Hn Hr Hk Hf. induction todo as [|p todo IH]; intros s Hinv Hc Hn Hr Hk Hf.
  - pose proof (loop_round_ends config ClientWallet LoadStateInit s Hk) as Hl.
    apply (closing_step _ _ Hl); [|apply (closing_loops _ (loop_step_inv _ _ Hinv Hl)); done].
    unfold steps_left, sends_left, checks_left. cbn. rewrite Hc, Hf, Hk. cbn. lia.
  - destruct (check_turn_ends p (manager s)) as (sub & fuel & t & Ht).
    { intros m. apply (Hr (p :: todo) p m Hk), list_elem_of_here. }
    pose proof (loop_check config ClientWallet LoadStateInit sub fuel s p todo t Hk Ht) as Hl.
    apply (closing_step _ _ Hl); [|apply (IH _ (loop_step_inv _ _ Hinv Hl)); try done].
    { unfold steps_left, sends_left, checks_left. cbn. rewrite Hc, Hf, Hk. cbn. lia. }
    intros todo' p' m H1 H2. cbn in H1. injection H1 as <-. by apply (Hr (p :: todo) p' m Hk), list_elem_of_further.
Qed.

Lemma closing_path s :
  service_inv s → closing s = true → send_ends s → round_ends s →
  ∃ s', nsteps loop_step (steps_left s) s s' ∧ closing s' = false.
Proof.
  intros Hinv Hc Hse Hr. destruct (sending s) as [tx|] eqn:Hn; [|by apply closing_round].
  assert (broadcastLoop s = true) as Hb by (destruct Hinv as (_ & Hi & _); apply Hi; by rewrite Hn).
  destruct (Hse tx Hn) as (send & stopped & t & Ht).
  pose proof (loop_sent config ClientWallet LoadStateInit send stopped s tx t Hn Ht) as Hl.
  apply (closing_step _ _ Hl); [|by apply (closing_round _ (loop_step_inv _ _ Hinv Hl))].
  unfold steps_left, sends_left, checks_left. cbn. by rewrite Hc, Hb, Hn.
Qed.

(** C35: what a call of [Close] waits for.  In every state that it can be waiting in: it returns
    exactly when both loops have, and no loop returns in a turn; so, whatever callers and
    goroutines do, it takes at least one step for the transaction that is being sent, one for each
    transaction left of a round of confirmations and one for its end, one for each running loop,
    and one for its own return, so that a sending or a trace that never ends keeps it from returning for
    ever; and these steps are enough, once the sending and the waits for the traces end. *)
Theorem Close_returns (s : service) (Hs : rtc service_step NewService s) (Hc : closing s = true) :
  (is_Some (Close_return s) ↔ broadcastLoop s = false ∧ confirmLoop s = false) ∧
  (is_Some (sending s) → broadcastLoop_stops s = None) ∧ (is_Some (checking s) → confirmLoop_stops s = None) ∧
  (∀ n s', nsteps service_step n s s' → closing s' = false → steps_left s ≤ n) ∧
  (send_ends s → round_ends s → ∃ s', nsteps loop_step (steps_left s) s s' ∧ closing s' = false).
Proof.
  pose proof (service_steps_inv _ _ NewService_inv Hs) as Hinv. split_and!.
  - by apply Close_return_value.
  - intros [tx Hx]. destruct (broadcastLoop_stops s) as [r|] eqn:E; [|done].
    apply broadcastLoop_stops_select in E as (_ & E & _). congruence.
  - intros [l Hx]. destruct (confirmLoop_stops s) as [r|] eqn:E; [|done].
    apply confirmLoop_stops_select in E as (_ & E & _). congruence.
  - intros n s'. by apply steps_left_enough.
  - intros H1 H2. by apply closing_path.
Qed.

(** Callers only append to the channel and do not change the state of a transaction. *)
Lemma caller_quiet t t' :
  caller_step Sign config t t' →
  BroadcastChan t `prefix_of` BroadcastChan t' ∧ ∀ account lt, tx_state t' account lt = tx_state t account lt.
Proof.
  intros [rq now1 now2 t1 t1' H|account t1].
  - unfold Enqueue in H. apply bind_ok in H as (k & _ & H). apply bind_ok in H as (sg & _ & H).
    destruct (_ <? _)%Z; [|done]. injection H as <-. split; [by eexists|done].
  - split; [done|]. intros a k. unfold GetTxStore, tx_state. cbn. destruct (AccountStore_ t1 !! account) eqn:E; [done|].
    cbn. destruct (decide (a = account)) as [->|Hne]; [by rewrite lookup_insert_eq, E|by rewrite lookup_insert_ne].
Qed.

(** Once [Close] has returned the service is quiet: no transaction is broadcast,
    confirmed or removed from the channel any more, and neither [Start] nor [Close]
    succeeds again; yet a request is still enqueued when there is room, and
    will never be broadcast. *)
Theorem closed_quiet (s : service) (Hs : rtc service_step NewService s) (Hstop : Stop s = true) (Hc : closing s = false) :
  (∀ s', rtc service_step s s' →
     BroadcastChan (manager s) `prefix_of` BroadcastChan (manager s') ∧
     (∀ account lt, tx_state (manager s') account lt = tx_state (manager s) account lt) ∧
     is_err (Start s') = true ∧ is_err (Close s') = true) ∧
  (∀ rq now1 now2 k, w_PublicKey (rq_FromWallet rq) = Ed25519Key k → is_ok (Sign (hex_encode k) []) = true →
     (Z.of_nat (length (BroadcastChan (manager s))) < BroadcastChanSize config)%Z →
     is_ok (Enqueue Sign config rq now1 now2 (manager s)) = true).
Proof.
  pose proof (service_steps_inv _ _ NewService_inv Hs) as Hinv. split.
  - assert (∀ s s', service_inv s → Stop s = true → closing s = false → service_step s s' →
      (Stop s' = true ∧ closing s' = false) ∧ BroadcastChan (manager s) `prefix_of` BroadcastChan (manager s') ∧
      ∀ account lt, tx_state (manager s') account lt = tx_state (manager s) account lt) as Hone.
    { intros s1 s1' Hi1 Hs1 Hc1 Hstep. pose proof (stop_phase s1 Hi1 Hs1) as Hp. destruct (id Hi1) as (_ & Hn & Hk & Hi).
      rewrite Hp in Hi. destruct Hi as [_ Hi]. destruct (Hi Hc1) as [Hb Hf]. destruct Hstep as [s1 s1' H|s1 s1' H|s1 s1' H|s1 t H].
      - unfold Start in H. pose proof (start_once (Starter s1)) as Ho. destruct (StartOnce (Starter s1)); [|done].
        destruct Ho as [Ho _]. congruence.
      - unfold Close in H. pose proof (stop_once (Starter s1)) as Ho. destruct (StopOnce (Starter s1)); [|done].
        destruct Ho as [Ho _]. congruence.
      - destruct H as [s1 tx t Hl _ _|send stopped s1 tx t Hl _|s1 s1' H|order keys s1 Hl _ _ _|sub fuel s1 p todo t Hl _|s1 Hl|s1 s1' H|s1 s1' H];
          try congruence.
        + rewrite Hl in Hn. rewrite Hn in Hb; done.
        + unfold broadcastLoop_stops in H. by rewrite Hb in H.
        + rewrite Hl in Hk. rewrite Hk in Hf; done.
        + rewrite Hl in Hk. rewrite Hk in Hf; done.
        + unfold confirmLoop_stops in H. by rewrite Hf in H.
        + unfold Close_return in H. by rewrite Hc1 in H.
      - split; [done|]. by apply caller_quiet. }
    intros s' Hsteps. induction Hsteps as [s|s s1 s2 Hstep _ IH].
    + split; [done|]. split; [done|]. pose proof (stop_phase s Hinv Hstop) as Hp. unfold Start, Close.
      pose proof (start_once (Starter s)) as H1. pose proof (stop_once (Starter s)) as H2.
      destruct (StartOnce (Starter s)), (StopOnce (Starter s)); try done; destruct_and?; congruence.
    + destruct (Hone s s1 Hinv Hstop Hc Hstep) as [[Hs1 Hc1] [Hpre Hst]].
      destruct IH as (Hpre2 & Hst2 & ?); [by eapply rtc_r|done|done|by eapply service_step_inv|].
      split; [by etrans|]. split; [|done]. intros a lt. by rewrite Hst2.
  - intros rq now1 now2 k Hk Hsig Hroom. unfold Enqueue. rewrite Hk. cbn [PublicKeyHex wrap_err mbind res_bind].
    destruct (Sign (hex_encode k) []); try done. cbn [wrap_err mbind res_bind]. by rewrite (proj2 (Z.ltb_lt _ _)).
Qed.
End promises.

(** ** Runs *)

Module LifecycleRuns.
Import BitCells TraceRuns TxmRuns.

#[export] Instance PhaseOnce : OnceLib := {|
  Once := phase;
  NewOnce := Unstarted;
  StartOnce o := match o with Unstarted => Some Started | _ => None end;
  StopOnce o := match o with Started => Some Stopped | _ => None end;
|}.
#[export, refine] Instance PhaseLaws : OnceLaws := {| once_phase := id |}.
Proof. all: [> reflexivity | by intros [] | by intros []]. Defined.

Definition running1 : service :=
  {| Starter := Started : Once; Stop := false; Done := 2; broadcastLoop := true; confirmLoop := true;
     sending := None; checking := None; closing := false; manager := New |}.
Definition closing1 : service :=
  {| Starter := Stopped : Once; Stop := true; Done := 2; broadcastLoop := true; confirmLoop := true;
     sending := None; checking := None; closing := true; manager := New |}.
Definition closed1 : service :=
  {| Starter := Stopped : Once; Stop := true; Done := 0; broadcastLoop := false; confirmLoop := false;
     sending := None; checking := None; closing := false; manager := New |}.

(** One transaction is sent and to be checked, a second one is being sent, and the
    service is told to stop. *)
Definition todo1 : list (string * UnconfirmedTx) := [(account1, {| ut_LT := 10; ut_ExpirationMs := 3; ut_Tx := sent1 |})].
Definition checking1 : service := set_checking running1 (Some todo1) txm1.
Definition busy1 : service :=
  {| Starter := Stopped : Once; Stop := true; Done := 2; broadcastLoop := true; confirmLoop := true;
     sending := Some tx1'; checking := Some todo1; closing := true; manager := txm1 |}.

Local Abbreviation service_step1 := (service_step sign1 DefaultConfigSet wallet1 load1).
Local Abbreviation queued t := {| BroadcastChan := [tx1']; AccountStore_ := AccountStore_ t |}.

Lemma queue_received s t :
  broadcastLoop s = true → sending s = None → manager s = t → BroadcastChan t = [] →
  rtc service_step1 s (set_sending s (Some tx1') t).
Proof.
  intros Hb Hn Hm Ht. eapply (rtc_l _ _ (set_manager s (queued t))).
  - apply service_caller. rewrite Hm. destruct t as [chan c]. cbn in Ht. subst chan.
    apply (caller_enqueue _ _ request1 0 0). reflexivity.
  - apply rtc_once, service_loop.
    apply (loop_receive _ _ _ (set_manager s (queued t)) tx1' t); [exact Hb|exact Hn|].
    destruct t as [chan c]. cbn in Ht. by subst chan.
Qed.

Lemma checking1_reachable : rtc service_step1 NewService checking1.
Proof.
  eapply rtc_l; [apply (service_start _ _ _ _ NewService running1); reflexivity|].
  etrans; [apply (queue_received running1 New); reflexivity|].
  eapply rtc_l; [apply service_loop, (loop_sent _ _ _ send1 never _ tx1' txm1); reflexivity|].
  apply rtc_once, service_loop.
  apply (loop_tick _ _ _ [account1] (λ _, [10%Z]) (set_sending running1 None txm1)); [reflexivity..|].
  intros a st [-> ->]%txm1_lookup. reflexivity.
Qed.

Lemma busy1_reachable : rtc service_step1 NewService busy1.
Proof.
  etrans; [exact checking1_reachable|]. etrans; [apply (queue_received checking1 txm1); reflexivity|].
  apply rtc_once, service_close. reflexivity.
Qed.

Lemma closing1_reachable : rtc (service_step sign1 DefaultConfigSet wallet1 load1) NewService closing1.
Proof.
  eapply rtc_l; [apply (service_start _ _ _ _ NewService running1); reflexivity|].
  apply rtc_once, service_close. reflexivity.
Defined.
Lemma closed1_reachable : rtc (service_step sign1 DefaultConfigSet wallet1 load1) NewService closed1.
Proof.
  etrans; [exact closing1_reachable|].
  eapply rtc_l; [apply service_loop, loop_broadcast_stops; reflexivity|].
  eapply rtc_l; [apply service_loop, loop_confirm_stops; reflexivity|].
  apply rtc_once, service_loop, loop_return. reflexivity.
Defined.

Lemma service_reachable_witness : service_inv closing1.
Proof. apply (service_reachable sign1 DefaultConfigSet wallet1 load1 closing1 closing1_reachable). Defined.

Lemma Close_returns_witness :
  steps_left busy1 = 6 ∧ broadcastLoop_stops busy1 = None ∧ confirmLoop_stops busy1 = None ∧
  ∃ s', nsteps (loop_step DefaultConfigSet wallet1 load1) 6 busy1 s' ∧ closing s' = false.
Proof.
  destruct (Close_returns sign1 DefaultConfigSet wallet1 load1 busy1 busy1_reachable eq_refl) as (_ & H1 & H2 & _ & H).
  split; [reflexivity|]. split; [apply H1; by eexists|]. split; [apply H2; by eexists|]. apply H.
  - intros tx Htx. injection Htx as <-. exists send1, never. eexists. reflexivity.
  - intros todo p m Htodo Hp. injection Htodo as <-. apply list_elem_of_singleton in Hp as ->. intros Hm. injection Hm as <-.
    exists sub1, 2. eexists. reflexivity.
Defined.

Lemma closed_quiet_witness :
  is_err (Start closed1) = true ∧ is_ok (Enqueue sign1 DefaultConfigSet request1 0 0 (manager closed1)) = true.
Proof.
  destruct (closed_quiet sign1 DefaultConfigSet wallet1 load1 closed1 closed1_reachable eq_refl eq_refl) as [H1 H2].
  split.
  - destruct (H1 closed1 (rtc_refl _ _)) as (_ & _ & H & _). exact H.
  - apply (H2 request1 0%Z 0%Z [x0a; xff]); reflexivity.
Defined.
End LifecycleRuns.
