(* ===== verification/Transmitter.v ===== *)
(** * Transmitter: pkg/ccip/ocr/contract_transmitter.go

    The OCR3 contract transmitter, a client of the transaction manager's
    interface: it checks the signatures, has the report turned into a message body and
    enqueues one request.  The two functions it is configured with belong to the node;
    [TxManager] is the interface of pkg/txm, which [Txm] implements. *)

From S2P Require Import Prelude Cells BitCells ExitCodes TxStore Trace TraceSpec Txm TxmSpec.

Section transmitter.
Context {AL : AddrLib} {CL : CellLib}.

(** [txm.TxManager], as far as its clients use it: the wallet of the
    client, [Enqueue] and [GetTransactionStatus]. *)
Class TxManager (M : Type) := {
  ClientWallet : M → Wallet;
  EnqueueRequest : Request → M → res M;
  ManagerStatus : Z → M → res (TransactionStatus * ExitCode * Z * option string * M);
}.

(** [ocr3types.ReportWithInfo] and the report context. *)
Variable Report : Type.
Definition ReportContext : Type := list bytes.
(** [args any]: only a cell is accepted. *)
Inductive Args := ArgsCell (c : Cell) | ArgsOther.
Abbreviation ToEd25519CalldataFunc := (ReportContext → Report → list bytes → res (string * string * Args)).
Abbreviation RawReportContext3Func := (bytes → Z → ReportContext).

Record ccipTransmitter := {
  offrampAddress : string;
  toEd25519CalldataFn : option ToEd25519CalldataFunc;
  rawReportContextFn : option RawReportContext3Func;
}.

(** The arguments are whether the manager and the logger are non-nil. *)
Definition NewCCIPTransmitter (has_txm has_lggr : bool) : res ccipTransmitter :=
  if negb has_txm || negb has_lggr then Err "invalid transmitter args" else
  Ok {| offrampAddress := ""; toEd25519CalldataFn := None; rawReportContextFn := None |}.

(** ** The provider (pkg/ccip/provider/provider.go) *)

(** The accessor is an interface of chainlink-common that nothing sets. *)
Record Provider := { ca : option (); ct : ccipTransmitter }.
Definition NewCCIPProvider (has_txm has_lggr : bool) : res Provider :=
  ct ← wrap_err "failed to create a CCIP ContractTransmitter" (NewCCIPTransmitter has_txm has_lggr);
  Ok {| ca := None; ct := ct |}.
Definition ChainAccessor (cp : Provider) : option () := ca cp.
Definition ContractTransmitter (cp : Provider) : ccipTransmitter := ct cp.

(** ** Transmitting *)

(** [Address.StringRaw], [address.MustParseAddr], [tlb.MustFromTON] in nanotons
    and [wallet.PayGasSeparately] of tonutils-go. *)
Variable StringRaw : Address → string.
Variable MustParseAddr : string → res Address.
Variable MustFromTON : string → res Z.
Variable PayGasSeparately : Z.

Section manager.
Context {M : Type} {TM : TxManager M}.

Definition FromAccount (m : M) : string := StringRaw (w_Address (ClientWallet m)).

(** One turn of the signature loop. *)
Definition fixed_signature (sig : bytes) : res bytes :=
  if negb (length sig =? 96) then Err "invalid ed25519 signature length, expected 96"
  else Ok (go_copy (replicate 96 x00) sig).

Definition Transmit (c : ccipTransmitter) (configDigest : bytes) (seqNr : Z) (reportWithInfo : Report)
    (sigs : list bytes) (m : M) : res M :=
  if 32 <? length sigs then Err "too many signatures, maximum is 32" else
  match rawReportContextFn c with
  | None => Panic "nil function"
  | Some rawReportContextFn =>
      let rawReportCtx := rawReportContextFn configDigest seqNr in
      signatures ← res_map fixed_signature sigs;
      match toEd25519CalldataFn c with
      | None => Panic "nil function"
      | Some toEd25519CalldataFn =>
          r ← wrap_err "failed to generate call data" (toEd25519CalldataFn rawReportCtx reportWithInfo signatures);
          match r.2 with
          | ArgsOther => Err "expected args to be *cell.Cell"
          | ArgsCell body =>
              let w := ClientWallet m in
              to ← MustParseAddr (offrampAddress c);
              amount ← MustFromTON "0.05";
              let request := {| rq_Mode := PayGasSeparately; rq_FromWallet := w; rq_ContractAddress := to;
                                rq_Body := body; rq_Amount := amount; rq_Bounce := false;
                                rq_StateInit := None |} in
              wrap_err "failed to submit transaction via txm" (EnqueueRequest request m)
          end
      end
  end.

(** ** What transmitting promises *)

Definition well_signed (sigs : list bytes) : Prop := length sigs ≤ 32 ∧ Forall (λ s, length s = 96) sigs.

Lemma fixed_signature_ok s b : fixed_signature s = Ok b ↔ length s = 96 ∧ b = s.
Proof.
  unfold fixed_signature. destruct (length s =? 96) eqn:E; cbn [negb].
  - apply Nat.eqb_eq in E. rewrite go_copy_same by (by rewrite length_replicate). split; [by intros [= <-]|].
    by intros [_ ->].
  - apply Nat.eqb_neq in E. split; [done|]. by intros [? _].
Qed.

Lemma fixed_signatures_ok sigs : Forall (λ s, length s = 96) sigs → res_map fixed_signature sigs = Ok sigs.
Proof.
  intros H. rewrite (res_map_fmap _ id), list_fmap_id; [done|]. apply Forall_forall. intros s Hs.
  rewrite Forall_forall in H. apply fixed_signature_ok. split; [by apply H|done].
Qed.

Lemma fixed_signatures_inv sigs l :
  res_map fixed_signature sigs = Ok l → Forall (λ s, length s = 96) sigs ∧ l = sigs.
Proof.
  intros H%res_map_ok_inv. induction H as [|s b sigs l Hs _ [IH ->]]; [done|].
  apply fixed_signature_ok in Hs as [? ->]. by split; [constructor|].
Qed.

Lemma fixed_signatures_err sigs :
  ¬ Forall (λ s, length s = 96) sigs → is_err (res_map fixed_signature sigs) = true.
Proof.
  intros H. induction sigs as [|s sigs IH]; [by destruct H|]. cbn.
  destruct (decide (length s = 96)) as [Hs|Hs].
  - assert (fixed_signature s = Ok s) as -> by by apply fixed_signature_ok. cbn.
    assert (¬ Forall (λ s, length s = 96) sigs) as Hn by (intros ?; apply H; by constructor).
    specialize (IH Hn). by destruct (res_map fixed_signature sigs).
  - unfold fixed_signature. by rewrite (proj2 (Nat.eqb_neq _ _) Hs).
Qed.
(** C40: a transmission succeeds exactly when there are at most 32 signatures of
    96 bytes each, the configured function turns the report and these very signatures
    into a cell, and the manager accepts the one request that carries the cell to the
    offramp; its result is the manager's state after that request. *)
Theorem Transmit_enqueues (c : ccipTransmitter) (digest : bytes) (seqNr : Z) (report : Report)
    (sigs : list bytes) (m m' : M) :
  Transmit c digest seqNr report sigs m = Ok m' ↔
  well_signed sigs ∧ ∃ ctx calldata contract method body to amount,
    rawReportContextFn c = Some ctx ∧ toEd25519CalldataFn c = Some calldata ∧
    calldata (ctx digest seqNr) report sigs = Ok (contract, method, ArgsCell body) ∧
    MustParseAddr (offrampAddress c) = Ok to ∧ MustFromTON "0.05" = Ok amount ∧
    EnqueueRequest {| rq_Mode := PayGasSeparately; rq_FromWallet := ClientWallet m; rq_ContractAddress := to;
                      rq_Body := body; rq_Amount := amount; rq_Bounce := false; rq_StateInit := None |} m = Ok m'.
Proof.
  unfold Transmit, well_signed. split.
  - destruct (Nat.ltb_spec 32 (length sigs)) as [|Hlen]; [done|]. destruct (rawReportContextFn c) as [ctx|]; [|done].
    intros (l & Hl & H)%bind_ok. apply fixed_signatures_inv in Hl as [Hl ->]. split; [done|].
    destruct (toEd25519CalldataFn c) as [f|]; [|done]. apply bind_ok in H as ([[k me] a] & Hf & H).
    apply wrap_err_ok in Hf. destruct a as [body|]; [|done]. cbn [snd] in H.
    apply bind_ok in H as (to & Hto & H). apply bind_ok in H as (amount & Ham & H). apply wrap_err_ok in H.
    by exists ctx, f, k, me, body, to, amount.
  - intros ([Hlen Hsigs] & ctx & f & k & me & body & to & amount & -> & -> & Hf & Hto & Ham & Hq).
    rewrite (proj2 (Nat.ltb_ge _ _)) by done. rewrite fixed_signatures_ok by done. cbn. rewrite Hf. cbn.
    rewrite Hto. cbn. rewrite Ham. cbn. by rewrite Hq.
Qed.

(** Too many signatures, a signature of the wrong length, a failing call-data
    function and arguments that are not a cell are reported as errors, whatever the
    manager is. *)
Theorem Transmit_rejects (c : ccipTransmitter) (ctx : RawReportContext3Func) (calldata : ToEd25519CalldataFunc)
    (digest : bytes) (seqNr : Z) (report : Report) (sigs : list bytes) (m : M)
    (Hctx : rawReportContextFn c = Some ctx) (Hcall : toEd25519CalldataFn c = Some calldata) :
  (¬ well_signed sigs ∨
   (well_signed sigs ∧ (is_err (calldata (ctx digest seqNr) report sigs) = true ∨
                        ∃ k me, calldata (ctx digest seqNr) report sigs = Ok (k, me, ArgsOther)))) →
  is_err (Transmit c digest seqNr report sigs m) = true.
Proof.
  unfold Transmit. rewrite Hctx, Hcall. unfold well_signed. destruct (Nat.ltb_spec 32 (length sigs)) as [|Hlen]; [done|].
  intros [Hns|[[_ Hs] Hc]].
  - assert (is_err (res_map fixed_signature sigs) = true) as He by (apply fixed_signatures_err; tauto).
    by destruct (res_map fixed_signature sigs).
  - rewrite fixed_signatures_ok by done. cbn. destruct Hc as [He|(k & me & ->)]; [|done].
    by destruct (calldata _ _ _).
Qed.

(** A transmitter as its constructor builds it panics on every transmission that
    does not have too many signatures. *)
Lemma constructed_panics (c : ccipTransmitter) digest seqNr report sigs (m : M) :
  NewCCIPTransmitter true true = Ok c →
  if 32 <? length sigs then is_err (Transmit c digest seqNr report sigs m) = true
  else is_panic (Transmit c digest seqNr report sigs m) = true.
Proof. intros [= <-]. unfold Transmit. by destruct (32 <? length sigs). Qed.

(** The provider that the relayer hands out for CCIP has no chain accessor, and its
    transmitter cannot transmit: it panics on every transmission that does not have
    too many signatures. *)
Theorem NewCCIPProvider_unusable (p : Provider) (digest : bytes) (seqNr : Z) (report : Report)
    (sigs : list bytes) (m : M) (Hp : NewCCIPProvider true true = Ok p) :
  ChainAccessor p = None ∧
  if 32 <? length sigs then is_err (Transmit (ContractTransmitter p) digest seqNr report sigs m) = true
  else is_panic (Transmit (ContractTransmitter p) digest seqNr report sigs m) = true.
Proof.
  unfold NewCCIPProvider in Hp. apply bind_ok in Hp as (ct & Hct & [= <-]). apply wrap_err_ok in Hct.
  split; [done|]. by apply constructed_panics.
Qed.
End manager.
End transmitter.
Arguments ArgsCell {AL CL} c.
Arguments ArgsOther {AL CL}.
Abbreviation ToEd25519CalldataFunc Report := (ReportContext → Report → list bytes → res (string * string * Args)).
Abbreviation RawReportContext3Func := (bytes → Z → ReportContext).

(** ** The transaction manager of pkg/txm behind the interface *)

#[export] Instance TxmManager {AL : AddrLib} {CL : CellLib} (Sign : string → bytes → res bytes)
    (config : Config) (wallet : Wallet) (MustFromNano : Z → nat → res Z) (now1 now2 : Z) : TxManager Txm := {|
  ClientWallet _ := wallet;
  EnqueueRequest rq t := Enqueue Sign config rq now1 now2 t;
  ManagerStatus lt t := GetTransactionStatus wallet MustFromNano lt t;
|}.

(** ** A transmission through pkg/txm *)

Module TransmitterRuns.
Import BitCells TraceRuns TxmRuns.

Definition body1 : Cell := BCell [true; false] [].
Definition calldata1 : ToEd25519CalldataFunc nat :=
  λ _ _ sigs, if length sigs =? 0 then Err "no signature" else Ok ("OffRamp"%string, "commit"%string, ArgsCell body1).
Definition transmitter1 : ccipTransmitter nat :=
  {| offrampAddress := AddrString a2; toEd25519CalldataFn := Some calldata1;
     rawReportContextFn := Some (λ digest _, [digest; digest]) |}.
Definition parse1 : string → res Address := λ s, match ParseAddr s with Ok a => Ok a | _ => Panic "invalid address" end.
Definition ton1 : string → res Z := λ _, Ok 50000000%Z.
Definition sig1 : bytes := replicate 96 x07.
Definition manager1 : TxManager Txm := TxmManager sign1 DefaultConfigSet wallet1 nano1 0 0.

Lemma Transmit_enqueues_witness :
  ∃ tx, Transmit (TM := manager1) nat parse1 ton1 1 transmitter1 [] 7 0 [sig1] New
        = Ok {| BroadcastChan := [tx]; AccountStore_ := NewAccountStore |} ∧ tx_To tx = a2.
Proof.
  eexists. split.
  { apply (Transmit_enqueues (TM := manager1) nat parse1 ton1 1 transmitter1 [] 7 0 [sig1] New).
       split; [split; [cbn; lia|repeat constructor]|].
       eexists _, _, _, _, _, _, _. repeat split. }
  reflexivity.
Defined.

Lemma Transmit_rejects_witness :
  is_err (Transmit (TM := manager1) nat parse1 ton1 1 transmitter1 [] 7 0 [x00 :: sig1] New) = true.
Proof.
  eapply (Transmit_rejects (TM := manager1) nat parse1 ton1 1 transmitter1); [reflexivity..|].
  left. intros [_ H]. inversion H. discriminate.
Defined.

Lemma NewCCIPProvider_unusable_witness : ∃ p, NewCCIPProvider nat true true = Ok p ∧
  is_panic (Transmit (TM := manager1) nat parse1 ton1 1 (ContractTransmitter nat p) [] 7 0 [sig1] New) = true.
Proof.
  eexists. split; [reflexivity|].
  apply (NewCCIPProvider_unusable (TM := manager1) nat parse1 ton1 1 _ [] 7 0 [sig1] New). reflexivity.
Defined.
End TransmitterRuns.
