(* ===== verification/Event.v ===== *)
(** * Event: pkg/ton/event and pkg/ton/hash

    The topic of an event, in the last bytes of the external destination
    address of its message, and the CRC-32 that names a topic. *)

From Stdlib Require Import Strings.Ascii.
From S2P Require Import Prelude Cells.

(** ** CRC-32 ([hash/crc32] with the IEEE table) *)

Definition IEEE : Z := 0xedb88320.

(** One bit of the reflected division, and one byte of it. *)
Definition crc_step (crc : Z) : Z :=
  if Z.odd crc then Z.lxor (Z.shiftr crc 1) IEEE else Z.shiftr crc 1.
Definition crc_byte (crc : Z) : Z := Nat.iter 8 crc_step crc.

(** [crc32.MakeTable(crc32.IEEE)] and the table lookup of [crc32.Checksum]. *)
Definition ieeeTable : list Z := (λ i, crc_byte (Z.of_nat i)) <$> seq 0 256.
Definition crc_update (crc : Z) (b : byte) : Z :=
  Z.lxor (nth (Z.to_nat (Z.land (Z.lxor crc (byte_to_Z b)) 255)) ieeeTable 0%Z) (Z.shiftr crc 8).
Definition Checksum (data : bytes) : Z :=
  Z.lxor (foldl crc_update 0xffffffff%Z data) 0xffffffff.

(** [strings.ReplaceAll(s, c, "")] for a one-character [c]. *)
Fixpoint remove_char (c : Ascii.ascii) (s : string) : string :=
  match s with
  | EmptyString => EmptyString
  | String a s' => if Ascii.eqb a c then remove_char c s' else String a (remove_char c s')
  end.

Definition CRC32 (schema : string) : Z :=
  let cleanedSchema := remove_char "("%char schema in
  let cleanedSchema := remove_char ")"%char cleanedSchema in
  Checksum (String.list_byte_of_string cleanedSchema).

(** ** Topics *)

Definition EventTopicLength : nat := 4.

Section bucket.
Context {AL : AddrLib}.

(** [ExtOutLogBucket] holds the address, nil when absent. *)
Record ExtOutLogBucket := { bucket_Address : option Address }.
Definition NewExtOutLogBucket (addr : option Address) : ExtOutLogBucket := {| bucket_Address := addr |}.

Definition DecodeEventTopic (b : ExtOutLogBucket) : res Z :=
  match bucket_Address b with
  | None => Err "cannot decode from a nil address"
  | Some a =>
      let data := Data a in
      if length data <? EventTopicLength then Err "address data is too short to contain an event topic" else
      let startIndex := length data - EventTopicLength in
      Ok (be_value (drop startIndex data))
  end.
End bucket.

(** ** The table against the bit-serial division *)

(** The reference: the polynomial division one bit at a time. *)
Definition crc_ref (data : bytes) : Z :=
  Z.lxor (foldl (λ crc b, crc_byte (Z.lxor crc (byte_to_Z b))) 0xffffffff%Z data) 0xffffffff.

Lemma crc_step_lxor a b : crc_step (Z.lxor a b) = Z.lxor (crc_step a) (crc_step b).
Proof.
  unfold crc_step. rewrite <- !Z.bit0_odd, Z.lxor_spec, Z.shiftr_lxor.
  destruct (Z.testbit a 0), (Z.testbit b 0); cbn [xorb].
  - rewrite Z.lxor_assoc, (Z.lxor_comm IEEE), Z.lxor_assoc, Z.lxor_nilpotent. by rewrite Z.lxor_0_r.
  - rewrite !Z.lxor_assoc. f_equal. apply Z.lxor_comm.
  - by rewrite !Z.lxor_assoc.
  - done.
Qed.

Lemma crc_byte_lxor a b : crc_byte (Z.lxor a b) = Z.lxor (crc_byte a) (crc_byte b).
Proof. unfold crc_byte. cbn [Nat.iter nat_rect]. by rewrite !crc_step_lxor. Qed.

Lemma crc_step_double z : crc_step (2 * z) = z.
Proof.
  unfold crc_step. rewrite Z.odd_mul. cbn [Z.odd andb]. rewrite Z.shiftr_div_pow2 by lia.
  change (2 ^ 1)%Z with 2%Z. rewrite Z.mul_comm. by apply Z.div_mul.
Qed.

Lemma crc_byte_high z : crc_byte (256 * z) = z.
Proof.
  unfold crc_byte. cbn [Nat.iter nat_rect].
  replace (256 * z)%Z with (2 * (2 * (2 * (2 * (2 * (2 * (2 * (2 * z))))))))%Z by lia.
  by rewrite !crc_step_double.
Qed.

Lemma crc_split z : z = Z.lxor (Z.land z 255) (256 * Z.shiftr z 8).
Proof.
  apply Z.bits_inj'. intros n Hn.
  rewrite Z.lxor_spec, Z.land_spec. change 255%Z with (Z.ones 8). change 256%Z with (2 ^ 8)%Z.
  rewrite (Z.mul_comm (2 ^ 8)), <- Z.shiftl_mul_pow2 by lia. destruct (Z.lt_ge_cases n 8).
  - rewrite Z.ones_spec_low, Z.shiftl_spec_low by lia. by rewrite andb_true_r, xorb_false_r.
  - rewrite Z.ones_spec_high, Z.shiftl_spec, Z.shiftr_spec by lia. rewrite andb_false_r, xorb_false_l.
    f_equal. lia.
Qed.

Lemma ieeeTable_lookup i : (0 ≤ i < 256)%Z → nth (Z.to_nat i) ieeeTable 0%Z = crc_byte i.
Proof.
  intros Hi. apply nth_lookup_Some. unfold ieeeTable. rewrite list_lookup_fmap, lookup_seq_lt by lia.
  cbn [fmap option_fmap option_map]. by rewrite Nat.add_0_l, Z2Nat.id by lia.
Qed.

Lemma crc_update_ref crc b : crc_update crc b = crc_byte (Z.lxor crc (byte_to_Z b)).
Proof.
  unfold crc_update. set (x := Z.lxor crc (byte_to_Z b)).
  assert (0 ≤ Z.land x 255 < 256)%Z as Hx.
  { change 255%Z with (Z.ones 8). rewrite Z.land_ones by lia. by apply Z.mod_pos_bound. }
  rewrite ieeeTable_lookup by done.
  assert (Z.shiftr x 8 = Z.shiftr crc 8) as <-.
  { unfold x. rewrite Z.shiftr_lxor, (Z.shiftr_div_pow2 (byte_to_Z b)) by lia.
    pose proof (byte_to_Z_bound b). by rewrite (Z.div_small (byte_to_Z b)), Z.lxor_0_r by (cbn; lia). }
  rewrite (crc_split x) at 3. by rewrite crc_byte_lxor, crc_byte_high.
Qed.

Lemma remove_char_filter c s :
  String.list_byte_of_string (remove_char c s)
  = filter (λ b, b ≠ byte_of_ascii c) (String.list_byte_of_string s).
Proof.
  induction s as [|a s IH]; [done|]. cbn [remove_char].
  change (String.list_byte_of_string (String a s)) with (byte_of_ascii a :: String.list_byte_of_string s).
  destruct (Ascii.eqb_spec a c) as [->|Hne].
  - rewrite filter_cons_False; [done|]. tauto.
  - rewrite filter_cons_True; [by rewrite <- IH|]. intros E. apply Hne.
    by rewrite <- (ascii_of_byte_of_ascii a), E, ascii_of_byte_of_ascii.
Qed.

(** The checksum of a schema, computed with the table, is the remainder of
    the bit-serial CRC-32 division of its characters other than parentheses. *)
Theorem CRC32_reference (schema : string) :
  CRC32 schema
  = crc_ref (filter (λ b, b ≠ x29) (filter (λ b, b ≠ x28) (String.list_byte_of_string schema))).
Proof.
  unfold CRC32, Checksum, crc_ref. f_equal. rewrite !remove_char_filter.
  generalize 0xffffffff%Z. induction (filter _ _) as [|b bs IH]; intros crc; [done|].
  cbn [foldl]. by rewrite crc_update_ref.
Qed.

Section topics.
Context {AL : AddrLib}.

(** Decoding the topic of an external address yields the 32-bit number in
    its last four bytes; an absent address and one of less than four bytes are
    errors. *)
Theorem DecodeEventTopic_spec (a : option Address) :
  match a with
  | Some a => (∀ prefix topic, Data a = prefix ++ be_bytes 4 topic →
                 DecodeEventTopic (NewExtOutLogBucket (Some a)) = Ok (u32 topic)) ∧
              (length (Data a) < 4 → is_err (DecodeEventTopic (NewExtOutLogBucket (Some a))) = true)
  | None => is_err (DecodeEventTopic (NewExtOutLogBucket None)) = true
  end.
Proof.
  destruct a as [a|]; [|done]. unfold DecodeEventTopic. cbn [bucket_Address NewExtOutLogBucket]. split.
  - intros prefix topic ->. rewrite length_app, be_bytes_length. unfold EventTopicLength.
    rewrite (proj2 (Nat.ltb_ge _ _)) by lia. rewrite drop_app_length' by lia. by rewrite be_value_bytes.
  - intros Hl. by rewrite (proj2 (Nat.ltb_lt _ _)).
Qed.
End topics.

(** The check value of CRC-32/ISO-HDLC. *)
Example CRC32_check : CRC32 "(123)456789" = 0xcbf43926%Z.
Proof. vm_compute. reflexivity. Qed.

(** The opcodes hash_test.go expects. *)
Example CRC32_topics :
  CRC32 <$> ["CounterIncreased"; "CounterReset"; "CCIPMessageSent"]%string
  = [0x0e5f2827; 0x9bc5e2cd; 0xa45d293c]%Z.
Proof. vm_compute. reflexivity. Qed.
