(* ===== verification/LogFilters.v ===== *)
(** * LogFilters: pkg/logpoller/filters.go and the types of pkg/logpoller/types

    The registry of log filters with its index of topics by address, against
    the set of filters that are registered.  Every method runs under the lock;
    ranging over a map takes an enumeration of its keys. *)

From S2P Require Import Prelude Cells BitCells.

Section filters.
Context {AL : AddrLib}.

(** ** Data *)

(** [types.Filter]; the retention is a duration in nanoseconds. *)
Record Filter := {
  flt_ID : Z;
  flt_Name : string;
  flt_Address : Address;
  flt_EventName : string;
  flt_EventTopic : Z;
  flt_StartingSeqNo : Z;
  flt_Retention : Z;
}.

Record Filters := {
  filtersByName : gmap string Filter;
  filtersByAddress : gmap string (gset Z);
}.

Definition newFilters : Filters := {| filtersByName := ∅; filtersByAddress := ∅ |}.

(** ** Operations *)

Definition RegisterFilter (flt : Filter) (f : Filters) : Filters :=
  let a := AddrString (flt_Address flt) in
  let topics := default ∅ (filtersByAddress f !! a) in
  {| filtersByName := <[flt_Name flt := flt]> (filtersByName f);
     filtersByAddress := <[a := {[flt_EventTopic flt]} ∪ topics]> (filtersByAddress f) |}.

Definition UnregisterFilter (name : string) (f : Filters) : Filters :=
  match filtersByName f !! name with
  | None => f
  | Some flt =>
      let a := AddrString (flt_Address flt) in
      let topics := default ∅ (filtersByAddress f !! a) ∖ {[flt_EventTopic flt]} in
      {| filtersByName := delete name (filtersByName f);
         filtersByAddress := if decide (topics = ∅) then delete a (filtersByAddress f)
                             else <[a := topics]> (filtersByAddress f) |}
  end.

(** [address.MustParseAddr] of tonutils-go, which panics on an invalid string. *)
Variable MustParseAddr : string → res Address.

Definition GetDistinctAddresses (order : list string) (f : Filters) : res (list Address) :=
  res_map MustParseAddr order.

Definition matches (contractAddr : Address) (topic : Z) (flt : Filter) : bool :=
  AddrEquals (flt_Address flt) contractAddr && bool_decide (flt_EventTopic flt = topic).

Definition MatchingFilters (names : list string) (contractAddr : Address) (topic : Z) (f : Filters) : list Z :=
  match filtersByAddress f !! AddrString contractAddr with
  | None => []
  | Some byTopic =>
      if bool_decide (topic ∈ byTopic)
      then omap (λ n, flt ← filtersByName f !! n;
                      if matches contractAddr topic flt then Some (flt_ID flt) else None) names
      else []
  end.
End filters.

(** ** The registry against the set of registered filters *)

Section specification.
Context {AL : AddrLib} {AW : AddrLaws}.
(** The key under which a filter is indexed. *)
Definition watches (a : string) (topic : Z) (flt : Filter) : Prop :=
  AddrString (flt_Address flt) = a ∧ flt_EventTopic flt = topic.

(** The index lists exactly the keys of the registered filters. *)
Definition indexed (f : Filters) : Prop :=
  ∀ a topic, topic ∈ default ∅ (filtersByAddress f !! a) ↔
             ∃ name flt, filtersByName f !! name = Some flt ∧ watches a topic flt.
Definition no_empty (f : Filters) : Prop := ∀ a, filtersByAddress f !! a ≠ Some ∅.
Definition named (f : Filters) : Prop :=
  ∀ name flt, filtersByName f !! name = Some flt → flt_Name flt = name ∧ std_addr (flt_Address flt).

(** The disciplined use of the registry: names are fresh, and a filter is only
    unregistered while no other filter watches the same address and topic. *)
Inductive registry_step : Filters → Filters → Prop :=
| reg_register flt f :
    std_addr (flt_Address flt) → filtersByName f !! flt_Name flt = None →
    registry_step f (RegisterFilter flt f)
| reg_unregister name f :
    (∀ flt n' flt', filtersByName f !! name = Some flt → filtersByName f !! n' = Some flt' →
       watches (AddrString (flt_Address flt)) (flt_EventTopic flt) flt' → n' = name) →
    registry_step f (UnregisterFilter name f).

Definition registry_inv (f : Filters) : Prop := indexed f ∧ no_empty f ∧ named f.

Lemma newFilters_inv : registry_inv newFilters.
Proof.
  split_and!; [|intros a; cbn; by rewrite lookup_empty|intros n flt; cbn; by rewrite lookup_empty].
  intros a t. cbn. rewrite lookup_empty. cbn. split; [set_solver|]. intros (n & flt & E & _). by rewrite lookup_empty in E.
Qed.

Lemma register_inv flt f :
  std_addr (flt_Address flt) → filtersByName f !! flt_Name flt = None →
  registry_inv f → registry_inv (RegisterFilter flt f).
Proof.
  intros Hstd Hfresh (I1 & I2 & I3). split_and!.
  - intros a t. cbn. set (k := AddrString (flt_Address flt)).
    assert ((∃ n g, <[flt_Name flt := flt]> (filtersByName f) !! n = Some g ∧ watches a t g) ↔
            (k = a ∧ flt_EventTopic flt = t) ∨ (∃ n g, filtersByName f !! n = Some g ∧ watches a t g)) as ->.
    { split.
      - intros (n & g & [[<- <-]|[? E]]%lookup_insert_Some & Hw); [left; exact Hw|right; by exists n, g].
      - intros [[<- <-]|(n & g & E & Hw)]; [exists (flt_Name flt), flt; by rewrite lookup_insert_eq|].
        exists n, g. rewrite lookup_insert_ne; [done|]. intros <-. congruence. }
    destruct (decide (k = a)) as [<-|Hne].
    + rewrite lookup_insert_eq. cbn. rewrite elem_of_union, elem_of_singleton, (I1 k t).
      split; (intros [H|H]; [left|by right]); [by split|by destruct H].
    + rewrite lookup_insert_ne by done. rewrite (I1 a t).
      split; [by right|]. by intros [[? _]|?].
  - intros a. cbn. intros [[_ E]|[_ E]]%lookup_insert_Some; [set_solver|by apply (I2 a)].
  - intros n g. cbn. intros [[<- <-]|[_ E]]%lookup_insert_Some; [done|by apply I3].
Qed.

Lemma unregister_inv name f :
  (∀ flt n' flt', filtersByName f !! name = Some flt → filtersByName f !! n' = Some flt' →
     watches (AddrString (flt_Address flt)) (flt_EventTopic flt) flt' → n' = name) →
  registry_inv f → registry_inv (UnregisterFilter name f).
Proof.
  intros Honly (I1 & I2 & I3). unfold UnregisterFilter. destruct (filtersByName f !! name) as [flt|] eqn:En; [|done].
  set (k := AddrString (flt_Address flt)). set (ts := default ∅ (filtersByAddress f !! k) ∖ {[flt_EventTopic flt]}).
  cbv zeta. set (idx := if decide (ts = ∅) then _ else _).
  assert (∀ a, default ∅ (idx !! a) = if decide (k = a) then ts else default ∅ (filtersByAddress f !! a)) as Hidx.
  { intros a. unfold idx. destruct (decide (k = a)) as [<-|Hne], (decide (ts = ∅)) as [Et|Et].
    - by rewrite lookup_delete_eq.
    - by rewrite lookup_insert_eq.
    - by rewrite lookup_delete_ne.
    - by rewrite lookup_insert_ne. }
  assert (∀ a, idx !! a ≠ Some ∅) as Hempty.
  { intros a. unfold idx. destruct (decide (ts = ∅)).
    - intros [_ E]%lookup_delete_Some. by apply (I2 a).
    - intros [[_ E]|[_ E]]%lookup_insert_Some; [done|by apply (I2 a)]. }
  clearbody idx. split_and!; [|exact Hempty|intros n g; cbn [filtersByName]; intros [_ E]%lookup_delete_Some; by apply I3].
  intros a t. cbn [filtersByName filtersByAddress]. rewrite Hidx. destruct (decide (k = a)) as [Ek|Ek].
  - rewrite <- Ek. unfold ts. rewrite elem_of_difference, elem_of_singleton, (I1 k t). split.
    + intros [(n & g & E & Hw) Hne]. exists n, g. split; [|done].
      apply lookup_delete_Some. split; [|done]. intros <-. rewrite En in E. injection E as <-. by apply Hne; destruct Hw.
    + intros (n & g & [Hn E]%lookup_delete_Some & Hw). split; [by exists n, g|]. intros ->.
      by apply Hn; symmetry; eapply Honly.
  - rewrite (I1 a t). split; intros (n & g & E & Hw).
    + exists n, g. split; [|done]. apply lookup_delete_Some. split; [|done]. intros <-.
      rewrite En in E. injection E as <-. by destruct Hw.
    + apply lookup_delete_Some in E as [_ E]. by exists n, g.
Qed.

Lemma registry_reachable f : rtc registry_step newFilters f → registry_inv f.
Proof.
  apply (rtc_ind_r (λ f, registry_inv f)); [apply newFilters_inv|].
  intros f1 f2 _ [flt f0 H1 H2|name f0 H1] IH; [by apply register_inv|by apply unregister_inv].
Qed.

Lemma AddrString_inj a b : std_addr a → std_addr b → AddrString a = AddrString b → a = b.
Proof.
  intros Ha Hb E. assert (Ok a = Ok b) as H by (rewrite <- (parse_string a), <- (parse_string b), E; done).
  by injection H.
Qed.

Lemma AddrString_std a b :
  std_addr a → std_addr b → AddrString a = AddrString b ↔ AddrEquals a b = true.
Proof.
  intros Ha Hb. split.
  - intros E. apply equals_spec. by rewrite (AddrString_inj a b).
  - intros E%equals_spec. destruct Ha as (w1 & d1 & L1 & ->), Hb as (w2 & d2 & L2 & ->).
    rewrite !new_workchain, !new_data in E by done. destruct E as [Ew ->]. f_equal. f_equal.
    apply byte_to_Z_inj. unfold i8, swrap in Ew. pose proof (byte_to_Z_bound w1). pose proof (byte_to_Z_bound w2).
    change (2 ^ (8 - 1))%Z with 128%Z in Ew. change (2 ^ 8)%Z with 256%Z in Ew.
    pose proof (Z.div_mod (byte_to_Z w1 + 128) 256). pose proof (Z.div_mod (byte_to_Z w2 + 128) 256).
    pose proof (Z.mod_pos_bound (byte_to_Z w1 + 128) 256). pose proof (Z.mod_pos_bound (byte_to_Z w2 + 128) 256). lia.
Qed.

Lemma no_matches (m : gmap string Filter) a topic :
  (∀ n flt, m !! n = Some flt → matches a topic flt = true → False) →
  ∀ names, omap (λ n, flt ← m !! n; if matches a topic flt then Some (flt_ID flt) else None) names = [].
Proof.
  intros Hm. induction names as [|n names IH]; [done|]. cbn. destruct (m !! n) as [flt|] eqn:E; [|done]. cbn.
  destruct (matches a topic flt) eqn:Et; [|done]. by destruct (Hm n flt E).
Qed.

Variable MustParseAddr : string → res Address.
Hypothesis MustParseAddr_ok : ∀ s a, ParseAddr s = Ok a → MustParseAddr s = Ok a.

Lemma parse_all order :
  (∀ k, k ∈ order → ∃ a, std_addr a ∧ AddrString a = k) →
  ∃ addrs, res_map MustParseAddr order = Ok addrs ∧ AddrString <$> addrs = order ∧ Forall std_addr addrs.
Proof.
  induction order as [|k order IH]; intros H; [by exists []|].
  destruct (H k) as (a & Ha & <-); [apply list_elem_of_here|].
  destruct IH as (addrs & E & <- & Hs); [intros k Hk; apply H; by apply list_elem_of_further|].
  exists (a :: addrs). split; [|by split; [|constructor]].
  apply res_map_cons; [|done]. apply MustParseAddr_ok. by apply parse_string.
Qed.

Lemma watched_keys f order :
  registry_inv f → order ≡ₚ (map_to_list (filtersByAddress f)).*1 →
  ∀ k, k ∈ order ↔ ∃ name flt, filtersByName f !! name = Some flt ∧ AddrString (flt_Address flt) = k.
Proof.
  intros (I1 & I2 & _) Horder k. rewrite Horder, list_elem_of_fmap. split.
  - intros ([k' ts] & -> & Hk%elem_of_map_to_list). cbn.
    destruct (set_choose_L ts) as [t Ht]; [intros ->; by apply (I2 k')|].
    specialize (I1 k' t). rewrite Hk in I1. apply I1 in Ht as (n & flt & E & [Hw _]). by exists n, flt.
  - intros (n & flt & E & <-). specialize (I1 (AddrString (flt_Address flt)) (flt_EventTopic flt)).
    destruct (filtersByAddress f !! AddrString (flt_Address flt)) as [ts|] eqn:Ek.
    + exists (AddrString (flt_Address flt), ts). split; [done|]. by apply elem_of_map_to_list.
    + exfalso. cbn in I1. apply (not_elem_of_empty (C:=gset Z) (flt_EventTopic flt)), I1. by exists n, flt.
Qed.

Lemma distinct_addresses f order :
  registry_inv f → order ≡ₚ (map_to_list (filtersByAddress f)).*1 →
  ∃ addrs, GetDistinctAddresses MustParseAddr order f = Ok addrs ∧ NoDup addrs ∧
    ∀ a, a ∈ addrs ↔ ∃ name flt, filtersByName f !! name = Some flt ∧ flt_Address flt = a.
Proof.
  intros (I1 & I2 & I3) Horder.
  pose proof (watched_keys f order (conj I1 (conj I2 I3)) Horder) as Hin.
  destruct (parse_all order) as (addrs & E & Ea & Hs).
  { intros k (n & flt & Ek & <-)%Hin. exists (flt_Address flt). split; [by apply (I3 n)|done]. }
  exists addrs. split; [done|]. split.
  { apply (NoDup_fmap_1 AddrString). rewrite Ea, Horder. apply NoDup_fst_map_to_list. }
  rewrite Forall_forall in Hs. intros a. split.
  + intros Ha. assert (AddrString a ∈ order) as (n & flt & Ek & Hk)%Hin
      by (rewrite <- Ea; by apply list_elem_of_fmap_2).
    exists n, flt. split; [done|]. apply AddrString_inj; [by apply (I3 n)|by apply Hs|done].
  + intros (n & flt & Ek & <-). assert (AddrString (flt_Address flt) ∈ order) as Hk by (apply Hin; by exists n, flt).
    rewrite <- Ea in Hk. apply list_elem_of_fmap in Hk as (b & Eb & Hb).
    assert (flt_Address flt = b) as -> by (apply AddrString_inj; [by apply (I3 n)|by apply Hs|done]). done.
Qed.

(** The filters found for a standard address are the registered ones that match. *)
Lemma matching_complete f names a topic :
  registry_inv f → names ≡ₚ (map_to_list (filtersByName f)).*1 → std_addr a →
  MatchingFilters names a topic f ≡ₚ
  flt_ID <$> filter (λ flt, matches a topic flt = true) (map_to_list (filtersByName f)).*2.
Proof.
  intros (I1 & I2 & I3) Hnames Ha. transitivity (omap (λ flt, if matches a topic flt then Some (flt_ID flt) else None)
                                     (map_to_list (filtersByName f)).*2).
  2:{ induction (map_to_list (filtersByName f)).*2 as [|flt l IH]; [done|].
      rewrite filter_cons. cbn [omap list_omap]. destruct (matches a topic flt) eqn:E.
      - rewrite decide_True by done. cbn. by rewrite IH.
      - by rewrite decide_False by done. }
  rewrite <- (omap_lookup_values _ _ _ Hnames). unfold MatchingFilters.
  destruct (filtersByAddress f !! AddrString a) as [ts|] eqn:Ek; [case_bool_decide as Et; [done|]|];
    rewrite no_matches; try done; intros n flt E Hm; unfold matches in Hm;
    apply andb_true_iff in Hm as [Hm Htop]; apply bool_decide_eq_true in Htop;
    destruct (I3 n flt E) as [_ Hstd]; apply AddrString_std in Hm; try done.
  + apply Et. specialize (I1 (AddrString a) topic). rewrite Ek in I1. apply I1. by exists n, flt.
  + specialize (I1 (AddrString a) topic). rewrite Ek in I1. cbn in I1.
    apply (not_elem_of_empty (C:=gset Z) topic), I1. by exists n, flt.
Qed.

(** C25: while names are fresh and no filter is unregistered that shares its
    address and topic with another, the filters found for a contract address and a topic
    are exactly the registered ones that match, and the watched addresses are
    exactly the addresses of the registered filters, each once. *)
Theorem registry_complete (f : Filters) (names order : list string)
    (Hf : rtc registry_step newFilters f)
    (Hnames : names ≡ₚ (map_to_list (filtersByName f)).*1)
    (Horder : order ≡ₚ (map_to_list (filtersByAddress f)).*1) :
  (∀ a topic, std_addr a →
     MatchingFilters names a topic f ≡ₚ
     flt_ID <$> filter (λ flt, matches a topic flt = true) (map_to_list (filtersByName f)).*2) ∧
  ∃ addrs, GetDistinctAddresses MustParseAddr order f = Ok addrs ∧ NoDup addrs ∧
    ∀ a, a ∈ addrs ↔ ∃ name flt, filtersByName f !! name = Some flt ∧ flt_Address flt = a.
Proof.
  apply registry_reachable in Hf. split.
  - intros a topic Ha. by apply matching_complete.
  - by apply distinct_addresses.
Qed.

(** Unregistering a filter removes the index entry of its address and topic,
    so another filter that watches the same address and topic, though still
    registered, is no longer found. *)
Theorem UnregisterFilter_shared (f : Filters) (n1 n2 : string) (flt1 flt2 : Filter) (names : list string)
    (H1 : filtersByName f !! n1 = Some flt1) (H2 : filtersByName f !! n2 = Some flt2) (Hne : n1 ≠ n2)
    (Haddr : flt_Address flt1 = flt_Address flt2) (Htopic : flt_EventTopic flt1 = flt_EventTopic flt2) :
  filtersByName (UnregisterFilter n1 f) !! n2 = Some flt2 ∧
  MatchingFilters names (flt_Address flt2) (flt_EventTopic flt2) (UnregisterFilter n1 f) = [].
Proof.
  unfold UnregisterFilter. rewrite H1, Haddr, Htopic. cbv zeta. split; [by cbn; rewrite lookup_delete_ne|].
  unfold MatchingFilters. cbn [filtersByAddress]. case_decide.
  - by rewrite lookup_delete_eq.
  - rewrite lookup_insert_eq. rewrite bool_decide_eq_false_2; [done|].
    rewrite elem_of_difference, elem_of_singleton. by intros [_ []].
Qed.

(** A filter is only found for a contract address that prints like the
    address it was registered with: an address that is equal to the filter's but
    carries other flags is not matched. *)
Theorem MatchingFilters_flags (f : Filters) (flt : Filter) (a : Address) (names : list string)
    (Hnew : f = RegisterFilter flt newFilters) (Heq : AddrEquals (flt_Address flt) a = true)
    (Hflags : AddrString (flt_Address flt) ≠ AddrString a) :
  MatchingFilters names a (flt_EventTopic flt) f = [] ∧ matches a (flt_EventTopic flt) flt = true.
Proof.
  subst f. split.
  - unfold MatchingFilters. cbn. by rewrite lookup_insert_ne, lookup_empty.
  - unfold matches. rewrite Heq. by apply bool_decide_eq_true.
Qed.
End specification.

(** ** Runs *)

Module FilterRuns.
Import BitCells.

Definition addr1 : Address := NewAddress x00 x00 (replicate 32 x01).
Definition addr1_flags : Address := NewAddress x40 x00 (replicate 32 x01).
Definition filter1 : Filter :=
  {| flt_ID := 1; flt_Name := "a"; flt_Address := addr1; flt_EventName := "CCIPMessageSent";
     flt_EventTopic := 0xa45d293c; flt_StartingSeqNo := 0; flt_Retention := 0 |}.
Definition filter2 : Filter :=
  {| flt_ID := 2; flt_Name := "b"; flt_Address := addr1; flt_EventName := "CCIPMessageSent";
     flt_EventTopic := 0xa45d293c; flt_StartingSeqNo := 0; flt_Retention := 0 |}.
Definition filters1 : Filters := RegisterFilter filter1 newFilters.
Definition filters2 : Filters := RegisterFilter filter2 filters1.
Definition parse1 : string → res Address := λ s, match ParseAddr s with Ok a => Ok a | _ => Panic "invalid address" end.

Lemma addr1_std : std_addr addr1.
Proof. exists x00, (replicate 32 x01). done. Qed.

Lemma filters2_reachable : rtc registry_step newFilters filters2.
Proof.
  eapply rtc_l; [apply (reg_register filter1); [apply addr1_std|reflexivity]|].
  eapply rtc_once, (reg_register filter2); [apply addr1_std|reflexivity].
Qed.

Lemma registry_complete_witness :
  MatchingFilters ["a"; "b"]%string addr1 0xa45d293c filters2 ≡ₚ [1; 2]%Z.
Proof.
  assert (["a"; "b"]%string ≡ₚ (map_to_list (filtersByName filters2)).*1) as Hn
    by (vm_compute; apply Permutation_swap || reflexivity).
  destruct (registry_complete parse1 (λ s a H, ltac:(unfold parse1; by rewrite H))
    filters2 ["a"; "b"]%string (map_to_list (filtersByAddress filters2)).*1 filters2_reachable Hn) as [H _]; [done|].
  rewrite (H addr1 0xa45d293c%Z addr1_std). vm_compute. apply Permutation_swap || reflexivity.
Defined.

Lemma UnregisterFilter_shared_witness :
  MatchingFilters ["b"]%string addr1 0xa45d293c (UnregisterFilter "a" filters2) = [].
Proof. by apply (UnregisterFilter_shared filters2 "a" "b" filter1 filter2). Defined.

Lemma MatchingFilters_flags_witness : MatchingFilters ["a"]%string addr1_flags 0xa45d293c filters1 = [].
Proof. by apply (MatchingFilters_flags filters1 filter1 addr1_flags). Defined.
End FilterRuns.
