(* ===== verification/LogQuery.v ===== *)
(** * LogQuery: pkg/logpoller/query.go, store.go and types/models.go

    The in-memory log store and the byte-level queries on the payload of a
    cell.  [uint] and [int] have 64 bits.  Sorting takes as an argument the
    arrangement that [sort.Slice], which is not stable, starts from. *)

From S2P Require Import Prelude Cells BitCells.

(** ** Data *)

Section types.
Context {AL : AddrLib}.

(** [types.Log]; times are in nanoseconds. *)
Record Log := {
  log_ID : Z;
  log_FilterID : Z;
  log_Address : Address;
  log_TxHash : bytes;
  log_TxLT : Z;
  log_Topic : Z;
  log_Data : bytes;
  log_CreatedAt : Z;
  log_ReceivedAt : Z;
  log_ExpiresAt : option Z;
  log_Error : option string;
}.

(** An [Operator] is a string; only the six constants are supported. *)
Abbreviation Operator := string.
Definition EQ : Operator := "=".
Definition NEQ : Operator := "!=".
Definition GT : Operator := ">".
Definition GTE : Operator := ">=".
Definition LT : Operator := "<".
Definition LTE : Operator := "<=".

Record CellQuery := { cq_Offset : Z; cq_Operator : Operator; cq_Value : bytes }.

Definition SortByTxLT : string := "tx_lt".
Definition ASC : string := "ASC".
Definition DESC : string := "DESC".
Record SortBy := { sb_Field : string; sb_Order : string }.
Record QueryOptions := { qo_Limit : Z; qo_Offset : Z; qo_SortBy : list SortBy }.
Record QueryResult := { qr_Logs : list Log; qr_HasMore : bool; qr_Total : Z }.

(** ** Comparing bytes *)

(** [bytes.Compare]: lexicographic. *)
Fixpoint bytes_Compare (a b : bytes) : Z :=
  match a, b with
  | [], [] => 0
  | [], _ :: _ => -1
  | _ :: _, [] => 1
  | x :: a', y :: b' =>
      if (byte_to_Z x <? byte_to_Z y)%Z then -1
      else if (byte_to_Z y <? byte_to_Z x)%Z then 1
      else bytes_Compare a' b'
  end%Z.

Definition compareBytes (dataSlice queryValue : bytes) (operator : Operator) : res bool :=
  let comparison := bytes_Compare dataSlice queryValue in
  if bool_decide (operator = EQ) then Ok (comparison =? 0)%Z
  else if bool_decide (operator = NEQ) then Ok (negb (comparison =? 0))%Z
  else if bool_decide (operator = GT) then Ok (0 <? comparison)%Z
  else if bool_decide (operator = GTE) then Ok (0 <=? comparison)%Z
  else if bool_decide (operator = LT) then Ok (comparison <? 0)%Z
  else if bool_decide (operator = LTE) then Ok (comparison <=? 0)%Z
  else Err "unsupported operator".

(** A Go slice expression [l[lo:hi]]. *)
Definition go_slice {A} (l : list A) (lo hi : Z) : res (list A) :=
  if (0 <=? lo)%Z && (lo <=? hi)%Z && (hi <=? Z.of_nat (length l))%Z
  then Ok (take (Z.to_nat (hi - lo)) (drop (Z.to_nat lo) l))
  else Panic "slice bounds out of range".

Fixpoint PassesAllQueries (payload : bytes) (queries : list CellQuery) : res bool :=
  match queries with
  | [] => Ok true
  | query :: queries' =>
      let len := Z.of_nat (length payload) in
      if (len <? u64 (cq_Offset query + Z.of_nat (length (cq_Value query))))%Z then Ok false else
      let end_ := u64 (cq_Offset query + Z.of_nat (length (cq_Value query))) in
      if (len <? end_)%Z then Ok false else
      dataSlice ← go_slice payload (cq_Offset query) end_;
      is_match ← wrap_err "comparison failed" (compareBytes dataSlice (cq_Value query) (cq_Operator query));
      if negb (is_match : bool) then Ok false else PassesAllQueries payload queries'
  end.

(** ** Sorting and pages *)

(** The [less] function of the sort. *)
Fixpoint log_less (sortBy : list SortBy) (a b : Log) : bool :=
  match sortBy with
  | [] => false
  | c :: sortBy' =>
      let cmp := if bool_decide (sb_Field c = SortByTxLT)
                 then if (log_TxLT a <? log_TxLT b)%Z then -1
                      else if (log_TxLT b <? log_TxLT a)%Z then 1 else 0
                 else 0 in
      if negb (cmp =? 0) then (if bool_decide (sb_Order c = DESC) then 0 <? cmp else cmp <? 0)
      else log_less sortBy' a b
  end%Z.
Definition log_le (sortBy : list SortBy) (a b : Log) : Prop := log_less sortBy b a = false.
#[global] Instance log_le_dec sortBy : RelDecision (log_le sortBy).
Proof. intros a b. unfold log_le. apply _. Defined.

(** Merge sort is stable, so every outcome of an unstable sort is the result
    for some [arrange] that permutes its argument. *)
Definition ApplySorting (arrange : list Log → list Log) (logs : list Log) (sortBy : list SortBy) : list Log :=
  match sortBy with
  | [] => logs
  | _ => merge_sort (log_le sortBy) (arrange logs)
  end.

Definition ApplyPagination (logs : list Log) (limit offset : Z) : res QueryResult :=
  let totalCount := Z.of_nat (length logs) in
  if (totalCount <=? offset)%Z then Ok {| qr_Logs := []; qr_HasMore := false; qr_Total := totalCount |} else
  let start := offset in
  let end_ := if (0 <? limit)%Z && (i64 (start + limit) <? totalCount)%Z then i64 (start + limit) else totalCount in
  page ← go_slice logs start end_;
  Ok {| qr_Logs := page; qr_HasMore := (end_ <? totalCount)%Z; qr_Total := totalCount |}.
End types.
Abbreviation Operator := string.

(** ** The store *)

Section store.
Context {AL : AddrLib} {CL : CellLib}.

(** [cell.RestBits] of tonutils-go: the rest of a slice, as its number of bits
    and their bytes. *)
Variable RestBits : Slice → res (Z * bytes).

Definition ExtractCellPayload (logData : bytes) : res bytes :=
  parsedCell ← wrap_err "could not parse BOC for log" (FromBOC logData);
  r ← wrap_err "could not extract payload from cell for log" (RestBits (BeginParse parsedCell));
  Ok r.2.

(** The state of [InMemoryStore] is the slice of logs, oldest first. *)
Record InMemoryStore := { logs : list Log }.
Definition NewInMemoryStore : InMemoryStore := {| logs := [] |}.

Definition day : Z := 24 * 3600 * 10 ^ 9.

(** [now] is the reading of the clock; it is not the zero time. *)
Definition received (now : Z) (log : Log) : Log :=
  {| log_ID := log_ID log; log_FilterID := log_FilterID log; log_Address := log_Address log;
     log_TxHash := log_TxHash log; log_TxLT := log_TxLT log; log_Topic := log_Topic log;
     log_Data := log_Data log; log_CreatedAt := log_CreatedAt log; log_ReceivedAt := now;
     log_ExpiresAt := match log_ExpiresAt log with Some e => Some e | None => Some (now + day)%Z end;
     log_Error := log_Error log |}.
Definition SaveLog (now : Z) (log : Log) (s : InMemoryStore) : InMemoryStore :=
  {| logs := logs s ++ [received now log] |}.

Definition GetLogs (evtSrcAddress : string) (s : InMemoryStore) : list Log :=
  filter (λ l, AddrString (log_Address l) = evtSrcAddress) (logs s).

(** The match by address and topic of both query methods. *)
Definition selects (evtSrcAddress : string) (topic : Z) (l : Log) : bool :=
  (log_Topic l =? topic)%Z && bool_decide (AddrString (log_Address l) = evtSrcAddress).

(** The loop of [FilteredLogs] from some log on, with the logs found so far. *)
Fixpoint matching_logs (evtSrcAddress : string) (topic : Z) (filters : list CellQuery)
    (ls : list Log) (found : list Log) : res (list Log) :=
  match ls with
  | [] => Ok found
  | l :: ls' =>
      if negb (selects evtSrcAddress topic l) then matching_logs evtSrcAddress topic filters ls' found else
      cellPayload ← wrap_err "failed to parse log" (ExtractCellPayload (log_Data l));
      passes ← wrap_err "failed to apply filter to log" (PassesAllQueries cellPayload filters);
      matching_logs evtSrcAddress topic filters ls' (if passes : bool then found ++ [l] else found)
  end.

Definition FilteredLogs (arrange : list Log → list Log) (evtSrcAddress : string) (topic : Z)
    (filters : list CellQuery) (options : QueryOptions) (s : InMemoryStore) : res QueryResult :=
  matchingLogs ← matching_logs evtSrcAddress topic filters (logs s) [];
  let matchingLogs := ApplySorting arrange matchingLogs (qo_SortBy options) in
  ApplyPagination matchingLogs (qo_Limit options) (qo_Offset options).

(** [parser] and [filter] are callbacks; a nil filter accepts everything. *)
Fixpoint parsed_logs {E} (evtSrcAddress : string) (topic : Z) (parser : Cell → res E) (filter : option (E → bool))
    (ls : list Log) (results : list E) : res (list E) :=
  match ls with
  | [] => Ok results
  | l :: ls' =>
      let skip := parsed_logs evtSrcAddress topic parser filter ls' in
      if negb (selects evtSrcAddress topic l) then skip results else
      match FromBOC (log_Data l) with
      | Err _ => skip results
      | Panic p => Panic p
      | Diverge => Diverge
      | Ok c =>
          match parser c with
          | Err _ => skip results
          | Panic p => Panic p
          | Diverge => Diverge
          | Ok parsedEvent =>
              match filter with
              | Some p => if p parsedEvent then skip (results ++ [parsedEvent]) else skip results
              | None => skip (results ++ [parsedEvent])
              end
          end
      end
  end.
Definition FilteredLogsWithParser {E} (evtSrcAddress : string) (topic : Z) (parser : Cell → res E)
    (filter : option (E → bool)) (s : InMemoryStore) : res (list E) :=
  parsed_logs evtSrcAddress topic parser filter (logs s) [].
End store.
