(* ===== verification/LogQuerySpec.v ===== *)
(** * LogQuerySpec: what the queries on stored logs return

    Byte comparisons as comparisons of numbers, pages as segments of the
    sorted result, and the two query methods against filtering the store. *)

From S2P Require Import Prelude Cells BitCells LogQuery.

(** ** Comparing bytes *)

Definition op_holds (op : string) (x y : Z) : option bool :=
  if bool_decide (op = EQ) then Some (x =? y)%Z
  else if bool_decide (op = NEQ) then Some (negb (x =? y)%Z)
  else if bool_decide (op = GT) then Some (y <? x)%Z
  else if bool_decide (op = GTE) then Some (y <=? x)%Z
  else if bool_decide (op = LT) then Some (x <? y)%Z
  else if bool_decide (op = LTE) then Some (x <=? y)%Z
  else None.

Lemma bytes_Compare_numeric a b :
  length a = length b → bytes_Compare a b = Z.sgn (be_value a - be_value b).
Proof.
  revert b. induction a as [|x a IH]; intros [|y b] Hl; try done. injection Hl as Hl.
  cbn [bytes_Compare]. rewrite !be_value_cons, Hl.
  pose proof (be_value_bound a) as Ba. pose proof (be_value_bound b) as Bb. rewrite Hl in Ba.
  set (p := (256 ^ Z.of_nat (length b))%Z) in *.
  destruct (Z.ltb_spec (byte_to_Z x) (byte_to_Z y)); [symmetry; apply Z.sgn_neg; nia|].
  destruct (Z.ltb_spec (byte_to_Z y) (byte_to_Z x)); [symmetry; apply Z.sgn_pos; nia|].
  rewrite IH by done. f_equal. assert (byte_to_Z x = byte_to_Z y) as -> by lia. lia.
Qed.

Lemma compareBytes_numeric a b op :
  length a = length b →
  compareBytes a b op = match op_holds op (be_value a) (be_value b) with
                        | Some r => Ok r
                        | None => Err "unsupported operator"
                        end.
Proof.
  intros Hl. unfold compareBytes, op_holds. rewrite bytes_Compare_numeric by done.
  destruct (Z.sgn_spec (be_value a - be_value b)) as [[H ->]|[[H ->]|[H ->]]];
    repeat (case_bool_decide; [f_equal; cbn; lia|]); done.
Qed.

(** ** Queries on a payload *)

(** The bytes a query looks at, as a number. *)
Definition field_value (payload : bytes) (q : CellQuery) : Z :=
  be_value (take (length (cq_Value q)) (drop (Z.to_nat (cq_Offset q)) payload)).
Definition query_holds (payload : bytes) (q : CellQuery) : bool :=
  (cq_Offset q + Z.of_nat (length (cq_Value q)) <=? Z.of_nat (length payload))%Z
  && default false (op_holds (cq_Operator q) (field_value payload q) (be_value (cq_Value q))).
Definition supported (op : string) : Prop := op ∈ [EQ; NEQ; GT; GTE; LT; LTE].
Definition query_ok (q : CellQuery) : Prop :=
  (0 ≤ cq_Offset q)%Z ∧ (cq_Offset q + Z.of_nat (length (cq_Value q)) < 2 ^ 64)%Z ∧ supported (cq_Operator q).

Lemma supported_holds op x y : supported op → is_Some (op_holds op x y).
Proof.
  intros H. unfold op_holds. repeat (case_bool_decide; [by eexists|]).
  repeat (apply elem_of_cons in H as [->|H]; [done|]). by apply elem_of_nil in H.
Qed.

Lemma go_slice_ok {A} (l : list A) lo n :
  (0 ≤ lo)%Z → (lo + Z.of_nat n ≤ Z.of_nat (length l))%Z →
  go_slice l lo (lo + Z.of_nat n) = Ok (take n (drop (Z.to_nat lo) l)).
Proof.
  intros H1 H2. unfold go_slice. rewrite (proj2 (Z.leb_le 0 lo)), (proj2 (Z.leb_le lo _)), (proj2 (Z.leb_le _ _)) by lia.
  cbn. by replace (Z.to_nat (lo + Z.of_nat n - lo)) with n by lia.
Qed.

Lemma one_query payload q qs :
  query_ok q →
  PassesAllQueries payload (q :: qs) = if query_holds payload q then PassesAllQueries payload qs else Ok false.
Proof.
  intros (Ho & Hs & Hop). cbn [PassesAllQueries]. unfold query_holds. rewrite u64_id by lia.
  destruct (Z.ltb_spec (Z.of_nat (length payload)) (cq_Offset q + Z.of_nat (length (cq_Value q)))) as [Hlt|Hge].
  - by rewrite (proj2 (Z.leb_gt _ _)).
  - rewrite (proj2 (Z.leb_le _ _)) by done. rewrite go_slice_ok by done. cbn [mbind res_bind].
    rewrite compareBytes_numeric by (rewrite length_take, length_drop; lia).
    destruct (supported_holds (cq_Operator q) (field_value payload q) (be_value (cq_Value q)) Hop) as [r Hr].
    fold (field_value payload q). rewrite Hr. cbn. by destruct r.
Qed.

Lemma passes_ok payload queries :
  Forall query_ok queries → PassesAllQueries payload queries = Ok (forallb (query_holds payload) queries).
Proof.
  induction 1 as [|q qs Hq _ IH]; [done|]. rewrite one_query by done. cbn [forallb].
  by destruct (query_holds payload q).
Qed.

(** A query whose end fits an unsigned integer; nothing is said of its operator. *)
Definition query_fits (q : CellQuery) : Prop :=
  (0 ≤ cq_Offset q)%Z ∧ (cq_Offset q + Z.of_nat (length (cq_Value q)) < 2 ^ 64)%Z.

(** The queries on a payload, one after the other: [None] when one with an unsupported operator is
    reached, on bytes that are there. *)
Fixpoint judge (payload : bytes) (queries : list CellQuery) : option bool :=
  match queries with
  | [] => Some true
  | q :: queries =>
      if (Z.of_nat (length payload) <? cq_Offset q + Z.of_nat (length (cq_Value q)))%Z then Some false else
      match op_holds (cq_Operator q) (field_value payload q) (be_value (cq_Value q)) with
      | None => None
      | Some false => Some false
      | Some true => judge payload queries
      end
  end.

Lemma passes_judge payload queries :
  Forall query_fits queries →
  match judge payload queries with
  | Some b => PassesAllQueries payload queries = Ok b
  | None => is_err (PassesAllQueries payload queries) = true
  end.
Proof.
  induction 1 as [|q qs [Ho Hs] _ IH]; [done|]. cbn [judge PassesAllQueries]. rewrite u64_id by lia.
  destruct (Z.ltb_spec (Z.of_nat (length payload)) (cq_Offset q + Z.of_nat (length (cq_Value q)))) as [Hlt|Hge]; [done|].
  rewrite go_slice_ok by done. cbn [mbind res_bind].
  rewrite compareBytes_numeric by (rewrite length_take, length_drop; lia). fold (field_value payload q).
  destruct (op_holds _ _ _) as [[]|]; done.
Qed.

(** For supported operators it is what [forallb] computes. *)
Lemma judge_supported payload queries :
  Forall (λ q, supported (cq_Operator q)) queries →
  judge payload queries = Some (forallb (query_holds payload) queries).
Proof.
  induction 1 as [|q qs Hq _ IH]; [done|]. cbn [judge forallb]. unfold query_holds at 1.
  destruct (Z.ltb_spec (Z.of_nat (length payload)) (cq_Offset q + Z.of_nat (length (cq_Value q)))) as [Hlt|Hge];
    [by rewrite (proj2 (Z.leb_gt _ _))|].
  rewrite (proj2 (Z.leb_le _ _)) by done.
  destruct (supported_holds (cq_Operator q) (field_value payload q) (be_value (cq_Value q)) Hq) as [[] ->]; [exact IH|done].
Qed.

(** A payload passes a list of queries with supported operators and sizes
    that fit an unsigned integer exactly when each query lies inside the payload and its
    bytes, as a big-endian number, compare with the value as the operator says;
    when the sum of offset and length wraps around, the query panics. *)
Theorem PassesAllQueries_spec (payload : bytes) (queries : list CellQuery) :
  (Forall query_ok queries → PassesAllQueries payload queries = Ok (forallb (query_holds payload) queries)) ∧
  (∀ q qs, queries = q :: qs → (cq_Offset q < 2 ^ 64 ≤ cq_Offset q + Z.of_nat (length (cq_Value q)))%Z →
     (cq_Offset q + Z.of_nat (length (cq_Value q)) - 2 ^ 64 ≤ Z.of_nat (length payload))%Z →
     (Z.of_nat (length (cq_Value q)) < 2 ^ 63)%Z →
     is_panic (PassesAllQueries payload queries) = true).
Proof.
  split; [apply passes_ok|].
  - intros q qs -> H1 H2 H3. cbn [PassesAllQueries].
    assert (u64 (cq_Offset q + Z.of_nat (length (cq_Value q)))
            = cq_Offset q + Z.of_nat (length (cq_Value q)) - 2 ^ 64)%Z as ->.
    { unfold u64. rewrite <- (Z_mod_plus_full _ (-1)). apply Z.mod_small. lia. }
    rewrite (proj2 (Z.ltb_ge _ _)) by lia. cbv zeta. unfold go_slice.
    rewrite (proj2 (Z.leb_gt (cq_Offset q) _)) by lia. by rewrite andb_false_r.
Qed.

Section queries.
Context {AL : AddrLib}.

(** ** Sorting *)

(** The first criterion on the Lamport time decides: [Some true] is descending. *)
Fixpoint lt_order (sortBy : list SortBy) : option bool :=
  match sortBy with
  | [] => None
  | c :: cs => if bool_decide (sb_Field c = SortByTxLT) then Some (bool_decide (sb_Order c = DESC)) else lt_order cs
  end.
Definition in_order (sortBy : list SortBy) (a b : Log) : Prop :=
  match lt_order sortBy with
  | None => True
  | Some false => (log_TxLT a ≤ log_TxLT b)%Z
  | Some true => (log_TxLT b ≤ log_TxLT a)%Z
  end.

Lemma log_less_equal sortBy a b : log_TxLT a = log_TxLT b → log_less sortBy a b = false.
Proof.
  intros E. induction sortBy as [|c cs IH]; [done|]. cbn [log_less]. rewrite E, Z.ltb_irrefl.
  by case_bool_decide.
Qed.

Lemma log_le_order sortBy a b : log_le sortBy a b ↔ in_order sortBy a b.
Proof.
  unfold log_le, in_order. induction sortBy as [|c cs IH]; [done|]. cbn [log_less lt_order].
  case_bool_decide as Hf; [|exact IH].
  destruct (Z.ltb_spec (log_TxLT b) (log_TxLT a)); [cbn; case_bool_decide; cbn; split; (done || lia)|].
  destruct (Z.ltb_spec (log_TxLT a) (log_TxLT b)); [cbn; case_bool_decide; cbn; split; (done || lia)|].
  cbn. rewrite log_less_equal by lia. case_bool_decide; split; (done || lia).
Qed.

#[local] Instance log_le_total sortBy : Total (log_le sortBy).
Proof.
  intros a b. rewrite !log_le_order. unfold in_order. destruct (lt_order sortBy) as [[]|]; [lia..|by left].
Qed.
#[local] Instance log_le_trans sortBy : Transitive (log_le sortBy).
Proof.
  intros a b c. rewrite !log_le_order. unfold in_order. destruct (lt_order sortBy) as [[]|]; [lia..|done].
Qed.

Lemma ApplySorting_ok arrange ls sortBy :
  arrange ls ≡ₚ ls →
  StronglySorted (in_order sortBy) (ApplySorting arrange ls sortBy) ∧ ApplySorting arrange ls sortBy ≡ₚ ls.
Proof.
  intros Ha. unfold ApplySorting. destruct sortBy as [|c cs].
  - split; [|done]. clear Ha. induction ls as [|l ls IH]; constructor; [done|by apply Forall_forall].
  - split; [|by rewrite merge_sort_Permutation].
    pose proof (StronglySorted_merge_sort (log_le (c :: cs)) (arrange ls)) as H. revert H.
    induction 1 as [|l l' _ IH Hl]; constructor; [done|].
    eapply Forall_impl; [exact Hl|]. intros b. apply log_le_order.
Qed.

(** ** Pages *)

Lemma page_ok (ls : list Log) (limit offset : Z) :
  (0 ≤ offset)%Z → (0 < limit)%Z → (offset + limit < 2 ^ 63)%Z → (Z.of_nat (length ls) < 2 ^ 63)%Z →
  ApplyPagination ls limit offset =
  Ok {| qr_Logs := take (Z.to_nat limit) (drop (Z.to_nat offset) ls);
        qr_HasMore := (offset + limit <? Z.of_nat (length ls))%Z;
        qr_Total := Z.of_nat (length ls) |}.
Proof.
  intros Ho Hl Hs Hn. unfold ApplyPagination. cbv zeta. rewrite i64_id by lia.
  destruct (Z.leb_spec (Z.of_nat (length ls)) offset) as [Hge|Hlt].
  { rewrite drop_ge, take_nil by lia. by rewrite (proj2 (Z.ltb_ge _ _)) by lia. }
  rewrite (proj2 (Z.ltb_lt 0 limit)) by done. cbn [andb].
  destruct (Z.ltb_spec (offset + limit) (Z.of_nat (length ls))) as [Hm|Hm].
  - replace (offset + limit)%Z with (offset + Z.of_nat (Z.to_nat limit))%Z by lia.
    rewrite go_slice_ok by lia. cbn. by rewrite (proj2 (Z.ltb_lt _ _)) by lia.
  - replace (Z.of_nat (length ls)) with (offset + Z.of_nat (length ls - Z.to_nat offset))%Z at 1 by lia.
    rewrite go_slice_ok by lia. cbn. rewrite Z.ltb_irrefl.
    rewrite !take_ge by (rewrite length_drop; lia). done.
Qed.

(** The page of a result: from the offset on, up to the limit when that is positive. *)
Definition page (ls : list Log) (limit offset : Z) : QueryResult :=
  {| qr_Logs := (if (0 <? limit)%Z then take (Z.to_nat limit) else id) (drop (Z.to_nat offset) ls);
     qr_HasMore := (0 <? limit)%Z && (offset + limit <? Z.of_nat (length ls))%Z;
     qr_Total := Z.of_nat (length ls) |}.

Lemma ApplyPagination_page (ls : list Log) (limit offset : Z) :
  (0 ≤ offset)%Z → (offset + limit < 2 ^ 63)%Z → (Z.of_nat (length ls) < 2 ^ 63)%Z →
  ApplyPagination ls limit offset = Ok (page ls limit offset).
Proof.
  intros Ho Hs Hn. destruct (decide (0 < limit)%Z) as [Hl|Hl].
  { rewrite page_ok by done. unfold page. by rewrite (proj2 (Z.ltb_lt 0 limit)). }
  unfold ApplyPagination, page. rewrite (proj2 (Z.ltb_ge 0 limit)) by lia. cbv zeta. cbn [andb].
  destruct (Z.leb_spec (Z.of_nat (length ls)) offset) as [Hge|Hlt]; [by rewrite drop_ge by lia|].
  replace (Z.of_nat (length ls)) with (offset + Z.of_nat (length ls - Z.to_nat offset))%Z at 1 by lia.
  rewrite go_slice_ok by lia. cbn [mbind res_bind]. rewrite Z.ltb_irrefl.
  by rewrite take_ge by (rewrite length_drop; lia).
Qed.

Lemma pages_concat {A} (l : list A) n k :
  concat ((λ i, take n (drop (i * n) l)) <$> seq 0 k) = take (k * n) l.
Proof.
  induction k as [|k IH]; [done|]. rewrite seq_S, fmap_app, concat_app, IH. cbn [fmap list_fmap concat].
  rewrite app_nil_r, Nat.add_0_l. replace (S k * n) with (k * n + n) by lia.
  by rewrite <- take_take_drop.
Qed.

(** Walking through a result in pages of a positive limit yields every log
    once and in order, "has more" is false exactly from the page that reaches the end,
    and the total is the number of logs; a negative offset panics. *)
Theorem ApplyPagination_pages (ls : list Log) (limit : Z) (pages : nat)
    (Hlimit : (0 < limit)%Z) (Hbig : (Z.of_nat (length ls) < 2 ^ 63)%Z)
    (Hpages : (Z.of_nat pages * limit < 2 ^ 63)%Z) :
  (∃ rs, res_map (λ i, ApplyPagination ls limit (Z.of_nat i * limit)) (seq 0 pages) = Ok rs ∧
     concat (qr_Logs <$> rs) = take (pages * Z.to_nat limit) ls ∧
     ∀ i r, rs !! i = Some r → qr_Total r = Z.of_nat (length ls) ∧
       (qr_HasMore r = false ↔ (Z.of_nat (length ls) ≤ Z.of_nat (S i) * limit)%Z)) ∧
  (∀ offset, (offset < 0)%Z → is_panic (ApplyPagination ls limit offset) = true).
Proof.
  split.
  - set (page := λ i : nat, {| qr_Logs := take (Z.to_nat limit) (drop (i * Z.to_nat limit) ls);
        qr_HasMore := (Z.of_nat i * limit + limit <? Z.of_nat (length ls))%Z;
        qr_Total := Z.of_nat (length ls) |}).
    exists (page <$> seq 0 pages). split_and!.
    + apply res_map_fmap, Forall_forall. intros i Hi%elem_of_seq. rewrite page_ok by nia.
      unfold page. by replace (Z.to_nat (Z.of_nat i * limit)) with (i * Z.to_nat limit) by nia.
    + rewrite <- list_fmap_compose. apply (pages_concat ls (Z.to_nat limit) pages).
    + intros i r Hr. apply list_lookup_fmap_Some in Hr as (j & -> & [-> Hj]%lookup_seq). cbn [qr_HasMore qr_Total page].
      split; [done|]. rewrite Z.ltb_ge. lia.
  - intros offset Ho. unfold ApplyPagination. rewrite (proj2 (Z.leb_gt _ _)) by lia.
    cbv zeta. unfold go_slice. by rewrite (proj2 (Z.leb_gt 0 offset)).
Qed.
End queries.

(** ** Queries on the store *)

Section store.
Context {AL : AddrLib} {CL : CellLib}.
Variable RestBits : Slice → res (Z * bytes).

(** The payload of a log whose data is a bag of cells. *)
Definition payload_of (l : Log) (p : bytes) : Prop := ExtractCellPayload RestBits (log_Data l) = Ok p.
(** What the queries say of a log: [None] when its payload cannot be extracted, or an unsupported
    operator is reached. *)
Definition log_judged (queries : list CellQuery) (l : Log) : option bool :=
  match ExtractCellPayload RestBits (log_Data l) with
  | Ok p => judge p queries
  | _ => None
  end.

Lemma matching_logs_value a topic queries ls found :
  Forall query_fits queries →
  (∀ d, is_ok (ExtractCellPayload RestBits d) = true ∨ is_err (ExtractCellPayload RestBits d) = true) →
  (Forall (λ l, selects a topic l = true → is_Some (log_judged queries l)) ls ∧
   matching_logs RestBits a topic queries ls found
   = Ok (found ++ filter (λ l, selects a topic l = true ∧ log_judged queries l = Some true) ls)) ∨
  (Exists (λ l, selects a topic l = true ∧ log_judged queries l = None) ls ∧
   is_err (matching_logs RestBits a topic queries ls found) = true).
Proof.
  intros Hq Hd. revert found. induction ls as [|l ls IH]; intros found.
  { left. split; [constructor|]. cbn. by rewrite app_nil_r. }
  cbn [matching_logs]. rewrite Forall_cons, Exists_cons. destruct (selects a topic l) eqn:Es; cbn [negb].
  2:{ rewrite filter_cons_False by (intros [? _]; congruence). destruct (IH found) as [[H1 H2]|[H1 H2]]; [left|right; by split; [right|]].
      by split. }
  destruct (Hd (log_Data l)) as [Hp|Hp];
    destruct (ExtractCellPayload RestBits (log_Data l)) as [p| | |] eqn:Ep; try done; cbn [mbind res_bind wrap_err].
  2:{ right. split; [left; split; [done|by unfold log_judged; rewrite Ep]|done]. }
  assert (log_judged queries l = judge p queries) as El by (unfold log_judged; by rewrite Ep). rewrite El.
  pose proof (passes_judge p queries Hq) as Hj. destruct (judge p queries) as [b|] eqn:Ej.
  2:{ right. split; [by left|]. by destruct (PassesAllQueries p queries). }
  rewrite Hj. cbn [mbind res_bind wrap_err].
  destruct (IH (if b then found ++ [l] else found)) as [[H1 H2]|[H1 H2]]; [left|right; by split; [right|]].
  split; [split; [by eexists|done]|]. rewrite H2. destruct b.
  - rewrite filter_cons_True by done. by rewrite <- app_assoc.
  - rewrite filter_cons_False by (intros [_ ?]; congruence). done.
Qed.

(** C32: a query on the store.  For queries and a page whose ends fit 64 bits, an offset that is
    not negative, fewer than [2^63] logs and a decoder that returns or fails, whatever the operators of
    the queries: it is an error exactly when one of the logs of the address and
    topic has no readable payload, or passes the queries before one with an unsupported operator
    whose bytes it has.  Otherwise the logs found are those of the address and topic
    whose payload passes all queries, each exactly once and in the order asked for, whatever the
    unstable sort does; the result holds their number and those at the positions from the offset
    on, at most as many as the limit when that is positive, and says that there are more exactly when
    the limit cuts some off. *)
Theorem FilteredLogs_spec (arrange : list Log → list Log) (a : string) (topic : Z) (queries : list CellQuery)
    (options : QueryOptions) (s : InMemoryStore)
    (Harr : ∀ l, arrange l ≡ₚ l) (Hq : Forall query_fits queries)
    (Hdata : ∀ d, is_ok (ExtractCellPayload RestBits d) = true ∨ is_err (ExtractCellPayload RestBits d) = true)
    (Hoffset : (0 ≤ qo_Offset options)%Z) (Hlimit : (qo_Offset options + qo_Limit options < 2 ^ 63)%Z)
    (Hlogs : (Z.of_nat (length (logs s)) < 2 ^ 63)%Z) :
  (is_err (FilteredLogs RestBits arrange a topic queries options s) = true ↔
   Exists (λ l, selects a topic l = true ∧ log_judged queries l = None) (logs s)) ∧
  (Forall (λ l, selects a topic l = true → is_Some (log_judged queries l)) (logs s) →
   ∃ found r, FilteredLogs RestBits arrange a topic queries options s = Ok r ∧
     StronglySorted (in_order (qo_SortBy options)) found ∧
     found ≡ₚ filter (λ l, selects a topic l = true ∧ log_judged queries l = Some true) (logs s) ∧
     qr_Total r = Z.of_nat (length found) ∧
     (∀ i, qr_Logs r !! i =
        if bool_decide (0 < qo_Limit options ≤ Z.of_nat i)%Z then None else found !! (Z.to_nat (qo_Offset options) + i)) ∧
     (qr_HasMore r = true ↔
        0 < qo_Limit options ∧ qo_Offset options + qo_Limit options < Z.of_nat (length found))%Z).
Proof.
  unfold FilteredLogs. destruct (matching_logs_value a topic queries (logs s) [] Hq Hdata) as [[H1 H2]|[H1 H2]].
  - rewrite H2. cbn [mbind res_bind app].
    set (l := filter _ (logs s)) in *.
    destruct (ApplySorting_ok arrange l (qo_SortBy options) (Harr _)) as [H3 H4].
    set (found := ApplySorting arrange l (qo_SortBy options)) in *.
    rewrite ApplyPagination_page; [|done|done|].
    2:{ rewrite H4. unfold l. pose proof (length_filter (λ l, selects a topic l = true ∧ log_judged queries l = Some true) (logs s)). lia. }
    split.
    + split; [discriminate|]. intros He. exfalso. apply Exists_exists in He as (x & Hx & Es & Ej).
      rewrite Forall_forall in H1. destruct (H1 x Hx Es) as [? E]. congruence.
    + intros _. exists found, (page found (qo_Limit options) (qo_Offset options)).
      split_and!; [done..| |cbn; rewrite andb_true_iff; lia].
      intros i. cbn. destruct (Z.ltb_spec 0 (qo_Limit options)) as [Hl|Hl].
      * case_bool_decide; [by rewrite lookup_take_ge by lia|by rewrite lookup_take_lt, lookup_drop by lia].
      * rewrite bool_decide_eq_false_2 by lia. unfold id. by rewrite lookup_drop.
  - split; [split; [done|]; intros _; by destruct (matching_logs _ _ _ _ _ _)|].
    intros Hf. exfalso. apply Exists_exists in H1 as (x & Hx & Es & Ej).
    rewrite Forall_forall in Hf. destruct (Hf x Hx Es) as [? E]. congruence.
Qed.

(** Parsing queries never fail on readable input: they return, in the order
    of arrival, the parsed events of the address and topic that the filter accepts,
    and skip what cannot be decoded or parsed. *)
Theorem FilteredLogsWithParser_spec {E} (a : string) (topic : Z) (parser : Cell → res E)
    (accept : option (E → bool)) (s : InMemoryStore)
    (Hboc : ∀ d, is_ok (FromBOC d) = true ∨ is_err (FromBOC d) = true)
    (Hparser : ∀ c, is_ok (parser c) = true ∨ is_err (parser c) = true) :
  FilteredLogsWithParser a topic parser accept s
  = Ok (omap (λ l, if selects a topic l then
                     match FromBOC (log_Data l) ≫= parser with
                     | Ok e => if default (λ _, true) accept e then Some e else None
                     | _ => None
                     end
                   else None) (logs s)).
Proof.
  unfold FilteredLogsWithParser. set (f := λ l : Log, _).
  enough (∀ ls results, parsed_logs a topic parser accept ls results = Ok (results ++ omap f ls)) as H by apply H.
  induction ls as [|l ls IH]; intros results; [by rewrite app_nil_r|]. cbn [parsed_logs omap list_omap]. unfold f at 1.
  destruct (selects a topic l); cbn [negb]; [|apply IH].
  specialize (Hboc (log_Data l)). destruct (FromBOC (log_Data l)) as [c|e|e|] eqn:Ec; cbn [mbind res_bind];
    [|apply IH|by destruct Hboc..].
  specialize (Hparser c). destruct (parser c) as [e|e|e|] eqn:Ep; [|apply IH|by destruct Hparser..].
  destruct accept as [p|]; cbn; [destruct (p e)|]; rewrite IH; by rewrite <- ?app_assoc.
Qed.
End store.

(** ** Runs *)

Module QueryRuns.
Import BitCells.

Definition src1 : Address := NewAddress x00 x00 (replicate 32 x01).
Definition rest1 : Slice → res (Z * bytes) := λ s, Ok (Z.of_nat (length (sbits s)), pack_bits (sbits s)).
(** A log whose payload is one byte. *)
Definition log1 (lt : Z) (v : byte) : Log :=
  {| log_ID := 0; log_FilterID := 1; log_Address := src1; log_TxHash := []; log_TxLT := lt; log_Topic := 7;
     log_Data := ToBOC (BCell (bytes_bits [v]) []); log_CreatedAt := 0; log_ReceivedAt := 0;
     log_ExpiresAt := None; log_Error := None |}.
Definition store1 : InMemoryStore := {| logs := [log1 30 x05; log1 10 x09; log1 20 x01] |}.
Definition above2 : CellQuery := {| cq_Offset := 0; cq_Operator := GT; cq_Value := [x02] |}.
Definition options1 : QueryOptions :=
  {| qo_Limit := 1; qo_Offset := 0; qo_SortBy := [{| sb_Field := SortByTxLT; sb_Order := ASC |}] |}.

Lemma above2_ok : Forall query_ok [above2].
Proof. repeat constructor; cbn; lia. Qed.

Lemma from_boc_total d : is_ok (from_boc d) = true ∨ is_err (from_boc d) = true.
Proof.
  unfold from_boc. case_bool_decide; [|by right].
  destruct (foldl _ _ _) as [|[[|] [|c [|]]] [|]]; by auto.
Qed.

Lemma payload_total d :
  is_ok (ExtractCellPayload rest1 d) = true ∨ is_err (ExtractCellPayload rest1 d) = true.
Proof.
  unfold ExtractCellPayload. destruct (from_boc_total d) as [H|H];
    change (@FromBOC _ BitCell d) with (from_boc d); destruct (from_boc d); try done; by auto.
Qed.

Lemma PassesAllQueries_spec_witness :
  PassesAllQueries [x05] [above2] = Ok true ∧
  is_panic (PassesAllQueries [x05; x06] [{| cq_Offset := 2 ^ 64 - 1; cq_Operator := EQ; cq_Value := [x05; x06] |}]) = true.
Proof.
  split; [exact (proj1 (PassesAllQueries_spec [x05] [above2]) above2_ok)|].
  eapply (proj2 (PassesAllQueries_spec _ _)); [reflexivity|cbn; lia..].
Defined.

Lemma ApplyPagination_pages_witness :
  ∃ rs, res_map (λ i, ApplyPagination (logs store1) 2 (Z.of_nat i * 2)) (seq 0 2) = Ok rs ∧
        concat (qr_Logs <$> rs) = logs store1.
Proof.
  destruct (ApplyPagination_pages (logs store1) 2 2) as [(rs & H1 & H2 & _) _]; [lia|cbn; lia|lia|].
  exists rs. split; [exact H1|exact H2].
Defined.

(** An operator that is not supported. *)
Definition like2 : CellQuery := {| cq_Offset := 0; cq_Operator := "~"; cq_Value := [x02] |}.

Lemma queries_fit : Forall query_fits [above2; like2].
Proof. repeat constructor; cbn; lia. Qed.

Lemma FilteredLogs_spec_witness :
  is_err (FilteredLogs rest1 id (AddrString src1) 7 [above2; like2] options1 store1) = true ∧
  ∃ found r, FilteredLogs rest1 id (AddrString src1) 7 [above2] options1 store1 = Ok r ∧
    StronglySorted (in_order (qo_SortBy options1)) found ∧ qr_Total r = Z.of_nat (length found).
Proof.
  split.
  - apply (FilteredLogs_spec rest1 id (AddrString src1) 7 [above2; like2] options1 store1);
      [done|exact queries_fit|exact payload_total|done..|].
    apply Exists_cons_hd. split; vm_compute; reflexivity.
  - destruct (FilteredLogs_spec rest1 id (AddrString src1) 7 [above2] options1 store1) as [_ H];
      [done|exact (Forall_take _ 1 _ queries_fit)|exact payload_total|done..|].
    destruct H as (found & r & H1 & H2 & _ & H3 & _); [|by exists found, r].
    repeat constructor; intros _; vm_compute; by eexists.
Defined.

(** The page is the oldest log above 2. *)
Example FilteredLogs_run :
  FilteredLogs rest1 reverse (AddrString src1) 7 [above2] options1 store1
  = Ok {| qr_Logs := [log1 10 x09]; qr_HasMore := true; qr_Total := 2 |}.
Proof. vm_compute. reflexivity. Qed.

Definition parser1 (c : Cell) : res (list bool) := if length (cbits c) =? 8 then Ok (cbits c) else Err "bad event".
Lemma parser1_total c : is_ok (parser1 c) = true ∨ is_err (parser1 c) = true.
Proof. unfold parser1. destruct (_ =? _); by auto. Qed.

Lemma FilteredLogsWithParser_spec_witness :
  ∃ es, FilteredLogsWithParser (AddrString src1) 7 parser1 None store1 = Ok es ∧ length es = 3.
Proof.
  eexists. split; [exact (FilteredLogsWithParser_spec (AddrString src1) 7 parser1 None store1 from_boc_total parser1_total)|].
  vm_compute. reflexivity.
Defined.
End QueryRuns.
