(* ===== verification/Loader.v ===== *)
(** * Loader: pkg/logpoller/loader.go

    The collector of external messages: it walks the transactions of an
    account backwards, page by page, from the end of a block range to its
    start.  The liteclient is a parameter; the pages of one address are bounded by
    fuel, for which one more than the length of the account's history is enough. *)

From S2P Require Import Prelude Cells BitCells.

(** ** What the liteclient hands out ([tonutils-go/ton] and [tlb]) *)

Record BlockIDExt := { blk_Workchain : Z; blk_Shard : Z; blk_SeqNo : Z }.
Record Account := { acc_LastTxLT : Z; acc_LastTxHash : bytes }.

Section loader.
Context {AL : AddrLib} {CL : CellLib}.

(** An external message out; the body is optional, the destination can be nil. *)
Record ExternalOut := { eo_SrcAddr : Address; eo_DstAddr : option Address; eo_Body : option Cell }.
Inductive OutMessage := OutExternal (m : ExternalOut) | OutOther.

(** A transaction of [ListTransactions]; [lt_Out] is the slice that
    [IO.Out.ToSlice] yields, its error being ignored, and None when [Out] is nil. *)
Record ListedTx := {
  lt_LT : Z;
  lt_Hash : bytes;
  lt_PrevTxLT : Z;
  lt_PrevTxHash : bytes;
  lt_Out : option (list OutMessage);
}.

(** [types.MsgWithCtx]: only messages with a body are wrapped. *)
Record MsgWithCtx := {
  mc_TxHash : bytes;
  mc_LT : Z;
  mc_Src : Address;
  mc_Dst : option Address;
  mc_Body : Cell;
}.

Inductive ListErr := ErrNoTransactionsWereFound | OtherListErr.

(** The client: the state of an account at a block, with and without waiting
    for the block, and a page of at most [n] transactions that ends at a Lamport time. *)
Variable GetAccount : BlockIDExt → Address → res Account.
Variable WaitGetAccount : Z → BlockIDExt → Address → res Account.
Variable ListTransactions : Address → Z → Z → bytes → list ListedTx * option ListErr.
Variable pageSize : Z.

Definition getTransactionBounds (addr : Address) (prevBlock : option BlockIDExt) (toBlock : BlockIDExt)
    : res (Z * Z * bytes) :=
  let startLT := match prevBlock with
                 | None => Ok 0%Z
                 | Some p =>
                     if (0 <? blk_SeqNo p)%Z
                     then match GetAccount p addr with
                          | Ok accPrev => Ok (acc_LastTxLT accPrev)
                          | Err _ => Ok 0%Z
                          | Panic m => Panic m
                          | Diverge => Diverge
                          end
                     else Ok 0%Z
                 end in
  startLT ← startLT;
  res ← wrap_err "failed to get account state" (WaitGetAccount (blk_SeqNo toBlock) toBlock addr);
  Ok (startLT, acc_LastTxLT res, acc_LastTxHash res).

(** The messages of one transaction. *)
Definition external_of (tx : ListedTx) (m : OutMessage) : option MsgWithCtx :=
  match m with
  | OutExternal ext =>
      match eo_Body ext with
      | Some body => Some {| mc_TxHash := lt_Hash tx; mc_LT := lt_LT tx; mc_Src := eo_SrcAddr ext;
                             mc_Dst := eo_DstAddr ext; mc_Body := body |}
      | None => None
      end
  | OutOther => None
  end.
Definition messages_of (startLT : Z) (tx : ListedTx) : list MsgWithCtx :=
  match lt_Out tx with
  | None => []
  | Some msgs => if (lt_LT tx <=? startLT)%Z then [] else omap (external_of tx) msgs
  end.

(** The loop over the pages, from a cursor on. *)
Fixpoint fetch_pages (fuel : nat) (addr : Address) (startLT curLT : Z) (curHash : bytes)
    (msgsWithCtx : list MsgWithCtx) : res (list MsgWithCtx) :=
  match fuel with
  | O => Diverge
  | S fuel' =>
      match ListTransactions addr pageSize curLT curHash with
      | (_, Some ErrNoTransactionsWereFound) | ([], _) => Ok msgsWithCtx
      | (_, Some OtherListErr) => Err "ListTransactions"
      | ((oldest :: _) as batch, None) =>
          let msgsWithCtx := msgsWithCtx ++ (batch ≫= messages_of startLT) in
          if (lt_LT oldest <=? startLT)%Z then Ok msgsWithCtx
          else fetch_pages fuel' addr startLT (lt_PrevTxLT oldest) (lt_PrevTxHash oldest) msgsWithCtx
      end
  end.

Definition fetchMessagesForAddress (fuel : nat) (addr : Address) (prevBlock : option BlockIDExt)
    (toBlock : BlockIDExt) : res (list MsgWithCtx) :=
  if match prevBlock with Some p => (blk_SeqNo toBlock <=? blk_SeqNo p)%Z | None => false end
  then Err "prevBlock is not before toBlock" else
  r ← getTransactionBounds addr prevBlock toBlock;
  let '(startLT, endLT, endHash) := (r : Z * Z * bytes) in
  if (endLT <=? startLT)%Z then Ok [] else
  fetch_pages fuel addr startLT endLT endHash [].

(** One goroutine per address; [order] is the order in which they append their
    messages.  An error of one address is logged. *)
Fixpoint BackfillForAddresses (fuel : nat) (order : list Address) (prevBlock : option BlockIDExt)
    (toBlock : BlockIDExt) : res (list MsgWithCtx) :=
  match order with
  | [] => Ok []
  | addr :: order' =>
      match fetchMessagesForAddress fuel addr prevBlock toBlock with
      | Panic p => Panic p
      | Diverge => Diverge
      | Err _ => BackfillForAddresses fuel order' prevBlock toBlock
      | Ok msgs => allMsgs ← BackfillForAddresses fuel order' prevBlock toBlock; Ok (msgs ++ allMsgs)
      end
  end.
End loader.

(** ** The collector against the history of an account *)

Section history.
Context {AL : AddrLib} {CL : CellLib}.
Variable GetAccount : BlockIDExt → Address → res Account.
Variable WaitGetAccount : Z → BlockIDExt → Address → res Account.
Variable ListTransactions : Address → Z → Z → bytes → list ListedTx * option ListErr.
Variable pageSize : Z.

Local Abbreviation fetch_pages := (fetch_pages ListTransactions pageSize).
Local Abbreviation fetchMessages := (fetchMessagesForAddress GetAccount WaitGetAccount ListTransactions pageSize).

(** The history of an account, oldest transaction first, is chained: Lamport
    times increase and each transaction names its predecessor.  (The first one names none: its
    hash, 32 zero bytes on the chain, is never looked at and stands as the empty string.) *)
Fixpoint chained (prevLT : Z) (prevHash : bytes) (hist : list ListedTx) : Prop :=
  match hist with
  | [] => True
  | tx :: hist' => (prevLT < lt_LT tx)%Z ∧ lt_PrevTxLT tx = prevLT ∧ lt_PrevTxHash tx = prevHash ∧
                   chained (lt_LT tx) (lt_Hash tx) hist'
  end.

(** The Lamport time and the hash of the last transaction. *)
Definition last_tx (hist : list ListedTx) : Z * bytes :=
  match last hist with Some tx => (lt_LT tx, lt_Hash tx) | None => (0%Z, []) end.

(** What the liteserver answers for an account with history [hist]: the page
    that ends at a transaction, as far as it goes back, and no transactions
    before the first.  Its own limit on a page is taken to be at least [pageSize]. *)
Definition serves (addr : Address) (hist : list ListedTx) : Prop :=
  ∀ n, n ≤ length hist → ListTransactions addr pageSize (last_tx (take n hist)).1 (last_tx (take n hist)).2
       = if n =? 0 then ([], Some ErrNoTransactionsWereFound)
         else (drop (n - Z.to_nat pageSize) (take n hist), None).

Lemma chained_last n prev h hist tx :
  chained prev h hist → hist !! n = Some tx →
  (lt_PrevTxLT tx, lt_PrevTxHash tx) = if n =? 0 then (prev, h) else last_tx (take n hist).
Proof.
  revert n prev h. induction hist as [|t hist IH]; intros [|n] prev h Hc Hn; try done.
  - injection Hn as ->. by destruct Hc as (_ & -> & -> & _).
  - destruct Hc as (_ & _ & _ & Hc). cbn in Hn. rewrite (IH n _ _ Hc Hn). cbn [Nat.eqb].
    destruct n as [|n]; [done|]. cbn [Nat.eqb]. unfold last_tx. cbn [take].
    destruct (take (S n) hist) as [|t' l] eqn:E; [destruct hist; done|]. done.
Qed.

Lemma chained_above prev h hist : chained prev h hist → Forall (λ tx, (prev < lt_LT tx)%Z) hist.
Proof.
  revert prev h. induction hist as [|t hist IH]; intros prev h Hc; [done|].
  destruct Hc as (Hlt & _ & _ & Hc). constructor; [done|]. eapply Forall_impl; [by eapply IH|]. cbn. lia.
Qed.

Lemma chained_sorted prev h hist i j a b :
  chained prev h hist → i < j → hist !! i = Some a → hist !! j = Some b → (lt_LT a < lt_LT b)%Z.
Proof.
  revert prev h i j. induction hist as [|t hist IH]; intros prev h i j Hc Hij Ha Hb; [done|].
  destruct Hc as (_ & _ & _ & Hc). destruct j as [|j]; [lia|]. destruct i as [|i]; cbn in Ha, Hb.
  - injection Ha as ->. apply chained_above in Hc. rewrite Forall_lookup in Hc. by apply (Hc j).
  - by eapply (IH _ _ i j); try lia.
Qed.

(** Transactions up to the start have no messages of interest. *)
Lemma messages_before startLT prev h hist n tx :
  chained prev h hist → hist !! n = Some tx → (lt_LT tx ≤ startLT)%Z →
  take (S n) hist ≫= messages_of startLT = [].
Proof.
  intros Hc Hn Hle.
  assert (∀ t, t ∈ take (S n) hist → messages_of startLT t = []) as Hall.
  { intros t [i Hi]%list_elem_of_lookup. apply lookup_take_Some in Hi as [Hi Hin].
    assert (lt_LT t ≤ startLT)%Z.
    { destruct (decide (i = n)) as [->|Hne]; [rewrite Hn in Hi; by injection Hi as <-|].
      pose proof (chained_sorted prev h hist i n t tx Hc ltac:(lia) Hi Hn). lia. }
    unfold messages_of. destruct (lt_Out t); [|done]. by rewrite (proj2 (Z.leb_le _ _)). }
  revert Hall. generalize (take (S n) hist). induction l as [|t l IH]; intros Hall; [done|]. cbn.
  rewrite Hall by apply list_elem_of_here. apply IH. intros t' Ht'. apply Hall. by apply list_elem_of_further.
Qed.

Lemma fetch_pages_ok fuel addr hist startLT n msgs :
  (0 < pageSize)%Z → serves addr hist → chained 0 [] hist → n ≤ length hist → n < fuel →
  ∃ r, fetch_pages fuel addr startLT (last_tx (take n hist)).1 (last_tx (take n hist)).2 msgs = Ok r ∧
       r ≡ₚ msgs ++ (take n hist ≫= messages_of startLT).
Proof.
  intros Hp Hs Hc. revert fuel msgs. induction (lt_wf n) as [n _ IH]; intros fuel msgs Hn Hf.
  destruct fuel as [|fuel]; [lia|]. cbn [Loader.fetch_pages]. rewrite Hs by done.
  destruct n as [|n]; [exists msgs; by rewrite app_nil_r|]. cbn [Nat.eqb].
  set (m := S n - Z.to_nat pageSize).
  destruct (lookup_lt_is_Some_2 hist m) as [oldest Ho]; [lia|].
  assert (drop m (take (S n) hist) = oldest :: drop (S m) (take (S n) hist)) as Hb.
  { apply drop_S. rewrite lookup_take_lt by lia. done. }
  assert (take m (take (S n) hist) = take m hist) as Ht by (rewrite take_take; f_equal; lia).
  assert (take (S n) hist ≫= messages_of startLT
          = (take m hist ≫= messages_of startLT) ++ (drop m (take (S n) hist) ≫= messages_of startLT)) as Hsplit
    by (rewrite <- bind_app, <- Ht; by rewrite take_drop).
  rewrite Hb in Hsplit |- *. destruct (Z.leb_spec (lt_LT oldest) startLT) as [Hle|Hgt].
  - exists (msgs ++ ((oldest :: drop (S m) (take (S n) hist)) ≫= messages_of startLT)). split; [done|].
    rewrite Hsplit. pose proof (messages_before startLT 0 [] hist m oldest Hc Ho Hle) as E.
    rewrite (take_S_r _ _ oldest), bind_app in E by done. apply app_nil in E as [-> _]. done.
  - pose proof (chained_last m 0 [] hist oldest Hc Ho) as E.
    assert ((lt_PrevTxLT oldest, lt_PrevTxHash oldest) = last_tx (take m hist)) as E' by (rewrite E; by destruct m).
    destruct (IH m ltac:(lia) fuel (msgs ++ ((oldest :: drop (S m) (take (S n) hist)) ≫= messages_of startLT)))
      as (r & Hr & Hrp); [lia..|].
    rewrite <- E' in Hr. cbn [fst snd] in Hr. exists r. split; [done|]. rewrite Hrp, Hsplit.
    rewrite <- app_assoc. f_equiv. apply Permutation_app_comm.
Qed.

(** The messages with a body of the transactions in [(startLT, endLT]]. *)
Definition range_messages (hist : list ListedTx) (startLT endLT : Z) : list MsgWithCtx :=
  filter (λ tx, (startLT < lt_LT tx)%Z ∧ (lt_LT tx ≤ endLT)%Z) hist ≫=
  λ tx, omap (external_of tx) (default [] (lt_Out tx)).

Lemma take_range hist n startLT endLT :
  (∀ i tx, hist !! i = Some tx → i < n ↔ (lt_LT tx ≤ endLT)%Z) →
  take n hist ≫= messages_of startLT = range_messages hist startLT endLT.
Proof.
  unfold range_messages. revert n. induction hist as [|t hist IH]; intros n Hn; [by destruct n|].
  pose proof (Hn 0 t eq_refl) as H0. destruct n as [|n]; cbn [take].
  - rewrite filter_cons_False by lia. apply (IH 0). intros i tx Hi. specialize (Hn (S i) tx Hi). lia.
  - rewrite bind_cons, (IH n) by (intros i tx Hi; specialize (Hn (S i) tx Hi); lia).
    unfold messages_of at 1. destruct (Z.leb_spec (lt_LT t) startLT) as [Hle|Hgt].
    + rewrite filter_cons_False by lia. by destruct (lt_Out t).
    + rewrite filter_cons_True by lia. rewrite bind_cons. by destruct (lt_Out t).
Qed.

Lemma last_take hist n : 0 < n ≤ length hist →
  ∃ tx, hist !! (n - 1) = Some tx ∧ last_tx (take n hist) = (lt_LT tx, lt_Hash tx).
Proof.
  intros Hn. destruct n as [|n]; [lia|]. cbn. rewrite Nat.sub_0_r.
  destruct (lookup_lt_is_Some_2 hist n) as [tx Htx]; [lia|]. exists tx. split; [done|].
  unfold last_tx. by rewrite (take_S_r _ _ tx), last_snoc.
Qed.

Lemma chained_range hist n startLT :
  chained 0 [] hist → n ≤ length hist →
  take n hist ≫= messages_of startLT = range_messages hist startLT (last_tx (take n hist)).1.
Proof.
  intros Hc Hn. apply take_range. intros i tx Hi. destruct (decide (n = 0)) as [->|Hpos].
  - change (last_tx (take 0 hist)) with (0%Z, @nil byte). cbn [fst].
    pose proof (chained_above 0 [] hist Hc) as Ha. rewrite Forall_lookup in Ha. specialize (Ha i tx Hi). lia.
  - destruct (last_take hist n) as (e & He & ->); [lia|]. cbn [fst]. split.
    + intros Hlt. destruct (decide (i = n - 1)) as [->|Hne]; [rewrite He in Hi; injection Hi as ->; lia|].
      apply Z.lt_le_incl. eapply (chained_sorted 0 [] hist i (n - 1)); try done. lia.
    + intros Hle. destruct (decide (i < n)) as [|Hge]; [done|].
      assert (lt_LT e < lt_LT tx)%Z; [|lia]. eapply (chained_sorted 0 [] hist (n - 1) i); try done. lia.
Qed.

Lemma fetch_range fuel addr prevBlock toBlock hist n startLT :
  (0 < pageSize)%Z → serves addr hist → chained 0 [] hist → n ≤ length hist → n < fuel →
  (∀ p, prevBlock = Some p → (blk_SeqNo p < blk_SeqNo toBlock)%Z) →
  getTransactionBounds GetAccount WaitGetAccount addr prevBlock toBlock
  = Ok (startLT, (last_tx (take n hist)).1, (last_tx (take n hist)).2) →
  ∃ msgs, fetchMessages fuel addr prevBlock toBlock = Ok msgs ∧
          msgs ≡ₚ range_messages hist startLT (last_tx (take n hist)).1.
Proof.
  intros Hp Hs Hc Hn Hf Hprev Hb. unfold fetchMessagesForAddress.
  assert (match prevBlock with Some p => (blk_SeqNo toBlock <=? blk_SeqNo p)%Z | None => false end = false) as ->.
  { destruct prevBlock as [p|]; [|done]. apply Z.leb_gt. by apply Hprev. }
  rewrite Hb. cbn [mbind res_bind]. rewrite <- (chained_range hist n startLT) by done.
  destruct (Z.leb_spec (last_tx (take n hist)).1 startLT) as [Hle|Hgt].
  - exists []. split; [done|]. rewrite chained_range by done. unfold range_messages.
    assert (filter (λ tx, (startLT < lt_LT tx)%Z ∧ (lt_LT tx ≤ (last_tx (take n hist)).1)%Z) hist = []) as ->; [|done].
    revert Hle. generalize (last_tx (take n hist)).1. clear. intros e Hle.
    induction hist as [|t hist IH]; [done|]. by rewrite filter_cons_False by lia.
  - by apply (fetch_pages_ok fuel addr hist startLT n []).
Qed.

(** Scanning an account whose history the liteserver serves returns, for any
    page size and with fuel for its transactions, the external messages with a body of
    exactly the transactions after the account's last one at the previous block
    and up to its last one at the end block, each once. *)
Theorem fetch_complete (fuel : nat) (addr : Address) (prevBlock : option BlockIDExt) (toBlock : BlockIDExt)
    (hist : list ListedTx) (n : nat) (startLT : Z)
    (Hpage : (0 < pageSize)%Z) (Hserves : serves addr hist) (Hchained : chained 0 [] hist)
    (Hn : n ≤ length hist) (Hfuel : n < fuel)
    (Hprev : ∀ p, prevBlock = Some p → (blk_SeqNo p < blk_SeqNo toBlock)%Z)
    (Hbounds : getTransactionBounds GetAccount WaitGetAccount addr prevBlock toBlock
               = Ok (startLT, (last_tx (take n hist)).1, (last_tx (take n hist)).2)) :
  ∃ msgs, fetchMessages fuel addr prevBlock toBlock = Ok msgs ∧
          msgs ≡ₚ range_messages hist startLT (last_tx (take n hist)).1.
Proof. by apply fetch_range. Qed.

(** A liteserver that fails to list transactions, with an empty page, makes
    the scan of the address end without an error and without messages. *)
Theorem fetch_silent_failure (fuel : nat) (addr : Address) (toBlock : BlockIDExt) (e : ListErr) (acc : Account)
    (Hfail : ∀ n lt h, ListTransactions addr n lt h = ([], Some e))
    (Hacc : WaitGetAccount (blk_SeqNo toBlock) toBlock addr = Ok acc) (Hfuel : 0 < fuel) :
  fetchMessages fuel addr None toBlock = Ok [].
Proof.
  unfold fetchMessagesForAddress, getTransactionBounds. cbn. rewrite Hacc. cbn.
  destruct (_ <=? _)%Z; [done|]. destruct fuel as [|fuel]; [lia|]. cbn. rewrite Hfail. by destruct e.
Qed.
End history.

(** ** Runs *)

Module LoaderRuns.
Import BitCells.

Definition src1 : Address := NewAddress x00 x00 (replicate 32 x01).
(** An external address that carries the topic 7. *)
Definition topic7 : Address := NewAddress x00 x00 (replicate 28 x00 ++ be_bytes 4 7).
Definition event (b : bool) : OutMessage :=
  OutExternal {| eo_SrcAddr := src1; eo_DstAddr := Some topic7; eo_Body := Some (BCell [b] []) |}.
Definition ltx (lt prev : Z) (h ph : bytes) (out : option (list OutMessage)) : ListedTx :=
  {| lt_LT := lt; lt_Hash := h; lt_PrevTxLT := prev; lt_PrevTxHash := ph; lt_Out := out |}.
Definition hist1 : list ListedTx :=
  [ltx 10 0 [x01] [] (Some [event true]); ltx 20 10 [x02] [x01] None;
   ltx 30 20 [x03] [x02] (Some [OutOther; event false]); ltx 40 30 [x04] [x03] (Some [event true; event false])].

(** A liteserver with pages of two transactions. *)
Definition list1 : Address → Z → Z → bytes → list ListedTx * option ListErr := λ _ n lt _,
  match list_find (λ tx, lt_LT tx = lt) hist1 with
  | None => ([], Some ErrNoTransactionsWereFound)
  | Some (i, _) => (drop (S i - Z.to_nat n) (take (S i) hist1), None)
  end.
(** The account stands at its transaction 10 in block 1 and at its transaction 30 in block 2. *)
Definition account1 (b : BlockIDExt) : Account :=
  if (blk_SeqNo b <=? 1)%Z then {| acc_LastTxLT := 10; acc_LastTxHash := [x01] |}
  else {| acc_LastTxLT := 30; acc_LastTxHash := [x03] |}.
Definition get1 : BlockIDExt → Address → res Account := λ b _, Ok (account1 b).
Definition wait1 : Z → BlockIDExt → Address → res Account := λ _ b _, Ok (account1 b).
Definition block (n : Z) : BlockIDExt := {| blk_Workchain := -1; blk_Shard := 0; blk_SeqNo := n |}.

Lemma hist1_serves a : serves list1 2 a hist1.
Proof. intros [|[|[|[|[|n]]]]] Hn; try reflexivity. cbn in Hn. lia. Qed.

Lemma hist1_chained : chained 0 [] hist1.
Proof. cbn. repeat split; lia. Qed.

Lemma fetch_complete_witness :
  ∃ msgs, fetchMessagesForAddress get1 wait1 list1 2 4 src1 (Some (block 1)) (block 2) = Ok msgs ∧
          msgs ≡ₚ range_messages hist1 10 30.
Proof.
  apply (fetch_complete get1 wait1 list1 2 4 src1 (Some (block 1)) (block 2) hist1 3 10);
    [lia|apply hist1_serves|apply hist1_chained|cbn; lia|lia|intros p [= <-]; cbn; lia|reflexivity].
Defined.

Lemma fetch_silent_failure_witness :
  fetchMessagesForAddress get1 wait1 (λ _ _ _ _, ([], Some OtherListErr)) 2 4 src1 None (block 2) = Ok [].
Proof.
  apply (fetch_silent_failure get1 wait1 (λ _ _ _ _, ([], Some OtherListErr)) 2 4 src1 (block 2) OtherListErr
           {| acc_LastTxLT := 30; acc_LastTxHash := [x03] |}); [done|reflexivity|lia].
Defined.
End LoaderRuns.
