(* ===== verification/LogPoller.v ===== *)
(** * LogPoller: pkg/logpoller/log_poller.go

    The polling service over the filters, the collector and the store.  One
    iteration of the ticker is [run]; it keeps what was stored before an error,
    and turns a panic of its own goroutine into an error.  [names] and [order] are
    the orders in which the filter maps are ranged over, [arrival] the order in
    which the goroutines of the collector finish. *)

From S2P Require Import Prelude Cells BitCells Event LogFilters LogQuery Loader.

Section poller.
Context {AL : AddrLib} {CL : CellLib}.

(** [logpoller.Config] with its default; the period is in nanoseconds. *)
Record Config := { PollPeriod : Z; PageSize : Z }.
Definition DefaultConfigSet : Config := {| PollPeriod := 3 * 10 ^ 9; PageSize := 100 |}.

Record Service := {
  filters : Filters;
  store : InMemoryStore;
  pollPeriod : Z;
  loaderPageSize : Z;
  lastProcessedSeqNo : Z;
  blockConfirmations : Z;
}.

Definition NewLogPoller (cfg : Config) : Service := {|
  filters := newFilters;
  store := NewInMemoryStore;
  pollPeriod := PollPeriod cfg;
  loaderPageSize := PageSize cfg;
  lastProcessedSeqNo := 0;
  blockConfirmations := 0;
|}.

Definition set_filters (f : Filters) (lp : Service) : Service :=
  {| filters := f; store := store lp; pollPeriod := pollPeriod lp; loaderPageSize := loaderPageSize lp;
     lastProcessedSeqNo := lastProcessedSeqNo lp; blockConfirmations := blockConfirmations lp |}.
Definition set_store (s : InMemoryStore) (lp : Service) : Service :=
  {| filters := filters lp; store := s; pollPeriod := pollPeriod lp; loaderPageSize := loaderPageSize lp;
     lastProcessedSeqNo := lastProcessedSeqNo lp; blockConfirmations := blockConfirmations lp |}.
Definition set_lastProcessedSeqNo (n : Z) (lp : Service) : Service :=
  {| filters := filters lp; store := store lp; pollPeriod := pollPeriod lp; loaderPageSize := loaderPageSize lp;
     lastProcessedSeqNo := n; blockConfirmations := blockConfirmations lp |}.

(** ** Registering and querying *)

Definition RegisterFilter (flt : Filter) (lp : Service) : Service :=
  set_filters (LogFilters.RegisterFilter flt (filters lp)) lp.
Definition UnregisterFilter (name : string) (lp : Service) : Service :=
  set_filters (LogFilters.UnregisterFilter name (filters lp)) lp.
Definition GetLogs (evtSrcAddress : Address) (lp : Service) : list Log :=
  LogQuery.GetLogs (AddrString evtSrcAddress) (store lp).
Definition FilteredLogs (RestBits : Slice → res (Z * bytes)) (arrange : list Log → list Log)
    (evtSrcAddress : Address) (topic : Z) (queries : list CellQuery) (options : QueryOptions) (lp : Service)
    : res QueryResult :=
  LogQuery.FilteredLogs RestBits arrange (AddrString evtSrcAddress) topic queries options (store lp).
Definition FilteredLogsWithParser {E} (evtSrcAddress : Address) (topic : Z) (parser : Cell → res E)
    (filter : option (E → bool)) (lp : Service) : res (list E) :=
  LogQuery.FilteredLogsWithParser (AddrString evtSrcAddress) topic parser filter (store lp).

(** ** Processing *)

(** The log of a message for one filter, before it is stored. *)
Definition log_of (msg : MsgWithCtx) (topic fid : Z) : Log :=
  {| log_ID := 0; log_FilterID := fid; log_Address := mc_Src msg; log_TxHash := mc_TxHash msg;
     log_TxLT := mc_LT msg; log_Topic := topic; log_Data := ToBOC (mc_Body msg); log_CreatedAt := 0;
     log_ReceivedAt := 0; log_ExpiresAt := None; log_Error := None |}.

(** [clock n] is the time at which the log that becomes the [n]-th is saved. *)
Variable clock : nat → Z.
Definition save (s : InMemoryStore) (l : Log) : InMemoryStore := SaveLog (clock (length (logs s))) l s.

Definition Process (names : list string) (msg : MsgWithCtx) (lp : Service) : res Service :=
  let bucket := NewExtOutLogBucket (mc_Dst msg) in
  topic ← wrap_err "failed to decode event topic" (DecodeEventTopic bucket);
  let fIDs := MatchingFilters names (mc_Src msg) topic (filters lp) in
  Ok (set_store (foldl (λ s fid, save s (log_of msg topic fid)) (store lp) fIDs) lp).

(** The error, if any, and the state: messages before a failing one stay stored. *)
Fixpoint processMessages (names : list string) (msgs : list MsgWithCtx) (lp : Service) : option string * Service :=
  match msgs with
  | [] => (None, lp)
  | msg :: msgs' =>
      match Process names msg lp with
      | Ok lp => processMessages names msgs' lp
      | Err e => (Some e, lp)
      | _ => (Some "panic recovered"%string, lp)
      end
  end.

(** ** One iteration *)

(** [address.MustParseAddr] and the liteclient. *)
Variable MustParseAddr : string → res Address.
Record Client := {
  CurrentMasterchainInfo : res BlockIDExt;
  LookupBlock : Z → Z → Z → res BlockIDExt;
  GetAccount : BlockIDExt → Address → res Account;
  WaitGetAccount : Z → BlockIDExt → Address → res Account;
  ListTransactions : Address → Z → Z → bytes → list ListedTx * option ListErr;
}.

Definition processBlocksRange (c : Client) (fuel : nat) (names : list string) (arrival : list Address)
    (prevBlock : option BlockIDExt) (toBlock : BlockIDExt) (lp : Service) : res (option string * Service) :=
  msgs ← BackfillForAddresses (GetAccount c) (WaitGetAccount c) (ListTransactions c) (loaderPageSize lp)
           fuel arrival prevBlock toBlock;
  Ok (processMessages names msgs lp).

(** What the deferred [recover] makes of a step of the iteration itself. *)
Definition recovering {A} (r : res A) (lp : Service) (k : A → res (option string * Service))
    : res (option string * Service) :=
  match r with
  | Ok a => k a
  | Err e => Ok (Some e, lp)
  | Panic _ => Ok (Some "panic recovered"%string, lp)
  | Diverge => Diverge
  end.

(** Both ways return the number that is kept in memory. *)
Definition getLastProcessedSeqNo (lp : Service) : res Z :=
  let lastProcessed := lastProcessedSeqNo lp in
  if (0 <? lastProcessed)%Z then Ok lastProcessed else Ok lastProcessed.

(** The goroutines of the collector are not covered by the [recover]: their
    panic is the result [Panic]. [arrival] gives the order for the addresses found. *)
Definition run (c : Client) (fuel : nat) (names order : list string) (arrival : list Address → list Address)
    (lp : Service) : res (option string * Service) :=
  recovering (wrap_err "LoadLastSeq" (getLastProcessedSeqNo lp)) lp (λ lastProcessedSeq,
  recovering (CurrentMasterchainInfo c) lp (λ currentMaster,
  let safeToProcessSeq := u32 (blk_SeqNo currentMaster - blockConfirmations lp) in
  if (safeToProcessSeq <? lastProcessedSeq)%Z then Ok (None, lp) else
  if (safeToProcessSeq =? lastProcessedSeq)%Z then Ok (None, lp) else
  recovering (wrap_err "LookupBlock for safe seq"
                (LookupBlock c (blk_Workchain currentMaster) (blk_Shard currentMaster) safeToProcessSeq))
    lp (λ toBlock,
  recovering (GetDistinctAddresses MustParseAddr order (filters lp)) lp (λ addresses,
  if length addresses =? 0 then Ok (None, lp) else
  recovering (if (lastProcessedSeq =? 0)%Z then Ok None
              else p ← wrap_err "LookupBlock" (LookupBlock c (blk_Workchain toBlock) (blk_Shard toBlock) lastProcessedSeq);
                   Ok (Some p))
    lp (λ prevBlock,
  r ← processBlocksRange c fuel names (arrival addresses) prevBlock toBlock lp;
  match r with
  | (Some _, lp') => Ok (Some "processBlocksRange"%string, lp')
  | (None, lp') => Ok (None, set_lastProcessedSeqNo (blk_SeqNo toBlock) lp')
  end))))).

(** ** Running as a service *)

(** What the ticker runs: the error of an iteration is only logged. *)
Definition tick (c : Client) (fuel : nat) (names order : list string) (arrival : list Address → list Address)
    (lp : Service) : res Service :=
  snd <$> run c fuel names order arrival lp.

(** The service engine of chainlink-common: [GoTick] registers a function that it
    calls once per period from then on until it is closed. *)
Definition start {Engine OnTick : Type} (GoTick : Z → OnTick → Engine → Engine) (on_tick : OnTick) (lp : Service)
    (eng : Engine) : res Engine :=
  Ok (GoTick (pollPeriod lp) on_tick eng).
End poller.
