(* ===== verification/LogPollerSpec.v ===== *)
(** * LogPollerSpec: what an iteration of the log poller does

    Completeness of an iteration against a healthy liteserver, what stops the
    poller, what it silently skips, and the invariant of every sequence of
    iterations and registrations. *)

From S2P Require Import Prelude Cells BitCells Event LogFilters LogQuery Loader LogPoller.

Section processing.
Context {AL : AddrLib} {CL : CellLib}.
Variable clock : nat → Z.

(** ** Storing the logs of messages *)

(** The topic of a message, and its logs: one for each matching filter. *)
Definition topic_of (msg : MsgWithCtx) : res Z := DecodeEventTopic (NewExtOutLogBucket (mc_Dst msg)).
Definition message_logs (names : list string) (f : Filters) (msg : MsgWithCtx) : list Log :=
  match topic_of msg with
  | Ok topic => log_of msg topic <$> MatchingFilters names (mc_Src msg) topic f
  | _ => []
  end.

Lemma last_processed lp : getLastProcessedSeqNo lp = Ok (lastProcessedSeqNo lp).
Proof. unfold getLastProcessedSeqNo. by destruct (0 <? lastProcessedSeqNo lp)%Z. Qed.

(** Logs as they are stored behind [n] others. *)
Definition stamped (n : nat) (ls : list Log) : list Log := imap (λ i l, received (clock (n + i)) l) ls.

Lemma stamped_app n ls1 ls2 : stamped n (ls1 ++ ls2) = stamped n ls1 ++ stamped (n + length ls1) ls2.
Proof. unfold stamped. rewrite imap_app. f_equal. apply imap_ext. intros i l _. cbn. f_equal. f_equal. lia. Qed.

Lemma stamped_length n ls : length (stamped n ls) = length ls.
Proof. apply length_imap. Qed.

Lemma save_all {A} (g : A → Log) xs s :
  logs (foldl (λ s x, save clock s (g x)) s xs) = logs s ++ stamped (length (logs s)) (g <$> xs).
Proof.
  revert s. induction xs as [|x xs IH]; intros s; cbn [foldl].
  - cbn. by rewrite app_nil_r.
  - rewrite IH. cbn [save SaveLog logs]. rewrite <- app_assoc. f_equal.
    rewrite length_app. cbn [length fmap list_fmap]. unfold stamped. cbn [imap]. rewrite Nat.add_0_r. cbn. f_equal.
    apply imap_ext. intros i l _. cbn. f_equal. f_equal. lia.
Qed.

Lemma Process_ok names msg lp topic :
  topic_of msg = Ok topic →
  ∃ lp', Process clock names msg lp = Ok lp' ∧ filters lp' = filters lp ∧
    lastProcessedSeqNo lp' = lastProcessedSeqNo lp ∧
    logs (store lp') = logs (store lp) ++ stamped (length (logs (store lp))) (message_logs names (filters lp) msg).
Proof.
  intros Ht. unfold Process, message_logs. unfold topic_of in *. rewrite Ht. cbn [mbind res_bind wrap_err].
  eexists. split; [reflexivity|]. split; [done|]. split; [done|]. cbn [store set_store]. apply save_all.
Qed.

Lemma Process_err names msg lp : is_err (topic_of msg) = true → ∃ e, Process clock names msg lp = Err e.
Proof. unfold Process, topic_of. destruct (DecodeEventTopic _); try done. intros _. by eexists. Qed.

Lemma topic_of_total msg : is_ok (topic_of msg) = true ∨ is_err (topic_of msg) = true.
Proof.
  unfold topic_of, DecodeEventTopic. destruct (bucket_Address _); [|by right].
  destruct (_ <? _); by auto.
Qed.

Lemma topic_of_bound msg t : topic_of msg = Ok t → (0 ≤ t < 2 ^ 32)%Z.
Proof.
  unfold topic_of, DecodeEventTopic. destruct (bucket_Address _) as [a|]; [|done].
  destruct (Nat.ltb_spec (length (Data a)) EventTopicLength) as [|Hl]; [done|]. intros [= <-].
  pose proof (be_value_bound (drop (length (Data a) - EventTopicLength) (Data a))) as H.
  rewrite length_drop in H. replace (length (Data a) - (length (Data a) - EventTopicLength)) with 4 in H
    by (unfold EventTopicLength in *; lia). exact H.
Qed.

(** Processing a list of messages stores the logs of those before the first
    one without a topic. *)
Lemma processMessages_spec names msgs lp :
  ∃ done rest e lp', msgs = done ++ rest ∧ processMessages clock names msgs lp = (e, lp') ∧
    Forall (λ m, is_ok (topic_of m) = true) done ∧
    (e = None ↔ rest = []) ∧ (∀ m, head rest = Some m → is_err (topic_of m) = true) ∧
    filters lp' = filters lp ∧ lastProcessedSeqNo lp' = lastProcessedSeqNo lp ∧
    logs (store lp') = logs (store lp) ++
      stamped (length (logs (store lp))) (done ≫= message_logs names (filters lp)).
Proof.
  revert lp. induction msgs as [|m msgs IH]; intros lp.
  { exists [], [], None, lp. cbn. rewrite app_nil_r. by split_and!. }
  cbn [processMessages]. destruct (topic_of_total m) as [Hm|Hm].
  - destruct (topic_of m) as [t| | |] eqn:Et; try done.
    destruct (Process_ok names m lp t Et) as (lp1 & -> & Hf & Hl & Hlogs).
    destruct (IH lp1) as (dn & rest & e & lp' & -> & -> & Hd & He & Hr & Hf' & Hl' & Hlogs').
    exists (m :: dn), rest, e, lp'. split_and!; try done; try congruence.
    + constructor; [by rewrite Et|done].
    + rewrite Hlogs', Hlogs, Hf, bind_cons, stamped_app, length_app, stamped_length. by rewrite app_assoc.
  - destruct (Process_err names m lp Hm) as [e ->].
    exists [], (m :: msgs), (Some e), lp. cbn. rewrite app_nil_r. split_and!; try done. by intros m' [= <-].
Qed.

(** It changes nothing but the store. *)
Lemma processMessages_store names msgs lp : ∃ st, (processMessages clock names msgs lp).2 = set_store st lp.
Proof.
  revert lp. induction msgs as [|m msgs IH]; intros lp; [exists (store lp); by destruct lp|]. cbn [processMessages].
  unfold Process. destruct (DecodeEventTopic _); cbn [mbind res_bind wrap_err]; try (exists (store lp); by destruct lp).
  destruct (IH (set_store (foldl (λ s fid, save clock s (log_of m a fid)) (store lp)
    (MatchingFilters names (mc_Src m) a (filters lp))) lp)) as [st ->]. by exists st.
Qed.
End processing.

(** ** An iteration *)

Section iteration.
Context {AL : AddrLib} {AW : AddrLaws} {CL : CellLib}.
Variable clock : nat → Z.
Variable MustParseAddr : string → res Address.
Hypothesis MustParseAddr_ok : ∀ s a, ParseAddr s = Ok a → MustParseAddr s = Ok a.
Variable c : Client.
Variable arrival : list Address → list Address.
Hypothesis arrival_perm : ∀ l, arrival l ≡ₚ l.

(** The blocks an iteration works on: the safe head is ahead of what was
    processed and can be looked up, and so can the last processed block. *)
Record blocks_ready (lp : Service) (toBlock : BlockIDExt) (prevBlock : option BlockIDExt) : Prop := {
  br_head : ∃ head, CurrentMasterchainInfo c = Ok head ∧
    blk_SeqNo toBlock = u32 (blk_SeqNo head - blockConfirmations lp) ∧
    LookupBlock c (blk_Workchain head) (blk_Shard head) (blk_SeqNo toBlock) = Ok toBlock;
  br_ahead : (0 ≤ lastProcessedSeqNo lp < blk_SeqNo toBlock)%Z;
  br_prev : if (lastProcessedSeqNo lp =? 0)%Z then prevBlock = None
            else ∃ p, prevBlock = Some p ∧ blk_SeqNo p = lastProcessedSeqNo lp ∧
                 LookupBlock c (blk_Workchain toBlock) (blk_Shard toBlock) (lastProcessedSeqNo lp) = Ok p;
}.

(** The filters are in use as intended, and enumerated by the two range loops. *)
Record filters_ready (lp : Service) (names order : list string) : Prop := {
  fr_registry : registry_inv (filters lp);
  fr_names : names ≡ₚ (map_to_list (filtersByName (filters lp))).*1;
  fr_order : order ≡ₚ (map_to_list (filtersByAddress (filters lp))).*1;
  fr_some : filtersByName (filters lp) ≠ ∅;
}.

(** A watched address. *)
Definition watched (lp : Service) (a : Address) : Prop :=
  ∃ name flt, filtersByName (filters lp) !! name = Some flt ∧ flt_Address flt = a.

Lemma addresses_ok lp names order :
  filters_ready lp names order →
  ∃ addrs, GetDistinctAddresses MustParseAddr order (filters lp) = Ok addrs ∧ addrs ≠ [] ∧ NoDup addrs ∧
    ∀ a, a ∈ addrs ↔ watched lp a.
Proof.
  intros [Hr Hn Ho Hs]. destruct (distinct_addresses MustParseAddr MustParseAddr_ok (filters lp) order Hr Ho)
    as (addrs & H1 & H2 & H3). exists addrs. split_and!; try done. intros ->.
  destruct (map_choose (filtersByName (filters lp)) Hs) as (n & flt & E).
  apply (not_elem_of_nil (flt_Address flt)), H3. by exists n, flt.
Qed.

Lemma run_blocks lp toBlock prevBlock names order addrs fuel msgs :
  blocks_ready lp toBlock prevBlock →
  GetDistinctAddresses MustParseAddr order (filters lp) = Ok addrs → addrs ≠ [] →
  BackfillForAddresses (GetAccount c) (WaitGetAccount c) (ListTransactions c) (loaderPageSize lp)
    fuel (arrival addrs) prevBlock toBlock = Ok msgs →
  run clock MustParseAddr c fuel names order arrival lp
  = Ok (match processMessages clock names msgs lp with
        | (Some _, lp') => (Some "processBlocksRange"%string, lp')
        | (None, lp') => (None, set_lastProcessedSeqNo (blk_SeqNo toBlock) lp')
        end).
Proof.
  intros [(head & Hh & Hsafe & Hto) Hahead Hprev] Ha Hne Hb. unfold run. rewrite last_processed. cbn [wrap_err recovering]. cbv zeta. rewrite Hh. cbn [recovering].
  rewrite <- Hsafe, (proj2 (Z.ltb_ge _ _)), (proj2 (Z.eqb_neq _ _)) by lia. rewrite Hto. cbn [recovering wrap_err].
  rewrite Ha. cbn [recovering]. destruct addrs as [|a addrs]; [done|]. cbn [length Nat.eqb].
  assert ((if (lastProcessedSeqNo lp =? 0)%Z then Ok None
           else p ← wrap_err "LookupBlock" (LookupBlock c (blk_Workchain toBlock) (blk_Shard toBlock)
                                              (lastProcessedSeqNo lp)); Ok (Some p)) = Ok prevBlock) as ->.
  { destruct (lastProcessedSeqNo lp =? 0)%Z; [by subst|]. destruct Hprev as (p & -> & _ & ->). done. }
  cbn [recovering]. unfold processBlocksRange. rewrite Hb. cbn [mbind res_bind].
  by destruct (processMessages _ _ _ _) as [[|] ?].
Qed.

(** What the liteserver knows of an address: its history, the number of its
    transactions up to the end block and the Lamport time it had at the previous block. *)
Record served (lp : Service) (fuel : nat) (toBlock : BlockIDExt) (prevBlock : option BlockIDExt)
    (a : Address) (hist : list ListedTx) (n : nat) (startLT : Z) : Prop := {
  sv_serves : serves (ListTransactions c) (loaderPageSize lp) a hist;
  sv_chained : chained 0 [] hist;
  sv_length : n ≤ length hist;
  sv_fuel : n < fuel;
  sv_bounds : getTransactionBounds (GetAccount c) (WaitGetAccount c) a prevBlock toBlock
              = Ok (startLT, (last_tx (take n hist)).1, (last_tx (take n hist)).2);
}.

Lemma backfill_ok lp fuel toBlock prevBlock (hist : Address → list ListedTx) (n : Address → nat)
    (startLT : Address → Z) addrs :
  (0 < loaderPageSize lp)%Z → (∀ p, prevBlock = Some p → (blk_SeqNo p < blk_SeqNo toBlock)%Z) →
  (∀ a, a ∈ addrs → served lp fuel toBlock prevBlock a (hist a) (n a) (startLT a)) →
  ∃ msgs, BackfillForAddresses (GetAccount c) (WaitGetAccount c) (ListTransactions c) (loaderPageSize lp)
            fuel addrs prevBlock toBlock = Ok msgs ∧
    msgs ≡ₚ addrs ≫= λ a, range_messages (hist a) (startLT a) (last_tx (take (n a) (hist a))).1.
Proof.
  intros Hp Hprev. induction addrs as [|a addrs IH]; intros Hs; [by exists []|].
  destruct (Hs a (list_elem_of_here _ _)) as [S1 S2 S3 S4 S5].
  destruct (fetch_range (GetAccount c) (WaitGetAccount c) (ListTransactions c) (loaderPageSize lp) fuel a
              prevBlock toBlock (hist a) (n a) (startLT a)) as (ms & E & Hms); try done.
  destruct IH as (msgs & E' & Hmsgs); [intros b Hb; apply Hs; by apply list_elem_of_further|].
  exists (ms ++ msgs). cbn [BackfillForAddresses]. rewrite E, E'. split; [done|]. by rewrite bind_cons, Hms, Hmsgs.
Qed.

Lemma run_served lp fuel names order toBlock prevBlock (hist : Address → list ListedTx) (n : Address → nat)
    (startLT : Address → Z) :
  (0 < loaderPageSize lp)%Z → blocks_ready lp toBlock prevBlock → filters_ready lp names order →
  (∀ a, watched lp a → served lp fuel toBlock prevBlock a (hist a) (n a) (startLT a)) →
  ∃ addrs msgs, NoDup addrs ∧ (∀ a, a ∈ addrs ↔ watched lp a) ∧
    msgs ≡ₚ (addrs ≫= λ a, range_messages (hist a) (startLT a) (last_tx (take (n a) (hist a))).1) ∧
    run clock MustParseAddr c fuel names order arrival lp
    = Ok (match processMessages clock names msgs lp with
          | (Some _, lp') => (Some "processBlocksRange"%string, lp')
          | (None, lp') => (None, set_lastProcessedSeqNo (blk_SeqNo toBlock) lp')
          end).
Proof.
  intros Hp Hb Hf Hs. destruct (addresses_ok lp names order Hf) as (addrs & Ha & Hne & Hnd & Hw).
  destruct (backfill_ok lp fuel toBlock prevBlock hist n startLT (arrival addrs)) as (msgs & E & Hm).
  - done.
  - intros p ->. destruct Hb as [_ Hahead Hprev]. destruct (lastProcessedSeqNo lp =? 0)%Z; [done|].
    destruct Hprev as (p' & [= <-] & -> & _). lia.
  - intros a Hin. apply Hs, Hw. by rewrite <- (arrival_perm addrs).
  - exists addrs, msgs. split_and!; try done; [by rewrite <- (arrival_perm addrs)|].
    by eapply run_blocks.
Qed.

(** The iteration against a liteserver that serves the watched addresses. *)
Lemma run_complete_ok (lp : Service) (fuel : nat) (names order : list string) (toBlock : BlockIDExt)
    (prevBlock : option BlockIDExt) (hist : Address → list ListedTx) (n : Address → nat) (startLT : Address → Z)
    (Hpage : (0 < loaderPageSize lp)%Z) (Hblocks : blocks_ready lp toBlock prevBlock)
    (Hfilters : filters_ready lp names order)
    (Hserved : ∀ a, watched lp a → served lp fuel toBlock prevBlock a (hist a) (n a) (startLT a))
    (Htopics : ∀ a tx m, watched lp a → tx ∈ hist a → m ∈ messages_of 0 tx → is_ok (topic_of m) = true)
    (Hstart : ∀ a, watched lp a → (0 ≤ startLT a)%Z) :
  ∃ lp' addrs msgs, run clock MustParseAddr c fuel names order arrival lp = Ok (None, lp') ∧
    NoDup addrs ∧ (∀ a, a ∈ addrs ↔ watched lp a) ∧
    msgs ≡ₚ (addrs ≫= λ a, range_messages (hist a) (startLT a) (last_tx (take (n a) (hist a))).1) ∧
    (∃ st, lp' = set_lastProcessedSeqNo (blk_SeqNo toBlock) (set_store st lp)) ∧
    logs (store lp') = logs (store lp) ++
      stamped clock (length (logs (store lp))) (msgs ≫= message_logs names (filters lp)).
Proof.
  destruct (run_served lp fuel names order toBlock prevBlock hist n startLT) as (addrs & msgs & Hnd & Hw & Hm & ->);
    try done.
  destruct (processMessages_spec clock names msgs lp)
    as (dn & rest & e & lp1 & E & Epm & _ & He & Hr & Hf & Hl & Hlogs). rewrite Epm.
  assert (rest = []) as ->.
  { destruct rest as [|m rest]; [done|]. exfalso. specialize (Hr m eq_refl).
    assert (m ∈ msgs) as Hin by (rewrite E; apply elem_of_app; right; apply list_elem_of_here). rewrite Hm in Hin.
    apply list_elem_of_bind in Hin as (a & Hin & Ha). apply list_elem_of_bind in Hin as (tx & Hin & Htx).
    apply list_elem_of_filter in Htx as [[Hlt _] Htx]. rewrite Hw in Ha.
    assert (is_ok (topic_of m) = true) as Hok; [|by destruct (topic_of m)].
    apply (Htopics a tx m Ha Htx). unfold messages_of. destruct (lt_Out tx); [|by apply elem_of_nil in Hin].
    rewrite (proj2 (Z.leb_gt _ _)) by (specialize (Hstart a Ha); lia). done. }
  rewrite app_nil_r in E. subst dn. rewrite (proj2 He eq_refl).
  eexists _, addrs, msgs. split; [reflexivity|]. split; [done|]. split; [done|]. split; [done|]. split; [|done].
  destruct (processMessages_store clock names msgs lp) as [st Hst]. exists st. by rewrite <- Hst, Epm.
Qed.

(** When the liteserver serves the watched addresses and every message names
    a topic, an iteration moves to the safe block and stores, behind the logs it had,
    one log per matching filter of every external message of every watched
    address in the range, each message once and in one order. *)
Theorem run_complete (lp : Service) (fuel : nat) (names order : list string) (toBlock : BlockIDExt)
    (prevBlock : option BlockIDExt) (hist : Address → list ListedTx) (n : Address → nat) (startLT : Address → Z)
    (Hpage : (0 < loaderPageSize lp)%Z) (Hblocks : blocks_ready lp toBlock prevBlock)
    (Hfilters : filters_ready lp names order)
    (Hserved : ∀ a, watched lp a → served lp fuel toBlock prevBlock a (hist a) (n a) (startLT a))
    (Htopics : ∀ a tx m, watched lp a → tx ∈ hist a → m ∈ messages_of 0 tx → is_ok (topic_of m) = true)
    (Hstart : ∀ a, watched lp a → (0 ≤ startLT a)%Z) :
  ∃ lp' addrs msgs, run clock MustParseAddr c fuel names order arrival lp = Ok (None, lp') ∧
    NoDup addrs ∧ (∀ a, a ∈ addrs ↔ watched lp a) ∧
    msgs ≡ₚ (addrs ≫= λ a, range_messages (hist a) (startLT a) (last_tx (take (n a) (hist a))).1) ∧
    lastProcessedSeqNo lp' = blk_SeqNo toBlock ∧ filters lp' = filters lp ∧
    logs (store lp') = logs (store lp) ++
      stamped clock (length (logs (store lp))) (msgs ≫= message_logs names (filters lp)).
Proof.
  destruct (run_complete_ok lp fuel names order toBlock prevBlock hist n startLT)
    as (lp' & addrs & msgs & H & Hnd & Hw & Hm & (st & ->) & Hlogs); try done.
  by exists (set_lastProcessedSeqNo (blk_SeqNo toBlock) (set_store st lp)), addrs, msgs.
Qed.

(** A message of the range whose destination carries no topic stops the
    poller: the iteration is an error, the last processed block stays where it is, and
    what was stored before the message stays stored, to be stored again by the next
    iteration. *)
Theorem run_stuck (lp : Service) (fuel : nat) (names order : list string) (toBlock : BlockIDExt)
    (prevBlock : option BlockIDExt) (hist : Address → list ListedTx) (n : Address → nat) (startLT : Address → Z)
    (a : Address) (bad : MsgWithCtx)
    (Hpage : (0 < loaderPageSize lp)%Z) (Hblocks : blocks_ready lp toBlock prevBlock)
    (Hfilters : filters_ready lp names order)
    (Hserved : ∀ a, watched lp a → served lp fuel toBlock prevBlock a (hist a) (n a) (startLT a))
    (Ha : watched lp a) (Hbad : bad ∈ range_messages (hist a) (startLT a) (last_tx (take (n a) (hist a))).1)
    (Htopic : is_err (topic_of bad) = true) :
  ∃ e lp' ls, run clock MustParseAddr c fuel names order arrival lp = Ok (Some e, lp') ∧
    lastProcessedSeqNo lp' = lastProcessedSeqNo lp ∧ filters lp' = filters lp ∧
    logs (store lp') = logs (store lp) ++ ls.
Proof.
  destruct (run_served lp fuel names order toBlock prevBlock hist n startLT) as (addrs & msgs & Hnd & Hw & Hm & ->);
    try done.
  destruct (processMessages_spec clock names msgs lp)
    as (dn & rest & e & lp1 & E & -> & Hd & He & _ & Hf & Hl & Hlogs).
  assert (rest ≠ []) as Hne.
  { intros ->. rewrite app_nil_r in E. subst dn.
    assert (bad ∈ msgs) as Hin by (rewrite Hm; apply list_elem_of_bind; exists a; by rewrite Hw).
    rewrite Forall_forall in Hd. specialize (Hd bad Hin). by destruct (topic_of bad). }
  destruct e as [e|]; [|by destruct Hne; apply He]. by eexists _, lp1, _.
Qed.

(** An iteration during which the liteserver cannot list transactions still
    advances the last processed block and reports no error, so the messages of the
    range are never stored. *)
Theorem run_skips_failures (lp : Service) (fuel : nat) (names order : list string) (toBlock : BlockIDExt)
    (prevBlock : option BlockIDExt)
    (Hblocks : blocks_ready lp toBlock prevBlock) (Hfilters : filters_ready lp names order) (Hfuel : 0 < fuel)
    (Hlist : ∀ a k lt h, ∃ e, ListTransactions c a k lt h = ([], Some e))
    (Hget : ∀ b a, is_ok (GetAccount c b a) = true ∨ is_err (GetAccount c b a) = true)
    (Hwait : ∀ s b a, is_ok (WaitGetAccount c s b a) = true ∨ is_err (WaitGetAccount c s b a) = true) :
  run clock MustParseAddr c fuel names order arrival lp
  = Ok (None, set_lastProcessedSeqNo (blk_SeqNo toBlock) lp).
Proof.
  destruct (addresses_ok lp names order Hfilters) as (addrs & Ha & Hne & _ & _).
  rewrite (run_blocks lp toBlock prevBlock names order addrs fuel []); try done.
  generalize (arrival addrs). intros l. induction l as [|a l IH]; [done|]. cbn [BackfillForAddresses].
  assert (∀ r, fetchMessagesForAddress (GetAccount c) (WaitGetAccount c) (ListTransactions c) (loaderPageSize lp)
                 fuel a prevBlock toBlock = r → r = Ok [] ∨ ∃ e, r = Err e) as Hfetch; [|].
  { intros r <-. unfold fetchMessagesForAddress, getTransactionBounds.
    destruct (match prevBlock with Some _ => _ | None => _ end); [right; by eexists|].
    destruct (match prevBlock with Some _ => _ | None => _ end) as [s|x|x|] eqn:Es; cbn [mbind res_bind].
    - destruct (Hwait (blk_SeqNo toBlock) toBlock a) as [H|H];
        destruct (WaitGetAccount c (blk_SeqNo toBlock) toBlock a) as [acc| | |]; try done; cbn [mbind res_bind wrap_err];
        [|right; by eexists].
      destruct (_ <=? _)%Z; [by left|]. destruct fuel as [|f]; [lia|]. cbn [fetch_pages].
      destruct (Hlist a (loaderPageSize lp) (acc_LastTxLT acc) (acc_LastTxHash acc)) as [e ->]. left. by destruct e.
    - right. by eexists.
    - destruct prevBlock as [p|]; [|done]. destruct (_ <? _)%Z; [|done].
      destruct (Hget p a) as [H|H]; by destruct (GetAccount c p a).
    - destruct prevBlock as [p|]; [|done]. destruct (_ <? _)%Z; [|done].
      destruct (Hget p a) as [H|H]; by destruct (GetAccount c p a). }
  destruct (Hfetch _ eq_refl) as [->|[e ->]]; [by rewrite IH|done].
Qed.
End iteration.

(** ** Every sequence of operations *)

Section reachable.
Context {AL : AddrLib} {CL : CellLib}.
Variable clock : nat → Z.
Variable MustParseAddr : string → res Address.

(** An iteration, with whatever the liteserver answers as long as looking up a
    block yields the block of that number, and the registrations in between. *)
Inductive poller_step : Service → Service → Prop :=
| poll_run c fuel names order arrival lp e lp' :
    (∀ w s n b, LookupBlock c w s n = Ok b → blk_SeqNo b = n) →
    run clock MustParseAddr c fuel names order arrival lp = Ok (e, lp') → poller_step lp lp'
| poll_register flt lp : poller_step lp (RegisterFilter flt lp)
| poll_unregister name lp : poller_step lp (UnregisterFilter name lp).

(** Every tick is an iteration, whether it ends in an error or not. *)
Lemma tick_step c fuel names order arrival lp lp' :
  (∀ w s n b, LookupBlock c w s n = Ok b → blk_SeqNo b = n) →
  tick clock MustParseAddr c fuel names order arrival lp = Ok lp' → poller_step lp lp'.
Proof.
  intros Hc H. unfold tick in H. destruct (run clock MustParseAddr c fuel names order arrival lp) as [[e lp1]| | |] eqn:E; try done.
  injection H as <-. by eapply poll_run.
Qed.

(** Stored logs carry a topic, and expire a day after they were received. *)
Definition stored_ok (l : Log) : Prop :=
  (0 ≤ log_Topic l < 2 ^ 32)%Z ∧ log_ExpiresAt l = Some (log_ReceivedAt l + day)%Z.

Lemma message_logs_ok names f m n : Forall stored_ok (stamped clock n (message_logs names f m)).
Proof.
  unfold message_logs. destruct (topic_of m) as [t| | |] eqn:Et; try constructor.
  apply Forall_lookup. intros i l Hl. apply list_lookup_imap_Some in Hl as (l0 & Hl0 & ->).
  apply list_lookup_fmap_Some in Hl0 as (fid & -> & _). split; [by apply (topic_of_bound m)|done].
Qed.

Lemma messages_logs_ok names f ms n : Forall stored_ok (stamped clock n (ms ≫= message_logs names f)).
Proof.
  revert n. induction ms as [|m ms IH]; intros n; [constructor|]. rewrite bind_cons, stamped_app.
  apply Forall_app. split; [apply message_logs_ok|apply IH].
Qed.

Lemma run_monotone c fuel names order arrival lp e lp' :
  (∀ w s n b, LookupBlock c w s n = Ok b → blk_SeqNo b = n) →
  run clock MustParseAddr c fuel names order arrival lp = Ok (e, lp') →
  (lastProcessedSeqNo lp ≤ lastProcessedSeqNo lp')%Z ∧
  ∃ ls, logs (store lp') = logs (store lp) ++ ls ∧ Forall stored_ok ls.
Proof.
  intros Hlook H. assert (∀ o, Ok (o, lp) = Ok (e, lp') →
    (lastProcessedSeqNo lp ≤ lastProcessedSeqNo lp')%Z ∧
    ∃ ls, logs (store lp') = logs (store lp) ++ ls ∧ Forall stored_ok ls) as Hsame.
  { intros o [= _ <-]. split; [done|]. exists []. by rewrite app_nil_r. }
  unfold run in H. rewrite last_processed in H. cbn [wrap_err recovering] in H. cbv zeta in H.
  destruct (CurrentMasterchainInfo c) as [head|x|x|]; cbn [recovering] in H; [|by eapply Hsame..|done].
  destruct (Z.ltb_spec (u32 (blk_SeqNo head - blockConfirmations lp)) (lastProcessedSeqNo lp)); [by eapply Hsame|].
  destruct (_ =? _)%Z; [by eapply Hsame|].
  destruct (LookupBlock c _ _ _) as [to|x|x|] eqn:El; cbn [recovering wrap_err] in H; [|by eapply Hsame..|done].
  apply Hlook in El.
  destruct (GetDistinctAddresses _ _ _) as [addrs|x|x|]; cbn [recovering] in H; [|by eapply Hsame..|done].
  destruct (length addrs =? 0); [by eapply Hsame|].
  destruct (if (lastProcessedSeqNo lp =? 0)%Z then _ else _) as [prev|x|x|]; cbn [recovering] in H;
    [|by eapply Hsame..|done].
  apply bind_ok in H as (r & Hr & H). unfold processBlocksRange in Hr. apply bind_ok in Hr as (msgs & _ & [= <-]).
  destruct (processMessages_spec clock names msgs lp) as (dn & rest & o & lp1 & _ & E & _ & _ & _ & _ & Hl & Hlogs).
  rewrite E in H. assert (lp' = lp1 ∨ lp' = set_lastProcessedSeqNo (blk_SeqNo to) lp1) as Hlp'
    by (destruct o; injection H as _ <-; auto).
  split; [destruct Hlp' as [->| ->]; cbn [lastProcessedSeqNo set_lastProcessedSeqNo]; lia|].
  exists (stamped clock (length (logs (store lp))) (dn ≫= message_logs names (filters lp))).
  split; [by destruct Hlp' as [->| ->]|apply messages_logs_ok].
Qed.

(** Whatever the liteserver answers and however iterations, registrations
    and unregistrations follow each other, the last processed block never goes back,
    stored logs are never removed or changed, new ones are appended, and every log
    carries a 32-bit topic and expires a day after it was received. *)
Theorem poller_reachable (cfg : Config) (lp lp' : Service)
    (Hlp : rtc poller_step (NewLogPoller cfg) lp) (Hlp' : rtc poller_step lp lp') :
  (0 ≤ lastProcessedSeqNo lp ≤ lastProcessedSeqNo lp')%Z ∧
  (∃ ls, logs (store lp') = logs (store lp) ++ ls) ∧ Forall stored_ok (logs (store lp')).
Proof.
  assert (∀ a b, rtc poller_step a b → (lastProcessedSeqNo a ≤ lastProcessedSeqNo b)%Z ∧
            ∃ ls, logs (store b) = logs (store a) ++ ls ∧ Forall stored_ok ls) as Hgen.
  { induction 1 as [a|a b d Hs _ [IH1 (ls2 & IH2 & IH3)]]; [split; [done|]; exists []; by rewrite app_nil_r|].
    assert ((lastProcessedSeqNo a ≤ lastProcessedSeqNo b)%Z ∧
            ∃ ls, logs (store b) = logs (store a) ++ ls ∧ Forall stored_ok ls) as [H1 (ls1 & H2 & H3)].
    { destruct Hs as [c fuel names order arrival a e b Hl Hr|flt a|name a]; [by eapply run_monotone| |];
        (split; [done|]; exists []; cbn; by rewrite app_nil_r). }
    split; [lia|]. exists (ls1 ++ ls2). split; [by rewrite IH2, H2, app_assoc|by apply Forall_app]. }
  destruct (Hgen _ _ Hlp) as [H1 (l1 & E1 & F1)]. destruct (Hgen _ _ Hlp') as [H2 (l2 & E2 & F2)].
  cbn in H1, E1. split; [done|]. split; [by exists l2|]. rewrite E2, E1. by apply Forall_app.
Qed.
End reachable.

(** ** Runs *)

Module PollerRuns.
Import BitCells FilterRuns LoaderRuns.

Definition clock1 : nat → Z := λ n, Z.of_nat (1000 + n).
Definition filter7 : Filter :=
  {| flt_ID := 5; flt_Name := "seven"; flt_Address := src1; flt_EventName := "seven"; flt_EventTopic := 7;
     flt_StartingSeqNo := 0; flt_Retention := 0 |}.
Definition client (l : Address → Z → Z → bytes → list ListedTx * option ListErr) : Client := {|
  CurrentMasterchainInfo := Ok (block 2);
  LookupBlock := λ w s n, Ok {| blk_Workchain := w; blk_Shard := s; blk_SeqNo := n |};
  GetAccount := get1;
  WaitGetAccount := wait1;
  ListTransactions := l;
|}.
Definition poller0 : Service := NewLogPoller {| PollPeriod := 1; PageSize := 2 |}.
(** A poller that watches [src1] and stands at block 1. *)
Definition poller1 : Service := set_lastProcessedSeqNo 1 (RegisterFilter filter7 poller0).

Definition names1 : list string := (map_to_list (filtersByName (filters poller1))).*1.
Definition order1 : list string := (map_to_list (filtersByAddress (filters poller1))).*1.

Lemma parse1_ok s a : ParseAddr s = Ok a → parse1 s = Ok a.
Proof. unfold parse1. by intros ->. Qed.

Lemma poller1_registry : registry_inv (filters poller1).
Proof.
  apply register_inv; [exists x00, (replicate 32 x01); done|reflexivity|]. apply newFilters_inv.
Qed.

Lemma poller1_filters :
  filters_ready poller1 names1 order1.
Proof. split; [apply poller1_registry|done|done|apply insert_non_empty]. Qed.

Lemma poller1_blocks l : blocks_ready (client l) poller1 (block 2) (Some (block 1)).
Proof. split; [by exists (block 2)|cbn; lia|]. by exists (block 1). Qed.

Lemma poller1_watched a : watched poller1 a → a = src1.
Proof.
  intros (n & flt & E & <-). change (({["seven"%string := filter7]} : gmap string Filter) !! n = Some flt) in E.
  by apply lookup_singleton_Some in E as [_ <-].
Qed.

Lemma poller1_served a : watched poller1 a →
  served (client list1) poller1 4 (block 2) (Some (block 1)) a hist1 3 10.
Proof.
  intros _. split; [apply hist1_serves|apply hist1_chained|cbn; lia|lia|reflexivity].
Qed.

Lemma run_complete_witness :
  ∃ lp', run clock1 parse1 (client list1) 4 names1 order1 id poller1 = Ok (None, lp') ∧
         lastProcessedSeqNo lp' = 2%Z.
Proof.
  pose proof (run_complete clock1 parse1 parse1_ok (client list1) id (λ _, Permutation_refl _) poller1 4 names1 order1
    (block 2) (Some (block 1)) (λ _, hist1) (λ _, 3) (λ _, 10%Z) eq_refl (poller1_blocks list1) poller1_filters
    poller1_served) as H.
  destruct H as (lp' & addrs & msgs & H & _ & _ & _ & Hl & _); [|intros a _; discriminate|exists lp'; split; [exact H|exact Hl]].
  intros a tx m _ Htx Hm. repeat (apply elem_of_cons in Htx as [->|Htx]); [..|by apply elem_of_nil in Htx];
    cbn in Hm; repeat (apply elem_of_cons in Hm as [->|Hm]; [reflexivity|]); by apply elem_of_nil in Hm.
Defined.

(** A transaction whose message goes to no address. *)
Definition hist2 : list ListedTx :=
  [ltx 10 0 [x01] [] None;
   ltx 30 10 [x03] [x01] (Some [OutExternal {| eo_SrcAddr := src1; eo_DstAddr := None; eo_Body := Some (BCell [] []) |}])].
Definition list2 : Address → Z → Z → bytes → list ListedTx * option ListErr := λ _ n lt _,
  match list_find (λ tx, lt_LT tx = lt) hist2 with
  | None => ([], Some ErrNoTransactionsWereFound)
  | Some (i, _) => (drop (S i - Z.to_nat n) (take (S i) hist2), None)
  end.

Definition bad1 : @MsgWithCtx BitAddr BitCell :=
  {| mc_TxHash := [x03]; mc_LT := 30; mc_Src := src1; mc_Dst := None; mc_Body := BCell [] [] |}.

Lemma run_stuck_witness :
  ∃ e lp', run clock1 parse1 (client list2) 4 names1 order1 id poller1 = Ok (Some e, lp') ∧
           lastProcessedSeqNo lp' = 1%Z.
Proof.
  destruct (run_stuck clock1 parse1 parse1_ok (client list2) id (λ _, Permutation_refl _) poller1 4
              names1 order1
              (block 2) (Some (block 1)) (λ _, hist2) (λ _, 2) (λ _, 10%Z) src1
              bad1)
    as (e & lp' & ls & H & Hl & _);
    [cbn; lia|apply poller1_blocks|apply poller1_filters| | |apply list_elem_of_here|reflexivity|exists e, lp'; split; [exact H|exact Hl]].
  - intros a _. split; [intros [|[|[|n]]] Hn; try reflexivity; cbn in Hn; lia|cbn; repeat split; lia|cbn; lia|lia|reflexivity].
  - exists "seven"%string, filter7. split; reflexivity.
Defined.

Lemma run_skips_failures_witness :
  run clock1 parse1 (client (λ _ _ _ _, ([], Some OtherListErr))) 4
    names1 order1 id poller1
  = Ok (None, set_lastProcessedSeqNo 2 poller1).
Proof.
  apply (run_skips_failures clock1 parse1 parse1_ok (client (λ _ _ _ _, ([], Some OtherListErr))) id
           poller1 4 names1 order1 (block 2) (Some (block 1)));
    [apply poller1_blocks|apply poller1_filters|lia|by eexists|by left|by left].
Defined.

Lemma poller_reachable_witness :
  (0 ≤ lastProcessedSeqNo poller0 ≤ lastProcessedSeqNo (RegisterFilter filter7 poller0))%Z.
Proof.
  apply (poller_reachable clock1 parse1 {| PollPeriod := 1; PageSize := 2 |}); [done|].
  apply rtc_once. constructor.
Defined.
End PollerRuns.
