(* ===== verification/PollerHistory.v ===== *)
(** * PollerHistory: the log poller against the history of the chain

    [LogPollerSpec] says what one iteration does.  Here the liteserver is a chain
    that grows: every account has a history, of which a prefix lies in the blocks up to
    a sequence number.  Whatever heads the poller sees, in whatever order and with
    whatever page sizes, the logs it has stored are those of the history so far,
    each message once. *)

From S2P Require Import Prelude Cells BitCells Event LogFilters LogQuery Loader LogPoller LogPollerSpec.

Section chain.
Context {AL : AddrLib} {CL : CellLib}.

(** ** The chain *)

(** The transactions of every account, oldest first, and how many of them the
    masterchain blocks up to a number contain. *)
Record history := {
  h_Workchain : Z;
  h_Shard : Z;
  txs : Address → list ListedTx;
  upto : Address → Z → nat;
}.

Record history_ok (h : history) : Prop := {
  ho_chained a : chained 0 [] (txs h a);
  ho_genesis a : upto h a 0 = 0;
  ho_mono a s s' : (0 ≤ s ≤ s')%Z → upto h a s ≤ upto h a s';
  ho_bound a s : upto h a s ≤ length (txs h a);
}.

Definition block_at (h : history) (s : Z) : BlockIDExt :=
  {| blk_Workchain := h_Workchain h; blk_Shard := h_Shard h; blk_SeqNo := s |}.
Definition account_at (h : history) (a : Address) (s : Z) : Account :=
  let e := last_tx (take (upto h a s) (txs h a)) in {| acc_LastTxLT := e.1; acc_LastTxHash := e.2 |}.

(** The messages of an account in the blocks from one number, excluded, to another. *)
Definition messages_between (h : history) (s s' : Z) (a : Address) : list MsgWithCtx :=
  drop (upto h a s) (take (upto h a s') (txs h a)) ≫= messages_of 0.

(** A liteserver that knows the chain up to [head] serves it: blocks, the states of
    accounts, with and without waiting, and the pages of their histories. *)
Record follows (h : history) (c : Client) (head pageSize : Z) : Prop := {
  fo_head : CurrentMasterchainInfo c = Ok (block_at h head);
  fo_block s : (0 < s ≤ head)%Z → LookupBlock c (h_Workchain h) (h_Shard h) s = Ok (block_at h s);
  fo_account a s : (0 < s ≤ head)%Z → GetAccount c (block_at h s) a = Ok (account_at h a s);
  fo_wait a s : (0 < s ≤ head)%Z → WaitGetAccount c s (block_at h s) a = Ok (account_at h a s);
  fo_list a : serves (ListTransactions c) pageSize a (take (upto h a head) (txs h a));
}.

(** ** What a log says, apart from the time it was stored at *)

Definition log_content (l : Log) : Z * Address * bytes * Z * Z * bytes :=
  (log_FilterID l, log_Address l, log_TxHash l, log_TxLT l, log_Topic l, log_Data l).

Lemma stamped_content clock n ls : log_content <$> stamped clock n ls = log_content <$> ls.
Proof. unfold stamped. revert n. induction ls as [|l ls IH]; intros n; [done|]. cbn. f_equal. rewrite fmap_imap in *.
  rewrite <- (IH (S n)), fmap_imap. by apply imap_ext. Qed.

(** The filters may be enumerated in any order. *)
Lemma message_logs_perm names names' f m : names ≡ₚ names' → message_logs names f m ≡ₚ message_logs names' f m.
Proof.
  intros H. unfold message_logs, MatchingFilters. destruct (topic_of m); [|done..]. do 2 (case_match; [|done]).
  by rewrite H.
Qed.

(** ** Successive ranges *)

Lemma chained_take prev hash hist n : chained prev hash hist → chained prev hash (take n hist).
Proof.
  revert prev hash n. induction hist as [|t hist IH]; intros prev hash [|n] H; try done.
  destruct H as (H1 & H2 & H3 & H4). cbn. split_and!; auto.
Qed.

Lemma messages_from start t : (0 ≤ start < lt_LT t)%Z → messages_of start t = messages_of 0 t.
Proof. intros H. unfold messages_of. destruct (lt_Out t); [|done]. by rewrite !(proj2 (Z.leb_gt _ _)) by lia. Qed.

(** From the last transaction of a prefix on are the transactions behind the prefix. *)
Lemma messages_behind hist m n :
  chained 0 [] hist → m ≤ n ≤ length hist →
  take n hist ≫= messages_of (last_tx (take m hist)).1 = drop m (take n hist) ≫= messages_of 0.
Proof.
  intros Hc Hmn. set (start := (last_tx (take m hist)).1).
  assert (0 ≤ start)%Z as Hpos.
  { unfold start. destruct (decide (m = 0)) as [->|Hm]; [done|]. destruct (last_take hist m) as (t & Ht & ->); [lia|].
    pose proof (chained_above 0 [] hist Hc) as Ha. rewrite Forall_lookup in Ha. specialize (Ha _ _ Ht). cbn. lia. }
  rewrite <- (take_drop m (take n hist)) at 1. rewrite bind_app, take_take, Nat.min_l by lia.
  assert (take m hist ≫= messages_of start = []) as ->.
  { destruct m as [|m]; [done|]. destruct (last_take hist (S m)) as (t & Ht & E); [lia|].
    cbn in Ht. rewrite Nat.sub_0_r in Ht.
    apply (messages_before start 0 [] hist m t Hc Ht). unfold start. by rewrite E. }
  cbn. apply Forall_bind_ext, Forall_forall. intros t [i Hi]%list_elem_of_lookup.
  apply messages_from. split; [done|]. rewrite lookup_drop in Hi. apply lookup_take_Some in Hi as [Hi _].
  unfold start. destruct (decide (m = 0)) as [->|Hm].
  - pose proof (chained_above 0 [] hist Hc) as Ha. rewrite Forall_lookup in Ha. apply (Ha _ _ Hi).
  - destruct (last_take hist m) as (e & He & ->); [lia|]. cbn. by eapply (chained_sorted 0 [] hist (m - 1) (m + i)); [| lia| |].
Qed.

Lemma messages_between_split h a s1 s2 s3 :
  history_ok h → (0 ≤ s1 ≤ s2)%Z → (s2 ≤ s3)%Z →
  messages_between h s1 s3 a = messages_between h s1 s2 a ++ messages_between h s2 s3 a.
Proof.
  intros Hh H12 H23. unfold messages_between. rewrite <- bind_app. f_equal.
  pose proof (ho_mono h Hh a s1 s2 H12). pose proof (ho_mono h Hh a s2 s3 ltac:(lia)).
  pose proof (ho_bound h Hh a s3).
  rewrite <- (take_drop (upto h a s2) (take (upto h a s3) (txs h a))) at 1.
  rewrite take_take, Nat.min_l by lia. rewrite drop_app_le; [done|]. rewrite length_take. lia.
Qed.
End chain.

(** ** Ticks *)

Section poller.
Context {AL : AddrLib} {AW : AddrLaws} {CL : CellLib}.
Variable clock : nat → Z.
Variable MustParseAddr : string → res Address.

(** What a tick meets: a liteserver with its head, fuel, the orders in which the maps
    are enumerated, and the order in which the goroutines finish. *)
Record Round := {
  r_client : Client;
  r_head : Z;
  r_fuel : nat;
  r_names : list string;
  r_order : list string;
  r_arrival : list Address → list Address;
}.

Fixpoint ticks (rs : list Round) (lp : Service) : res Service :=
  match rs with
  | [] => Ok lp
  | r :: rs' =>
      lp ← tick clock MustParseAddr (r_client r) (r_fuel r) (r_names r) (r_order r) (r_arrival r) lp;
      ticks rs' lp
  end.

Variable h : history.
Hypothesis h_ok : history_ok h.
Hypothesis MustParseAddr_ok : ∀ s a, ParseAddr s = Ok a → MustParseAddr s = Ok a.

(** The last block that is deep enough. *)
Definition safe (lp : Service) (r : Round) : Z := (r_head r - blockConfirmations lp)%Z.

Record round_ok (lp : Service) (r : Round) : Prop := {
  ro_head : (0 ≤ safe lp r ≤ r_head r)%Z ∧ (r_head r < 2 ^ 32)%Z;
  ro_follows : follows h (r_client r) (r_head r) (loaderPageSize lp);
  ro_filters : filters_ready lp (r_names r) (r_order r);
  ro_arrival l : r_arrival r l ≡ₚ l;
  ro_fuel a : watched lp a → upto h a (r_head r) < r_fuel r;
}.

(** What every tick leaves alone. *)
Definition same_setup (lp lp' : Service) : Prop :=
  filters lp' = filters lp ∧ loaderPageSize lp' = loaderPageSize lp ∧ blockConfirmations lp' = blockConfirmations lp.

Lemma round_ok_setup lp lp' r : same_setup lp lp' → round_ok lp r → round_ok lp' r.
Proof.
  intros (Hf & Hp & Hc) [H1 H2 [F1 F2 F3 F4] H4 H5].
  assert (∀ a, watched lp' a → watched lp a) as Hw by (unfold watched; by rewrite Hf).
  split; [unfold safe; by rewrite Hc|by rewrite Hp|split; by rewrite Hf|done|]. intros a Ha. by apply H5, Hw.
Qed.

(** The logs of the watched accounts between two blocks. *)
Definition logs_between (names : list string) (addrs : list Address) (f : Filters) (s s' : Z) : list Log :=
  addrs ≫= λ a, messages_between h s s' a ≫= message_logs names f.

Lemma bind_app_perm {A B} (f g : A → list B) l : (l ≫= λ x, f x ++ g x) ≡ₚ (l ≫= f) ++ (l ≫= g).
Proof.
  induction l as [|x l IH]; [done|]. rewrite !bind_cons, IH, <- !app_assoc. f_equiv.
  rewrite !app_assoc. f_equiv. apply Permutation_app_comm.
Qed.
Lemma bind_bind {A B C} (f : A → list B) (g : B → list C) l : (l ≫= f) ≫= g = l ≫= λ x, f x ≫= g.
Proof. induction l as [|x l IH]; [done|]. by rewrite !bind_cons, bind_app, IH. Qed.
Lemma bind_perm {A B} (f g : A → list B) l : (∀ x, f x ≡ₚ g x) → l ≫= f ≡ₚ l ≫= g.
Proof. intros H. induction l as [|x l IH]; [done|]. by rewrite !bind_cons, (H x), IH. Qed.

Lemma logs_between_split names addrs f s1 s2 s3 :
  (0 ≤ s1 ≤ s2)%Z → (s2 ≤ s3)%Z →
  logs_between names addrs f s1 s3 ≡ₚ logs_between names addrs f s1 s2 ++ logs_between names addrs f s2 s3.
Proof.
  intros H12 H23. unfold logs_between. rewrite <- bind_app_perm. apply bind_perm. intros a.
  by rewrite (messages_between_split h a s1 s2 s3), bind_app.
Qed.
Lemma logs_between_none names addrs f s : logs_between names addrs f s s = [].
Proof.
  unfold logs_between, messages_between. induction addrs as [|a addrs IH]; [done|]. rewrite bind_cons, IH, drop_ge; [done|].
  rewrite length_take. lia.
Qed.
Lemma logs_between_names names names' addrs f s s' : names ≡ₚ names' →
  logs_between names addrs f s s' ≡ₚ logs_between names' addrs f s s'.
Proof. intros H. apply bind_perm. intros a. apply bind_perm. intros m. by apply message_logs_perm. Qed.

(** *** One tick *)

Definition prev_block (s : Z) : option BlockIDExt := if (s =? 0)%Z then None else Some (block_at h s).

Lemma take_upto a s s' : (0 ≤ s ≤ s')%Z → take (upto h a s) (take (upto h a s') (txs h a)) = take (upto h a s) (txs h a).
Proof. intros H. rewrite take_take, Nat.min_l; [done|]. by apply (ho_mono h h_ok). Qed.

Lemma round_served lp r a :
  round_ok lp r → (0 ≤ lastProcessedSeqNo lp < safe lp r)%Z → watched lp a →
  served (r_client r) lp (r_fuel r) (block_at h (safe lp r)) (prev_block (lastProcessedSeqNo lp)) a
    (take (upto h a (r_head r)) (txs h a)) (upto h a (safe lp r)) (acc_LastTxLT (account_at h a (lastProcessedSeqNo lp))).
Proof.
  intros [Hhead Hfol _ _ Hfuel] Hlast Ha. pose proof (ho_mono h h_ok a (safe lp r) (r_head r) ltac:(lia)) as Hm.
  pose proof (ho_bound h h_ok a (r_head r)) as Hb.
  split; [apply (fo_list h _ _ _ Hfol)|apply chained_take, (ho_chained h h_ok)|rewrite length_take; lia| |].
  { specialize (Hfuel a Ha). lia. }
  rewrite take_upto by lia. unfold getTransactionBounds, prev_block.
  assert (WaitGetAccount (r_client r) (safe lp r) (block_at h (safe lp r)) a = Ok (account_at h a (safe lp r))) as Hw
    by (apply (fo_wait h _ _ _ Hfol); lia).
  destruct (Z.eqb_spec (lastProcessedSeqNo lp) 0) as [E|E].
  - cbn [mbind res_bind block_at blk_SeqNo]. rewrite Hw. cbn. by rewrite E, (ho_genesis h h_ok).
  - cbn [block_at blk_SeqNo]. rewrite (proj2 (Z.ltb_lt _ _)) by lia.
    rewrite (fo_account h _ _ _ Hfol) by lia. cbn [mbind res_bind]. by rewrite Hw.
Qed.

Lemma round_blocks lp r :
  round_ok lp r → (0 ≤ lastProcessedSeqNo lp < safe lp r)%Z →
  blocks_ready (r_client r) lp (block_at h (safe lp r)) (prev_block (lastProcessedSeqNo lp)).
Proof.
  intros [Hhead Hfol _ _ _] Hlast. split; [|done|].
  - exists (block_at h (r_head r)). split; [apply (fo_head h _ _ _ Hfol)|]. cbn. split.
    + symmetry. apply Z.mod_small. unfold safe in *. lia.
    + apply (fo_block h _ _ _ Hfol). lia.
  - unfold prev_block. destruct (Z.eqb_spec (lastProcessedSeqNo lp) 0); [done|]. eexists. split; [done|]. split; [done|].
    apply (fo_block h _ _ _ Hfol). lia.
Qed.

(** A head that is not deep enough is waited for. *)
Lemma tick_waits lp r :
  round_ok lp r → (safe lp r ≤ lastProcessedSeqNo lp)%Z →
  tick clock MustParseAddr (r_client r) (r_fuel r) (r_names r) (r_order r) (r_arrival r) lp = Ok lp.
Proof.
  intros [Hhead Hfol _ _ _] Hlast. unfold tick, run. rewrite last_processed, (fo_head h _ _ _ Hfol).
  cbn [wrap_err recovering]. cbv zeta. cbn [block_at blk_SeqNo].
  assert (u32 (r_head r - blockConfirmations lp) = safe lp r) as -> by (apply Z.mod_small; unfold safe in *; lia).
  destruct (Z.ltb_spec (safe lp r) (lastProcessedSeqNo lp)); [done|]. by rewrite (proj2 (Z.eqb_eq _ _)) by lia.
Qed.

(** What the iteration reads for an account is what the chain has between the blocks. *)
Lemma round_messages lp r a :
  round_ok lp r → (0 ≤ lastProcessedSeqNo lp < safe lp r)%Z →
  range_messages (take (upto h a (r_head r)) (txs h a)) (acc_LastTxLT (account_at h a (lastProcessedSeqNo lp)))
    (last_tx (take (upto h a (safe lp r)) (take (upto h a (r_head r)) (txs h a)))).1
  = messages_between h (lastProcessedSeqNo lp) (safe lp r) a.
Proof.
  intros [Hhead _ _ _ _] Hlast. pose proof (ho_bound h h_ok a (r_head r)) as Hb.
  pose proof (ho_mono h h_ok a (safe lp r) (r_head r) ltac:(lia)) as Hm.
  pose proof (ho_mono h h_ok a (lastProcessedSeqNo lp) (safe lp r) ltac:(lia)) as Hm'.
  rewrite <- chained_range by (by (apply chained_take, (ho_chained h h_ok)) || (rewrite length_take; lia)).
  rewrite take_upto by lia. apply messages_behind; [apply (ho_chained h h_ok)|lia].
Qed.

(** Every message of a watched account is an event. *)
Definition topics_ok (lp : Service) : Prop :=
  ∀ a tx m, watched lp a → tx ∈ txs h a → m ∈ messages_of 0 tx → is_ok (topic_of m) = true.

Lemma account_at_pos a s : (0 ≤ acc_LastTxLT (account_at h a s))%Z.
Proof.
  cbn. destruct (decide (upto h a s = 0)) as [->|Hn]; [done|].
  destruct (last_take (txs h a) (upto h a s)) as (t & Ht & ->); [pose proof (ho_bound h h_ok a s); lia|].
  pose proof (chained_above 0 [] (txs h a) (ho_chained h h_ok a)) as Ha. rewrite Forall_lookup in Ha.
  specialize (Ha _ _ Ht). cbn. lia.
Qed.

(** A tick, whether it waits or reads, extends the logs by those of the new blocks. *)
Lemma tick_extends lp r names addrs :
  (0 ≤ lastProcessedSeqNo lp)%Z → (0 < loaderPageSize lp)%Z → round_ok lp r → topics_ok lp →
  names ≡ₚ (map_to_list (filtersByName (filters lp))).*1 → NoDup addrs → (∀ a, a ∈ addrs ↔ watched lp a) →
  ∃ lp' ls, tick clock MustParseAddr (r_client r) (r_fuel r) (r_names r) (r_order r) (r_arrival r) lp = Ok lp' ∧
    same_setup lp lp' ∧ lastProcessedSeqNo lp' = Z.max (lastProcessedSeqNo lp) (safe lp r) ∧
    logs (store lp') = logs (store lp) ++ ls ∧
    log_content <$> ls ≡ₚ
      log_content <$> logs_between names addrs (filters lp) (lastProcessedSeqNo lp) (lastProcessedSeqNo lp').
Proof.
  intros Hl0 Hpage Hr Htop Hnames Hnd Haddrs. destruct (Z.le_gt_cases (safe lp r) (lastProcessedSeqNo lp)) as [Hle|Hlt].
  { exists lp, []. rewrite app_nil_r, logs_between_none. split; [by apply tick_waits|]. split_and!; try done. lia. }
  pose proof (ro_filters lp r Hr) as Hfr.
  destruct (run_complete_ok clock MustParseAddr MustParseAddr_ok (r_client r) (r_arrival r) (ro_arrival lp r Hr)
    lp (r_fuel r) (r_names r) (r_order r) (block_at h (safe lp r)) (prev_block (lastProcessedSeqNo lp))
    (λ a, take (upto h a (r_head r)) (txs h a)) (λ a, upto h a (safe lp r))
    (λ a, acc_LastTxLT (account_at h a (lastProcessedSeqNo lp))))
    as (lp' & addrs' & msgs & Hrun & Hnd' & Hw' & Hm & (st & ->) & Hlogs); try done.
  - apply round_blocks; [done|lia].
  - intros a Ha. apply round_served; [done|lia|done].
  - intros a tx m Ha Htx. apply (Htop a tx m Ha). by eapply subseteq_take.
  - intros a _. apply account_at_pos.
  - eexists _, _. split; [unfold tick; rewrite Hrun; reflexivity|]. split; [done|]. split; [cbn; lia|]. split; [done|].
    rewrite stamped_content. cbn [lastProcessedSeqNo set_lastProcessedSeqNo block_at blk_SeqNo].
    rewrite (logs_between_names names (r_names r)) by (by rewrite Hnames, (fr_names _ _ _ Hfr)).
    unfold logs_between. rewrite Hm, bind_bind. apply fmap_Permutation.
    assert (addrs' ≡ₚ addrs) as -> by (apply NoDup_Permutation; [done..|]; intros a; by rewrite Hw', Haddrs).
    apply bind_perm. intros a. by rewrite round_messages by (done || lia).
Qed.

Lemma ticks_extend rs lp names addrs :
  (0 ≤ lastProcessedSeqNo lp)%Z → (0 < loaderPageSize lp)%Z → Forall (round_ok lp) rs → topics_ok lp →
  names ≡ₚ (map_to_list (filtersByName (filters lp))).*1 → NoDup addrs → (∀ a, a ∈ addrs ↔ watched lp a) →
  ∃ lp' ls, ticks rs lp = Ok lp' ∧ lastProcessedSeqNo lp' = foldl Z.max (lastProcessedSeqNo lp) (safe lp <$> rs) ∧
    logs (store lp') = logs (store lp) ++ ls ∧
    log_content <$> ls ≡ₚ
      log_content <$> logs_between names addrs (filters lp) (lastProcessedSeqNo lp) (lastProcessedSeqNo lp').
Proof.
  revert lp. induction rs as [|r rs IH]; intros lp Hl0 Hpage Hrs Htop Hnames Hnd Haddrs.
  { exists lp, []. rewrite app_nil_r, logs_between_none. by split_and!. }
  apply Forall_cons in Hrs as [Hr Hrs].
  destruct (tick_extends lp r names addrs) as (lp1 & ls1 & H1 & Hsetup & Hlast1 & Hlogs1 & Hc1); try done.
  pose proof Hsetup as (Hf & Hp & Hcf).
  assert (∀ a, watched lp1 a ↔ watched lp a) as Hw by (unfold watched; by rewrite Hf).
  destruct (IH lp1) as (lp2 & ls2 & H2 & Hlast2 & Hlogs2 & Hc2).
  { rewrite Hlast1. lia. } { by rewrite Hp. } { eapply Forall_impl; [exact Hrs|]. intros x. by apply round_ok_setup. }
  { intros a tx m Ha%Hw. by apply Htop. } { by rewrite Hf. } { done. } { intros a. by rewrite Hw, Haddrs. }
  exists lp2, (ls1 ++ ls2). cbn [ticks]. rewrite H1. cbn [mbind res_bind]. split; [done|].
  assert (safe lp1 <$> rs = safe lp <$> rs) as Hsafe.
  { apply list_fmap_ext. intros _ x _. unfold safe. by rewrite Hcf. }
  split; [cbn; by rewrite <- Hlast1, <- Hsafe|]. split; [by rewrite Hlogs2, Hlogs1, app_assoc|].
  assert (lastProcessedSeqNo lp1 ≤ lastProcessedSeqNo lp2)%Z as Hle.
  { rewrite Hlast2. generalize (safe lp1 <$> rs). intros l. generalize (lastProcessedSeqNo lp1).
    induction l as [|x l IHl]; intros z; cbn; [done|]. specialize (IHl (Z.max z x)). lia. }
  rewrite (logs_between_split names addrs (filters lp) _ (lastProcessedSeqNo lp1)) by lia.
  rewrite !fmap_app, Hc1, Hf in *. by rewrite Hc2.
Qed.

(** C1: a poller that watches the same filters over any number of ticks, each against a
    liteserver at some head of a growing chain (further, the same, or behind the last one),
    stores exactly the history: it ends at the furthest safe block, keeps the logs
    it had, and the new logs are, in some order, one for each matching filter of each
    external message of each watched account between the blocks it started from and
    ended at, none missing and none twice.  It takes for granted that every external message
    of a watched account carries an event topic ([topics_ok]); one that does not keeps the
    poller from advancing. *)
Theorem poller_exactly_once (rs : list Round) (lp : Service) (names : list string) (addrs : list Address)
    (Hstart : (0 ≤ lastProcessedSeqNo lp)%Z) (Hpage : (0 < loaderPageSize lp)%Z)
    (Hrounds : Forall (round_ok lp) rs) (Htopics : topics_ok lp)
    (Hnames : names ≡ₚ (map_to_list (filtersByName (filters lp))).*1)
    (Haddrs : NoDup addrs ∧ ∀ a, a ∈ addrs ↔ watched lp a) :
  ∃ lp' ls, ticks rs lp = Ok lp' ∧
    lastProcessedSeqNo lp' = foldl Z.max (lastProcessedSeqNo lp) (safe lp <$> rs) ∧
    logs (store lp') = logs (store lp) ++ ls ∧
    log_content <$> ls ≡ₚ log_content <$>
      (addrs ≫= λ a, messages_between h (lastProcessedSeqNo lp) (lastProcessedSeqNo lp') a
                     ≫= message_logs names (filters lp)).
Proof. by apply ticks_extend; destruct Haddrs. Qed.
End poller.

(** ** A liteserver for any chain *)

Section server.
Context {AL : AddrLib} {CL : CellLib}.
Variable h : history.
Hypothesis h_ok : history_ok h.

Definition page_of (hist : list ListedTx) (n lt : Z) : list ListedTx * option ListErr :=
  match list_find (λ tx, lt_LT tx = lt) hist with
  | None => ([], Some ErrNoTransactionsWereFound)
  | Some (i, _) => (drop (S i - Z.to_nat n) (take (S i) hist), None)
  end.
Definition server (head : Z) : Client := {|
  CurrentMasterchainInfo := Ok (block_at h head);
  LookupBlock _ _ s := Ok (block_at h s);
  GetAccount b a := Ok (account_at h a (blk_SeqNo b));
  WaitGetAccount _ b a := Ok (account_at h a (blk_SeqNo b));
  ListTransactions a n lt _ := page_of (take (upto h a head) (txs h a)) n lt;
|}.

Lemma page_of_serves (pageSize : Z) hist a :
  chained 0 [] hist → serves (λ _ n lt _, page_of hist n lt) pageSize a hist.
Proof.
  intros Hc n Hn. unfold page_of. destruct (decide (n = 0)) as [->|Hpos].
  - destruct (list_find _ hist) as [[i t]|] eqn:E; [|done]. apply list_find_Some in E as (Hi & Ht & _).
    pose proof (chained_above 0 [] hist Hc) as Ha. rewrite Forall_lookup in Ha. specialize (Ha i t Hi). change (last_tx (take 0 hist)).1 with 0%Z in Ht. cbn in Ht. lia.
  - destruct (last_take hist n) as (t & Ht & ->); [lia|]. cbn [fst snd]. rewrite (proj2 (Nat.eqb_neq _ _)) by done.
    destruct (list_find _ hist) as [[i y]|] eqn:E.
    + apply list_find_Some in E as (Hi & Hy & _). destruct (Nat.lt_trichotomy i (n - 1)) as [Hlt|[->|Hlt]].
      * pose proof (chained_sorted 0 [] hist i (n - 1) y t Hc Hlt Hi Ht). lia.
      * by replace (S (n - 1)) with n by lia.
      * pose proof (chained_sorted 0 [] hist (n - 1) i t y Hc Hlt Ht Hi). lia.
    + apply list_find_None in E. rewrite Forall_lookup in E. by destruct (E (n - 1) t Ht).
Qed.

(** What [follows] asks of a liteserver can be had for every chain, head and page size. *)
Lemma server_follows head pageSize : follows h (server head) head pageSize.
Proof.
  split; try done. intros a. apply (page_of_serves pageSize (take (upto h a head) (txs h a)) a).
  apply chained_take, (ho_chained h h_ok).
Qed.
End server.

(** ** Runs *)

Module HistoryRuns.
Import BitCells FilterRuns LoaderRuns PollerRuns.

(** The account of [LoaderRuns]: one transaction in block 1, two more in block 2, another in block 4. *)
Definition history1 : history := {|
  h_Workchain := -1; h_Shard := 0; txs _ := hist1;
  upto _ s := if (s <=? 0)%Z then 0 else if (s <=? 1)%Z then 1 else if (s <=? 3)%Z then 3 else 4;
|}.
Lemma history1_ok : history_ok history1.
Proof. split; [intros a; apply hist1_chained|done| |]; cbn; intros; repeat case_match; lia. Qed.

Definition poller2 : Service := RegisterFilter filter7 poller0.
Definition round1 (head : Z) : Round := {|
  r_client := server history1 head; r_head := head; r_fuel := 5; r_names := names1; r_order := order1; r_arrival := id |}.

Lemma round1_ok head : (0 ≤ head < 2 ^ 32)%Z → round_ok history1 poller2 (round1 head).
Proof.
  intros Hh. split; [cbn; unfold safe; cbn; lia|apply server_follows, history1_ok|by destruct poller1_filters|done|].
  intros a _. cbn. repeat case_match; lia.
Qed.

Lemma history1_message tx m : tx ∈ hist1 → m ∈ messages_of 0 tx → is_ok (topic_of m) = true ∧ mc_Src m = src1.
Proof.
  intros Htx Hm. repeat (apply elem_of_cons in Htx as [->|Htx]); [..|by apply elem_of_nil in Htx];
    cbn in Hm; repeat (apply elem_of_cons in Hm as [->|Hm]; [split; reflexivity|]); by apply elem_of_nil in Hm.
Qed.
Lemma poller2_topics : topics_ok history1 poller2.
Proof. intros a tx m _ Htx Hm. by apply (history1_message tx m). Qed.

(** The head moves to block 2, is then seen one block behind, and moves to block 4. *)
Lemma poller_exactly_once_witness :
  ∃ lp' ls, ticks clock1 parse1 [round1 2; round1 1; round1 4] poller2 = Ok lp' ∧ lastProcessedSeqNo lp' = 4%Z ∧
    logs (store lp') = ls ∧ length ls = 4.
Proof.
  destruct (poller_exactly_once clock1 parse1 history1 history1_ok parse1_ok [round1 2; round1 1; round1 4] poller2 names1 [src1])
    as (lp' & ls & H & Hl & Hlogs & Hc).
  - done.
  - done.
  - repeat (apply Forall_cons; split; [apply round1_ok; lia|]). apply Forall_nil_2.
  - apply poller2_topics.
  - done.
  - split; [apply NoDup_singleton|]. intros a. rewrite list_elem_of_singleton. split.
    + intros ->. by exists "seven"%string, filter7.
    + apply poller1_watched.
  - exists lp', ls. split; [exact H|]. split; [exact Hl|]. split; [exact Hlogs|].
    apply Permutation_length in Hc. rewrite !length_fmap, Hl in Hc. exact Hc.
Defined.
End HistoryRuns.
