(* ===== verification/Strconv.v ===== *)
(** * Strconv: the number and hex conversions of the Go standard library

    [strconv.FormatInt] and [strconv.ParseInt] in base 10 and [encoding/hex], as
    pkg/relay uses them for chain and account identifiers, with their round trips. *)

From Stdlib Require Import Strings.Ascii.
From S2P Require Import Prelude Cells Txm.

(** ** Decimal digits *)

Definition digit_char (d : Z) : ascii := ascii_of_nat (Z.to_nat (48 + d)).
Definition char_digit (c : ascii) : option Z :=
  let d := (Z.of_nat (nat_of_ascii c) - 48)%Z in
  if (0 <=? d)%Z && (d <=? 9)%Z then Some d else None.

(** The digits of a non-negative number, most significant first; its binary
    length is enough fuel. *)
Fixpoint digits (fuel : nat) (z : Z) (acc : list Z) : list Z :=
  match fuel with
  | O => acc
  | S fuel' => if (z <? 10)%Z then z :: acc else digits fuel' (z / 10) (z mod 10 :: acc)%Z
  end.
Definition decimal (z : Z) : list Z := digits (S (Z.to_nat (Z.log2 z))) z [].
Definition from_digits (ds : list Z) : Z := foldl (λ a d, 10 * a + d)%Z 0%Z ds.

Fixpoint string_of_digits (ds : list Z) : string :=
  match ds with [] => EmptyString | d :: ds' => String (digit_char d) (string_of_digits ds') end.
Fixpoint digits_of_string (s : string) : option (list Z) :=
  match s with
  | EmptyString => Some []
  | String c s' => d ← char_digit c; ds ← digits_of_string s'; Some (d :: ds)
  end.

(** [strconv.FormatInt(z, 10)] *)
Definition FormatInt (z : Z) : string :=
  if (z <? 0)%Z then String "-"%char (string_of_digits (decimal (- z))) else string_of_digits (decimal z).

(** [strconv.ParseInt(s, 10, bits)]: an optional sign, at least one digit, and
    the value in the range of [bits] bits. *)
Definition ParseInt (bits : Z) (s : string) : res Z :=
  let '(neg, ds) := match s with
                    | String c s' => if Ascii.eqb c "-"%char then (true, s')
                                     else if Ascii.eqb c "+"%char then (false, s') else (false, s)
                    | EmptyString => (false, s)
                    end in
  match ds, digits_of_string ds with
  | EmptyString, _ | _, None => Err "invalid syntax"
  | _, Some ds =>
      let z := if (neg : bool) then (- from_digits ds)%Z else from_digits ds in
      if (- 2 ^ (bits - 1) <=? z)%Z && (z <? 2 ^ (bits - 1))%Z then Ok z else Err "value out of range"
  end.

(** ** Hex ([encoding/hex]) *)

Definition hex_value (c : ascii) : option Z :=
  let n := Z.of_nat (nat_of_ascii c) in
  if (48 <=? n)%Z && (n <=? 57)%Z then Some (n - 48)%Z
  else if (97 <=? n)%Z && (n <=? 102)%Z then Some (n - 87)%Z
  else if (65 <=? n)%Z && (n <=? 70)%Z then Some (n - 55)%Z
  else None.
Fixpoint hex_decode (s : string) : res bytes :=
  match s with
  | EmptyString => Ok []
  | String a (String b s') =>
      match hex_value a, hex_value b with
      | Some x, Some y => bs ← hex_decode s'; Ok (byte_of_Z (16 * x + y) :: bs)
      | _, _ => Err "invalid byte"
      end
  | String _ EmptyString => Err "odd length hex string"
  end.

(** ** Round trips *)

Definition is_digit (d : Z) : Prop := (0 ≤ d ≤ 9)%Z.

Lemma char_digit_char d : is_digit d → char_digit (digit_char d) = Some d.
Proof.
  intros Hd. unfold char_digit, digit_char. unfold is_digit in Hd.
  rewrite nat_ascii_embedding by lia. replace (Z.of_nat (Z.to_nat (48 + d)) - 48)%Z with d by lia.
  by rewrite (proj2 (Z.leb_le 0 d)), (proj2 (Z.leb_le d 9)) by lia.
Qed.

Lemma digits_of_digits ds : Forall is_digit ds → digits_of_string (string_of_digits ds) = Some ds.
Proof. induction 1 as [|d ds Hd _ IH]; [done|]. cbn. by rewrite char_digit_char, IH. Qed.

Lemma from_digits_acc ds a :
  foldl (λ a d, 10 * a + d)%Z a ds = (a * 10 ^ Z.of_nat (length ds) + from_digits ds)%Z.
Proof.
  unfold from_digits. revert a. induction ds as [|d ds IH]; intros a; cbn [foldl length]; [lia|].
  rewrite IH, (IH (10 * 0 + d)%Z), Nat2Z.inj_succ, Z.pow_succ_r by lia. lia.
Qed.

Lemma digits_spec fuel z acc :
  (0 ≤ z < 2 ^ Z.of_nat fuel)%Z → 0 < fuel → Forall is_digit acc →
  Forall is_digit (digits fuel z acc) ∧ digits fuel z acc ≠ [] ∧
  from_digits (digits fuel z acc) = (z * 10 ^ Z.of_nat (length acc) + from_digits acc)%Z.
Proof.
  revert z acc. induction fuel as [|fuel IH]; intros z acc Hz Hf Hacc; [lia|]. cbn [digits].
  rewrite Nat2Z.inj_succ, Z.pow_succ_r in Hz by lia. destruct (Z.ltb_spec z 10) as [Hlt|Hge].
  - split_and!; [constructor; [unfold is_digit; lia|done]|done|]. unfold from_digits at 1. cbn [foldl].
    rewrite from_digits_acc. lia.
  - pose proof (Z.div_mod z 10 ltac:(lia)) as Hdm. pose proof (Z.mod_pos_bound z 10 ltac:(lia)) as Hm.
    assert (0 < fuel) as Hf' by (destruct fuel; [cbn in Hz; lia|lia]).
    destruct (IH (z / 10)%Z ((z mod 10)%Z :: acc)) as (D1 & D2 & D3); [lia|done| |].
    + constructor; [unfold is_digit; lia|done].
    + split_and!; [done..|]. rewrite D3. cbn [length]. rewrite Nat2Z.inj_succ, Z.pow_succ_r by lia.
      unfold from_digits at 1. cbn [foldl]. rewrite from_digits_acc. nia.
Qed.

Lemma decimal_spec z : (0 ≤ z)%Z →
  Forall is_digit (decimal z) ∧ decimal z ≠ [] ∧ from_digits (decimal z) = z.
Proof.
  intros Hz. destruct (digits_spec (S (Z.to_nat (Z.log2 z))) z []) as (H1 & H2 & H3); [|lia|done|].
  { split; [done|]. rewrite Nat2Z.inj_succ, Z2Nat.id by apply Z.log2_nonneg.
    destruct (decide (z = 0%Z)) as [->|]; [done|]. apply Z.log2_spec. lia. }
  split_and!; [done..|]. unfold decimal. rewrite H3. cbn. lia.
Qed.

Lemma digit_char_sign d c : is_digit d → c = "-"%char ∨ c = "+"%char → Ascii.eqb (digit_char d) c = false.
Proof.
  intros Hd Hc. apply Ascii.eqb_neq. intros E. pose proof (char_digit_char d Hd) as H. rewrite E in H.
  by destruct Hc as [-> | ->].
Qed.

(** Formatted numbers are parsed back when they are in range, and rejected
    when they are not. *)
Theorem ParseInt_FormatInt (bits z : Z) :
  ParseInt bits (FormatInt z)
  = if (- 2 ^ (bits - 1) <=? z)%Z && (z <? 2 ^ (bits - 1))%Z then Ok z else Err "value out of range".
Proof.
  unfold ParseInt, FormatInt. destruct (Z.ltb_spec z 0) as [Hneg|Hpos].
  - destruct (decimal_spec (- z)) as (H1 & H2 & H3); [lia|]. rewrite Ascii.eqb_refl. cbv beta iota zeta.
    destruct (decimal (- z)) as [|d ds] eqn:E; [done|]. cbn [string_of_digits].
    change (String (digit_char d) (string_of_digits ds)) with (string_of_digits (d :: ds)).
    rewrite digits_of_digits, H3 by done. by rewrite Z.opp_involutive.
  - destruct (decimal_spec z) as (H1 & H2 & H3); [lia|]. destruct (decimal z) as [|d ds] eqn:E; [done|].
    cbn [string_of_digits]. rewrite !digit_char_sign by (try tauto; by inversion H1).
    change (String (digit_char d) (string_of_digits ds)) with (string_of_digits (d :: ds)).
    by rewrite digits_of_digits, H3.
Qed.

Lemma hex_value_digit d : (0 ≤ d < 16)%Z → hex_value (hex_digit d) = Some d.
Proof.
  intros Hd. unfold hex_value, hex_digit. destruct (Z.ltb_spec d 10).
  - rewrite nat_ascii_embedding by lia. rewrite Z2Nat.id by lia.
    rewrite (proj2 (Z.leb_le 48 _)), (proj2 (Z.leb_le _ 57)) by lia. cbn [andb]. f_equal. lia.
  - rewrite nat_ascii_embedding by lia. rewrite Z2Nat.id by lia.
    rewrite (proj2 (Z.leb_gt _ 57)), andb_false_r by lia.
    rewrite (proj2 (Z.leb_le 97 _)), (proj2 (Z.leb_le _ 102)) by lia. cbn [andb]. f_equal. lia.
Qed.

Lemma hex_decode_encode bs : hex_decode (hex_encode bs) = Ok bs.
Proof.
  induction bs as [|b bs IH]; [done|]. cbn [hex_encode hex_decode]. pose proof (byte_to_Z_bound b).
  pose proof (Z.mod_pos_bound (byte_to_Z b) 16). pose proof (Z.div_mod (byte_to_Z b) 16).
  assert (0 ≤ byte_to_Z b / 16 < 16)%Z by (Z.to_euclidean_division_equations; lia).
  rewrite !hex_value_digit, IH by lia. cbn [mbind res_bind]. f_equal. f_equal.
  transitivity (byte_of_Z (byte_to_Z b)); [f_equal; lia|apply byte_of_to_Z].
Qed.
