(* ===== verification/Base64.v ===== *)
(** * Base64: encoding/base64 of the Go standard library

    [base64.StdEncoding], in which compiled contracts are stored: decoding as the
    library does it (line breaks are skipped, padding is required, unused bits of
    the last character are ignored) and the encoder it inverts. *)

From Stdlib Require Import Strings.Ascii.
From S2P Require Import Prelude Strconv.

(** ** The alphabet *)

Definition b64_char (v : Z) : ascii :=
  ascii_of_nat (Z.to_nat (if v <? 26 then 65 + v else if v <? 52 then 71 + v else if v <? 62 then v - 4
                          else if v =? 62 then 43 else 47)%Z).
Definition b64_value (c : ascii) : option Z :=
  let n := Z.of_nat (nat_of_ascii c) in
  if (65 <=? n)%Z && (n <=? 90)%Z then Some (n - 65)%Z
  else if (97 <=? n)%Z && (n <=? 122)%Z then Some (n - 71)%Z
  else if (48 <=? n)%Z && (n <=? 57)%Z then Some (n + 4)%Z
  else if (n =? 43)%Z then Some 62%Z
  else if (n =? 47)%Z then Some 63%Z
  else None.
Definition padding : ascii := "="%char.
Definition is_newline (c : ascii) : bool := (nat_of_ascii c =? 10) || (nat_of_ascii c =? 13).

(** ** Decoding *)

(** Four characters at a time; padding ends the input. *)
Fixpoint decode_quanta (s : list ascii) : option bytes :=
  match s with
  | [] => Some []
  | c0 :: c1 :: c2 :: c3 :: s' =>
      a ← b64_value c0;
      b ← b64_value c1;
      match b64_value c2, b64_value c3 with
      | Some c, Some d =>
          bs ← decode_quanta s';
          Some (byte_of_Z (4 * a + b / 16) :: byte_of_Z (16 * b + c / 4) :: byte_of_Z (64 * c + d) :: bs)
      | Some c, None =>
          if Ascii.eqb c3 padding && bool_decide (s' = [])
          then Some [byte_of_Z (4 * a + b / 16); byte_of_Z (16 * b + c / 4)] else None
      | None, _ =>
          if Ascii.eqb c2 padding && Ascii.eqb c3 padding && bool_decide (s' = [])
          then Some [byte_of_Z (4 * a + b / 16)] else None
      end
  | _ => None
  end%Z.

Fixpoint chars (s : string) : list ascii :=
  match s with EmptyString => [] | String c s' => c :: chars s' end.

Definition base64_DecodeString (s : string) : res bytes :=
  match decode_quanta (filter (λ c, is_newline c = false) (chars s)) with
  | Some bs => Ok bs
  | None => Err "illegal base64 data"
  end.

(** ** Encoding *)

Fixpoint base64_encode (bs : bytes) : string :=
  match bs with
  | [] => EmptyString
  | [x] =>
      let x := byte_to_Z x in
      String (b64_char (x / 4)) (String (b64_char (16 * (x mod 4))) (String padding (String padding EmptyString)))
  | [x; y] =>
      let x := byte_to_Z x in let y := byte_to_Z y in
      String (b64_char (x / 4)) (String (b64_char (16 * (x mod 4) + y / 16))
        (String (b64_char (4 * (y mod 16))) (String padding EmptyString)))
  | x :: y :: z :: bs' =>
      let x := byte_to_Z x in let y := byte_to_Z y in let z := byte_to_Z z in
      String (b64_char (x / 4)) (String (b64_char (16 * (x mod 4) + y / 16))
        (String (b64_char (4 * (y mod 16) + z / 64)) (String (b64_char (z mod 64)) (base64_encode bs'))))
  end%Z.

(** ** The round trip *)

Lemma b64_char_code v : (0 ≤ v < 64)%Z →
  Z.of_nat (nat_of_ascii (b64_char v))
  = (if v <? 26 then 65 + v else if v <? 52 then 71 + v else if v <? 62 then v - 4
     else if v =? 62 then 43 else 47)%Z.
Proof.
  intros Hv. unfold b64_char. set (n := (if (v <? 26)%Z then _ else _)).
  assert (0 ≤ n < 256)%Z by (unfold n; repeat case_match; lia). rewrite nat_ascii_embedding; lia.
Qed.

Lemma b64_value_char v : (0 ≤ v < 64)%Z → b64_value (b64_char v) = Some v.
Proof.
  intros Hv. unfold b64_value. rewrite b64_char_code by done.
  destruct (Z.ltb_spec v 26), (Z.ltb_spec v 52), (Z.ltb_spec v 62), (Z.eqb_spec v 62); try lia;
    repeat match goal with |- context [(?a <=? ?b)%Z] => destruct (Z.leb_spec a b); try lia
           | |- context [(?a =? ?b)%Z] => destruct (Z.eqb_spec a b); try lia end; cbn; f_equal; lia.
Qed.

Lemma b64_char_not_newline v : (0 ≤ v < 64)%Z → is_newline (b64_char v) = false.
Proof.
  intros Hv. pose proof (b64_char_code v Hv) as H. unfold is_newline.
  destruct (Nat.eqb_spec (nat_of_ascii (b64_char v)) 10), (Nat.eqb_spec (nat_of_ascii (b64_char v)) 13); try done;
    revert H; repeat case_match; lia.
Qed.

(** Lists of bytes by groups of three. *)
Lemma triples_ind (P : bytes → Prop) :
  P [] → (∀ x, P [x]) → (∀ x y, P [x; y]) → (∀ x y z bs, P bs → P (x :: y :: z :: bs)) → ∀ bs, P bs.
Proof.
  intros H0 H1 H2 H3. fix IH 1. intros [|x [|y [|z bs]]]; [done|apply H1|apply H2|apply H3, IH].
Qed.

Ltac byte_bounds :=
  repeat match goal with b : byte |- _ =>
    lazymatch goal with H : (0 ≤ byte_to_Z b < 256)%Z |- _ => fail
    | _ => pose proof (byte_to_Z_bound b) end end.

Lemma base64_encode_chars bs : Forall (λ c, is_newline c = false) (chars (base64_encode bs)).
Proof.
  induction bs as [|x|x y|x y z bs IH] using triples_ind; cbn; byte_bounds; repeat constructor;
    try (apply b64_char_not_newline; Z.to_euclidean_division_equations; lia). done.
Qed.

Lemma byte_split b v : (v mod 256 = byte_to_Z b)%Z → byte_of_Z v = b.
Proof. intros H. apply byte_to_Z_inj. by rewrite byte_to_of_Z. Qed.

Lemma decode_quanta_encode bs : decode_quanta (chars (base64_encode bs)) = Some bs.
Proof.
  assert (b64_value padding = None) as Hpad by reflexivity.
  induction bs as [|x|x y|x y z bs IH] using triples_ind; [done|..]; byte_bounds; cbn [base64_encode chars decode_quanta];
    rewrite ?Hpad, ?b64_value_char by (Z.to_euclidean_division_equations; lia); cbn [mbind option_bind].
  - rewrite Ascii.eqb_refl, bool_decide_eq_true_2 by done. cbn [andb]. do 2 f_equal. apply byte_split. Z.to_euclidean_division_equations; lia.
  - rewrite Ascii.eqb_refl, bool_decide_eq_true_2 by done. cbn [andb]. do 2 f_equal; [|f_equal]; apply byte_split; Z.to_euclidean_division_equations; lia.
  - rewrite IH. cbn [mbind option_bind]. do 2 f_equal; [|f_equal; [|f_equal]]; apply byte_split;
      Z.to_euclidean_division_equations; lia.
Qed.

(** What is encoded is decoded, also when it is broken into lines. *)
Lemma base64_decode_encode bs s :
  filter (λ c, is_newline c = false) (chars s) = chars (base64_encode bs) → base64_DecodeString s = Ok bs.
Proof. intros H. unfold base64_DecodeString. by rewrite H, decode_quanta_encode. Qed.

Lemma base64_roundtrip bs : base64_DecodeString (base64_encode bs) = Ok bs.
Proof.
  apply base64_decode_encode. induction (base64_encode_chars bs) as [|c l Hc _ IH]; [done|].
  by rewrite filter_cons_True, IH.
Qed.
