(* ===== verification/Contract.v ===== *)
(** * Contract: pkg/ton/tracetracking/signed_api_client.go and pkg/ton/wrappers

    The client that signs, sends and waits, and the wrapper of a contract: calling
    it, its getters, deploying it and the formats of compiled contracts.  The wallet
    and the liteclient are parameters: a call of theirs is its outcome.  A message
    that a call returns is a fresh one, so it lives at index 0 of a heap of its own. *)

From Stdlib Require Import Strings.Ascii.
From S2P Require Import Prelude Cells Tlb ExitCodes Trace Txm Loader Strconv Base64.

Section client.
Context {AL : AddrLib} {CL : CellLib}.

(** [Wallet.SendWaitTransaction] and [Wallet.DeployContractWaitTransaction] of
    tonutils-go, [wallet.PayGasSeparately], and the sequence number of the
    masterchain block at the [k]-th poll. *)
Variable WalletSend : WalletMessage → res (Transaction * BlockIDExt).
Variable WalletDeploy : Z → Cell → Cell → Cell → res (Address * Transaction * BlockIDExt).
Variable PayGasSeparately : Z.
Variable sub : subscription.
Variable CurrentMasterchainInfo : nat → res BlockIDExt.

(** ** SignedAPIClient *)

(** The loggers aside, the destination only appears in the error. *)
Definition SendWaitTransaction (dstAddr : Address) (messageToSend : WalletMessage) : res (ReceivedMessage * BlockIDExt) :=
  r ← wrap_err "deposit transaction failed" (WalletSend messageToSend);
  receivedMessage ← wrap_err "failed to get outgoing messages" (MapToReceivedMessage (r : Transaction * BlockIDExt).1);
  Ok (receivedMessage, r.2).

(** The masterchain is polled, from the [k]-th answer on, until it is two blocks past [seqNo]. *)
Fixpoint await_master (fuel k : nat) (seqNo : Z) : res () :=
  master ← wrap_err "failed to get masterchain info for funder balance check" (CurrentMasterchainInfo k);
  if (blk_SeqNo master <=? u32 (seqNo + 1))%Z
  then match fuel with O => Diverge | S fuel' => await_master fuel' (S k) seqNo end
  else Ok ().

(** [fuel] for the messages of the trace, [polls] for the polls of the masterchain. *)
Definition SendAndWaitForTrace (fuel polls : nat) (dstAddr : Address) (messageToSend : WalletMessage) : res heap :=
  r ← wrap_err "failed to SendWaitTransaction" (SendWaitTransaction dstAddr messageToSend);
  h ← wrap_err "failed to wait for trace" (WaitForTrace fuel sub [r.1] 0);
  _ ← await_master polls 0 (blk_SeqNo r.2);
  Ok h.

Definition SubscribeToTransactions (address : Address) (lt : Z) : list Transaction * bool := sub address lt.

(** ** Contract *)

Record Contract := { ct_Address : Address }.

Definition SendMessageWait (c : Contract) (body : Cell) (amount : Z) : res ReceivedMessage :=
  r ← SendWaitTransaction (ct_Address c)
        {| wm_Mode := PayGasSeparately; wm_SrcAddr := None; wm_DstAddr := ct_Address c; wm_Bounce := true;
           wm_IHRDisabled := true; wm_Amount := amount; wm_StateInit := None; wm_Body := body; wm_CreatedAt := 0 |};
  Ok r.1.

Definition CallWait {T} (t : Tlb T) (c : Contract) (message : T) (amount : Z) : res ReceivedMessage :=
  body ← wrap_err "failed to store message args" (ToCell message);
  SendMessageWait c body amount.

Definition CallWaitRecursively {T} (t : Tlb T) (fuel : nat) (c : Contract) (message : T) (amount : Z) : res heap :=
  sentMessage ← wrap_err "failed to send message" (CallWait t c message amount);
  wrap_err "failed to wait for trace" (WaitForTrace fuel sub [sentMessage] 0).

(** The messages a subscriber receives, as far as the transactions of the
    subscription go; the channel is not closed after them. *)
Fixpoint received_messages (txs : list Transaction) : res (list ReceivedMessage) :=
  match txs with
  | [] => Ok []
  | rTX :: txs' =>
      match tx_In rTX with
      | None => received_messages txs'
      | Some _ =>
          match MapToReceivedMessage rTX with
          | Ok m => ms ← received_messages txs'; Ok (m :: ms)
          | Err _ => received_messages txs'
          | Panic p => Panic p
          | Diverge => Diverge
          end
      end
  end.
Definition SubscribeToMessages (c : Contract) (lt : Z) : res (list ReceivedMessage) :=
  received_messages (SubscribeToTransactions (ct_Address c) lt).1.

(** *** Getters *)

(** [ton.ExecutionResult], running a get method at a block, and [Int]. *)
Variable ExecutionResult : Type.
Variable RunGetMethod : BlockIDExt → Address → string → res ExecutionResult.
Variable ResultInt : ExecutionResult → nat → res Z.

Definition Get (c : Contract) (key : string) : res ExecutionResult :=
  block ← wrap_err "failed to get current block" (CurrentMasterchainInfo 0);
  RunGetMethod block (ct_Address c) key.

(** [big.Int.Uint64]: the low word of the absolute value. *)
Definition big_Uint64 (v : Z) : Z := u64 (Z.abs v).

Definition Uint64From (r : res ExecutionResult) : res Z :=
  r ← wrap_err "failed to run get method" r;
  val ← wrap_err "failed to extract value" (ResultInt r 0);
  Ok (big_Uint64 val).

Definition Uint32From (r : res ExecutionResult) : res Z :=
  r ← wrap_err "failed to run get method" r;
  val ← wrap_err "failed to extract value" (ResultInt r 0);
  let u64 := big_Uint64 val in
  if (2 ^ 32 - 1 <? u64)%Z then Err "value overflows uint32" else Ok (u32 u64).

(** *** Deploying and opening *)

(** The contract and the heap of the deployment's message. *)
Definition Deploy (fuel : nat) (codeCell initData : Cell) (amount : Z) (msgBody : Cell) : res (Contract * heap) :=
  r ← wrap_err "deployment failed" (WalletDeploy amount msgBody codeCell initData);
  let '(addr, tx, _) := (r : Address * Transaction * BlockIDExt) in
  receivedMessage ← wrap_err "failed to get outgoing messages" (MapToReceivedMessage tx);
  h ← wrap_err "failed to wait for trace" (WaitForTrace fuel sub [receivedMessage] 0);
  receivedMessage ← deref h (Some 0);
  if negb (rm_ExitCode receivedMessage =? ExitCodeSuccess)%Z || negb (length (rm_Received receivedMessage) =? 1)
  then Err "contract deployment failed: error sending external message"
  else Ok ({| ct_Address := addr |}, h).

(** [tlb.StateInit] with its data and code, and [cell.Hash]. *)
Record StateInit := { si_Data : Cell; si_Code : Cell }.
Variable StateInit_tlb : Tlb StateInit.
Variable Hash : Cell → bytes.

Definition Open (codeCell initData : Cell) : res Contract :=
  stateCell ← ToCell (T := StateInit) {| si_Data := initData; si_Code := codeCell |};
  Ok {| ct_Address := NewAddress x00 x00 (Hash stateCell) |}.

(** *** Compiled contracts *)

Record tactCompiledContract := { tact_Name : string; tact_Code : string; tact_Abi : string }.
Record tolkCompiledContract := { tolk_Hex : string }.

Definition tact_codeCell (c : tactCompiledContract) : res Cell :=
  let codeBoc64 := tact_Code c in
  if bool_decide (codeBoc64 = ""%string) then Err "codeBoc64 field is empty in the JSON" else
  codeBocBinary ← wrap_err "failed to decode base64" (base64_DecodeString codeBoc64);
  wrap_err "failed to parse BOC binary" (FromBOC codeBocBinary).

Definition tolk_codeCell (c : tolkCompiledContract) : res Cell :=
  let codeBocHex := tolk_Hex c in
  if bool_decide (codeBocHex = ""%string) then Err "codeBocHex field is empty in the JSON" else
  codeBocBytes ← wrap_err "failed to decode hex" (hex_decode codeBocHex);
  wrap_err "failed to parse BOC binary" (FromBOC codeBocBytes).

(** [strings.HasSuffix] *)
Fixpoint HasSuffix (s suffix : string) : bool :=
  bool_decide (s = suffix) || match s with EmptyString => false | String _ s' => HasSuffix s' suffix end.

(** The file system: whether [os.Stat] reports that a path does not exist, and
    the content of the file; [json.Unmarshal] for the two formats. *)
Variable NotExist : string → bool.
Variable ReadFile : string → res string.
Variable UnmarshalTact : string → res tactCompiledContract.
Variable UnmarshalTolk : string → res tolkCompiledContract.

Definition ParseCompiledContract (path : string) : res Cell :=
  if NotExist path then Err "contract file not found" else
  jsonData ← wrap_err "failed to read compiled contract" (ReadFile path);
  if HasSuffix path ".pkg" then
    compiledContract ← wrap_err "failed to parse JSON" (UnmarshalTact jsonData);
    tact_codeCell compiledContract
  else if HasSuffix path ".compiled.json" then
    compiledContract ← wrap_err "failed to parse JSON" (UnmarshalTolk jsonData);
    tolk_codeCell compiledContract
  else Err "unsupported contract file format".
End client.

(** ** Lazy loading of Tact contracts (wrappers/tact_lazy_loading.go) *)

Section lazy_loading.
Context {AL : AddrLib} {CL : CellLib}.
Local Open Scope tlb_scope.

Record LazyLoadingContract (T : Type) := { LazyLoadingBit : bool; lz_Contract : T }.
#[global] Arguments LazyLoadingBit {T} _.
#[global] Arguments lz_Contract {T} _.
Definition LazyLoadingContract_tlb {T} (t : Tlb T) : Tlb (LazyLoadingContract T) := tlb_struct (f_iso
  (λ '(b, c), {| LazyLoadingBit := b; lz_Contract := c |})
  (λ v, (LazyLoadingBit v, lz_Contract v))
  (f_bool ⊗ f_inline t)).
Definition LazyLoadingTactContractInitData {T} (contract : T) : LazyLoadingContract T :=
  {| LazyLoadingBit := false; lz_Contract := contract |}.
End lazy_loading.

(** ** The wallet's message builder (pkg/ton/config/config.go) *)

(** [WalletVersion]: the time to live, and the query id and creation time of a
    message by the Unix time; [%] is the remainder of Go. *)
Definition MessageTTL : Z := 120.
Definition MessageBuilder (unix : Z) : Z * Z :=
  let tm := (unix - 30)%Z in (u32 (10000 + Z.rem tm (2 ^ 23)), tm).
