(* ===== verification/ContractSpec.v ===== *)
(** * ContractSpec: what the client and the contract wrapper promise

    Sending, calling and deploying over the traces of [TraceSpec]: each wait ends
    when its messages are delivered and the masterchain grows, and what is returned is
    settled; the conversion of getter results; and the two formats of compiled contracts. *)

From S2P Require Import Prelude Cells BitCells Tlb ExitCodes Trace TraceSpec Txm TxmSpec Loader Strconv Base64 Contract.

Section waits.
Context {AL : AddrLib} {CL : CellLib}.
Variable WalletSend : WalletMessage → res (Transaction * BlockIDExt).
Variable WalletDeploy : Z → Cell → Cell → Cell → res (Address * Transaction * BlockIDExt).
Variable PayGasSeparately : Z.
Variable sub : subscription.
Variable CurrentMasterchainInfo : nat → res BlockIDExt.

(** Nothing of a heap is left to be received, and it is a finite trace. *)
Definition settled_heap (h : heap) : Prop :=
  (∀ i r, h !! i = Some r → rm_Sent r = [] ∧ None ∉ rm_Received r) ∧ ∃ t, shows h (Some 0) t.

Lemma mapped_fresh tx m : MapToReceivedMessage tx = Ok m → rm_Received m = [].
Proof. by intros (inc & _ & ->)%MapToReceivedMessage_ok. Qed.

(** The poll ends at the first block that is past the bound. *)
Lemma await_master_returns polls k n seqNo b :
  n ≤ polls → CurrentMasterchainInfo (k + n) = Ok b → (u32 (seqNo + 1) < blk_SeqNo b)%Z →
  (∀ i, i < n → is_ok (CurrentMasterchainInfo (k + i)) = true) →
  await_master CurrentMasterchainInfo polls k seqNo = Ok ().
Proof.
  revert k n. induction polls as [|polls IH]; intros k n Hn Hb Hlt Hok.
  - assert (n = 0) as -> by lia. rewrite Nat.add_0_r in Hb. cbn [await_master]. rewrite Hb. cbn [wrap_err mbind res_bind].
    by rewrite (proj2 (Z.leb_gt _ _)).
  - cbn [await_master]. destruct n as [|n].
    { rewrite Nat.add_0_r in Hb. rewrite Hb. cbn [wrap_err mbind res_bind]. by rewrite (proj2 (Z.leb_gt _ _)). }
    specialize (Hok 0 ltac:(lia)) as H0. rewrite Nat.add_0_r in H0.
    destruct (CurrentMasterchainInfo k) as [master| | |]; try done. cbn [wrap_err mbind res_bind].
    case_match; [|done]. apply (IH (S k) n); [lia|by rewrite Nat.add_succ_comm|done|].
    intros i Hi. rewrite Nat.add_succ_comm. apply Hok. lia.
Qed.

Lemma await_master_ok polls k seqNo u :
  await_master CurrentMasterchainInfo polls k seqNo = Ok u →
  ∃ i b, k ≤ i ≤ k + polls ∧ CurrentMasterchainInfo i = Ok b ∧ (u32 (seqNo + 1) < blk_SeqNo b)%Z.
Proof.
  revert k. induction polls as [|polls IH]; intros k H; cbn [await_master] in H;
    apply bind_ok in H as (b & Hb & H); apply wrap_err_ok in Hb; destruct (Z.leb_spec (blk_SeqNo b) (u32 (seqNo + 1))); try done.
  - exists k, b. split; [lia|done].
  - apply IH in H as (i & b' & ? & ?). exists i, b'. split; [lia|done].
  - exists k, b. split; [lia|done].
Qed.

(** Sending a message and waiting for its trace comes to an end: when the wallet's
    transaction turns into a message whose trace is delivered and one of the polls of
    the masterchain sees a block past the next one, with every poll before it
    answered, the call returns the settled trace of that message; and it only
    returns once such a block was seen. *)
Theorem SendAndWaitForTrace_returns (fuel polls n k : nat) (dst : Address) (msg : WalletMessage)
    (tx : Transaction) (block b : BlockIDExt) (m : ReceivedMessage)
    (Hsend : WalletSend msg = Ok (tx, block)) (Hm : MapToReceivedMessage tx = Ok m)
    (Hdelivered : delivered sub m n) (Hfuel : n ≤ fuel)
    (Hseq : (0 ≤ blk_SeqNo block < 2 ^ 32 - 1)%Z) :
  (CurrentMasterchainInfo k = Ok b → (blk_SeqNo block + 1 < blk_SeqNo b)%Z → k ≤ polls →
   (∀ i, i < k → is_ok (CurrentMasterchainInfo i) = true) →
   ∃ h, SendAndWaitForTrace WalletSend sub CurrentMasterchainInfo fuel polls dst msg = Ok h ∧ settled_heap h ∧
        ∃ ps, h !! 0 = Some (set_outgoing m (rm_MsgFeesChargedToSender m) [] ps (rm_External m)) ∧
              length ps = length (rm_Sent m)) ∧
  (∀ h, SendAndWaitForTrace WalletSend sub CurrentMasterchainInfo fuel polls dst msg = Ok h →
   ∃ i b', i ≤ polls ∧ CurrentMasterchainInfo i = Ok b' ∧ (blk_SeqNo block + 1 < blk_SeqNo b')%Z).
Proof.
  destruct (WaitForTrace_returns sub fuel n m Hdelivered Hfuel) as (h & Hh & Hset).
  destruct (WaitForTrace_root sub fuel m h (mapped_fresh _ _ Hm) Hh) as (ps & Hroot & Hps).
  unfold SendAndWaitForTrace, SendWaitTransaction. rewrite Hsend. cbn [wrap_err mbind res_bind fst snd].
  rewrite Hm. cbn [wrap_err mbind res_bind fst snd]. rewrite Hh. cbn [wrap_err mbind res_bind].
  assert (u32 (blk_SeqNo block + 1) = blk_SeqNo block + 1)%Z as Hu by (apply u32_id; lia). split.
  - intros Hb Hlt Hk Hok. rewrite (await_master_returns polls 0 k _ b); [|done|done|by rewrite Hu|done].
    exists h. split; [done|]. split; [done|]. by exists ps.
  - intros h' H. apply bind_ok in H as (u & Hu' & _). apply await_master_ok in Hu' as (i & b' & Hi & Hb' & Hlt).
    rewrite Hu in Hlt. exists i, b'. split; [lia|done].
Qed.

Lemma Deploy_outcome (fuel n : nat) (code data body : Cell) (amount : Z) (addr : Address) (tx : Transaction)
    (block : BlockIDExt) (m : ReceivedMessage)
    (Hdeploy : WalletDeploy amount body code data = Ok (addr, tx, block)) (Hm : MapToReceivedMessage tx = Ok m)
    (Hdelivered : delivered sub m n) (Hfuel : n ≤ fuel) :
  if (rm_ExitCode m =? ExitCodeSuccess)%Z && (length (rm_Sent m) =? 1)
  then ∃ h j, Deploy WalletDeploy sub fuel code data amount body = Ok ({| ct_Address := addr |}, h) ∧ settled_heap h ∧
       h !! 0 = Some (set_outgoing m (rm_MsgFeesChargedToSender m) [] [Some j] (rm_External m)) ∧ is_Some (h !! j)
  else is_err (Deploy WalletDeploy sub fuel code data amount body) = true.
Proof.
  destruct (WaitForTrace_returns sub fuel n m Hdelivered Hfuel) as (h & Hh & Hset & t & Ht).
  destruct (WaitForTrace_root sub fuel m h (mapped_fresh _ _ Hm) Hh) as (ps & Hroot & Hps).
  unfold Deploy. rewrite Hdeploy. cbn [wrap_err mbind res_bind]. rewrite Hm. cbn [wrap_err mbind res_bind].
  rewrite Hh. cbn [wrap_err mbind res_bind deref]. rewrite Hroot. cbn [mbind res_bind].
  change (rm_ExitCode (set_outgoing _ _ _ _ _)) with (rm_ExitCode m).
  change (rm_Received (set_outgoing _ _ _ _ _)) with ps. rewrite Hps.
  destruct (rm_ExitCode m =? ExitCodeSuccess)%Z; cbn [negb orb andb]; [|done].
  destruct (Nat.eqb_spec (length (rm_Sent m)) 1) as [H1|H1]; cbn [negb]; [|done].
  rewrite H1 in Hps. destruct ps as [|p [|? ?]]; try done. destruct (Hset 0 _ Hroot) as [_ Hnil].
  destruct p as [j|]; [|destruct Hnil; apply list_elem_of_here]. exists h, j. split; [done|]. split; [by split; [|exists t]|].
  split; [done|]. inversion Ht as [i r ts Hi Hts]; subst. rewrite Hroot in Hi. injection Hi as <-.
  cbn in Hts. inversion Hts as [|? ? ? ? Hj]; subst. inversion Hj; subst. by eexists.
Qed.

(** When the trace of a deployment is delivered, deploying returns the contract
    at the address the wallet reported exactly when the deployment's transaction
    ended with exit code 0 and sent one message, whose received message is then the
    only child of a settled trace, and an error otherwise. *)
Theorem Deploy_spec (fuel n : nat) (code data body : Cell) (amount : Z) (addr : Address) (tx : Transaction)
    (block : BlockIDExt) (m : ReceivedMessage)
    (Hdeploy : WalletDeploy amount body code data = Ok (addr, tx, block)) (Hm : MapToReceivedMessage tx = Ok m)
    (Hdelivered : delivered sub m n) (Hfuel : n ≤ fuel) :
  if (rm_ExitCode m =? ExitCodeSuccess)%Z && (length (rm_Sent m) =? 1)
  then ∃ h j, Deploy WalletDeploy sub fuel code data amount body = Ok ({| ct_Address := addr |}, h) ∧ settled_heap h ∧
       h !! 0 = Some (set_outgoing m (rm_MsgFeesChargedToSender m) [] [Some j] (rm_External m)) ∧ is_Some (h !! j)
  else is_err (Deploy WalletDeploy sub fuel code data amount body) = true.
Proof. by apply (Deploy_outcome fuel n code data body amount addr tx block m). Qed.

(** Calling a contract writes the message into a cell, sends it bounceable and
    from the wallet to the contract's address, and returns the message of the wallet's
    transaction, with its trace settled when the recursive call is made over a delivered trace. *)
Theorem CallWaitRecursively_settled {T} (t : Tlb T) (fuel n : nat) (c : Contract) (message : T) (amount : Z)
    (body : Cell) (tx : Transaction) (block : BlockIDExt) (m : ReceivedMessage)
    (Hbody : ToCell message = Ok body)
    (Hsend : ∀ msg, wm_Body msg = body → wm_DstAddr msg = ct_Address c → wm_Amount msg = amount →
             wm_Bounce msg = true → wm_StateInit msg = None → WalletSend msg = Ok (tx, block))
    (Hm : MapToReceivedMessage tx = Ok m) (Hdelivered : delivered sub m n) (Hfuel : n ≤ fuel) :
  CallWait WalletSend PayGasSeparately t c message amount = Ok m ∧
  ∃ h, CallWaitRecursively WalletSend PayGasSeparately sub t fuel c message amount = Ok h ∧ settled_heap h ∧
    ∃ ps, h !! 0 = Some (set_outgoing m (rm_MsgFeesChargedToSender m) [] ps (rm_External m)) ∧
          length ps = length (rm_Sent m).
Proof.
  assert (CallWait WalletSend PayGasSeparately t c message amount = Ok m) as Hcall.
  { unfold CallWait. rewrite Hbody. cbn [wrap_err mbind res_bind]. unfold SendMessageWait, SendWaitTransaction.
    rewrite Hsend by done. cbn [wrap_err mbind res_bind fst snd]. by rewrite Hm. }
  destruct (WaitForTrace_returns sub fuel n m Hdelivered Hfuel) as (h & Hh & Hset).
  split; [done|]. exists h. unfold CallWaitRecursively. rewrite Hcall. cbn [wrap_err mbind res_bind]. rewrite Hh.
  split; [done|]. split; [done|]. exact (WaitForTrace_root sub fuel m h (mapped_fresh _ _ Hm) Hh).
Qed.
End waits.

(** ** Getters *)

Section getters.
Variable ExecutionResult : Type.
Variable ResultInt : ExecutionResult → nat → res Z.

(** The result of a getter that fits the width is returned as it is; one that
    needs more than 32 but at most 64 bits is an error of the 32-bit conversion; but
    outside 64 bits both conversions take the low word of the absolute value, so a
    negative result and a multiple of 2^64 added to a small one go through. *)
Theorem getter_conversions (r : ExecutionResult) (v : Z) (Hv : ResultInt r 0 = Ok v) :
  ((0 ≤ v < 2 ^ 64)%Z → Uint64From ExecutionResult ResultInt (Ok r) = Ok v) ∧
  ((0 ≤ v < 2 ^ 32)%Z → Uint32From ExecutionResult ResultInt (Ok r) = Ok v) ∧
  ((2 ^ 32 ≤ v < 2 ^ 64)%Z → Uint32From ExecutionResult ResultInt (Ok r) = Err "value overflows uint32") ∧
  (∀ u k, (0 ≤ u < 2 ^ 32)%Z → (0 ≤ k)%Z → (v = - u ∨ v = k * 2 ^ 64 + u)%Z →
     Uint32From ExecutionResult ResultInt (Ok r) = Ok u ∧ Uint64From ExecutionResult ResultInt (Ok r) = Ok u).
Proof.
  assert (Uint64From ExecutionResult ResultInt (Ok r) = Ok (big_Uint64 v)) as ->.
  { unfold Uint64From. cbn [wrap_err mbind res_bind]. by rewrite Hv. }
  assert (Uint32From ExecutionResult ResultInt (Ok r)
          = if (2 ^ 32 - 1 <? big_Uint64 v)%Z then Err "value overflows uint32" else Ok (u32 (big_Uint64 v))) as ->.
  { unfold Uint32From. cbn [wrap_err mbind res_bind]. by rewrite Hv. }
  assert (∀ u, (0 ≤ u < 2 ^ 32)%Z → big_Uint64 v = u →
            (if (2 ^ 32 - 1 <? big_Uint64 v)%Z then Err "value overflows uint32" else Ok (u32 (big_Uint64 v))) = Ok u) as H32.
  { intros u Hu ->. rewrite (proj2 (Z.ltb_ge _ _)) by lia. by rewrite u32_id. }
  assert ((0 ≤ v < 2 ^ 64)%Z → big_Uint64 v = v) as H64 by (intros H; unfold big_Uint64; rewrite Z.abs_eq by lia; by apply u64_id).
  split_and!.
  - intros H. by rewrite H64.
  - intros H. apply H32; [done|]. apply H64. lia.
  - intros H. rewrite H64 by lia. by rewrite (proj2 (Z.ltb_lt _ _)) by lia.
  - intros u k Hu Hk Hor. assert (big_Uint64 v = u) as Hbig.
    { unfold big_Uint64. destruct Hor as [-> | ->].
      - rewrite Z.abs_opp, Z.abs_eq by lia. apply u64_id. lia.
      - rewrite Z.abs_eq by lia. unfold u64. rewrite Z.add_comm, Z_mod_plus_full. apply Z.mod_small. lia. }
    split; [by apply H32|by rewrite Hbig].
Qed.
End getters.

(** ** Compiled contracts *)

Section compiled.
Context {AL : AddrLib} {CL : CellLib} {CV : CellView} {LAWS : CellLaws}.
Variable NotExist : string → bool.
Variable ReadFile : string → res string.
Variable UnmarshalTact : string → res tactCompiledContract.
Variable UnmarshalTolk : string → res tolkCompiledContract.

Lemma HasSuffix_spec s suffix : HasSuffix s suffix = true ↔ ∃ p, s = p +:+ suffix.
Proof.
  induction s as [|c s IH]; cbn [HasSuffix].
  - rewrite orb_false_r, bool_decide_eq_true. split; [intros <-; by exists ""%string|]. by intros [[] H].
  - rewrite orb_true_iff, bool_decide_eq_true, IH. split.
    + intros [<-|[p ->]]; [by exists ""%string|by exists (String c p)].
    + intros [[|c' p] H]; [by left|right]. injection H as <- ->. by exists p.
Qed.

Lemma append_assoc (p s t : string) : (p +:+ s) +:+ t = p +:+ (s +:+ t).
Proof. induction p as [|c p IH]; [done|]. change (String c ((p +:+ s) +:+ t) = String c (p +:+ (s +:+ t))). by rewrite IH. Qed.
Lemma append_last s t c d :
  s +:+ String c EmptyString = t +:+ String d EmptyString → c = d.
Proof.
  revert t. induction s as [|x s IH]; intros [|y t] H; cbn in H.
  - by injection H.
  - injection H as -> H. by destruct t.
  - injection H as -> H. by destruct s.
  - injection H as -> H. by apply (IH t).
Qed.

(** The two suffixes exclude each other. *)
Lemma json_not_pkg p : HasSuffix (p +:+ ".compiled.json") ".pkg" = false.
Proof.
  destruct (HasSuffix _ _) eqn:E; [|done]. apply HasSuffix_spec in E as [q E].
  change ".compiled.json"%string with (".compiled.jso" +:+ "n")%string in E.
  change ".pkg"%string with (".pk" +:+ "g")%string in E. rewrite <- !append_assoc in E.
  by apply append_last in E.
Qed.

(** The code of a compiled contract is read back from either format: base64 of the
    serialised cell in a .pkg file, also when it is broken into lines, and hex of it in
    a .compiled.json file; files of any other name and files that do not exist are errors. *)
Theorem ParseCompiledContract_formats (path : string) (json : string) (code : Cell)
    (Hexists : NotExist path = false) (Hread : ReadFile path = Ok json) :
  (∀ c p, path = p +:+ ".pkg" → UnmarshalTact json = Ok c →
     filter (λ c, is_newline c = false) (chars (tact_Code c)) = chars (base64_encode (ToBOC code)) →
     ParseCompiledContract NotExist ReadFile UnmarshalTact UnmarshalTolk path = Ok code) ∧
  (∀ c p, path = p +:+ ".compiled.json" → UnmarshalTolk json = Ok c → tolk_Hex c = hex_encode (ToBOC code) →
     ParseCompiledContract NotExist ReadFile UnmarshalTact UnmarshalTolk path = Ok code) ∧
  ((∀ p, path ≠ p +:+ ".pkg" ∧ path ≠ p +:+ ".compiled.json") →
     is_err (ParseCompiledContract NotExist ReadFile UnmarshalTact UnmarshalTolk path) = true).
Proof.
  assert (ToBOC code ≠ []) as Hne by (intros E; pose proof (boc_magic code) as H; rewrite E in H; cbn in H; lia).
  unfold ParseCompiledContract. rewrite Hexists, Hread. cbn [wrap_err mbind res_bind]. split_and!.
  - intros c p -> Hc Hcode. rewrite (proj2 (HasSuffix_spec _ _)) by by exists p. rewrite Hc. cbn [wrap_err mbind res_bind].
    unfold tact_codeCell. rewrite bool_decide_eq_false_2.
    + rewrite (base64_decode_encode _ _ Hcode). cbn [wrap_err mbind res_bind]. by rewrite boc_roundtrip.
    + intros E. rewrite E in Hcode. revert Hcode Hne. by destruct (ToBOC code) as [|? [|? [|? ?]]].
  - intros c p -> Hc Hcode. rewrite json_not_pkg, (proj2 (HasSuffix_spec _ _)) by by exists p. rewrite Hc.
    cbn [wrap_err mbind res_bind]. unfold tolk_codeCell. rewrite Hcode, bool_decide_eq_false_2.
    + rewrite hex_decode_encode. cbn [wrap_err mbind res_bind]. by rewrite boc_roundtrip.
    + revert Hne. by destruct (ToBOC code).
  - intros Hp. destruct (HasSuffix path ".pkg") eqn:E1; [apply HasSuffix_spec in E1 as [p E1]; by destruct (Hp p)|].
    destruct (HasSuffix path ".compiled.json") eqn:E2; [apply HasSuffix_spec in E2 as [p E2]; by destruct (Hp p)|done].
Qed.
End compiled.

(** ** The wallet's message builder *)

(** Messages of the same second share their query id and creation time; messages
    of different seconds within 2^23 seconds have different ids, all between 10000
    and 10000 + 2^23. *)
Theorem MessageBuilder_ids (u1 u2 : Z) (H1 : (30 ≤ u1)%Z) (H2 : (30 ≤ u2)%Z) :
  (10000 ≤ (MessageBuilder u1).1 < 10000 + 2 ^ 23)%Z ∧
  ((Z.abs (u1 - u2) < 2 ^ 23)%Z → (MessageBuilder u1).1 = (MessageBuilder u2).1 ↔ u1 = u2).
Proof.
  assert (∀ u, (30 ≤ u)%Z → (MessageBuilder u).1 = (10000 + (u - 30) mod 2 ^ 23)%Z) as Hid.
  { intros u Hu. unfold MessageBuilder. cbn [fst]. rewrite Z.rem_mod_nonneg by lia.
    pose proof (Z.mod_pos_bound (u - 30) (2 ^ 23) ltac:(lia)). apply u32_id. lia. }
  rewrite !Hid by done. pose proof (Z.mod_pos_bound (u1 - 30) (2 ^ 23) ltac:(lia)). split; [lia|]. intros Hd.
  split; [|by intros ->]. intros E. assert ((u1 - 30) mod 2 ^ 23 = (u2 - 30) mod 2 ^ 23)%Z as Em by lia.
  pose proof (Z.div_mod (u1 - 30) (2 ^ 23) ltac:(lia)). pose proof (Z.div_mod (u2 - 30) (2 ^ 23) ltac:(lia)). nia.
Qed.

(** ** Runs *)

Module ContractRuns.
Import BitCells TraceRuns TxmRuns.

(** The wallet's transaction of [TraceRuns], and a masterchain that grows. *)
Definition block_at (n : Z) : BlockIDExt := {| blk_Workchain := -1; blk_Shard := 0; blk_SeqNo := n |}.
Definition wallet_send : WalletMessage → res (Transaction * BlockIDExt) := λ _, Ok (tx1, block_at 7).
Definition growing (k : nat) : res BlockIDExt := Ok (block_at (7 + Z.of_nat k)).

Lemma SendAndWaitForTrace_returns_witness (msg : WalletMessage := wallet_message tx1' None) :
  ∃ h, SendAndWaitForTrace wallet_send sub1 growing 2 5 a2 msg = Ok h ∧ settled_heap h.
Proof.
  destruct (SendAndWaitForTrace_returns wallet_send sub1 growing 2 5 2 2 a2 msg tx1 (block_at 7) (block_at 9) msg1) as [H _];
    [reflexivity|reflexivity|exact msg1_delivered|lia|cbn; lia|].
  destruct H as (h & E & Hset & _); [reflexivity|cbn; lia|lia|intros i _; reflexivity|].
  exists h. split; [exact E|exact Hset].
Defined.

Definition wallet_deploy : Z → Cell → Cell → Cell → res (Address * Transaction * BlockIDExt) :=
  λ _ _ _ _, Ok (a2, tx1, block_at 7).
Lemma Deploy_spec_witness :
  ∃ h, Deploy wallet_deploy sub1 2 (BCell [] []) (BCell [] []) 5 (BCell [] []) = Ok ({| ct_Address := a2 |}, h).
Proof.
  destruct (Deploy_spec wallet_deploy sub1 2 2 (BCell [] []) (BCell [] []) (BCell [] []) 5 a2 tx1 (block_at 7) msg1)
    as (h & j & H & _); [reflexivity|reflexivity|exact msg1_delivered|lia|]. exists h. exact H.
Defined.

Definition ping_tlb : Tlb () := {| ToCell _ := Ok (BCell [true] []); LoadFromCell s := Ok (tt, s) |}.
Lemma CallWaitRecursively_settled_witness :
  CallWait wallet_send 1 ping_tlb {| ct_Address := a2 |} tt 5 = Ok msg1.
Proof.
  apply (CallWaitRecursively_settled wallet_send 1 sub1 ping_tlb 2 2 {| ct_Address := a2 |} tt 5 (BCell [true] [])
           tx1 (block_at 7) msg1); [reflexivity|intros; reflexivity|reflexivity|exact msg1_delivered|lia].
Defined.

Lemma getter_conversions_witness :
  Uint32From Z (λ r _, Ok r) (Ok 12%Z) = Ok 12%Z ∧ Uint32From Z (λ r _, Ok r) (Ok (-1)%Z) = Ok 1%Z.
Proof.
  split.
  - apply (getter_conversions Z (λ r _, Ok r) 12%Z 12%Z eq_refl). lia.
  - apply (getter_conversions Z (λ r _, Ok r) (-1)%Z (-1)%Z eq_refl) with 0%Z; lia.
Defined.

Definition tact1 : tactCompiledContract :=
  {| tact_Name := "a"; tact_Code := base64_encode (ToBOC (BCell [true] [])); tact_Abi := "" |}.
Lemma ParseCompiledContract_formats_witness :
  ParseCompiledContract (λ _, false) (λ _, Ok ""%string) (λ _, Ok tact1) (λ _, Err "") "a.pkg" = Ok (BCell [true] []).
Proof.
  destruct (ParseCompiledContract_formats (LAWS := BitLaws) (λ _, false) (λ _, Ok ""%string) (λ _, Ok tact1) (λ _, Err "")
              "a.pkg" "" (BCell [true] [])) as [H _]; [reflexivity|reflexivity|].
  apply (H tact1 "a"%string); reflexivity.
Defined.
End ContractRuns.
