(* ===== verification/Jetton.v ===== *)
(** * Jetton: pkg/bindings/jetton, pkg/bindings/examples/counter and pkg/bindings/test/examples/jetton

    The messages and storage of the jetton minter and wallet, the example
    contracts that use them and the counter, as TL-B structs, with their
    operations over the contract wrapper of [Contract]. *)

From S2P Require Import Prelude Cells Tlb Trace Txm Snake SnakeFacts Onramp Loader Event Contract.

Module jetton.
Local Open Scope tlb_scope.

Section types.
Context {AL : AddrLib} {CL : CellLib}.
(** The tag [either . ^] of tonutils-go on a cell. *)
Variable either_cell : fcodec Cell.

(** ** Minter (minter.go) and client (client.go) *)

Record Client := { cl_MasterAddress : Address; cl_WalletCode : Cell }.
Record MinterInitData := {
  mi_TotalSupply : Z;
  mi_Admin : Address;
  mi_TransferAdmin : Address;
  mi_WalletCode : Cell;
  mi_JettonContent : Cell;
}.
Record TopUpMessage := { tu_QueryID : Z }.
Record InternalTransferMessage := {
  it_QueryID : Z;
  it_Amount : Z;
  it_From : Address;
  it_ResponseAddress : Address;
  it_ForwardTonAmount : Z;
  it_ForwardPayload : Cell;
}.
Record MintMessage := {
  mm_QueryID : Z;
  mm_Destination : Address;
  mm_TonAmount : Z;
  mm_MasterMsg : InternalTransferMessage;
}.
Record ChangeAdminMessage := { ca_QueryID : Z; ca_NewAdmin : Address }.
Record ClaimAdminMessage := { cm_QueryID : Z }.
Record DropAdminMessage := { da_QueryID : Z }.
Record ChangeContentMessage := { cc_QueryID : Z; cc_Content : Cell }.
Record UpgradeMessage := { um_QueryID : Z; um_NewData : Cell; um_NewCode : Cell }.

Definition Client_tlb : Tlb Client := tlb_struct (f_iso
  (λ '(a, b), {| cl_MasterAddress := a; cl_WalletCode := b |})
  (λ v, (cl_MasterAddress v, cl_WalletCode v))
  (f_addr ⊗ f_cell)).
Definition MinterInitData_tlb : Tlb MinterInitData := tlb_struct (f_iso
  (λ '(a, (b, (c, (d, e)))), {| mi_TotalSupply := a; mi_Admin := b; mi_TransferAdmin := c;
    mi_WalletCode := d; mi_JettonContent := e |})
  (λ v, (mi_TotalSupply v, (mi_Admin v, (mi_TransferAdmin v, (mi_WalletCode v, mi_JettonContent v)))))
  (f_coins ⊗ f_addr ⊗ f_addr ⊗ f_cell ⊗ f_cell)).
Definition TopUpMessage_tlb : Tlb TopUpMessage := tlb_struct (f_iso
  (λ '(_, a), {| tu_QueryID := a |}) (λ v, (tt, tu_QueryID v))
  (f_magic 0xd372158c ⊗ f_uint 64)).
Definition InternalTransferMessage_tlb : Tlb InternalTransferMessage := tlb_struct (f_iso
  (λ '(_, (a, (b, (c, (d, (e, f)))))), {| it_QueryID := a; it_Amount := b; it_From := c;
    it_ResponseAddress := d; it_ForwardTonAmount := e; it_ForwardPayload := f |})
  (λ v, (tt, (it_QueryID v, (it_Amount v, (it_From v, (it_ResponseAddress v,
         (it_ForwardTonAmount v, it_ForwardPayload v)))))))
  (f_magic 0x178d4519 ⊗ f_uint 64 ⊗ f_coins ⊗ f_addr ⊗ f_addr ⊗ f_coins ⊗ either_cell)).
Definition MintMessage_tlb : Tlb MintMessage := tlb_struct (f_iso
  (λ '(_, (a, (b, (c, d)))), {| mm_QueryID := a; mm_Destination := b; mm_TonAmount := c; mm_MasterMsg := d |})
  (λ v, (tt, (mm_QueryID v, (mm_Destination v, (mm_TonAmount v, mm_MasterMsg v)))))
  (f_magic 0x642b7d07 ⊗ f_uint 64 ⊗ f_addr ⊗ f_coins ⊗ f_ref InternalTransferMessage_tlb)).
Definition ChangeAdminMessage_tlb : Tlb ChangeAdminMessage := tlb_struct (f_iso
  (λ '(_, (a, b)), {| ca_QueryID := a; ca_NewAdmin := b |}) (λ v, (tt, (ca_QueryID v, ca_NewAdmin v)))
  (f_magic 0x6501f354 ⊗ f_uint 64 ⊗ f_addr)).
Definition ClaimAdminMessage_tlb : Tlb ClaimAdminMessage := tlb_struct (f_iso
  (λ '(_, a), {| cm_QueryID := a |}) (λ v, (tt, cm_QueryID v))
  (f_magic 0xfb88e119 ⊗ f_uint 64)).
Definition DropAdminMessage_tlb : Tlb DropAdminMessage := tlb_struct (f_iso
  (λ '(_, a), {| da_QueryID := a |}) (λ v, (tt, da_QueryID v))
  (f_magic 0x7431f221 ⊗ f_uint 64)).
Definition ChangeContentMessage_tlb : Tlb ChangeContentMessage := tlb_struct (f_iso
  (λ '(_, (a, b)), {| cc_QueryID := a; cc_Content := b |}) (λ v, (tt, (cc_QueryID v, cc_Content v)))
  (f_magic 0xcb862902 ⊗ f_uint 64 ⊗ f_cell)).
Definition UpgradeMessage_tlb : Tlb UpgradeMessage := tlb_struct (f_iso
  (λ '(_, (a, (b, c))), {| um_QueryID := a; um_NewData := b; um_NewCode := c |})
  (λ v, (tt, (um_QueryID v, (um_NewData v, um_NewCode v))))
  (f_magic 0x2508d66a ⊗ f_uint 64 ⊗ f_cell ⊗ f_cell)).

(** The opcodes, and the messages the minter handles with their decoders. *)
Definition OpcodeMinterMint : Z := 0x642b7d07.
Definition OpcodeMinterBurnNotification : Z := 0x7bdd97de.
Definition OpcodeMinterChangeAdmin : Z := 0x6501f354.
Definition OpcodeMinterClaimAdmin : Z := 0xfb88e119.
Definition OpcodeMinterDropAdmin : Z := 0x7431f221.
Definition OpcodeMinterChangeMetadataURL : Z := 0xcb862902.
Definition OpcodeMinterUpgrade : Z := 0x2508d66a.
Definition OpcodeMinterInternalTransfer : Z := 0x178d4519.
Definition OpcodeMinterExcesses : Z := 0xd53276db.

Definition minter_messages : list (Z * (Slice → bool)) := [
  (OpcodeMinterMint, accepts MintMessage_tlb);
  (OpcodeMinterChangeAdmin, accepts ChangeAdminMessage_tlb);
  (OpcodeMinterClaimAdmin, accepts ClaimAdminMessage_tlb);
  (OpcodeMinterDropAdmin, accepts DropAdminMessage_tlb);
  (OpcodeMinterChangeMetadataURL, accepts ChangeContentMessage_tlb);
  (OpcodeMinterUpgrade, accepts UpgradeMessage_tlb);
  (OpcodeMinterInternalTransfer, accepts InternalTransferMessage_tlb);
  (0xd372158c%Z, accepts TopUpMessage_tlb)
].

(** Exit codes. *)
Definition ErrorInvalidOp : Z := 72.
Definition ErrorWrongOp : Z := 0xffff.
Definition ErrorNotOwner : Z := 73.
Definition ErrorNotValidWallet : Z := 74.
Definition ErrorWrongWorkchain : Z := 333.

(** ** Wallet (wallet.go) *)

Definition OpcodeWalletTransfer : Z := 0x0f8a7ea5.
Definition OpcodeWalletTransferNotification : Z := 0x7362d09c.
Definition OpcodeWalletInternalTransfer : Z := 0x178d4519.
Definition OpcodeWalletExcesses : Z := 0xd53276db.
Definition OpcodeWalletBurn : Z := 0x595f07bc.
Definition OpcodeWalletBurnNotification : Z := 0x7bdd97de.

Record WalletProvider := { MinterAddress : Address }.
Definition NewWalletProvider (minterAddress : Address) : WalletProvider := {| MinterAddress := minterAddress |}.

Record WalletInitData := { wi_Status : Z; wi_Balance : Z; wi_OwnerAddress : Address; wi_MasterAddress : Address }.
Definition WalletInitData_tlb : Tlb WalletInitData := tlb_struct (f_iso
  (λ '(a, (b, (c, d))), {| wi_Status := a; wi_Balance := b; wi_OwnerAddress := c; wi_MasterAddress := d |})
  (λ v, (wi_Status v, (wi_Balance v, (wi_OwnerAddress v, wi_MasterAddress v))))
  (f_uint 4 ⊗ f_coins ⊗ f_addr ⊗ f_addr)).

Definition GetWalletInitCell (p : WalletProvider) (ownerAddress : Address) : res Cell :=
  let initData := {| wi_Status := 0; wi_Balance := 0; wi_OwnerAddress := ownerAddress;
                     wi_MasterAddress := MinterAddress p |} in
  wrap_err "failed to convert init data to cell" (ToCell (Tlb := WalletInitData_tlb) initData).

(** The code of the two contracts, at the paths the environment gives. *)
Variable ParseCompiledContract : string → res Cell.
Definition MinterCode (MinterContractPath : string) : res Cell :=
  wrap_err "failed to compile contract" (ParseCompiledContract MinterContractPath).
Definition WalletCode (WalletContractPath : string) : res Cell :=
  wrap_err "failed to compile contract" (ParseCompiledContract WalletContractPath).

(** ** The example contracts (test/examples/jetton) *)

Record SenderInitData := { sd_MasterAddress : Address; sd_WalletCode : Cell }.
Definition SenderInitData_tlb : Tlb SenderInitData := tlb_struct (f_iso
  (λ '(a, b), {| sd_MasterAddress := a; sd_WalletCode := b |})
  (λ v, (sd_MasterAddress v, sd_WalletCode v))
  (f_addr ⊗ f_cell)).
Record SendJettonsFastMessage := { sf_QueryID : Z; sf_Amount : Z; sf_Destination : Address }.
Definition SendJettonsFastMessage_tlb : Tlb SendJettonsFastMessage := tlb_struct (f_iso
  (λ '(_, (a, (b, c))), {| sf_QueryID := a; sf_Amount := b; sf_Destination := c |})
  (λ v, (tt, (sf_QueryID v, (sf_Amount v, sf_Destination v))))
  (f_magic 0x4C169F42 ⊗ f_uint 64 ⊗ f_coins ⊗ f_addr)).
Record SendJettonsExtendedMessage := {
  se_QueryID : Z;
  se_Amount : Z;
  se_Destination : Address;
  se_CustomPayload : Cell;
  se_ForwardTonAmount : Z;
  se_ForwardPayload : Cell;
}.
Definition SendJettonsExtendedMessage_tlb : Tlb SendJettonsExtendedMessage := tlb_struct (f_iso
  (λ '(_, (a, (b, (c, (d, (e, f)))))), {| se_QueryID := a; se_Amount := b; se_Destination := c;
    se_CustomPayload := d; se_ForwardTonAmount := e; se_ForwardPayload := f |})
  (λ v, (tt, (se_QueryID v, (se_Amount v, (se_Destination v, (se_CustomPayload v,
         (se_ForwardTonAmount v, se_ForwardPayload v)))))))
  (f_magic 0x7FDA8110 ⊗ f_uint 64 ⊗ f_coins ⊗ f_addr ⊗ f_cell ⊗ f_coins ⊗ f_cell)).

Record OnrampMockInitData := { om_MasterAddress : Address; om_WalletCode : Cell }.
Definition OnrampMockInitData_tlb : Tlb OnrampMockInitData := tlb_struct (f_iso
  (λ '(a, b), {| om_MasterAddress := a; om_WalletCode := b |})
  (λ v, (om_MasterAddress v, om_WalletCode v))
  (f_addr ⊗ f_cell)).
Definition OnrampMockFee : Z := 5.
Definition OnrampMockIncorrectSenderError : Z := 100.
Definition OnrampMockForwardPayloadRequiredError : Z := 101.
Record InsufficientFeeEvent := { if_QueryID : Z; if_Sender : Address }.
Definition InsufficientFeeEvent_tlb : Tlb InsufficientFeeEvent := tlb_struct (f_iso
  (λ '(a, b), {| if_QueryID := a; if_Sender := b |}) (λ v, (if_QueryID v, if_Sender v))
  (f_uint 64 ⊗ f_addr)).
Record AcceptedRequestEvent := { ae_QueryID : Z; ae_Sender : Address; ae_Payload : Cell }.
Definition AcceptedRequestEvent_tlb : Tlb AcceptedRequestEvent := tlb_struct (f_iso
  (λ '(a, (b, c)), {| ae_QueryID := a; ae_Sender := b; ae_Payload := c |})
  (λ v, (ae_QueryID v, (ae_Sender v, ae_Payload v)))
  (f_uint 64 ⊗ f_addr ⊗ f_cell)).
Definition ParseAcceptedRequestEvent (cell : Cell) : res AcceptedRequestEvent :=
  r ← wrap_err "failed to load AcceptedRequestEvent" (LoadFromCell (Tlb := AcceptedRequestEvent_tlb) (BeginParse cell));
  Ok r.1.

Record SimpleJettonReceiverInitData := { sj_JettonClient : Client; sj_AmountChecker : Z; sj_PayloadChecker : option Cell }.
Definition SimpleJettonReceiverInitData_tlb : Tlb SimpleJettonReceiverInitData := tlb_struct (f_iso
  (λ '(a, (b, c)), {| sj_JettonClient := a; sj_AmountChecker := b; sj_PayloadChecker := c |})
  (λ v, (sj_JettonClient v, (sj_AmountChecker v, sj_PayloadChecker v)))
  (f_inline Client_tlb ⊗ f_coins ⊗ f_maybe f_cell)).

(** *** Deploying them *)

Variable MustFromTON : string → res Z.
Variable Deploy : Cell → Cell → Z → Cell → res (Contract * heap).

(** The three providers only differ in their init data and code. *)
Definition deploy_example {T} (t : Tlb T) (path : string) (initData : T) : res Contract :=
  initCell ← wrap_err "failed to convert init data to cell" (ToCell initData);
  compiledContract ← wrap_err "failed to compile contract" (ParseCompiledContract path);
  let body := EndCell BeginCell in
  amount ← MustFromTON "1";
  r ← Deploy compiledContract initCell amount body;
  Ok r.1.
Definition SenderProvider_Deploy := deploy_example SenderInitData_tlb.
Definition OnrampMockProvider_Deploy := deploy_example OnrampMockInitData_tlb.
Definition SimpleJettonReceiverProvider_Deploy := deploy_example SimpleJettonReceiverInitData_tlb.

(** *** Getters of the receiver *)

Variable ExecutionResult : Type.
Variable Get : Contract → string → res ExecutionResult.
Variable ResultInt : ExecutionResult → nat → res Z.
Variable ResultIsNil : ExecutionResult → nat → res bool.
Variable ResultCell : ExecutionResult → nat → res Cell.
Variable MustFromNano : Z → nat → res Z.

Definition GetAmountChecker (r : Contract) : res Z :=
  result ← Get r "amountChecker"; amount ← ResultInt result 0; MustFromNano amount 9.
Definition GetPayloadChecker (r : Contract) : res (option Cell) :=
  result ← wrap_err "failed to get payload checker" (Get r "payloadChecker");
  isPayloadCheckerNil ← wrap_err "failed to check if payload checker is nil" (ResultIsNil result 0);
  if isPayloadCheckerNil : bool then Ok None else
  payload ← wrap_err "failed to get payload checker cell" (ResultCell result 0);
  Ok (Some payload).

(** ** The counter (examples/counter/types.go) *)

Record ContractData := { cd_ID : Z; cd_Value : Z; cd_Ownable : Ownable2Step }.
Definition ContractData_tlb : Tlb ContractData := tlb_struct (f_iso
  (λ '(a, (b, c)), {| cd_ID := a; cd_Value := b; cd_Ownable := c |})
  (λ v, (cd_ID v, (cd_Value v, cd_Ownable v)))
  (f_uint 32 ⊗ f_uint 32 ⊗ f_inline Ownable2Step_tlb)).
Record SetCount := { sc_QueryID : Z; sc_NewCount : Z }.
Definition SetCount_tlb : Tlb SetCount := tlb_struct (f_iso
  (λ '(_, (a, b)), {| sc_QueryID := a; sc_NewCount := b |}) (λ v, (tt, (sc_QueryID v, sc_NewCount v)))
  (f_magic 0x00000004 ⊗ f_uint 64 ⊗ f_uint 32)).
Record IncreaseCount := { ic_QueryID : Z }.
Definition IncreaseCount_tlb : Tlb IncreaseCount := tlb_struct (f_iso
  (λ '(_, a), {| ic_QueryID := a |}) (λ v, (tt, ic_QueryID v))
  (f_magic 0x10000005 ⊗ f_uint 64)).
Record CountSet := { ct_ID : Z; ct_Value : Z }.
Definition CountSet_tlb : Tlb CountSet := tlb_struct (f_iso
  (λ '(a, b), {| ct_ID := a; ct_Value := b |}) (λ v, (ct_ID v, ct_Value v))
  (f_uint 32 ⊗ f_uint 32)).
Record CountIncreased := { ci_ID : Z; ci_Value : Z }.
Definition CountIncreased_tlb : Tlb CountIncreased := tlb_struct (f_iso
  (λ '(a, b), {| ci_ID := a; ci_Value := b |}) (λ v, (ci_ID v, ci_Value v))
  (f_uint 32 ⊗ f_uint 32)).
Definition TopicCountSet : Z := CRC32 "CountSet".
Definition TopicCountIncreased : Z := CRC32 "CountIncreased".

Variable CurrentMasterchainInfo : nat → res BlockIDExt.
Variable RunGetMethod : BlockIDExt → Address → string → res ExecutionResult.
(** The liteclient's error of the getter itself goes through [Uint32From]. *)
Definition counter_getter (addr : Address) (key : string) : res Z :=
  block ← wrap_err "CurrentMasterchainInfo err" (CurrentMasterchainInfo 0);
  Uint32From ExecutionResult ResultInt (RunGetMethod block addr key).
Definition GetValue (addr : Address) : res Z := counter_getter addr "value".
Definition GetID (addr : Address) : res Z := counter_getter addr "id".
End types.
End jetton.
