(* ===== verification/JettonSpec.v ===== *)
(** * JettonSpec: round trips and opcodes of the jetton, example and counter bindings *)

From S2P Require Import Prelude Cells BitCells Tlb Snake SnakeFacts Onramp Contract Jetton.

Section laws.
Import jetton.
Context {AL : AddrLib} {CL : CellLib} {CV : CellView} {CW : CellLaws}.
Variable either_cell : fcodec Cell.
(** The writer of [either . ^] picks the reference. *)
Hypothesis either_lawful : lawful either_cell (λ _, True) 1 1 1.

Definition Client_ok (v : Client) : Prop := std_addr (cl_MasterAddress v).
Definition MinterInitData_ok (v : MinterInitData) : Prop :=
  coins_ok (mi_TotalSupply v) ∧ std_addr (mi_Admin v) ∧ std_addr (mi_TransferAdmin v).
Definition InternalTransferMessage_ok (v : InternalTransferMessage) : Prop :=
  uint_ok 64 (it_QueryID v) ∧ coins_ok (it_Amount v) ∧ std_addr (it_From v) ∧
  std_addr (it_ResponseAddress v) ∧ coins_ok (it_ForwardTonAmount v).
Definition MintMessage_ok (v : MintMessage) : Prop :=
  uint_ok 64 (mm_QueryID v) ∧ std_addr (mm_Destination v) ∧ coins_ok (mm_TonAmount v) ∧
  InternalTransferMessage_ok (mm_MasterMsg v).
Definition ChangeAdminMessage_ok (v : ChangeAdminMessage) : Prop :=
  uint_ok 64 (ca_QueryID v) ∧ std_addr (ca_NewAdmin v).
Definition ChangeContentMessage_ok (v : ChangeContentMessage) : Prop := uint_ok 64 (cc_QueryID v).
Definition UpgradeMessage_ok (v : UpgradeMessage) : Prop := uint_ok 64 (um_QueryID v).
Definition WalletInitData_ok (v : WalletInitData) : Prop :=
  uint_ok 4 (wi_Status v) ∧ coins_ok (wi_Balance v) ∧ std_addr (wi_OwnerAddress v) ∧ std_addr (wi_MasterAddress v).
Definition SendJettonsFastMessage_ok (v : SendJettonsFastMessage) : Prop :=
  uint_ok 64 (sf_QueryID v) ∧ coins_ok (sf_Amount v) ∧ std_addr (sf_Destination v).
Definition SendJettonsExtendedMessage_ok (v : SendJettonsExtendedMessage) : Prop :=
  uint_ok 64 (se_QueryID v) ∧ coins_ok (se_Amount v) ∧ std_addr (se_Destination v) ∧ coins_ok (se_ForwardTonAmount v).
Definition AcceptedRequestEvent_ok (v : AcceptedRequestEvent) : Prop :=
  uint_ok 64 (ae_QueryID v) ∧ std_addr (ae_Sender v).
Definition SimpleJettonReceiverInitData_ok (v : SimpleJettonReceiverInitData) : Prop :=
  Client_ok (sj_JettonClient v) ∧ coins_ok (sj_AmountChecker v) ∧ opt_ok (λ _, True) (sj_PayloadChecker v).
Definition ContractData_ok (v : ContractData) : Prop :=
  uint_ok 32 (cd_ID v) ∧ uint_ok 32 (cd_Value v) ∧ Ownable2Step_ok (cd_Ownable v).
Definition SetCount_ok (v : SetCount) : Prop := uint_ok 64 (sc_QueryID v) ∧ uint_ok 32 (sc_NewCount v).
Definition CountSet_ok (v : CountSet) : Prop := uint_ok 32 (ct_ID v) ∧ uint_ok 32 (ct_Value v).

Lemma Client_lawful : stream_lawful Client_tlb Client_ok 267 267 1.
Proof. solve_lawful. Qed.
Lemma MinterInitData_lawful : stream_lawful MinterInitData_tlb MinterInitData_ok 538 658 2.
Proof. solve_lawful. Qed.
Lemma InternalTransfer_lawful :
  stream_lawful (InternalTransferMessage_tlb either_cell) InternalTransferMessage_ok 639 879 1.
Proof. pose proof either_lawful. solve_lawful. Qed.
Lemma MintMessage_lawful : stream_lawful (MintMessage_tlb either_cell) MintMessage_ok 367 487 1.
Proof. pose proof InternalTransfer_lawful. solve_lawful. Qed.
Lemma ChangeAdminMessage_lawful : stream_lawful ChangeAdminMessage_tlb ChangeAdminMessage_ok 363 363 0.
Proof. solve_lawful. Qed.
Lemma ChangeContentMessage_lawful : stream_lawful ChangeContentMessage_tlb ChangeContentMessage_ok 96 96 1.
Proof. solve_lawful. Qed.
Lemma UpgradeMessage_lawful : stream_lawful UpgradeMessage_tlb UpgradeMessage_ok 96 96 2.
Proof. solve_lawful. Qed.
Lemma WalletInitData_lawful : stream_lawful WalletInitData_tlb WalletInitData_ok 542 662 0.
Proof. solve_lawful. Qed.
Lemma SendJettonsFast_lawful : stream_lawful SendJettonsFastMessage_tlb SendJettonsFastMessage_ok 367 487 0.
Proof. solve_lawful. Qed.
Lemma SendJettonsExtended_lawful :
  stream_lawful SendJettonsExtendedMessage_tlb SendJettonsExtendedMessage_ok 371 611 2.
Proof. solve_lawful. Qed.
Lemma AcceptedRequestEvent_lawful : stream_lawful AcceptedRequestEvent_tlb AcceptedRequestEvent_ok 331 331 1.
Proof. solve_lawful. Qed.
Lemma SimpleJettonReceiver_lawful :
  stream_lawful SimpleJettonReceiverInitData_tlb SimpleJettonReceiverInitData_ok 272 393 2.
Proof. pose proof Client_lawful. solve_lawful. Qed.
Lemma ContractData_lawful : stream_lawful ContractData_tlb ContractData_ok 332 599 0.
Proof. pose proof Ownable2Step_lawful. solve_lawful. Qed.
Lemma SetCount_lawful : stream_lawful SetCount_tlb SetCount_ok 128 128 0.
Proof. solve_lawful. Qed.
Lemma CountSet_lawful : stream_lawful CountSet_tlb CountSet_ok 64 64 0.
Proof. solve_lawful. Qed.

Lemma minter_messages_table : opcode_table (minter_messages either_cell).
Proof. solve_table. Qed.

(** The messages and storage of the minter, the jetton wallet, the example
    contracts and the counter are read back as written, and no slice is accepted as
    two of the minter's messages, whose tags are the opcodes the package names. *)
Theorem jetton_bindings :
  (cell_lawful (MintMessage_tlb either_cell) MintMessage_ok ∧
   cell_lawful (InternalTransferMessage_tlb either_cell) InternalTransferMessage_ok ∧
   cell_lawful ChangeAdminMessage_tlb ChangeAdminMessage_ok ∧
   cell_lawful ChangeContentMessage_tlb ChangeContentMessage_ok ∧ cell_lawful UpgradeMessage_tlb UpgradeMessage_ok ∧
   cell_lawful MinterInitData_tlb MinterInitData_ok ∧ cell_lawful WalletInitData_tlb WalletInitData_ok ∧
   cell_lawful SendJettonsFastMessage_tlb SendJettonsFastMessage_ok ∧
   cell_lawful SendJettonsExtendedMessage_tlb SendJettonsExtendedMessage_ok ∧
   cell_lawful SimpleJettonReceiverInitData_tlb SimpleJettonReceiverInitData_ok ∧
   cell_lawful ContractData_tlb ContractData_ok ∧ cell_lawful SetCount_tlb SetCount_ok ∧
   cell_lawful CountSet_tlb CountSet_ok) ∧
  (∀ s i j m n, minter_messages either_cell !! i = Some m → minter_messages either_cell !! j = Some n →
     m.2 s = true → n.2 s = true → i = j).
Proof.
  split.
  - split_and!; eapply stream_cell;
      first [apply MintMessage_lawful | apply InternalTransfer_lawful | apply ChangeAdminMessage_lawful
            | apply ChangeContentMessage_lawful | apply UpgradeMessage_lawful | apply MinterInitData_lawful
            | apply WalletInitData_lawful | apply SendJettonsFast_lawful | apply SendJettonsExtended_lawful
            | apply SimpleJettonReceiver_lawful | apply ContractData_lawful | apply SetCount_lawful | apply CountSet_lawful].
  - apply opcode_table_unique; [apply minter_messages_table|apply distinct_NoDup; reflexivity].
Qed.

(** The init data of a jetton wallet is written for any pair of standard
    addresses, and holds an empty, unlocked wallet of that owner and minter. *)
Theorem GetWalletInitCell_decodes (minter owner : Address) (Hm : std_addr minter) (Ho : std_addr owner) :
  ∃ c, GetWalletInitCell (NewWalletProvider minter) owner = Ok c ∧
    decodes WalletInitData_tlb c {| wi_Status := 0; wi_Balance := 0; wi_OwnerAddress := owner; wi_MasterAddress := minter |}.
Proof.
  set (v := {| wi_Status := 0; wi_Balance := 0; wi_OwnerAddress := owner; wi_MasterAddress := minter |}).
  assert (WalletInitData_ok v) as Hv by (split_and!; [unfold uint_ok; cbn; lia|unfold coins_ok; cbn; lia|done|done]).
  destruct (stream_cell _ _ _ _ _ WalletInitData_lawful v Hv) as (c & E & Hd). exists c. split; [|done].
  unfold GetWalletInitCell. change (ToCell (Tlb := WalletInitData_tlb) _) with (ToCell (Tlb := WalletInitData_tlb) v).
  by rewrite E.
Qed.

(** An accepted request that the example contract emitted is parsed. *)
Theorem ParseAcceptedRequestEvent_emitted (e : AcceptedRequestEvent) (He : AcceptedRequestEvent_ok e) :
  ∃ c, ToCell (Tlb := AcceptedRequestEvent_tlb) e = Ok c ∧ ParseAcceptedRequestEvent c = Ok e.
Proof.
  destruct (stream_cell _ _ _ _ _ AcceptedRequestEvent_lawful e He) as (c & E & s & Hd). exists c. split; [done|].
  unfold ParseAcceptedRequestEvent. by rewrite Hd.
Qed.
End laws.

(** ** Runs *)

Module JettonRuns.
Import BitCells.

(** A writer of [either . ^] that picks the reference. *)
Definition either_ref : fcodec Cell :=
  f_iso (λ '(_, c), c) (λ c, (true, c)) (f_pair f_bool f_cell).

Lemma either_ref_lawful : lawful either_ref (λ _, True) 1 1 1.
Proof.
  eapply lawful_weaken; [eapply lawful_iso; [eapply lawful_pair; [apply lawful_bool|apply lawful_cell]| |reflexivity]| | | |];
    [intros a Ha; split; exact I|intros a Ha; exact Ha|lia|lia|lia].
Defined.

Lemma jetton_bindings_witness :
  cell_lawful (jetton.MintMessage_tlb either_ref) MintMessage_ok.
Proof. apply (jetton_bindings (CW:=BitLaws) either_ref either_ref_lawful). Defined.

Lemma GetWalletInitCell_decodes_witness (a := NewAddress x00 x00 (replicate 32 x01)) :
  ∃ c, jetton.GetWalletInitCell (jetton.NewWalletProvider a) a = Ok c.
Proof.
  destruct (GetWalletInitCell_decodes (CW:=BitLaws) a a) as (c & E & _);
    [exists x00, (replicate 32 x01); split; reflexivity|exists x00, (replicate 32 x01); split; reflexivity|].
  exists c. exact E.
Defined.
End JettonRuns.
