(* ===== verification/NodeConfig.v ===== *)
(** * NodeConfig: pkg/config

    The configuration of a chain and its nodes: validation, defaults and the
    merge of one configuration into another.  Nodes are shared by pointers, so
    they live in a heap; the TOML decoder is a parameter, and so is the URL type,
    of which only the string is used. *)

From S2P Require Import Prelude Cells Trace TxStore.

Definition ChainFamilyName : string := "ton".

(** [Chain]: the transaction manager's configuration can be nil, the time to
    live of a client is in nanoseconds. *)
Record Chain := { TransactionManager : option TxStore.Config; ClientTTL : Z }.
Definition DefaultConfigSet : Chain := {|
  TransactionManager := Some TxStore.DefaultConfigSet;
  ClientTTL := 10 * Minute;
|}.

Record Node := { n_Name : option string; n_URL : option string }.
Abbreviation node_ptr := nat.
Abbreviation node_heap := (list Node).

Record TOMLConfig := {
  Enabled : option bool;
  ChainID : string;
  NetworkName : string;
  NetworkNameFull : string;
  cfg_Chain : Chain;
  Nodes : list node_ptr;
}.

(** ** Validation

    An error built with [errors.Join] is the list of its parts; nil is []. *)

Inductive ConfigErr := ErrMissing (name : string) | ErrEmpty (name : string).

Definition Node_ValidateConfig (n : Node) : list ConfigErr :=
  match n_Name n with
  | None => [ErrMissing "Name"]
  | Some name => if bool_decide (name = "") then [ErrEmpty "Name"] else []
  end ++
  match n_URL n with
  | None => [ErrMissing "URL"]
  | Some url => if bool_decide (url = "") then [ErrEmpty "URL"] else []
  end.

Definition load_node (h : node_heap) (p : node_ptr) : res Node :=
  match h !! p with Some n => Ok n | None => Panic "nil pointer dereference" end.

Definition ValidateConfig (h : node_heap) (c : TOMLConfig) : res (list ConfigErr) :=
  let err := if bool_decide (ChainID c = "") then [ErrEmpty "ChainID"] else [] in
  if length (Nodes c) =? 0 then Ok (err ++ [ErrMissing "Nodes"]) else
  nodes ← res_map (load_node h) (Nodes c);
  Ok (err ++ (nodes ≫= Node_ValidateConfig)).

(** ** Defaults *)

Definition IsEnabled (c : TOMLConfig) : bool :=
  match Enabled c with None => true | Some b => b end.

Definition SetDefaults (c : TOMLConfig) : TOMLConfig := {|
  Enabled := Enabled c;
  ChainID := ChainID c;
  NetworkName := NetworkName c;
  NetworkNameFull := if bool_decide (NetworkNameFull c = "") then ChainFamilyName +:+ "-" +:+ NetworkName c
                     else NetworkNameFull c;
  cfg_Chain := {| TransactionManager := match TransactionManager (cfg_Chain c) with
                                        | None => TransactionManager DefaultConfigSet
                                        | Some t => Some t
                                        end;
                  ClientTTL := ClientTTL (cfg_Chain c) |};
  Nodes := Nodes c;
|}.

Definition NewDecodedTOMLConfig (Decode : string → res (node_heap * TOMLConfig)) (rawConfig : string)
    : res (node_heap * TOMLConfig) :=
  r ← wrap_err "failed to decode config toml" (Decode rawConfig);
  let '(h, cfg) := (r : node_heap * TOMLConfig) in
  err ← ValidateConfig h cfg;
  if negb (length (err : list ConfigErr) =? 0) then Err "invalid ton config" else
  if negb (IsEnabled cfg) then Err "cannot create new chain: config is disabled" else
  Ok (h, SetDefaults cfg).

(** ** Merging *)

Definition setFromChain (c f : Chain) : Chain :=
  {| TransactionManager := match TransactionManager f with Some t => Some t | None => TransactionManager c end;
     ClientTTL := ClientTTL c |}.

Definition setFromNode (n f : Node) : Node :=
  {| n_Name := match n_Name f with Some x => Some x | None => n_Name n end;
     n_URL := match n_URL f with Some x => Some x | None => n_URL n end |}.

(** [slices.IndexFunc]: the first pointer of [ns] to a node of that name. *)
Fixpoint index_name (h : node_heap) (name : string) (ns : list node_ptr) : res (option node_ptr) :=
  match ns with
  | [] => Ok None
  | p :: ns' => n ← load_node h p;
      if bool_decide (n_Name n = Some name) then Ok (Some p) else index_name h name ns'
  end.

(** The loop of [SetFrom]: appending shares the pointer, merging updates the node. *)
Fixpoint Nodes_SetFrom (h : node_heap) (ns fs : list node_ptr) : res (node_heap * list node_ptr) :=
  match fs with
  | [] => Ok (h, ns)
  | p :: fs' =>
      f ← load_node h p;
      match n_Name f with
      | None => Nodes_SetFrom h (ns ++ [p]) fs'
      | Some name =>
          i ← index_name h name ns;
          match i with
          | None => Nodes_SetFrom h (ns ++ [p]) fs'
          | Some q => n ← load_node h q; Nodes_SetFrom (<[q := setFromNode n f]> h) ns fs'
          end
      end
  end.

Definition SetFrom (h : node_heap) (c f : TOMLConfig) : res (node_heap * TOMLConfig) :=
  r ← Nodes_SetFrom h (Nodes c) (Nodes f);
  Ok (r.1, {| Enabled := Enabled f; ChainID := ChainID f; NetworkName := NetworkName f;
              NetworkNameFull := NetworkNameFull f; cfg_Chain := setFromChain (cfg_Chain c) (cfg_Chain f);
              Nodes := r.2 |}).

(** ** What the configuration promises *)

Definition node_ok (n : Node) : Prop :=
  ∃ name url, n_Name n = Some name ∧ name ≠ ""%string ∧ n_URL n = Some url ∧ url ≠ ""%string.

Lemma Node_valid n : Node_ValidateConfig n = [] ↔ node_ok n.
Proof.
  unfold Node_ValidateConfig, node_ok. destruct n as [[name|] [url|]]; cbn; repeat case_bool_decide; cbn;
    (split; [intros E|intros (a & b & [= <-] & Ha & [= <-] & Hb)]); try done; by eexists _, _.
Qed.

Lemma Nodes_valid ns : (ns ≫= Node_ValidateConfig) = [] ↔ Forall node_ok ns.
Proof.
  induction ns as [|n ns IH]; [done|]. rewrite bind_cons, Forall_cons, <- IH, <- Node_valid. split.
  - intros E. by apply app_nil in E.
  - by intros [-> ->].
Qed.

(** A configuration is accepted exactly when it decodes, names a chain, has
    at least one node, every node has a name and a URL, and it is not disabled; the
    result always has a transaction manager's configuration and a full network
    name, while the time to live of a client stays what the text said. *)
Theorem NewDecodedTOMLConfig_spec (Decode : string → res (node_heap * TOMLConfig)) (raw : string)
    (h : node_heap) (cfg : TOMLConfig) :
  NewDecodedTOMLConfig Decode raw = Ok (h, cfg) ↔
  ∃ c ns, Decode raw = Ok (h, c) ∧ cfg = SetDefaults c ∧ ChainID c ≠ ""%string ∧ ns ≠ [] ∧
    res_map (load_node h) (Nodes c) = Ok ns ∧ Forall node_ok ns ∧ IsEnabled c = true ∧
    is_Some (TransactionManager (cfg_Chain cfg)) ∧ NetworkNameFull cfg ≠ ""%string ∧
    ClientTTL (cfg_Chain cfg) = ClientTTL (cfg_Chain c).
Proof.
  assert (∀ c, is_Some (TransactionManager (cfg_Chain (SetDefaults c))) ∧
            NetworkNameFull (SetDefaults c) ≠ ""%string) as Hdef.
  { intros c. unfold SetDefaults. cbn. split; [destruct (TransactionManager _); by eexists|]. by case_bool_decide. }
  unfold NewDecodedTOMLConfig. split.
  - intros ([h0 c] & Hd & H)%bind_ok. apply wrap_err_ok in Hd. apply bind_ok in H as (err & He & H).
    unfold ValidateConfig in He. destruct (Nat.eqb_spec (length (Nodes c)) 0) as [|Hn].
    { injection He as <-. rewrite length_app in H. cbn in H. by rewrite Nat.add_1_r in H. }
    apply bind_ok in He as (ns & Hns & [= <-]).
    destruct ((if bool_decide (ChainID c = "") then _ else _) ++ _) as [|e es] eqn:E; [|done]. cbn in H.
    apply app_nil in E as [E1 E2]. apply Nodes_valid in E2. case_bool_decide as Hid; [done|].
    destruct (IsEnabled c) eqn:Ee; [|done]. injection H as <- <-. exists c, ns.
    split_and!; try done; try apply Hdef. intros ->. apply res_map_ok_inv, Forall2_length in Hns. done.
  - intros (c & ns & Hd & -> & Hid & Hne & Hns & Hall & He & _). rewrite Hd. cbn [mbind res_bind wrap_err].
    unfold ValidateConfig. assert (length (Nodes c) ≠ 0) as Hl.
    { apply res_map_ok_inv, Forall2_length in Hns. destruct ns; [done|]. cbn in Hns. lia. }
    rewrite (proj2 (Nat.eqb_neq _ _)), Hns by done. cbn [mbind res_bind].
    rewrite bool_decide_eq_false_2, (proj2 (Nodes_valid ns)) by done. cbn. by rewrite He.
Qed.

(** *** Merging against a map from names to URLs *)

(** The URL of the first node with a name. *)
Fixpoint url_of (ns : list Node) (name : string) : option string :=
  match ns with
  | [] => None
  | n :: ns' => if bool_decide (n_Name n = Some name) then n_URL n else url_of ns' name
  end.
(** Merging one node into a list of nodes, and a list of nodes. *)
Fixpoint merge_node (ns : list Node) (f : Node) : list Node :=
  match ns with
  | [] => [f]
  | n :: ns' => if bool_decide (is_Some (n_Name f) ∧ n_Name n = n_Name f) then setFromNode n f :: ns'
                else n :: merge_node ns' f
  end.
Definition merge_nodes (ns fs : list Node) : list Node := foldl merge_node ns fs.

(** The nodes behind pointers. *)
Definition view (h : node_heap) (ps : list node_ptr) (ns : list Node) : Prop :=
  Forall2 (λ p n, h !! p = Some n) ps ns.

Lemma load_node_ok h p n : h !! p = Some n → load_node h p = Ok n.
Proof. unfold load_node. by intros ->. Qed.

Lemma view_update h ps ns q x : view h ps ns → q ∉ ps → view (<[q := x]> h) ps ns.
Proof.
  induction 1 as [|p n ps ns Hp _ IH]; intros Hq; [constructor|]. apply not_elem_of_cons in Hq as [Hne Hq].
  constructor; [by rewrite list_lookup_insert_ne|by apply IH].
Qed.

Lemma index_merge h ps ns f name :
  view h ps ns → NoDup ps → n_Name f = Some name →
  ∃ o, index_name h name ps = Ok o ∧
    match o with
    | None => merge_node ns f = ns ++ [f]
    | Some q => q ∈ ps ∧ ∃ n, h !! q = Some n ∧ n_Name n = Some name ∧
                  view (<[q := setFromNode n f]> h) ps (merge_node ns f)
    end.
Proof.
  intros Hv Hnd Hf. induction Hv as [|p n ps ns Hp Hv IH]; [by exists None|].
  apply NoDup_cons in Hnd as [Hni Hnd]. cbn [index_name merge_node]. rewrite (load_node_ok h p n Hp).
  cbn [mbind res_bind]. rewrite Hf. case_bool_decide as Hn.
  - exists (Some p). split; [done|]. split; [apply list_elem_of_here|]. exists n. split_and!; [done|done|].
    rewrite bool_decide_eq_true_2 by done. constructor; [|by apply view_update].
    apply list_lookup_insert_eq. by eapply lookup_lt_Some.
  - destruct (IH Hnd) as (o & Ho & Hspec). exists o. split; [exact Ho|].
    rewrite bool_decide_eq_false_2 by tauto. destruct o as [q|].
    + destruct Hspec as (Hq & m & Hm & Hname & Hview). split; [by apply list_elem_of_further|].
      exists m. split_and!; [done|done|]. constructor; [|done]. rewrite list_lookup_insert_ne; [done|].
      intros ->. congruence.
    + by rewrite Hspec.
Qed.

(** Nodes whose names do not occur among those still to be merged stay as they are. *)
Definition apart (ns fs : list Node) : Prop :=
  ∀ n name, n ∈ ns → n_Name n = Some name → name ∉ omap n_Name fs.

Lemma apart_step D f F :
  NoDup (omap n_Name (f :: F)) → apart D (f :: F) → NoDup (omap n_Name F) ∧ apart (D ++ [f]) F.
Proof.
  intros Hnames Hap. cbn in Hnames.
  split; [destruct (n_Name f); [by apply NoDup_cons in Hnames as [_ ?]|done]|].
  intros n name [Hn| ->%list_elem_of_singleton]%elem_of_app Hname.
  - specialize (Hap n name Hn Hname). cbn in Hap. destruct (n_Name f); [|done]. by apply not_elem_of_cons in Hap as [_ ?].
  - rewrite Hname in Hnames. by apply NoDup_cons in Hnames as [? _].
Qed.

Lemma merge_node_unnamed ns f : n_Name f = None → merge_node ns f = ns ++ [f].
Proof.
  intros Hf. induction ns as [|n ns IH]; [done|]. cbn. rewrite bool_decide_eq_false_2, IH; [done|].
  rewrite Hf. by intros [[? ?] _].
Qed.

Lemma merge_ok h ps fs ds N F D :
  view h ps N → view h fs F → view h ds D → NoDup (ps ++ fs) → NoDup (omap n_Name F) → apart D F →
  ∃ h' ps', Nodes_SetFrom h ps fs = Ok (h', ps') ∧ view h' ps' (merge_nodes N F) ∧ view h' (ds ++ fs) (D ++ F) ∧
    ps `prefix_of` ps'.
Proof.
  revert h ps ds N F D. induction fs as [|p fs IH]; intros h ps ds N F D HN HF HD Hnd Hnames Hap.
  { apply Forall2_nil_inv_l in HF as ->. exists h, ps. rewrite !app_nil_r. by split_and!. }
  apply Forall2_cons_inv_l in HF as (f & F' & Hp & HF & ->).
  destruct (apart_step D f F' Hnames Hap) as [Hnames' Hap'].
  assert (view h (ds ++ [p]) (D ++ [f])) as HD' by (apply Forall2_app; [done|by repeat constructor]).
  assert (∀ N1, N1 = N ++ [f] → ∃ h' ps', Nodes_SetFrom h (ps ++ [p]) fs = Ok (h', ps') ∧
    view h' ps' (merge_nodes N1 F') ∧ view h' (ds ++ p :: fs) (D ++ f :: F') ∧ ps `prefix_of` ps') as Happend.
  { intros N1 ->. destruct (IH h (ps ++ [p]) (ds ++ [p]) (N ++ [f]) F' (D ++ [f])) as (h' & ps' & E & V1 & V2 & Hpre);
      try done; [apply Forall2_app; [done|by repeat constructor]|by rewrite <- app_assoc|].
    exists h', ps'. rewrite <- !app_assoc in V2. split_and!; try done. etrans; [|exact Hpre]. by eexists. }
  cbn [Nodes_SetFrom]. rewrite (load_node_ok h p f Hp). cbn [mbind res_bind]. cbn [merge_nodes foldl].
  destruct (n_Name f) as [name|] eqn:Ef; [|apply Happend; by apply merge_node_unnamed].
  assert (NoDup ps) as Hndps by by apply NoDup_app in Hnd as (? & _ & _).
  destruct (index_merge h ps N f name HN Hndps Ef) as ([q|] & -> & Ho); cbn [mbind res_bind]; [|by apply Happend].
  destruct Ho as (Hq & n & Hn & Hname & Hview). rewrite (load_node_ok h q n Hn). cbn [mbind res_bind].
  apply NoDup_app in Hnd as (_ & Hdis & Hnd). pose proof (Hdis q Hq) as Hdq. apply not_elem_of_cons in Hdq as [Hqp Hqfs].
  apply NoDup_cons in Hnd as [Hpfs Hnd].
  assert (q ∉ ds) as Hqds.
  { intros [k Hk]%list_elem_of_lookup. destruct (Forall2_lookup_l _ _ _ _ _ HD Hk) as (n' & Hn' & Hqn).
    assert (n' = n) as -> by congruence. apply (Hap n name); [by eapply list_elem_of_lookup_2|done|].
    cbn. rewrite Ef. apply list_elem_of_here. }
  destruct (IH (<[q := setFromNode n f]> h) ps (ds ++ [p]) (merge_node N f) F' (D ++ [f]))
    as (h' & ps' & E & V1 & V2 & Hpre); try done; [by apply view_update| | |].
  - apply view_update; [done|]. rewrite elem_of_app, list_elem_of_singleton. tauto.
  - apply NoDup_app. split_and!; [done| |done]. intros r Hr Hrf.
    by apply (Hdis r Hr), list_elem_of_further.
  - exists h', ps'. rewrite <- !app_assoc in V2. by split_and!.
Qed.

Lemma url_of_merge ns f name :
  url_of (merge_node ns f) name
  = if bool_decide (n_Name f = Some name) then match n_URL f with Some u => Some u | None => url_of ns name end
    else url_of ns name.
Proof.
  induction ns as [|n ns IH]; cbn.
  { case_bool_decide; [|done]. by destruct (n_URL f). }
  destruct (decide (is_Some (n_Name f) ∧ n_Name n = n_Name f)) as [[[m Hm] Hn]|Hn].
  - rewrite (bool_decide_eq_true_2 (is_Some _ ∧ _)) by (by rewrite Hn, Hm). cbn. rewrite Hn, Hm.
    repeat case_bool_decide; try done; by destruct (n_URL f).
  - rewrite (bool_decide_eq_false_2 (is_Some _ ∧ _)) by done. cbn. rewrite IH.
    repeat case_bool_decide; try done. destruct Hn. split; [by eexists|congruence].
Qed.

Lemma url_of_absent ns name : name ∉ omap n_Name ns → url_of ns name = None.
Proof.
  induction ns as [|n ns IH]; [done|]. cbn. intros H. destruct (n_Name n) as [m|]; [|by apply IH].
  apply not_elem_of_cons in H as [Hne H]. rewrite bool_decide_eq_false_2 by congruence. by apply IH.
Qed.

Lemma url_of_merges ns fs name :
  NoDup (omap n_Name fs) →
  url_of (merge_nodes ns fs) name = match url_of fs name with Some u => Some u | None => url_of ns name end.
Proof.
  revert ns. induction fs as [|f fs IH]; intros ns Hnd; [done|]. cbn [merge_nodes foldl url_of].
  assert (NoDup (omap n_Name fs)) as Hnd'.
  { cbn in Hnd. destruct (n_Name f); [by apply NoDup_cons in Hnd as [_ ?]|done]. }
  unfold merge_nodes in IH. rewrite IH, url_of_merge by done. case_bool_decide as Hf; [|done].
  cbn in Hnd. rewrite Hf in Hnd. apply NoDup_cons in Hnd as [Hni _]. by rewrite (url_of_absent fs).
Qed.

(** Merging a configuration whose named nodes have distinct names into another
    keeps the pointers of the latter and appends those of the new nodes; the nodes
    then behind the pointers are the merge of the two lists, in which every name has
    the URL of the merged configuration if it gives one and its old URL otherwise,
    and the merged configuration's own nodes are not touched. *)
Theorem SetFrom_merges (h : node_heap) (c f : TOMLConfig) (N F : list Node)
    (HN : view h (Nodes c) N) (HF : view h (Nodes f) F)
    (Hptr : NoDup (Nodes c ++ Nodes f)) (Hnames : NoDup (omap n_Name F)) :
  ∃ h' c', SetFrom h c f = Ok (h', c') ∧ view h' (Nodes c') (merge_nodes N F) ∧ view h' (Nodes f) F ∧
    Nodes c `prefix_of` Nodes c' ∧
    (∀ name, url_of (merge_nodes N F) name
             = match url_of F name with Some u => Some u | None => url_of N name end) ∧
    Enabled c' = Enabled f ∧ ChainID c' = ChainID f ∧ ClientTTL (cfg_Chain c') = ClientTTL (cfg_Chain c) ∧
    TransactionManager (cfg_Chain c')
    = match TransactionManager (cfg_Chain f) with Some t => Some t | None => TransactionManager (cfg_Chain c) end.
Proof.
  destruct (merge_ok h (Nodes c) (Nodes f) [] N F []) as (h' & ps' & E & V1 & V2 & Hpre); try done.
  { constructor. }
  { by intros n name ?%elem_of_nil. }
  exists h'. unfold SetFrom. rewrite E. cbn [mbind res_bind fst snd]. eexists. split; [reflexivity|].
  cbn. split_and!; try done. intros name. by apply url_of_merges.
Qed.

(** ** Runs *)

Module ConfigRuns.

Definition node1 : Node := {| n_Name := Some "a"%string; n_URL := Some "https://a"%string |}.
Definition node2 : Node := {| n_Name := Some "a"%string; n_URL := Some "https://b"%string |}.
Definition node3 : Node := {| n_Name := None; n_URL := Some "https://c"%string |}.
Definition heap1 : node_heap := [node1; node2; node3].
Definition config1 (ns : list node_ptr) : TOMLConfig :=
  {| Enabled := None; ChainID := "-3"; NetworkName := "testnet"; NetworkNameFull := "";
     cfg_Chain := {| TransactionManager := None; ClientTTL := 0 |}; Nodes := ns |}.
Definition decode1 : string → res (node_heap * TOMLConfig) := λ _, Ok (heap1, config1 [0]).

Lemma NewDecodedTOMLConfig_spec_witness :
  NewDecodedTOMLConfig decode1 "" = Ok (heap1, SetDefaults (config1 [0])).
Proof.
  apply (NewDecodedTOMLConfig_spec decode1 ""). exists (config1 [0]), [node1]. split_and!; try done.
  - constructor; [|constructor]. by exists "a"%string, "https://a"%string.
Defined.

Lemma SetFrom_merges_witness :
  ∃ h' c', SetFrom heap1 (config1 [0]) (config1 [1; 2]) = Ok (h', c') ∧ view h' (Nodes c') [node2; node3].
Proof.
  destruct (SetFrom_merges heap1 (config1 [0]) (config1 [1; 2]) [node1] [node2; node3]) as (h' & c' & E & V & _).
  - by repeat constructor.
  - by repeat constructor.
  - cbn. repeat constructor; set_solver.
  - cbn. repeat constructor; set_solver.
  - by exists h', c'.
Defined.
End ConfigRuns.
