(* ===== verification/Relay.v ===== *)
(** * Relay: pkg/relay/chain.go and service.go

    The chain: its nodes, the cache of liteclients behind a lock, and the wallet
    of its first account; and the service that reads balances and blocks and
    enqueues transactions for the node.  What a node answers is a record of the
    outcomes of the calls to it, in the order the code makes them.  A function
    that changes the cache returns its result together with the new cache, so an
    error keeps what was evicted. *)

From S2P Require Import Prelude Cells ExitCodes Trace TxStore Txm Transmitter Loader Strconv NodeConfig.

(** ** The client cache *)

Section cache.
(** A liteclient of tonutils-go. *)
Context {Client : Type}.

Record cachedClient := { cc_client : Client; cc_timestamp : Z }.

(** The cache is a Go map from node indexes; None is the nil map, from which
    reading and deleting is allowed. *)
Abbreviation client_cache := (option (gmap nat cachedClient)).

(** The outcomes of building a client for a node: fetching its configuration,
    connecting, the head block, its data, and the client. *)
Record NodeAnswers := {
  na_config : res unit;
  na_connect : res unit;
  na_client : Client;
  na_head : res unit;
  na_GlobalID : res Z;
}.

Record chain := {
  ch_id : string;
  ch_nodes : list Node;
  ch_ClientTTL : Z;
}.

Definition evictClient (index : nat) (m : client_cache) : client_cache := delete index <$> m.
Definition cache_put (index : nat) (e : cachedClient) (m : client_cache) : res client_cache :=
  match m with
  | None => Panic "assignment to entry in nil map"
  | Some c => Ok (Some (<[index := e]> c))
  end.

(** [*node.Name] in the call that evicts a client. *)
Definition evict_named (index : nat) (node : Node) (m : client_cache) : res client_cache :=
  match n_Name node with
  | None => Panic "nil pointer dereference"
  | Some _ => Ok (evictClient index m)
  end.

Variable answers : nat → NodeAnswers.

(** Building a new client for a node that is not cached: the client, or None to
    go on with the next node, and the cache and the last error.  [now] is the
    reading of the clock. *)
Definition build_client (c : chain) (now : Z) (i : nat) (node : Node) (m : client_cache) (lastErr : option string)
    : res (option Client * client_cache * option string) :=
  match n_URL node with
  | None => Panic "nil pointer dereference"
  | Some _ =>
      let a := answers i in
      match na_config a, na_connect a, na_head a, na_GlobalID a with
      | Panic p, _, _, _ | Ok _, Panic p, _, _ | Ok _, Ok _, Panic p, _ | Ok _, Ok _, Ok _, Panic p => Panic p
      | Diverge, _, _, _ | Ok _, Diverge, _, _ | Ok _, Ok _, Diverge, _ | Ok _, Ok _, Ok _, Diverge => Diverge
      | Err _, _, _, _ => Ok (None, m, lastErr)
      | Ok _, Err e, _, _ => Ok (None, m, Some e)
      | Ok _, Ok _, Err e, _ | Ok _, Ok _, Ok _, Err e => m ← evict_named i node m; Ok (None, m, Some e)
      | Ok _, Ok _, Ok _, Ok chainID =>
          if negb (bool_decide (FormatInt chainID = ch_id c)) then Ok (None, m, lastErr) else
          m ← cache_put i {| cc_client := na_client a; cc_timestamp := now |} m;
          Ok (Some (na_client a), m, lastErr)
      end
  end.

(** One node of the loop: a cached client that is not too old, or a new one. *)
Definition try_node (c : chain) (now : Z) (i : nat) (m : client_cache) (lastErr : option string)
    : res (option Client * client_cache * option string) :=
  match ch_nodes c !! i with
  | None => Panic "index out of range"
  | Some node =>
      match m ≫= λ c, c !! i with
      | Some entry =>
          if (now - cc_timestamp entry <? ch_ClientTTL c)%Z then Ok (Some (cc_client entry), m, lastErr)
          else build_client c now i node (evictClient i m) lastErr
      | None => build_client c now i node m lastErr
      end
  end.

Fixpoint try_nodes (c : chain) (now : Z) (indexes : list nat) (m : client_cache) (lastErr : option string)
    : res (option Client * client_cache * option string) :=
  match indexes with
  | [] => Ok (None, m, lastErr)
  | i :: indexes' =>
      r ← try_node c now i m lastErr;
      match r with
      | (Some cl, m, e) => Ok (Some cl, m, e)
      | (None, m, e) => try_nodes c now indexes' m e
      end
  end.

(** [indexes] is the outcome of [rand.Perm].  The client or an error, and the cache. *)
Definition GetClient (c : chain) (now : Z) (indexes : list nat) (m : client_cache)
    : res ((Client + string) * client_cache) :=
  if length (ch_nodes c) =? 0 then Ok (inr "no nodes available"%string, m) else
  r ← try_nodes c now indexes m None;
  match r with
  | (Some cl, m, _) => Ok (inl cl, m)
  | (None, m, _) => Ok (inr "no valid TON nodes available"%string, m)
  end.
End cache.
Abbreviation client_cache Client := (option (gmap nat (@cachedClient Client))).

(** ** The chain *)

Section chain.
Context {AL : AddrLib} {CL : CellLib} {Client : Type}.

(** The keystore: its accounts, and [wallet.FromSigner] of tonutils-go, which
    derives the wallet from a client and a public key. *)
Variable Accounts : res (list string).
Variable FromSigner : Client → bytes → res Wallet.

Definition PublicKeySize : nat := 32.

Definition GetSignerWallet (client : Client) (accountIndex : Z) : res Wallet :=
  accounts ← wrap_err "failed to list accounts" Accounts;
  if length (accounts : list string) =? 0 then Err "no accounts available in keystore" else
  if (accountIndex <? 0)%Z || (Z.of_nat (length accounts) <=? accountIndex)%Z
  then Err "account index out of range" else
  match accounts !! Z.to_nat accountIndex with
  | None => Panic "index out of range"
  | Some account =>
      pubKeyBytes ← wrap_err "invalid account hex string" (hex_decode account);
      if negb (length (pubKeyBytes : bytes) =? PublicKeySize) then Err "invalid public key size" else
      wrap_err "failed to create wallet" (FromSigner client pubKeyBytes)
  end.

(** The chain as its constructor leaves it: the configuration of the nodes, the
    transaction manager with its default configuration, and the cache. *)
Record started := {
  st_chain : chain;
  st_cache : client_cache Client;
  st_wallet : Wallet;
  st_txm : Txm;
  st_txmCfg : TxStore.Config;
}.

Definition newChain (answers : nat → @NodeAnswers Client) (cfg : TOMLConfig) (nodes : list Node) (now : Z)
    (indexes : list nat) : res started :=
  accounts ← wrap_err "failed to fetch accounts from keystore" Accounts;
  if length (accounts : list string) =? 0 then Err "no TON account available" else
  _ ← wrap_err "invalid chain ID: could not parse as an integer" (ParseInt 8 (ChainID cfg));
  let ch := {| ch_id := ChainID cfg; ch_nodes := nodes; ch_ClientTTL := ClientTTL (cfg_Chain cfg) |} in
  r ← GetClient answers ch now indexes None;
  match r with
  | (inr _, _) => Err "failed to create TON client for chain ID"
  | (inl tonClient, cache) =>
      signerWallet ← wrap_err "failed to get signer wallet for chain ID" (GetSignerWallet tonClient 0);
      Ok {| st_chain := ch; st_cache := cache; st_wallet := signerWallet; st_txm := Txm.New;
            st_txmCfg := TxStore.DefaultConfigSet |}
  end.

Definition NewChain (answers : nat → @NodeAnswers Client) (cfg : TOMLConfig) (nodes : list Node) (now : Z)
    (indexes : list nat) : res started :=
  if negb (IsEnabled cfg) then Err "cannot create new chain: chain is disabled"
  else newChain answers cfg nodes now indexes.

(** *** Information *)

(** [commontypes.ChainInfo] and [chainsel.TonNameFromChainId] of other modules. *)
Record ChainInfo := { ci_FamilyName : string; ci_ChainID : string; ci_NetworkName : string; ci_NetworkNameFull : string }.
Variable TonNameFromChainId : Z → res string.

Definition GetChainInfo (cfg : TOMLConfig) : res ChainInfo :=
  let chainID := ChainID cfg in
  id ← wrap_err "chainID must be a valid int32" (ParseInt 32 chainID);
  networkName ← wrap_err "failed to get network name from chain ID" (TonNameFromChainId (i32 id));
  Ok {| ci_FamilyName := "ton"; ci_ChainID := chainID; ci_NetworkName := networkName;
        ci_NetworkNameFull := networkName |}.

(** [relaytypes.NodeStatus], with [toml.Marshal] of a node as a parameter. *)
Record NodeStatus_ := { ns_ChainID : string; ns_Name : string; ns_Config : string }.
Variable MarshalNode : Node → res string.

Definition NodeStatus (n : Node) (id : string) : res NodeStatus_ :=
  match n_Name n with
  | None => Panic "nil pointer dereference"
  | Some name => b ← MarshalNode n; Ok {| ns_ChainID := id; ns_Name := name; ns_Config := b |}
  end.

(** The statuses gathered so far are returned with an error, too. *)
Fixpoint node_statuses (id : string) (nodes : list Node) (stats : list NodeStatus_)
    : res (list NodeStatus_ * option string) :=
  match nodes with
  | [] => Ok (stats, None)
  | n :: nodes' =>
      match NodeStatus n id with
      | Ok stat => node_statuses id nodes' (stats ++ [stat])
      | Err e => Ok (stats, Some e)
      | Panic p => Panic p
      | Diverge => Diverge
      end
  end.

Definition listNodeStatuses (c : chain) (start end_ : Z) : res (list NodeStatus_ * Z * option string) :=
  let total := Z.of_nat (length (ch_nodes c)) in
  if (total <=? start)%Z then Ok ([], total, Some "out of range"%string) else
  let end_ := if (total <? end_)%Z then total else end_ in
  if (0 <=? start)%Z && (start <=? end_)%Z
  then r ← node_statuses (ch_id c) (take (Z.to_nat (end_ - start)) (drop (Z.to_nat start) (ch_nodes c))) [];
       Ok (r.1, total, r.2)
  else Panic "slice bounds out of range".

(** [commontypes.ChainStatus], with [toml.Marshal] of the configuration as a parameter. *)
Record ChainStatus := { cs_ID : string; cs_Enabled : bool; cs_Config : string }.
Variable TOMLString : TOMLConfig → res string.
Definition GetChainStatus (c : chain) (cfg : TOMLConfig) : res ChainStatus :=
  toml ← TOMLString cfg; Ok {| cs_ID := ch_id c; cs_Enabled := IsEnabled cfg; cs_Config := toml |}.

(** Not supported yet. *)
Definition Transact : res () := Err "unsupported operation".
Definition Replay : res () := Err "unsupported operation".
End chain.

(** ** The service ([commontypes.TONService]) *)

Section service.
Context {AL : AddrLib} {CL : CellLib}.

(** The calls the service makes on the client it gets from the chain; the
    balance of an account without state is absent. *)
Record LiteClient := {
  lc_GetMasterchainInfo : res BlockIDExt;
  lc_GetBlockData : BlockIDExt → res Z;
  lc_GetAccountBalance : BlockIDExt → Address → res (option Z);
  lc_GenUtime : BlockIDExt → res Z;
  lc_RootHash : BlockIDExt → bytes;
}.
Variable getClient : res LiteClient.

Definition GetMasterchainInfo : res BlockIDExt :=
  client ← wrap_err "failed to create TON client" getClient;
  wrap_err "failed to call GetMasterchainInfo" (lc_GetMasterchainInfo client).

Definition GetBlockData (block : BlockIDExt) : res Z :=
  client ← wrap_err "failed to create TON client" getClient;
  wrap_err "failed to get block data" (lc_GetBlockData client block).

Definition GetAccountBalance (address : string) (block : BlockIDExt) : res Z :=
  client ← wrap_err "failed to create TON client" getClient;
  addr ← wrap_err "failed parsing address" (ParseAddr address);
  acc ← wrap_err "failed to get account" (lc_GetAccountBalance client block addr);
  Ok match acc with Some balance => balance | None => 0%Z end.

(** [LatestHead] of the chain: the hash, height and time of the head block. *)
Record Head := { hd_Hash : bytes; hd_Height : string; hd_Timestamp : Z }.
Definition LatestHead : res Head :=
  client ← wrap_err "failed to get client" getClient;
  blockID ← wrap_err "failed to get masterchain info" (lc_GetMasterchainInfo client);
  genUtime ← wrap_err "failed to get block data" (lc_GenUtime client blockID);
  Ok {| hd_Hash := lc_RootHash client blockID; hd_Height := FormatInt (blk_SeqNo blockID); hd_Timestamp := genUtime |}.

(** *** Transactions *)

(** [tontypes.Message] of chainlink-common. *)
Record Message := {
  msg_Mode : Z;
  msg_ToAddress : string;
  msg_Amount : string;
  msg_Bounce : bool;
  msg_Body : bytes;
  msg_StateInit : bytes;
}.

Variable MustFromTON : string → res Z.

Context {M : Type} {TM : TxManager M}.

Definition SendTx (msg : Message) (m : M) : res M :=
  toAddr ← wrap_err "failed parsing msg.ToAddress" (ParseAddr (msg_ToAddress msg));
  body ← wrap_err "failed parsing msg.Body" (FromBOC (msg_Body msg));
  stateInit ← wrap_err "failed parsing msg.StateInit" (FromBOC (msg_StateInit msg));
  amount ← MustFromTON (msg_Amount msg);
  let fromWallet := ClientWallet m in
  EnqueueRequest {| rq_Mode := msg_Mode msg; rq_FromWallet := fromWallet; rq_ContractAddress := toAddr;
                    rq_Body := body; rq_Amount := amount; rq_Bounce := msg_Bounce msg;
                    rq_StateInit := Some stateInit |} m.

Definition GetTxStatus (lt : Z) (m : M) : res (TransactionStatus * ExitCode * option string * M) :=
  r ← ManagerStatus lt m;
  let '(status, exitCode, _, err, m) := (r : TransactionStatus * ExitCode * Z * option string * M) in
  Ok (status, exitCode, err, m).

(** The fees or an error, and the manager. *)
Definition GetTxExecutionFees (lt : Z) (m : M) : res ((Z + string) * M) :=
  r ← ManagerStatus lt m;
  let '(status, _, totalActionFees, err, m) := (r : TransactionStatus * ExitCode * Z * option string * M) in
  Ok (match err, status with
      | Some _, _ => inr "failed getting tx execution fees"%string
      | None, (TSFinalized | TSFailed) => inl totalActionFees
      | None, _ => inr "unexpected transaction status: transaction not finalized"%string
      end, m).

(** Log filters are not kept yet: registering one is accepted and forgotten. *)
Definition HasFilter (name : string) : bool := false.
Definition RegisterFilter {F} (filter : F) : res () := Ok ().
Definition UnregisterFilter (name : string) : res () := Ok ().
End service.
