(* ===== verification/RelaySpec.v ===== *)
(** * RelaySpec: what the chain and the service promise

    The client cache finds a client whenever one can be had, why a chain as its
    constructor builds it finds none, the wallet of an account, and the
    transaction entry points over pkg/txm. *)

From S2P Require Import Prelude Cells BitCells ExitCodes Trace TraceSpec TxStore Txm TxmSpec Transmitter.
From S2P Require Import Loader Strconv NodeConfig Relay.

(** ** Selecting a client *)

Section selection.
Context {Client : Type}.
Variable answers : nat → @NodeAnswers Client.
Variable c : chain.
Variable now : Z.

(** A cached client that is not too old, and a node that would give one. *)
Definition fresh (m : gmap nat (@cachedClient Client)) (i : nat) (cl : Client) : Prop :=
  ∃ e, m !! i = Some e ∧ (now - cc_timestamp e < ch_ClientTTL c)%Z ∧ cc_client e = cl.
Definition healthy (i : nat) : Prop :=
  let a := answers i in na_config a = Ok () ∧ na_connect a = Ok () ∧ na_head a = Ok () ∧
  ∃ id, na_GlobalID a = Ok id ∧ FormatInt id = ch_id c.

(** The calls to a node return or fail. *)
Definition answers_return (a : @NodeAnswers Client) : Prop :=
  (is_ok (na_config a) || is_err (na_config a)) && (is_ok (na_connect a) || is_err (na_connect a)) &&
  (is_ok (na_head a) || is_err (na_head a)) && (is_ok (na_GlobalID a) || is_err (na_GlobalID a)) = true.

(** What a step or a whole round may do to the cache: evict, or refresh the
    entry of a healthy node. *)
Definition entry_from (m m' : gmap nat (@cachedClient Client)) : Prop :=
  ∀ i e, m' !! i = Some e →
    m !! i = Some e ∨ (healthy i ∧ e = {| cc_client := na_client (answers i); cc_timestamp := now |}).

#[local] Instance entry_from_refl : Reflexive entry_from.
Proof. intros m i e ?. by left. Qed.
#[local] Instance entry_from_trans : Transitive entry_from.
Proof. intros m1 m2 m3 H1 H2 i e [H|H]%H2; [by apply H1|by right]. Qed.

Lemma entry_from_delete m i : entry_from m (delete i m).
Proof. intros j e [_ H]%lookup_delete_Some. by left. Qed.

(** Where the client of a successful step comes from. *)
Definition client_of (m m' : gmap nat (@cachedClient Client)) (i : nat) (cl : Client) : Prop :=
  (fresh m i cl ∧ m' = m) ∨
  (healthy i ∧ cl = na_client (answers i) ∧ m' !! i = Some {| cc_client := cl; cc_timestamp := now |}).

Lemma build_client_ok i node m lastErr :
  node_ok node → answers_return (answers i) →
  ∃ o m' e, build_client answers c now i node (Some m) lastErr = Ok (o, Some m', e) ∧
    match o with
    | Some cl => healthy i ∧ cl = na_client (answers i) ∧ m' = <[i := {| cc_client := cl; cc_timestamp := now |}]> m
    | None => ¬ healthy i ∧ (m' = m ∨ m' = delete i m)
    end.
Proof.
  intros (name & url & Hname & _ & Hurl & _) Hret. unfold build_client, evict_named. rewrite Hurl, Hname.
  unfold answers_return in Hret. unfold healthy. cbv zeta.
  destruct (na_config (answers i)) as [[]|x|x|]; try done;
    [|exists None, m, lastErr; split; [done|]; split; [by intros (? & _)|by left]].
  destruct (na_connect (answers i)) as [[]|x|x|]; try done;
    [|exists None, m, (Some x); split; [done|]; split; [by intros (_ & ? & _)|by left]].
  destruct (na_head (answers i)) as [[]|x|x|]; try done;
    [|exists None, (delete i m), (Some x); split; [done|]; split; [by intros (_ & _ & ? & _)|by right]].
  destruct (na_GlobalID (answers i)) as [id|x|x|]; try done;
    [|exists None, (delete i m), (Some x); split; [done|]; split; [by intros (_ & _ & _ & ? & ? & _)|by right]].
  case_bool_decide as Hid; cbn.
  - exists (Some (na_client (answers i))). eexists _, lastErr. split; [done|]. split; [|by split].
    split_and!; try done. by exists id.
  - exists None, m, lastErr. split; [done|]. split; [|by left]. intros (_ & _ & _ & id' & [= <-] & ?). done.
Qed.

Lemma try_node_ok i node m lastErr :
  ch_nodes c !! i = Some node → node_ok node → answers_return (answers i) →
  ∃ o m' e, try_node answers c now i (Some m) lastErr = Ok (o, Some m', e) ∧ entry_from m m' ∧
    match o with
    | Some cl => client_of m m' i cl
    | None => ¬ healthy i ∧ (∀ cl, ¬ fresh m i cl) ∧ ∀ j, j ≠ i → m' !! j = m !! j
    end.
Proof.
  intros Hn Hok Hret. unfold try_node. rewrite Hn. cbn [mbind option_bind].
  assert (∀ m0, entry_from m m0 → (∀ j, j ≠ i → m0 !! j = m !! j) → (∀ cl, ¬ fresh m i cl) →
    ∃ o m' e, build_client answers c now i node (Some m0) lastErr = Ok (o, Some m', e) ∧ entry_from m m' ∧
      match o with
      | Some cl => client_of m m' i cl
      | None => ¬ healthy i ∧ (∀ cl, ¬ fresh m i cl) ∧ ∀ j, j ≠ i → m' !! j = m !! j
      end) as Hbuild.
  { intros m0 H0 Hj Hnf. destruct (build_client_ok i node m0 lastErr Hok Hret) as ([cl|] & m' & e & -> & Ho).
    - destruct Ho as (Hh & -> & ->). eexists _, _, _. split; [done|]. split.
      + intros j en [[<- <-]|[_ Hin]]%lookup_insert_Some; [by right|by apply H0].
      + right. by rewrite lookup_insert_eq.
    - destruct Ho as [Hh [->| ->]]; eexists None, _, e; (split; [done|]); split_and!; try done.
      + etrans; [exact H0|apply entry_from_delete].
      + intros j Hne. rewrite lookup_delete_ne by done. by apply Hj. }
  destruct (m !! i) as [en|] eqn:Em.
  - destruct (Z.ltb_spec (now - cc_timestamp en) (ch_ClientTTL c)) as [Hf|Hf].
    + exists (Some (cc_client en)), m, lastErr. split_and!; [done|done|]. left. split; [|done]. by exists en.
    + apply Hbuild; [apply entry_from_delete|intros j Hne; by rewrite lookup_delete_ne|].
      intros cl (e & He & ? & _). assert (e = en) as -> by congruence. lia.
  - apply Hbuild; [done|done|]. intros cl (e & He & _). congruence.
Qed.

Lemma try_nodes_ok indexes m lastErr :
  NoDup indexes → Forall (λ i, answers_return (answers i) ∧ ∃ node, ch_nodes c !! i = Some node ∧ node_ok node) indexes →
  ∃ o m' e, try_nodes answers c now indexes (Some m) lastErr = Ok (o, Some m', e) ∧ entry_from m m' ∧
    match o with
    | Some cl => ∃ i, i ∈ indexes ∧ ((∃ en, m !! i = Some en ∧ m' !! i = Some en ∧ cc_client en = cl ∧
                                        (now - cc_timestamp en < ch_ClientTTL c)%Z) ∨
                       (healthy i ∧ cl = na_client (answers i) ∧
                        m' !! i = Some {| cc_client := cl; cc_timestamp := now |}))
    | None => ∀ i, i ∈ indexes → ¬ healthy i ∧ ∀ cl, ¬ fresh m i cl
    end.
Proof.
  revert m lastErr. induction indexes as [|i indexes IH]; intros m lastErr Hnd Hall.
  { exists None, m, lastErr. split_and!; [done|done|]. by intros i ?%elem_of_nil. }
  apply NoDup_cons in Hnd as [Hi Hnd]. apply Forall_cons in Hall as [[Hret (node & Hn & Hok)] Hall].
  destruct (try_node_ok i node m lastErr Hn Hok Hret) as ([cl|] & m1 & e & E & Hent & Ho); cbn [try_nodes]; rewrite E;
    cbn [mbind res_bind].
  - exists (Some cl), m1, e. split_and!; [done|done|]. exists i. split; [apply list_elem_of_here|].
    destruct Ho as [[(en & He & Hf & Hcl) ->]|Ho]; [left|by right]. by exists en.
  - destruct Ho as (Hh & Hf & Hj). destruct (IH m1 e Hnd Hall) as (o & m' & e' & -> & Hent' & Ho).
    exists o, m', e'. split; [done|]. split; [by etrans|].
    assert (∀ j, j ∈ indexes → m1 !! j = m !! j) as Hsame by (intros j Hin; apply Hj; by intros ->).
    destruct o as [cl|].
    + destruct Ho as (j & Hin & Ho). exists j. split; [by apply list_elem_of_further|]. by rewrite <- (Hsame j Hin).
    + intros j [->|Hin]%elem_of_cons; [done|]. destruct (Ho j Hin) as [H1 H2]. split; [done|].
      intros cl (en & He & Hrest). apply (H2 cl). exists en. split; [|done]. by rewrite (Hsame j Hin).
Qed.

(** C39: with a cache, selecting a client over valid nodes returns in every order
    of trying the nodes; it gives a client exactly when some node has a cached client
    younger than the time to live or answers with the chain's identifier, the client is
    that node's, and every cache entry afterwards was there before or belongs to a
    node that answered so, stamped with the current time. *)
Theorem GetClient_finds (m : gmap nat (@cachedClient Client)) (indexes : list nat)
    (Hnodes : Forall node_ok (ch_nodes c)) (Hindexes : indexes ≡ₚ seq 0 (length (ch_nodes c)))
    (Hret : ∀ i, answers_return (answers i)) :
  ∃ r m', GetClient answers c now indexes (Some m) = Ok (r, Some m') ∧ entry_from m m' ∧
    match r with
    | inl cl => ∃ i, i < length (ch_nodes c) ∧ (fresh m i cl ∨ healthy i ∧ cl = na_client (answers i)) ∧
                     ∃ en, m' !! i = Some en ∧ cc_client en = cl
    | inr _ => ∀ i, i < length (ch_nodes c) → ¬ healthy i ∧ ∀ cl, ¬ fresh m i cl
    end.
Proof.
  unfold GetClient. destruct (Nat.eqb_spec (length (ch_nodes c)) 0) as [H0|H0].
  { eexists _, m. split; [done|]. split; [done|]. intros i. lia. }
  assert (∀ i, i ∈ indexes ↔ i < length (ch_nodes c)) as Hin.
  { intros i. rewrite Hindexes, elem_of_seq. lia. }
  destruct (try_nodes_ok indexes m None) as (o & m' & e & -> & Hent & Ho).
  - rewrite Hindexes. apply NoDup_seq.
  - apply Forall_forall. intros i Hi%Hin. split; [done|]. destruct (lookup_lt_is_Some_2 _ _ Hi) as [node Hnode].
    exists node. split; [done|]. rewrite Forall_lookup in Hnodes. by apply (Hnodes i).
  - cbn [mbind res_bind]. destruct o as [cl|]; eexists _, m'; (split; [done|]); (split; [done|]).
    + destruct Ho as (i & Hi%Hin & [(en & He & He' & Hcl & Hf)|(Hh & -> & Hm)]); exists i; (split; [done|]).
      * split; [left; by exists en|by exists en].
      * split; [by right|]. eexists. by split.
    + intros i Hi. apply Ho. by apply Hin.
Qed.
End selection.

(** ** The chain as it is constructed *)

Section construction.
Context {AL : AddrLib} {CL : CellLib} {Client : Type}.
Variable answers : nat → @NodeAnswers Client.
Variable Accounts : res (list string).
Variable FromSigner : Client → bytes → res Wallet.

(** Without a cache no client is returned: a node that would give one makes the
    assignment to the nil map panic. *)
Lemma build_client_nil c now i node e :
  node_ok node → answers_return (answers i) →
  (healthy answers c i ∧ is_panic (build_client answers c now i node None e) = true) ∨
  (¬ healthy answers c i ∧ ∃ e', build_client answers c now i node None e = Ok (None, None, e')).
Proof.
  intros (name & url & Hname & _ & Hurl & _) Hret. unfold build_client, evict_named, answers_return, healthy in *.
  rewrite Hurl, Hname. cbv zeta.
  destruct (na_config (answers i)) as [[]|x|x|]; try done; [|right; split; [by intros (? & _)|by eexists]].
  destruct (na_connect (answers i)) as [[]|x|x|]; try done; [|right; split; [by intros (_ & ? & _)|by eexists]].
  destruct (na_head (answers i)) as [[]|x|x|]; try done; [|right; split; [by intros (_ & _ & ? & _)|by eexists]].
  destruct (na_GlobalID (answers i)) as [id|x|x|]; try done;
    [|right; split; [by intros (_ & _ & _ & ? & ? & _)|by eexists]].
  case_bool_decide as Hid; [left|right].
  - split; [|done]. split_and!; try done. by exists id.
  - split; [|by eexists]. by intros (_ & _ & _ & id' & [= <-] & ?).
Qed.

Lemma try_nodes_nil c now indexes e :
  Forall (λ i, answers_return (answers i) ∧ ∃ node, ch_nodes c !! i = Some node ∧ node_ok node) indexes →
  (Exists (healthy answers c) indexes ∧ is_panic (try_nodes answers c now indexes None e) = true) ∨
  (¬ Exists (healthy answers c) indexes ∧ ∃ e', try_nodes answers c now indexes None e = Ok (None, None, e')).
Proof.
  revert e. induction indexes as [|i indexes IH]; intros e Hall.
  { right. split; [by intros ?%Exists_nil|by eexists]. }
  apply Forall_cons in Hall as [[Hret (node & Hn & Hok)] Hall]. cbn [try_nodes]. unfold try_node. rewrite Hn.
  cbn [mbind option_bind]. rewrite Exists_cons.
  destruct (build_client_nil c now i node e Hok Hret) as [[Hh Hp]|[Hh [e' ->]]].
  - left. split; [by left|]. destruct (build_client answers c now i node None e); done.
  - cbn [mbind res_bind]. destruct (IH e' Hall) as [[Hex Hp]|[Hex Ho]]; [left; split; [by right|done]|right; split; [|done]].
    by intros [?|?].
Qed.

(** Whatever the nodes are, a nil cache never yields a client. *)
Lemma try_nodes_nil_none c now indexes e cl m e' :
  try_nodes answers c now indexes None e ≠ Ok (Some cl, m, e').
Proof.
  revert e. induction indexes as [|i indexes IH]; intros e H; [done|]. cbn [try_nodes] in H.
  apply bind_ok in H as ([[o m1] e1] & H1 & H). unfold try_node in H1.
  destruct (ch_nodes c !! i) as [node|]; [|done]. cbn [mbind option_bind] in H1. unfold build_client in H1.
  destruct (n_URL node); [|done]. cbv zeta in H1.
  assert (∀ x, evict_named (Client:=Client) i node None ≫= (λ m, Ok (None (A:=Client), m, Some x)) = Ok (o, m1, e1) →
            o = None ∧ m1 = None) as Hev.
  { intros x. unfold evict_named. destruct (n_Name node); [|done]. by intros [= <- <- _]. }
  assert (o = None ∧ m1 = None) as [-> ->]; [|by eapply IH].
  destruct (na_config (answers i)); [|by injection H1 as <- <- _|done..].
  destruct (na_connect (answers i)); [|by injection H1 as <- <- _|done..].
  destruct (na_head (answers i)); [|by eapply Hev|done..].
  destruct (na_GlobalID (answers i)); [|by eapply Hev|done..].
  case_bool_decide; [done|]. by injection H1 as <- <- _.
Qed.

Lemma NewChain_not_ok (cfg : TOMLConfig) (nodes : list Node) (now : Z) (indexes : list nat) :
  is_ok (NewChain Accounts FromSigner answers cfg nodes now indexes) = false.
Proof.
  unfold NewChain, newChain, GetClient. set (c := {| ch_id := _ |}). destruct (IsEnabled cfg); [|done]. cbn [negb].
  destruct (Accounts) as [accounts|x|x|]; cbn [wrap_err mbind res_bind]; try done.
  destruct (length accounts =? 0); [done|].
  destruct (ParseInt 8 (ChainID cfg)) as [id|x|x|]; cbn [wrap_err mbind res_bind]; try done.
  destruct (length (ch_nodes c) =? 0); [done|].
  destruct (try_nodes answers c now indexes None None) as [[[[cl|] m] e]|x|x|] eqn:E; try done.
  by apply try_nodes_nil_none in E.
Qed.

(** A chain is never constructed: its client cache is a nil map when the
    constructor asks for a client, so it fails, whatever the configuration, the
    keystore and the nodes are, and it panics once a valid node answers with the
    chain's identifier. *)
Theorem NewChain_fails (cfg : TOMLConfig) (nodes : list Node) (now : Z) (indexes : list nat) :
  is_ok (NewChain Accounts FromSigner answers cfg nodes now indexes) = false ∧
  (∀ i account accounts id, IsEnabled cfg = true → Accounts = Ok (account :: accounts) →
     ParseInt 8 (ChainID cfg) = Ok id → Forall node_ok nodes → indexes ≡ₚ seq 0 (length nodes) →
     (∀ i, answers_return (answers i)) → i < length nodes →
     healthy answers {| ch_id := ChainID cfg; ch_nodes := nodes; ch_ClientTTL := ClientTTL (cfg_Chain cfg) |} i →
     is_panic (NewChain Accounts FromSigner answers cfg nodes now indexes) = true).
Proof.
  split; [apply NewChain_not_ok|].
  unfold NewChain, newChain, GetClient. set (c := {| ch_id := _ |}).
  intros i account accounts id He Ha Hp Hnodes Hidx Hret Hi Hh. rewrite He, Ha, Hp. cbn [negb wrap_err mbind res_bind length].
  cbn [Nat.eqb]. change (ch_nodes c) with nodes. destruct (Nat.eqb_spec (length nodes) 0); [lia|].
  destruct (try_nodes_nil c now indexes None) as [[_ Hpan]|[Hno _]].
  - apply Forall_forall. intros j Hj. rewrite Hidx in Hj. apply elem_of_seq in Hj. split; [done|].
    destruct (lookup_lt_is_Some_2 nodes j) as [node Hn]; [lia|]. exists node. split; [done|].
    rewrite Forall_lookup in Hnodes. by apply (Hnodes j).
  - destruct (try_nodes answers _ now indexes None None); done.
  - destruct Hno. apply Exists_exists. exists i. split; [|done]. rewrite Hidx. apply elem_of_seq. lia.
Qed.

(** The chain identifier must fit 8 bits for a chain to be constructed while
    information on the chain only asks for 32 bits: an identifier such as -239, of the
    main network, is rejected by the one and accepted by the other. *)
Theorem chain_id_ranges (TonName : Z → res string) (cfg : TOMLConfig) (nodes : list Node) (now : Z)
    (indexes : list nat) (z : Z) (name : string)
    (Hid : ChainID cfg = FormatInt z) (H8 : (z < - 2 ^ 7 ∨ 2 ^ 7 ≤ z)%Z) (H32 : (- 2 ^ 31 ≤ z < 2 ^ 31)%Z)
    (Hname : TonName z = Ok name) (Haccounts : ∃ a l, Accounts = Ok (a :: l)) :
  newChain Accounts FromSigner answers cfg nodes now indexes
  = Err "invalid chain ID: could not parse as an integer" ∧
  GetChainInfo TonName cfg
  = Ok {| ci_FamilyName := "ton"; ci_ChainID := FormatInt z; ci_NetworkName := name; ci_NetworkNameFull := name |}.
Proof.
  destruct Haccounts as (a & l & Ha). unfold newChain, GetChainInfo. rewrite Hid, Ha, !ParseInt_FormatInt.
  change (2 ^ (8 - 1))%Z with 128%Z. change (2 ^ (32 - 1))%Z with 2147483648%Z. split.
  - cbn [wrap_err mbind res_bind length Nat.eqb].
    destruct (Z.leb_spec (- (128)) z), (Z.ltb_spec z 128); cbn; done || lia.
  - rewrite (proj2 (Z.leb_le _ _)), (proj2 (Z.ltb_lt _ _)) by lia. cbn [wrap_err mbind res_bind andb].
    assert (i32 z = z) as -> by (unfold i32, swrap; rewrite Z.mod_small; lia). by rewrite Hname.
Qed.

(** Over a keystore whose accounts are the public keys of ed25519 keys, the
    signer wallet of an index in range is the wallet of that key, and the transaction
    manager asks the keystore for the very account when it enqueues for that
    wallet; other indexes are errors. *)
Theorem GetSignerWallet_account (client : Client) (keys : list bytes) (index : Z) (key : bytes) (w : Wallet)
    (Haccounts : Accounts = Ok (hex_encode <$> keys)) (Hsize : Forall (λ k, length k = 32) keys)
    (Hwallet : FromSigner client key = Ok w) (Hkey : w_PublicKey w = Ed25519Key key) :
  (keys !! Z.to_nat index = Some key → (0 ≤ index)%Z →
     GetSignerWallet Accounts FromSigner client index = Ok w ∧
     PublicKeyHex (w_PublicKey w) = Ok (hex_encode key)) ∧
  ((index < 0 ∨ Z.of_nat (length keys) ≤ index)%Z →
     is_err (GetSignerWallet Accounts FromSigner client index) = true).
Proof.
  unfold GetSignerWallet. rewrite Haccounts. cbn [wrap_err mbind res_bind]. rewrite length_fmap. split.
  - intros Hk Hi. pose proof (lookup_lt_Some _ _ _ Hk) as Hlt.
    destruct (Nat.eqb_spec (length keys) 0); [lia|].
    rewrite (proj2 (Z.ltb_ge _ _)), (proj2 (Z.leb_gt _ _)) by lia. cbn [orb].
    rewrite list_lookup_fmap, Hk. cbn [fmap option_fmap option_map]. rewrite hex_decode_encode. cbn [wrap_err mbind res_bind].
    rewrite Forall_lookup in Hsize. rewrite (Hsize _ _ Hk). cbn. by rewrite Hwallet, Hkey.
  - intros Hi. destruct (Nat.eqb_spec (length keys) 0); [done|].
    destruct (Z.ltb_spec index 0), (Z.leb_spec (Z.of_nat (length keys)) index); cbn; done || lia.
Qed.
End construction.

(** ** The service over pkg/txm *)

Section service.
Context {AL : AddrLib} {CL : CellLib} {CV : CellView} {LAWS : CellLaws}.
Variable Sign : string → bytes → res bytes.
Variable config : TxStore.Config.
Variable wallet : Wallet.
Variable MustFromNano : Z → nat → res Z.
Variable MustFromTON : string → res Z.
Variables now1 now2 : Z.
#[local] Instance manager : TxManager Txm := TxmManager Sign config wallet MustFromNano now1 now2.

(** A message whose body and state init are serialised cells and whose address
    and amount parse is enqueued, with these cells and with the wallet of the manager
    as its sender, exactly when the keystore can sign for that wallet and the channel
    has room, and rejected with an error otherwise; a message whose state init is not
    a serialised cell is rejected whatever the manager is. *)
Theorem SendTx_enqueues (msg : Message) (to : Address) (body : Cell) (amount : Z) (t : Txm)
    (Hto : ParseAddr (msg_ToAddress msg) = Ok to) (Hbody : msg_Body msg = ToBOC body)
    (Hamount : MustFromTON (msg_Amount msg) = Ok amount)
    (Hsign : ∀ k d, is_ok (Sign k d) = true ∨ is_err (Sign k d) = true) :
  (∀ init, msg_StateInit msg = ToBOC init →
     if match w_PublicKey wallet with Ed25519Key k => is_ok (Sign (hex_encode k) []) | OtherKey => false end
        && (Z.of_nat (length (BroadcastChan t)) <? BroadcastChanSize config)%Z
     then ∃ tx, SendTx MustFromTON msg t
            = Ok {| BroadcastChan := BroadcastChan t ++ [tx]; AccountStore_ := AccountStore_ t |} ∧
          tx_To tx = to ∧ tx_Amount tx = amount ∧ tx_Body tx = body ∧ tx_StateInit tx = Some init ∧
          tx_Bounceable tx = msg_Bounce msg ∧ tx_ReceivedMessage tx = None
     else is_err (SendTx MustFromTON msg t) = true) ∧
  (is_err (FromBOC (msg_StateInit msg)) = true →
     SendTx MustFromTON msg t = Err "failed parsing msg.StateInit").
Proof.
  unfold SendTx. rewrite Hto, Hbody, boc_roundtrip, Hamount. cbn [wrap_err mbind res_bind]. split.
  - intros init ->. rewrite boc_roundtrip. cbn [wrap_err mbind res_bind].
    set (rq := {| rq_Mode := _ |}). pose proof (Enqueue_spec Sign config rq now1 now2 t Hsign) as H.
    change (EnqueueRequest rq t) with (Enqueue Sign config rq now1 now2 t).
    change (rq_FromWallet rq) with wallet in H. revert H. case_match; [|done].
    intros (tx & -> & ? & ? & ? & ? & ? & ?). by exists tx.
  - by destruct (FromBOC (msg_StateInit msg)).
Qed.

(** The service reports the fees of a transaction exactly once its trace is
    finalised, as the total of its action fees, and an error before; the status it
    reports is pending until then, and neither question changes the state of any
    transaction. *)
Theorem GetTxExecutionFees_spec (lt : Z) (t : Txm) (Hok : stores_ok t)
    (Hnano : ∀ z, is_ok (MustFromNano z 9) = true) :
  ∃ r t', GetTxExecutionFees lt t = Ok (r, t') ∧ (∀ a k, tx_state t' a k = tx_state t a k) ∧
  ∃ status code err, GetTxStatus lt t = Ok (status, code, err, t') ∧
    match tx_state t (AddrString (w_Address wallet)) lt with
    | LUnknown => (∃ e, r = inr e) ∧ status = TSUnknown ∧ is_Some err
    | LPending _ _ => (∃ e, r = inr e) ∧ status = TSPending ∧ err = None
    | LDone f => ∃ m fees, ft_ReceivedMessage f = Some m ∧ MustFromNano (rm_TotalActionFees m) 9 = Ok fees ∧
        r = inl fees ∧ status = (if ft_TraceSucceeded f then TSFinalized else TSFailed) ∧
        code = ft_ExitCode f ∧ err = None
    end.
Proof.
  pose proof (GetTransactionStatus_ok wallet MustFromNano t lt Hok) as H.
  unfold GetTxExecutionFees, GetTxStatus.
  change (ManagerStatus lt t) with (GetTransactionStatus wallet MustFromNano lt t).
  destruct (tx_state t (AddrString (w_Address wallet)) lt) as [|exp tx|f].
  - destruct H as (e & t' & -> & H). eexists _, t'. split; [done|]. split; [done|]. eexists _, _, _. split; [done|].
    split_and!; [by eexists|done|done].
  - destruct H as (t' & -> & H). eexists _, t'. split; [done|]. split; [done|]. eexists _, _, _. split; [done|].
    split_and!; [by eexists|done|done].
  - destruct H as (m & Hm & H). specialize (Hnano (rm_TotalActionFees m)).
    destruct (MustFromNano (rm_TotalActionFees m) 9) as [fees| | |] eqn:E; try done. destruct H as (t' & -> & H).
    eexists _, t'. split; [done|]. split; [done|]. eexists _, _, _. split; [done|].
    exists m, fees. split_and!; try done. by destruct (ft_TraceSucceeded f).
Qed.
End service.

(** ** The answers of listNodeStatuses *)

Section listing.
Variable MarshalNode : Node → res string.

(** A page of the node statuses that starts inside the list holds the statuses of
    the nodes of that page, in order, with the number of all nodes; a page after the last node is an error, and one
    that ends before it starts a panic. *)
Theorem listNodeStatuses_pages (c : chain) (start end_ : Z) (Hnodes : Forall node_ok (ch_nodes c))
    (Hmarshal : Forall (λ n, is_ok (MarshalNode n) = true) (ch_nodes c)) (Hstart : (0 ≤ start)%Z) :
  let total := Z.of_nat (length (ch_nodes c)) in
  if (total <=? start)%Z then listNodeStatuses MarshalNode c start end_ = Ok ([], total, Some "out of range"%string)
  else if (end_ <? start)%Z then is_panic (listNodeStatuses MarshalNode c start end_) = true
  else ∃ stats, listNodeStatuses MarshalNode c start end_ = Ok (stats, total, None) ∧
       length stats = Z.to_nat (end_ `min` total - start) ∧
       ∀ i s, stats !! i = Some s → ns_ChainID s = ch_id c ∧
         ∃ n, ch_nodes c !! (Z.to_nat start + i) = Some n ∧ n_Name n = Some (ns_Name s) ∧ MarshalNode n = Ok (ns_Config s).
Proof.
  cbv zeta. unfold listNodeStatuses. destruct (Z.leb_spec (Z.of_nat (length (ch_nodes c))) start) as [|Hlt]; [done|].
  assert (∀ nodes acc, Forall node_ok nodes → Forall (λ n, is_ok (MarshalNode n) = true) nodes →
            ∃ stats, node_statuses MarshalNode (ch_id c) nodes acc = Ok (acc ++ stats, None) ∧
              Forall2 (λ n s, ns_ChainID s = ch_id c ∧ n_Name n = Some (ns_Name s) ∧ MarshalNode n = Ok (ns_Config s))
                nodes stats) as Hstats.
  { induction nodes as [|n nodes IH]; intros acc Hn Hm; [exists []; by rewrite app_nil_r|].
    apply Forall_cons in Hn as [(name & url & Hname & _) Hn]. apply Forall_cons in Hm as [Hb Hm].
    cbn [node_statuses]. unfold NodeStatus. rewrite Hname. destruct (MarshalNode n) as [b| | |] eqn:E; try done.
    cbn [mbind res_bind]. destruct (IH (acc ++ [{| ns_ChainID := ch_id c; ns_Name := name; ns_Config := b |}]) Hn Hm)
      as (stats & -> & Hs). eexists (_ :: stats). rewrite <- app_assoc. split; [done|]. by constructor. }
  set (e := if (Z.of_nat (length (ch_nodes c)) <? end_)%Z then _ else end_).
  assert (e = (end_ `min` Z.of_nat (length (ch_nodes c)))%Z) as He by (unfold e; destruct (Z.ltb_spec (Z.of_nat (length (ch_nodes c))) end_); lia).
  destruct (Z.ltb_spec end_ start) as [Hes|Hes].
  - rewrite (proj2 (Z.leb_gt start e)) by lia. by rewrite andb_false_r.
  - rewrite (proj2 (Z.leb_le 0 start)), (proj2 (Z.leb_le start e)) by lia. cbn [andb].
    destruct (Hstats (take (Z.to_nat (e - start)) (drop (Z.to_nat start) (ch_nodes c))) []) as (stats & -> & Hs).
    { by apply Forall_take, Forall_drop. }
    { by apply Forall_take, Forall_drop. }
    exists stats. split; [done|]. split.
    + rewrite <- (Forall2_length _ _ _ Hs), length_take, length_drop. lia.
    + intros i s Hi. destruct (Forall2_lookup_r _ _ _ _ _ Hs Hi) as (n & Hn & ? & ?). split; [done|]. exists n.
      split; [|done]. apply lookup_take_Some in Hn as [Hn _]. by rewrite lookup_drop in Hn.
Qed.
End listing.

(** ** Runs *)

Module RelayRuns.
Import BitCells TraceRuns TxmRuns TransmitterRuns ConfigRuns.

Definition up : @NodeAnswers nat :=
  {| na_config := Ok (); na_connect := Ok (); na_client := 5; na_head := Ok (); na_GlobalID := Ok (-3)%Z |}.
Definition down : @NodeAnswers nat :=
  {| na_config := Ok (); na_connect := Err "refused"; na_client := 6; na_head := Ok (); na_GlobalID := Ok (-3)%Z |}.
Definition answers1 : nat → @NodeAnswers nat := λ i, if i =? 0 then down else up.
Definition nodes1 : list Node := [node1; node2].
Definition chain1 : chain := {| ch_id := "-3"; ch_nodes := nodes1; ch_ClientTTL := 10 |}.

Lemma nodes1_ok : Forall node_ok nodes1.
Proof. repeat constructor; eexists _, _; repeat split; discriminate. Defined.

Lemma answers1_return i : answers_return (answers1 i).
Proof. by destruct i as [|i]. Qed.

(** The first node does not answer; the second has an entry that is too old. *)
Lemma GetClient_finds_witness : ∃ m',
  GetClient answers1 chain1 30 [0; 1] (Some {[1 := {| cc_client := 4; cc_timestamp := 7 |}]}) = Ok (inl 5, Some m').
Proof.
  destruct (GetClient_finds answers1 chain1 30 {[1 := {| cc_client := 4; cc_timestamp := 7 |}]} [0; 1])
    as (r & m' & E & _); [exact nodes1_ok|reflexivity|exact answers1_return|].
  exists m'. rewrite E. revert E. vm_compute. by intros [= <- _].
Defined.

Definition key1 : bytes := replicate 32 x0a.
Definition accounts1 : res (list string) := Ok [hex_encode key1].
Definition signer1 : nat → bytes → res Wallet := λ _ k, Ok {| w_Address := a1; w_PublicKey := Ed25519Key k |}.

Lemma NewChain_fails_witness : is_panic (NewChain accounts1 signer1 answers1 (config1 []) nodes1 30 [0; 1]) = true.
Proof.
  apply (NewChain_fails answers1 accounts1 signer1 (config1 []) nodes1 30 [0; 1]) with 1 (hex_encode key1) [] (-3)%Z;
    try reflexivity.
  - exact nodes1_ok.
  - exact answers1_return.
  - cbn. lia.
  - repeat split. by exists (-3)%Z.
Defined.

Definition mainnet : TOMLConfig :=
  {| Enabled := None; ChainID := "-239"; NetworkName := ""; NetworkNameFull := "";
     cfg_Chain := {| TransactionManager := None; ClientTTL := 0 |}; Nodes := [] |}.
Lemma chain_id_ranges_witness :
  newChain accounts1 signer1 answers1 mainnet nodes1 30 [0; 1] = Err "invalid chain ID: could not parse as an integer".
Proof.
  apply (chain_id_ranges answers1 accounts1 signer1 (λ _, Ok "ton-mainnet"%string) mainnet nodes1 30 [0; 1] (-239) "ton-mainnet");
    [reflexivity|left; reflexivity|split; [discriminate|reflexivity]|reflexivity|by eexists _, _].
Defined.

Lemma GetSignerWallet_account_witness :
  GetSignerWallet accounts1 signer1 7 0 = Ok {| w_Address := a1; w_PublicKey := Ed25519Key key1 |}.
Proof.
  apply (GetSignerWallet_account accounts1 signer1 7 [key1] 0 key1); try reflexivity; repeat constructor.
Defined.

Definition message1 : Message :=
  {| msg_Mode := 1; msg_ToAddress := AddrString a2; msg_Amount := "0.05"; msg_Bounce := true;
     msg_Body := ToBOC body1; msg_StateInit := ToBOC (BCell [] []) |}.
Lemma sign1_returns k d : is_ok (sign1 k d) = true ∨ is_err (sign1 k d) = true.
Proof. unfold sign1. case_bool_decide; [by left|by right]. Qed.

Lemma SendTx_enqueues_witness :
  ∃ tx, SendTx (TM := manager1) ton1 message1 New = Ok {| BroadcastChan := [tx]; AccountStore_ := NewAccountStore |}.
Proof.
  destruct (SendTx_enqueues sign1 TxStore.DefaultConfigSet wallet1 nano1 ton1 0 0 message1 a2 body1 50000000 New) as [H _];
    [reflexivity..|exact sign1_returns|].
  destruct (H (BCell [] []) eq_refl) as (tx & E & _). exists tx. exact E.
Defined.

Lemma GetTxExecutionFees_spec_witness :
  ∃ r t', GetTxExecutionFees (TM := manager1) 10 txm1 = Ok (r, t') ∧ ∃ e, r = inr e.
Proof.
  destruct (GetTxExecutionFees_spec sign1 TxStore.DefaultConfigSet wallet1 nano1 0 0 10 txm1 txm1_ok) as (r & t' & E & _ & H).
  - reflexivity.
  - exists r, t'. split; [exact E|]. destruct H as (st & code & err & _ & H & _). exact H.
Defined.

Lemma listNodeStatuses_pages_witness :
  ∃ stats, listNodeStatuses (λ _, Ok "toml"%string) chain1 1 5 = Ok (stats, 2%Z, None) ∧ length stats = 1.
Proof.
  destruct (listNodeStatuses_pages (λ _, Ok "toml"%string) chain1 1 5) as (stats & E & Hl & _);
    [exact nodes1_ok|repeat constructor|discriminate|]. by exists stats.
Defined.
End RelayRuns.
