(* ===== verification/TxFlow.v ===== *)
(** * TxFlow: a transaction from the service to its fees

    The composition of the relay's service, the transaction manager, the signing
    client and the traces: what becomes of one message when the wallet accepts it and
    its trace is delivered. *)

From S2P Require Import Prelude Cells BitCells ExitCodes Trace TraceSpec TxStore Txm TxmSpec Transmitter.
From S2P Require Import Loader Contract ContractSpec Relay RelaySpec.

Section fuel.
Context {AL : AddrLib} {CL : CellLib}.
Variable sub : subscription.

(** More fuel does not change what a wait returned. *)
Lemma wait_trace_loop_mono fuel fuel' h queue h' :
  wait_trace_loop fuel sub h queue = Ok h' → fuel ≤ fuel' → wait_trace_loop fuel' sub h queue = Ok h'.
Proof.
  revert fuel' h queue. induction fuel as [|fuel IH]; intros fuel' h queue H Hle.
  - destruct queue; cbn in H; [|done]. destruct fuel'; exact H.
  - destruct fuel' as [|fuel']; [lia|]. destruct queue as [|[i|] queue]; [done| |done]. cbn [wait_trace_loop] in *.
    apply bind_ok in H as (h1 & -> & H). cbn [mbind res_bind]. apply bind_ok in H as (m & -> & H). cbn [mbind res_bind].
    apply IH; [done|lia].
Qed.

Lemma WaitForTrace_mono fuel fuel' h i h' :
  WaitForTrace fuel sub h i = Ok h' → fuel ≤ fuel' → WaitForTrace fuel' sub h i = Ok h'.
Proof.
  unfold WaitForTrace. intros H Hle. apply bind_ok in H as (m & -> & H). cbn [mbind res_bind].
  destruct (Status m); try done; by eapply wait_trace_loop_mono.
Qed.

(** The outcome of a delivered trace: with enough fuel it is resolved, by the
    success of all its messages and the first failure among them. *)
Lemma resolve_delivered (m : ReceivedMessage) (n : nat) :
  delivered sub m n →
  ∃ F h t, (∀ fuel, F ≤ fuel → WaitForTrace fuel sub [m] 0 = Ok h) ∧ shows h (Some 0) t ∧
    ∀ fuel, F ≤ fuel →
      resolve_trace sub fuel m = Ok (Some (forallb fst (preorder t), first_failure (preorder t))).
Proof.
  intros Hd. destruct (WaitForTrace_returns sub n n m Hd (le_n n)) as (h & Hh & Hset & t & Ht).
  assert (rm_Received m = []) as Hrec by by inversion Hd.
  destruct (WaitForTrace_root sub n m h Hrec Hh) as (ps & Hroot & _).
  exists (n `max` length (preorder t)), h, t.
  assert (∀ fuel, n `max` length (preorder t) ≤ fuel → WaitForTrace fuel sub [m] 0 = Ok h) as Hw.
  { intros fuel Hf. eapply WaitForTrace_mono; [exact Hh|lia]. }
  split; [done|]. split; [done|]. intros fuel Hf. unfold resolve_trace. rewrite (Hw fuel Hf). cbn [deref]. rewrite Hroot.
  cbn [mbind res_bind]. unfold Status. cbn [rm_Sent set_outgoing length Nat.eqb].
  rewrite (OutcomeExitCode_value h fuel (Some 0) t Ht), (TraceSucceeded_value h fuel (Some 0) t Ht) by lia. done.
Qed.

(** With fuel [F], the trace of a message ends as the tree [t]. *)
Definition outcome (F : nat) (m : ReceivedMessage) (t : trace) : Prop :=
  (∃ h, WaitForTrace F sub [m] 0 = Ok h ∧ shows h (Some 0) t) ∧
  ∀ fuel, F ≤ fuel → resolve_trace sub fuel m = Ok (Some (forallb fst (preorder t), first_failure (preorder t))).

(** One fuel is enough for any number of delivered traces. *)
Lemma resolve_all (ms : list ReceivedMessage) :
  Forall (λ m, ∃ n, delivered sub m n) ms → ∃ F trs, Forall2 (outcome F) ms trs.
Proof.
  induction 1 as [|m ms (n & Hd) _ (F & trs & IH)]; [exists 0, []; constructor|].
  destruct (resolve_delivered m n Hd) as (F' & h & t & Hw & Hs & Hr).
  exists (F `max` F'), (t :: trs). constructor.
  - split; [exists h; split; [apply Hw; lia|done]|]. intros fuel Hf. apply Hr. lia.
  - eapply Forall2_impl; [exact IH|]. intros m' t' ((h' & Hw' & Hs') & Hr'). split.
    + exists h'. split; [|done]. eapply WaitForTrace_mono; [exact Hw'|lia].
    + intros fuel Hf. apply Hr'. lia.
Qed.
End fuel.

Section flow.
Context {AL : AddrLib} {CL : CellLib} {CV : CellView}.
Variable Sign : string → bytes → res bytes.
Variable config : TxStore.Config.
Variable wallet : Wallet.
Variable MustFromNano : Z → nat → res Z.
Variable MustFromTON : string → res Z.
Variable LoadStateInit : Cell → res Cell.
Variables now1 now2 : Z.
Variable sub : subscription.
Variable WalletSend : WalletMessage → res (Transaction * BlockIDExt).
Variable stopped : Z → bool.
#[local] Instance flow_manager : TxManager Txm := TxmManager Sign config wallet MustFromNano now1 now2.

(** The manager's client: every attempt is one call of the signing client. *)
Definition send (attempt : Z) (to : Address) (msg : WalletMessage) : res ReceivedMessage :=
  r ← SendWaitTransaction WalletSend to msg; Ok r.1.

Local Abbreviation account := (AddrString (w_Address wallet)).
Local Abbreviation broadcast := (broadcast_once config wallet send stopped LoadStateInit).

(** A round of confirmations keeps the stores well-formed. *)
Lemma check_account_ok fuel a txs t c' :
  stores_ok t → check_account sub fuel a txs (AccountStore_ t) = Ok c' →
  stores_ok {| BroadcastChan := BroadcastChan t; AccountStore_ := c' |}.
Proof.
  revert t. induction txs as [|u txs IH]; intros t Hok H; [injection H as <-; by destruct t|].
  cbn [check_account] in H. apply bind_ok in H as (r & _ & H).
  destruct (effect_get a (BroadcastChan t) t Hok) as [Hok1 _].
  destruct (GetTxStore_self a (AccountStore_ t)) as [Hself _].
  destruct (GetTxStore a (AccountStore_ t)) as [s c] eqn:E. cbn [fst snd] in Hok1, Hself.
  set (t1 := {| BroadcastChan := BroadcastChan t; AccountStore_ := c |}) in *.
  destruct r as [[ok code]|]; [|by apply (IH t1)]. destruct (MarkFinalized (ut_LT u) ok code s) as [s'| | |] eqn:Em;
    try by apply (IH t1).
  destruct (effect_mark a s (ut_LT u) ok code s' t1 Hok1 Hself Em) as [Hok2 _].
  by apply (IH {| BroadcastChan := BroadcastChan t; AccountStore_ := <[a := s']> c |}).
Qed.

Lemma checkUnconfirmed_stores fuel order keys t t' :
  stores_ok t → checkUnconfirmed sub fuel order keys t = Ok t' → stores_ok t'.
Proof.
  intros Hok H. unfold checkUnconfirmed in H. apply bind_ok in H as (c & H & [= <-]). revert t c Hok H.
  generalize (GetAllUnconfirmed order keys). intros all0 t c Hok H.
  remember (all0 (AccountStore_ t)) as all eqn:Eall. clear Eall all0. revert t Hok H.
  induction all as [|[a txs] all IH]; intros t Hok H; [injection H as <-; by destruct t|].
  cbn [check_accounts] in H. apply bind_ok in H as (c1 & H1 & H).
  pose proof (check_account_ok fuel a txs t c1 Hok H1) as Hok1.
  exact (IH {| BroadcastChan := BroadcastChan t; AccountStore_ := c1 |} Hok1 H).
Qed.

(** A broadcast that the wallet accepts leaves the transaction pending under the
    Lamport time of its message, and everything else as it was. *)
Lemma broadcast_pending (t : Txm) (tx : Tx) (chan : list Tx) (st : option Cell) (wtx : Transaction) (block : BlockIDExt) (m : ReceivedMessage) :
  stores_ok t → BroadcastChan t = tx :: chan → (0 < MaxSendRetryAttempts config)%Z →
  match tx_StateInit tx with Some c => LoadStateInit c = Ok (default c st) ∧ is_Some st | None => st = None end →
  WalletSend (wallet_message tx st) = Ok (wtx, block) → MapToReceivedMessage wtx = Ok m →
  tx_state t account (rm_LamportTime m) = LUnknown →
  ∃ t' e, broadcast t = Some (Ok t') ∧ BroadcastChan t' = chan ∧ stores_ok t' ∧
    tx_state t' account (rm_LamportTime m) = LPending e (set_ReceivedMessage tx m) ∧
    ∀ a k, (a, k) ≠ (account, rm_LamportTime m) → tx_state t' a k = tx_state t a k.
Proof.
  intros Hok Hchan Hpos Hst Hsend Hm Hunk.
  destruct (GetTxStore_self account (AccountStore_ t)) as [Hself Hs0].
  set (r := GetTxStore account (AccountStore_ t)) in *.
  assert (tx_state t account (rm_LamportTime m) = state_of r.1 (rm_LamportTime m)) as Hst0.
  { unfold tx_state. rewrite Hs0. by destruct (AccountStore_ t !! account). }
  set (exp := u64 (rm_LamportTime m / 1000 + whole_seconds (SendRetryDelay config))).
  assert (∃ s', AddUnconfirmed (rm_LamportTime m) exp (set_ReceivedMessage tx m) r.1 = Ok s') as [s' Ha].
  { rewrite Hst0 in Hunk. unfold state_of in Hunk. unfold AddUnconfirmed.
    destruct (unconfirmedTxs r.1 !! rm_LamportTime m); [done|]. destruct (finalizedTxs r.1 !! rm_LamportTime m); [done|].
    rewrite !bool_decide_eq_false_2 by by intros [? ?]. by eexists. }
  set (t' := {| BroadcastChan := chan; AccountStore_ := <[account := s']> r.2 |}).
  assert (broadcast t = Some (Ok t')) as Hb.
  { unfold broadcast_once. rewrite Hchan.
    assert ((match tx_StateInit tx with None => Ok None | Some c => s ← LoadStateInit c; Ok (Some s) end) = Ok st) as ->.
    { destruct (tx_StateInit tx) as [c|]; [|by rewrite Hst]. destruct Hst as [-> [s ->]]. done. }
    cbv zeta. rewrite (broadcastWithRetry_success config wallet send stopped tx _ _ 0 m); [|lia|intros i ?; lia|].
    - cbv zeta. cbn [AccountStore_]. fold exp. fold r. rewrite Ha. done.
    - unfold send, SendWaitTransaction. rewrite Hsend. cbn [wrap_err mbind res_bind fst snd]. by rewrite Hm. }
  exists t', exp. destruct (AddUnconfirmed_ok _ _ _ _ _ Ha) as (_ & Hp & Hother & _).
  split; [done|]. split; [done|]. split.
  { by apply (effect_broadcast config wallet LoadStateInit send stopped t t' Hok Hb). }
  assert (∀ k, tx_state t' account k = state_of s' k) as Hacc.
  { intros k. unfold tx_state, t'. cbn. by rewrite lookup_insert_eq. }
  split; [by rewrite Hacc|]. intros a k Hne. destruct (decide (a = account)) as [->|Ha'].
  - rewrite Hacc, Hother by congruence. unfold tx_state. rewrite Hs0. by destruct (AccountStore_ t !! account).
  - unfold tx_state, t'. cbn. rewrite lookup_insert_ne by done.
    unfold r, GetTxStore. destruct (AccountStore_ t !! account); [done|]. cbn. by rewrite lookup_insert_ne.
Qed.

(** *** The queue *)

(** [n] turns of the broadcast loop; on an empty channel it waits. *)
Fixpoint broadcast_turns (n : nat) (t : Txm) : res Txm :=
  match n with
  | O => Ok t
  | S n' => match broadcast t with None => Ok t | Some r => t ← r; broadcast_turns n' t end
  end.

(** The wallet accepts a transaction as a message whose trace is delivered. *)
Definition accepted (tx : Tx) (m : ReceivedMessage) : Prop :=
  ∃ st wtx block n,
    match tx_StateInit tx with Some c => LoadStateInit c = Ok (default c st) ∧ is_Some st | None => st = None end ∧
    WalletSend (wallet_message tx st) = Ok (wtx, block) ∧ MapToReceivedMessage wtx = Ok m ∧ delivered sub m n.

Definition pending_as (t : Txm) (tx : Tx) (m : ReceivedMessage) : Prop :=
  ∃ e, tx_state t account (rm_LamportTime m) = LPending e (set_ReceivedMessage tx m).

Lemma queue_pending queue ms t :
  Forall2 accepted queue ms → NoDup (rm_LamportTime <$> ms) → (0 < MaxSendRetryAttempts config)%Z →
  stores_ok t → BroadcastChan t = queue → Forall (λ m, tx_state t account (rm_LamportTime m) = LUnknown) ms →
  ∃ t', broadcast_turns (length queue) t = Ok t' ∧ BroadcastChan t' = [] ∧ stores_ok t' ∧
    Forall2 (pending_as t') queue ms ∧
    ∀ a k, (a ≠ account ∨ k ∉ rm_LamportTime <$> ms) → tx_state t' a k = tx_state t a k.
Proof.
  intros Hacc Hnd Hpos. revert t. induction Hacc as [|tx m queue ms (st & wtx & block & n & Hst & Hsend & Hm & _) _ IH];
    intros t Hok Hchan Hunk; [by exists t|].
  cbn in Hnd. apply NoDup_cons in Hnd as [Hnin Hnd]. apply Forall_cons in Hunk as [Hunk Hunks].
  destruct (broadcast_pending t tx queue st wtx block m) as (t1 & e & Hb & Hchan1 & Hok1 & Hp & Hrest); try done.
  assert (∀ k, k ≠ rm_LamportTime m → tx_state t1 account k = tx_state t account k) as Hkeep
    by (intros k Hk; apply Hrest; congruence).
  destruct (IH Hnd t1 Hok1 Hchan1) as (t2 & Ht2 & Hchan2 & Hok2 & Hps & Hrest2).
  { rewrite Forall_forall in Hunks. apply Forall_forall. intros m' Hm'. rewrite Hkeep; [by apply Hunks|]. intros Heq. apply Hnin. rewrite <- Heq.
    by apply list_elem_of_fmap_2. }
  exists t2. cbn [length broadcast_turns]. rewrite Hb. cbn [mbind res_bind]. split; [done|]. split; [done|]. split; [done|].
  split.
  - constructor; [|done]. exists e. rewrite Hrest2; [done|by right].
  - intros a k Hak. rewrite Hrest2 by (destruct Hak as [|Hk]; [by left|right; by apply not_elem_of_cons in Hk as [_ Hk]]).
    apply Hrest. intros [= -> ->]. destruct Hak as [|Hk]; [done|]. apply Hk. cbn. apply list_elem_of_here.
Qed.

(** C11: the queue of the manager is worked off: when the wallet accepts its transactions,
    at different Lamport times, and their traces are delivered, as many turns of the
    broadcast loop as there are transactions empty the channel in its order, and one
    confirmation round with enough fuel, in which the other pending transactions get
    an answer too, finalises every one of them by the outcome of its own trace; no
    other transaction is confused with them. *)
Theorem queue_finalises (t : Txm) (queue : list Tx) (ms : list ReceivedMessage)
    (Hqueue : BroadcastChan t = queue) (Hacc : Forall2 accepted queue ms) (Hdistinct : NoDup (rm_LamportTime <$> ms))
    (Hretry : (0 < MaxSendRetryAttempts config)%Z) (Hok : stores_ok t)
    (Hnew : Forall (λ m, tx_state t account (rm_LamportTime m) = LUnknown) ms) :
  ∃ t2 F trs, broadcast_turns (length queue) t = Ok t2 ∧ BroadcastChan t2 = [] ∧ Forall2 (outcome sub F) ms trs ∧
    ∀ fuel order keys, F ≤ fuel → order ≡ₚ (map_to_list (AccountStore_ t2)).*1 →
      (∀ a s, AccountStore_ t2 !! a = Some s → keys a ≡ₚ (map_to_list (unconfirmedTxs s)).*1) →
      (∀ a lt e tx, tx_state t a lt = LPending e tx → resolves sub fuel tx) →
      ∃ t3, checkUnconfirmed sub fuel order keys t2 = Ok t3 ∧ BroadcastChan t3 = [] ∧
        Forall2 (λ m tr, tx_state t3 account (rm_LamportTime m)
                 = LDone {| ft_ReceivedMessage := Some m; ft_ExitCode := first_failure (preorder tr);
                            ft_TraceSucceeded := forallb fst (preorder tr) |}) ms trs ∧
        ∀ a k, (a ≠ account ∨ k ∉ rm_LamportTime <$> ms) → tx_state t a k = LUnknown → tx_state t3 a k = LUnknown.
Proof.
  destruct (queue_pending queue ms t Hacc Hdistinct Hretry Hok Hqueue Hnew) as (t2 & Ht2 & Hchan & Hok2 & Hps & Hrest).
  destruct (resolve_all sub ms) as (F & trs & Htrs).
  { clear -Hacc. induction Hacc as [|tx m queue ms (st & wtx & block & n & _ & _ & _ & Hd) _ IH]; constructor; [by exists n|done]. }
  exists t2, F, trs. split; [done|]. split; [done|]. split; [done|]. intros fuel order keys Hf Horder Hkeys Hothers.
  assert (∀ i m, ms !! i = Some m → ∃ e tx tr, trs !! i = Some tr ∧ outcome sub F m tr ∧
            tx_state t2 account (rm_LamportTime m) = LPending e (set_ReceivedMessage tx m)) as Hall.
  { intros i m Hm. destruct (Forall2_lookup_l _ _ _ _ _ Htrs Hm) as (tr & Htr & Hout).
    destruct (Forall2_lookup_r _ _ _ _ _ Hps Hm) as (tx & _ & e & Hp). by exists e, tx, tr. }
  destruct (checkUnconfirmed_ok sub fuel t2 order keys Hok2 Horder Hkeys) as (t3 & E3 & Hchan3 & Hst).
  { intros a lt e tx Hpend. destruct (decide (a = account ∧ lt ∈ rm_LamportTime <$> ms)) as [[-> Hin]|Hne].
    - apply list_elem_of_fmap in Hin as (m & -> & [i Hi]%list_elem_of_lookup).
      destruct (Hall i m Hi) as (e' & tx' & tr & _ & [_ Hr] & Hp). rewrite Hp in Hpend. injection Hpend as _ <-.
      exists m. eexists. split; [done|by apply Hr].
    - apply not_and_l in Hne. rewrite Hrest in Hpend by done. by apply (Hothers a lt e). }
  exists t3. split; [done|]. split; [by rewrite Hchan3|]. split.
  - apply Forall2_same_length_lookup_2; [by eapply Forall2_length|]. intros i m tr Hm Htr.
    destruct (Hall i m Hm) as (e & tx & tr' & Htr' & [_ Hr] & Hp). rewrite Htr in Htr'. injection Htr' as <-.
    pose proof (Hst account (rm_LamportTime m)) as H. rewrite Hp in H. destruct H as (m' & [= <-] & Hc).
    unfold confirmed in Hc. by rewrite (Hr fuel Hf) in Hc.
  - intros a k Hak Hu. pose proof (Hst a k) as H. by rewrite (Hrest a k Hak), Hu in H.
Qed.

Lemma SendTx_needs_cells msg t :
  is_ok (FromBOC (msg_Body msg)) = false ∨ is_ok (FromBOC (msg_StateInit msg)) = false →
  is_ok (SendTx MustFromTON msg t) = false.
Proof.
  intros H. unfold SendTx. destruct (ParseAddr (msg_ToAddress msg)); try done. cbn [wrap_err mbind res_bind].
  destruct (FromBOC (msg_Body msg)); try done. cbn [wrap_err mbind res_bind].
  destruct (FromBOC (msg_StateInit msg)); try done. by destruct H.
Qed.

(** C2: a message sent through the service ends as a finalised transaction with
    its fees.  The conditions on the message: its address parses, its amount is one, its body is
    the serialisation of a cell, and so is its state init, which every message needs (one
    without it is rejected by [SendTx]) and which loads as a state init.  When the manager is idle
    with room in its channel and at least one attempt, the wallet has a key that the keystore can
    sign with, the wallet accepts the message as a transaction of a Lamport time not yet used and
    its trace is delivered, sending it enqueues it, one turn of the broadcast loop makes it
    pending, and a confirmation round with enough fuel, in which the other pending transactions
    get an answer too, finalises it by the outcome of its trace; then the service reports its
    fees.  A message whose body or state init is not a serialisation is never enqueued. *)
Theorem message_finalises (msg : Message) (to : Address) (body init init' : Cell) (amount : Z) (key : bytes) (t : Txm)
    (wtx : Transaction) (block : BlockIDExt) (m : ReceivedMessage) (n : nat)
    (Hto : ParseAddr (msg_ToAddress msg) = Ok to) (Hbody : FromBOC (msg_Body msg) = Ok body)
    (Hinit : FromBOC (msg_StateInit msg) = Ok init) (Hload : LoadStateInit init = Ok init')
    (Hamount : MustFromTON (msg_Amount msg) = Ok amount)
    (Hkey : w_PublicKey wallet = Ed25519Key key) (Hsign : is_ok (Sign (hex_encode key) []) = true)
    (Hidle : BroadcastChan t = []) (Hsize : (0 < BroadcastChanSize config)%Z) (Hretry : (0 < MaxSendRetryAttempts config)%Z)
    (Hok : stores_ok t) (Hnew : tx_state t account (rm_LamportTime m) = LUnknown)
    (Hsend : ∀ wm, wm_DstAddr wm = to → wm_Body wm = body → wm_Amount wm = amount → WalletSend wm = Ok (wtx, block))
    (Hm : MapToReceivedMessage wtx = Ok m) (Hdelivered : delivered sub m n) :
  (∃ t1 t2 F tr, SendTx MustFromTON msg t = Ok t1 ∧ broadcast t1 = Some (Ok t2) ∧
    (∃ h, WaitForTrace F sub [m] 0 = Ok h ∧ shows h (Some 0) tr) ∧
    ∀ fuel order keys, F ≤ fuel → order ≡ₚ (map_to_list (AccountStore_ t2)).*1 →
      (∀ a s, AccountStore_ t2 !! a = Some s → keys a ≡ₚ (map_to_list (unconfirmedTxs s)).*1) →
      (∀ a lt e tx, tx_state t a lt = LPending e tx → resolves sub fuel tx) →
      ∃ t3, checkUnconfirmed sub fuel order keys t2 = Ok t3 ∧
        tx_state t3 account (rm_LamportTime m)
        = LDone {| ft_ReceivedMessage := Some m; ft_ExitCode := first_failure (preorder tr);
                   ft_TraceSucceeded := forallb fst (preorder tr) |} ∧
        ∀ fees, MustFromNano (rm_TotalActionFees m) 9 = Ok fees →
          ∃ t4, GetTxExecutionFees (rm_LamportTime m) t3 = Ok (inl fees, t4)) ∧
  (∀ other t', is_ok (FromBOC (msg_Body other)) = false ∨ is_ok (FromBOC (msg_StateInit other)) = false →
     is_ok (SendTx MustFromTON other t') = false).
Proof.
  split; [|intros other t'; apply SendTx_needs_cells].
  set (tx := {| tx_Mode := msg_Mode msg; tx_From := w_Address wallet; tx_To := to; tx_Amount := amount; tx_Body := body;
                tx_StateInit := Some init; tx_Bounceable := msg_Bounce msg; tx_CreatedAt := now1;
                tx_Expiration := now2 + i64 (Minute * i64 (TxExpirationMins config)); tx_ReceivedMessage := None |}).
  set (t1 := {| BroadcastChan := [tx]; AccountStore_ := AccountStore_ t |}).
  assert (SendTx MustFromTON msg t = Ok t1) as E1.
  { unfold SendTx. rewrite Hto, Hbody, Hinit. cbn [wrap_err mbind res_bind]. rewrite Hamount.
    cbn [mbind res_bind]. unfold EnqueueRequest, ClientWallet, flow_manager, TxmManager, Enqueue. cbn [rq_FromWallet].
    rewrite Hkey. cbn [PublicKeyHex wrap_err mbind res_bind]. destruct (Sign (hex_encode key) []); try done.
    cbn [wrap_err mbind res_bind]. rewrite Hidle. cbn [length]. by rewrite (proj2 (Z.ltb_lt _ _)). }
  destruct (broadcast_pending t1 tx [] (Some init') wtx block m) as (t2 & e & E2 & Hchan & Hok2 & Hp & Hrest); try done.
  { by apply Hsend. }
  destruct (resolve_delivered sub m n Hdelivered) as (F & h & tr & Hw & Ht & Hres).
  exists t1, t2, F, tr. split; [done|]. split; [done|]. split; [by exists h; split; [apply Hw|]|].
  intros fuel order keys Hf Horder Hkeys Hothers.
  destruct (checkUnconfirmed_ok sub fuel t2 order keys Hok2 Horder Hkeys) as (t3 & E3 & _ & Hst).
  { intros a lt e' tx' Hpend. destruct (decide ((a, lt) = (account, rm_LamportTime m))) as [[= -> ->]|Hne].
    - rewrite Hp in Hpend. injection Hpend as _ <-. exists m. eexists. split; [done|by apply Hres].
    - rewrite Hrest in Hpend by done. by apply (Hothers a lt e'). }
  exists t3. split; [done|]. pose proof (Hst account (rm_LamportTime m)) as Hours. rewrite Hp in Hours.
  destruct Hours as (m' & [= <-] & Hc). unfold confirmed in Hc. rewrite (Hres fuel Hf) in Hc. split; [done|].
  pose proof (checkUnconfirmed_stores fuel order keys t2 t3 Hok2 E3) as Hok3. intros fees Hfees. pose proof (GetTransactionStatus_ok wallet MustFromNano t3 (rm_LamportTime m) Hok3) as Hg.
  rewrite Hc in Hg. destruct Hg as (m' & [= <-] & Hg). rewrite Hfees in Hg. destruct Hg as (t4 & Hg & _). exists t4.
  unfold GetTxExecutionFees. change (ManagerStatus ?lt ?t) with (GetTransactionStatus wallet MustFromNano lt t).
  rewrite Hg. cbn [mbind res_bind ft_TraceSucceeded]. by destruct (forallb fst (preorder tr)).
Qed.
End flow.

(** ** Runs *)

Module FlowRuns.
Import BitCells TraceRuns TxmRuns TransmitterRuns ContractRuns RelayRuns.

Lemma New_ok : stores_ok New.
Proof. intros a s. unfold New, AccountStore_, NewAccountStore. rewrite lookup_empty. discriminate. Defined.

Lemma message_finalises_witness :
  ∃ t1 t2, SendTx (TM := manager1) ton1 message1 New = Ok t1 ∧
    broadcast_once TxStore.DefaultConfigSet wallet1 (send wallet_send) never load1 t1 = Some (Ok t2).
Proof.
  destruct (message_finalises sign1 TxStore.DefaultConfigSet wallet1 nano1 ton1 load1 0 0 sub1 wallet_send never
              message1 a2 body1 (BCell [] []) (BCell [] []) 50000000 [x0a; xff] New tx1 (block_at 7) msg1 2)
    as [(t1 & t2 & F & tr & H1 & H2 & _) _];
    [reflexivity..|exact New_ok| |intros; reflexivity|reflexivity|exact msg1_delivered|exists t1, t2; exact (conj H1 H2)].
  unfold tx_state, New, AccountStore_, NewAccountStore. rewrite lookup_empty. reflexivity.
Defined.

(** A second message, later and without messages of its own, for the amount 200. *)
Definition tx_later : Transaction :=
  {| tx_In := tx_In tx1; tx_Out := None; tx_LT := 30; tx_TotalFees := 40; tx_Description := Some (phases true 0) |}.
Definition msg_later : ReceivedMessage := match MapToReceivedMessage tx_later with Ok r => r | _ => msg1 end.
Definition send_both : WalletMessage → res (Transaction * BlockIDExt) :=
  λ wm, Ok (if (wm_Amount wm =? 200)%Z then tx_later else tx1, block_at 7).
Definition tx_200 : Tx :=
  {| tx_Mode := 1; tx_From := a1; tx_To := a2; tx_Amount := 200; tx_Body := BCell [] []; tx_StateInit := None;
     tx_Bounceable := true; tx_CreatedAt := 0; tx_Expiration := 300 * Second; tx_ReceivedMessage := None |}.
Definition queue2 : Txm := {| BroadcastChan := [tx1'; tx_200]; AccountStore_ := NewAccountStore |}.

Lemma queue_finalises_witness :
  ∃ t2, broadcast_turns TxStore.DefaultConfigSet wallet1 load1 send_both never 2 queue2 = Ok t2 ∧ BroadcastChan t2 = [].
Proof.
  destruct (queue_finalises TxStore.DefaultConfigSet wallet1 load1 sub1 send_both never queue2 [tx1'; tx_200] [msg1; msg_later])
    as (t2 & F & trs & H & Hc & _).
  - reflexivity.
  - constructor; [|constructor; [|constructor]].
    + exists None, tx1, (block_at 7), 2. split; [reflexivity|]. split; [reflexivity|]. split; [reflexivity|exact msg1_delivered].
    + exists None, tx_later, (block_at 7), 1. split; [reflexivity|]. split; [reflexivity|]. split; [reflexivity|].
      apply (delivered_node sub1 msg_later [] []); constructor.
  - apply (bool_decide_unpack _). vm_compute. exact I.
  - reflexivity.
  - intros a s. unfold queue2, AccountStore_, NewAccountStore. rewrite lookup_empty. discriminate.
  - repeat (apply Forall_cons; split; [unfold tx_state, queue2, AccountStore_, NewAccountStore; rewrite lookup_empty; reflexivity|]).
    apply Forall_nil_2.
  - exists t2. exact (conj H Hc).
Defined.
End FlowRuns.
