(* ===== verification/Relayer.v ===== *)
(** * Relayer: the relayer as a service (pkg/relay/relay.go, with cmd/chainlink-ton)

    The relayer owns a chain, which owns the transaction manager: starting and closing
    goes down this chain of once-only services, health goes up.  The calls the node
    makes are handed to the chain.  The other providers are not supported. *)

From S2P Require Import Prelude Cells BitCells ExitCodes Trace TraceSpec TxStore Txm TxmSpec.
From S2P Require Import Transmitter Loader Strconv NodeConfig Relay RelaySpec Lifecycle.

(** ** Services of chainlink-common *)

(** A call that may fail after it changed the service: its error and the service. *)
Abbreviation outcome S := (res (option string * S)).
Abbreviation health := (gmap string (option string)).

(** The states a once-only service is in when the function it ran failed, its
    readiness and health, [MultiStart] and [CloseAll] of one service, and the
    copying of a health report into another. *)
Class ServicesLib `{OnceLib} := {
  StartFails : Once → Once;
  StopFails : Once → Once;
  OnceReady : Once → option string;
  OnceHealthy : Once → option string;
  MultiStart : ∀ {S : Type}, (S → outcome S) → S → outcome S;
  CloseAll : ∀ {S : Type}, (S → outcome S) → S → outcome S;
  CopyHealth : health → health → health;
}.

(** The error of the joined call may have another text. *)
Definition same_outcome {S} (r r' : outcome S) : Prop :=
  match r, r' with
  | Ok (e, s), Ok (e', s') => s = s' ∧ (e = None ↔ e' = None)
  | _, _ => r = r'
  end.

Class ServicesLaws `{ServicesLib} `{!OnceLaws} := {
  start_fails o : once_phase (StartFails o) = Stopped;
  stop_fails o : once_phase (StopFails o) = Stopped;
  once_ready o : OnceReady o = None ↔ once_phase o = Started;
  once_healthy o : OnceHealthy o = None ↔ once_phase o = Started;
  multi_start {S} (f : S → outcome S) (s : S) : same_outcome (MultiStart f s) (f s);
  close_all {S} (f : S → outcome S) (s : S) : same_outcome (CloseAll f s) (f s);
  copy_health (dest src : health) : dest ##ₘ src → CopyHealth dest src = dest ∪ src;
}.

(** [errors.Join] of two errors. *)
Definition Join (e1 e2 : option string) : option string :=
  match e1, e2 with
  | None, e | e, None => e
  | Some a, Some b => Some (a +:+ String (Ascii.ascii_of_nat 10) b)
  end.

Lemma Join_None e1 e2 : Join e1 e2 = None ↔ e1 = None ∧ e2 = None.
Proof. destruct e1, e2; cbn; split; try done; by intros [? ?]. Qed.

Section once.
Context {OL : OnceLib} {SL : ServicesLib}.

(** [StartOnce] and [StopOnce] around the function they run. *)
Definition RunStart {S} (o : Once) (fn : S → outcome S) (s : S) : outcome (Once * S) :=
  match StartOnce o with
  | None => Ok (Some "has already been started"%string, (o, s))
  | Some o' =>
      r ← fn s;
      Ok match r with
         | (None, s') => (None, (o', s'))
         | (Some e, s') => (Some e, (StartFails o', s'))
         end
  end.
Definition RunStop {S} (o : Once) (fn : S → outcome S) (s : S) : outcome (Once * S) :=
  match StopOnce o with
  | None => Ok (Some "cannot be stopped from this state"%string, (o, s))
  | Some o' =>
      r ← fn s;
      Ok match r with
         | (None, s') => (None, (o', s'))
         | (Some e, s') => (Some e, (StopFails o', s'))
         end
  end.
End once.

(** What running a function once promises: it runs in one phase only, and its failure
    ends the service. *)
Section once_laws.
Context {OL : OnceLib} {SL : ServicesLib} {OLAWS : OnceLaws} {SLAWS : ServicesLaws}.

Lemma RunStart_refused {S} o (fn : S → outcome S) s :
  once_phase o ≠ Unstarted → ∃ e, RunStart o fn s = Ok (Some e, (o, s)).
Proof.
  intros Hp. unfold RunStart. pose proof (start_once o) as H. destruct (StartOnce o); [by destruct H|]. by eexists.
Qed.
Lemma RunStop_refused {S} o (fn : S → outcome S) s :
  once_phase o ≠ Started → ∃ e, RunStop o fn s = Ok (Some e, (o, s)).
Proof.
  intros Hp. unfold RunStop. pose proof (stop_once o) as H. destruct (StopOnce o); [by destruct H|]. by eexists.
Qed.

Lemma RunStart_runs {S} o (fn : S → outcome S) s e s' :
  once_phase o = Unstarted → fn s = Ok (e, s') →
  ∃ o', RunStart o fn s = Ok (e, (o', s')) ∧ once_phase o' = match e with None => Started | Some _ => Stopped end.
Proof.
  intros Hp Hf. unfold RunStart. pose proof (start_once o) as H. destruct (StartOnce o) as [o'|]; [|done].
  rewrite Hf. destruct e as [e|]; cbn; eexists; (split; [done|]); [apply start_fails|by destruct H].
Qed.
Lemma RunStop_runs {S} o (fn : S → outcome S) s e s' :
  once_phase o = Started → fn s = Ok (e, s') →
  ∃ o', RunStop o fn s = Ok (e, (o', s')) ∧ once_phase o' = Stopped.
Proof.
  intros Hp Hf. unfold RunStop. pose proof (stop_once o) as H. destruct (StopOnce o) as [o'|]; [|done].
  rewrite Hf. destruct e as [e|]; cbn; eexists; (split; [done|]); [apply stop_fails|by destruct H].
Qed.

Lemma same_outcome_ok {S} (r : outcome S) s : same_outcome r (Ok (None, s)) → r = Ok (None, s).
Proof. destruct r as [[e s']| | |]; try done. intros [-> H]. by rewrite (proj2 H eq_refl). Qed.
Lemma MultiStart_runs {S} (f : S → outcome S) s s' : f s = Ok (None, s') → MultiStart f s = Ok (None, s').
Proof. intros H. apply same_outcome_ok. rewrite <- H. apply multi_start. Qed.
Lemma CloseAll_runs {S} (f : S → outcome S) s s' : f s = Ok (None, s') → CloseAll f s = Ok (None, s').
Proof. intros H. apply same_outcome_ok. rewrite <- H. apply close_all. Qed.
End once_laws.

(** ** The chain *)

Section relayer.
Context {AL : AddrLib} {CL : CellLib} {OL : OnceLib} {SL : ServicesLib}.

(** The names the loggers have. *)
Variables TxmName ChainName RelayerName : string.

(** [Start] and [Close] of pkg/txm with their errors as values. *)
Definition with_error {S} (s : S) (r : res S) : outcome S :=
  match r with
  | Ok s' => Ok (None, s')
  | Err e => Ok (Some e, s)
  | Panic p => Panic p
  | Diverge => Diverge
  end.
Definition txm_Start (s : service) : outcome service := with_error s (Start s).
Definition txm_Close (s : service) : outcome service := with_error s (Close s).
Definition txm_Ready (s : service) : option string := OnceReady (Starter s).
Definition txm_HealthReport (s : service) : health := {[ TxmName := OnceHealthy (Starter s) ]}.

Record chain_service := {
  c_starter : Once;
  c_txm : service;
  c_chain : chain;
  c_cfg : TOMLConfig;
}.
Definition set_chain (c : chain_service) (r : Once * service) : chain_service :=
  {| c_starter := r.1; c_txm := r.2; c_chain := c_chain c; c_cfg := c_cfg c |}.

Definition NewChainService (ch : chain) (cfg : TOMLConfig) : chain_service :=
  {| c_starter := NewOnce; c_txm := NewService; c_chain := ch; c_cfg := cfg |}.

Definition chain_Start (c : chain_service) : outcome chain_service :=
  r ← RunStart (c_starter c) (MultiStart txm_Start) (c_txm c); Ok (r.1, set_chain c r.2).
(** [chain_Close] up to the wait of the manager. *)
Definition chain_Close (c : chain_service) : outcome chain_service :=
  r ← RunStop (c_starter c) (CloseAll txm_Close) (c_txm c); Ok (r.1, set_chain c r.2).
Definition chain_Ready (c : chain_service) : option string := Join (OnceReady (c_starter c)) (txm_Ready (c_txm c)).
Definition chain_HealthReport (c : chain_service) : health :=
  CopyHealth {[ ChainName := OnceHealthy (c_starter c) ]} (txm_HealthReport (c_txm c)).

(** ** The relayer *)

(** Its once-only state, whether [stopCh] is closed, and its chain, which may be nil. *)
Record Relayer := {
  r_StateMachine : Once;
  r_stopCh : bool;
  r_chain : option chain_service;
}.

Definition NewRelayer (chain : option chain_service) : Relayer :=
  {| r_StateMachine := NewOnce; r_stopCh := false; r_chain := chain |}.
Definition set_relayer (r : Once * (bool * option chain_service)) : Relayer :=
  {| r_StateMachine := r.1; r_stopCh := r.2.1; r_chain := r.2.2 |}.

(** The functions that run once. *)
Definition starting (s : bool * option chain_service) : outcome (bool * option chain_service) :=
  match s.2 with
  | None => Ok (Some "chain is not set for TON relayer"%string, s)
  | Some c => r ← chain_Start c; Ok (r.1, (s.1, Some r.2))
  end.
Definition stopping (s : bool * option chain_service) : outcome (bool * option chain_service) :=
  if s.1 then Panic "close of closed channel" else
  match s.2 with
  | None => Panic "nil pointer dereference"
  | Some c => r ← chain_Close c; Ok (r.1, (true, Some r.2))
  end.

Definition Relayer_Start (r : Relayer) : outcome Relayer :=
  x ← RunStart (r_StateMachine r) starting (r_stopCh r, r_chain r); Ok (x.1, set_relayer x.2).
(** [Close] up to the wait of the manager. *)
Definition Relayer_Close (r : Relayer) : outcome Relayer :=
  x ← RunStop (r_StateMachine r) stopping (r_stopCh r, r_chain r); Ok (x.1, set_relayer x.2).

Definition chain_of (r : Relayer) : res chain_service :=
  match r_chain r with Some c => Ok c | None => Panic "nil pointer dereference" end.

Definition Relayer_Ready (r : Relayer) : res (option string) := chain_Ready <$> chain_of r.
Definition Relayer_HealthReport (r : Relayer) : res health :=
  c ← chain_of r; Ok (CopyHealth {[ RelayerName := OnceHealthy (r_StateMachine r) ]} (chain_HealthReport c)).

(** *** The calls it hands on *)

(** [chainsel.TonNameFromChainId], the encoding of the configuration as TOML, and
    [chains.ListNodeStatuses] of other modules; the client that the chain selects. *)
Variable TonNameFromChainId : Z → res string.
Variable TOMLString : TOMLConfig → res string.
Variable MarshalNode : Node → res string.
Abbreviation page := (res (list NodeStatus_ * Z * option string)).
Variable ListNodeStatuses : Z → string → (Z → Z → page) → res (list NodeStatus_ * string * Z).
Variable getClient : res LiteClient.

Definition chain_ListNodeStatuses (c : chain_service) (pageSize : Z) (pageToken : string) :=
  ListNodeStatuses pageSize pageToken (listNodeStatuses MarshalNode (c_chain c)).

Definition Relayer_GetChainInfo (r : Relayer) : res ChainInfo :=
  c ← chain_of r; GetChainInfo TonNameFromChainId (c_cfg c).
Definition Relayer_LatestHead (r : Relayer) : res Head := c ← chain_of r; LatestHead getClient.
Definition Relayer_GetChainStatus (r : Relayer) : res ChainStatus :=
  c ← chain_of r; GetChainStatus TOMLString (c_chain c) (c_cfg c).
Definition Relayer_ListNodeStatuses (r : Relayer) (pageSize : Z) (pageToken : string) :=
  c ← chain_of r; chain_ListNodeStatuses c pageSize pageToken.
Definition Relayer_Transact (r : Relayer) : res () := c ← chain_of r; Transact.
Definition Relayer_Replay (r : Relayer) : res () := c ← chain_of r; Replay.
(** The chain always has a manager and the relayer a logger. *)
Definition Relayer_NewCCIPProvider (Report : Type) (r : Relayer) : res (Provider Report) :=
  c ← chain_of r; NewCCIPProvider Report true true.

(** *** The providers that are not supported *)

(** Two placeholders return nil and no error. *)
Definition NewConfigProvider : res (option ()) := Ok None.
Definition NewMedianProvider : res (option ()) := Ok None.
Definition NewFunctionsProvider : res (option ()) := Err "functions are not supported for TON".
Definition NewAutomationProvider : res (option ()) := Err "automation is not supported for TON".
Definition NewMercuryProvider : res (option ()) := Err "mercury is not supported for TON".
Definition NewLLOProvider : res (option ()) := Err "data streams is not supported for TON".
Definition NewCCIPCommitProvider : res (option ()) := Err "ccip.commit is not supported for TON".
Definition NewCCIPExecProvider : res (option ()) := Err "ccip.exec is not supported for TON".
Definition NewPluginProvider : res (option ()) := Err "plugin provider is not supported for TON".
Definition NewOCR3CapabilityProvider : res (option ()) := Err "ocr3 capability provider is not supported for TON".

(** *** The plugin: from the text of the configuration to a relayer *)

Context {Client : Type}.
Variable Accounts : res (list string).
Variable FromSigner : Client → bytes → res Wallet.
Variable answers : nat → @NodeAnswers Client.
Variable Decode : string → res (node_heap * TOMLConfig).

Definition plugin_NewRelayer (rawConfig : string) (now : Z) (indexes : list nat) : res Relayer :=
  r ← wrap_err "failed to read configs" (NewDecodedTOMLConfig Decode rawConfig);
  let '(h, cfg) := (r : node_heap * TOMLConfig) in
  nodes ← res_map (load_node h) (Nodes cfg);
  st ← wrap_err "failed to create TON chain" (NewChain Accounts FromSigner answers cfg nodes now indexes);
  Ok (NewRelayer (Some (NewChainService (st_chain st) cfg))).

(** ** Its steps *)

Variable Sign : string → bytes → res bytes.
Variable config : TxStore.Config.
Variable ClientWallet : Wallet.
Variable LoadStateInit : Cell → res Cell.

Definition set_txm (r : Relayer) (c : chain_service) (s : service) : Relayer :=
  {| r_StateMachine := r_StateMachine r; r_stopCh := r_stopCh r; r_chain := Some (set_chain c (c_starter c, s)) |}.

(** Whoever holds the relayer starts and closes it; the goroutines and the clients of
    the manager run in between.  When the manager's [Close] returns, so do the
    two around it. *)
Inductive relayer_step : Relayer → Relayer → Prop :=
| relayer_start r e r' : Relayer_Start r = Ok (e, r') → relayer_step r r'
| relayer_close r e r' : Relayer_Close r = Ok (e, r') → relayer_step r r'
| relayer_loop r c s : r_chain r = Some c → loop_step config ClientWallet LoadStateInit (c_txm c) s →
    relayer_step r (set_txm r c s)
| relayer_caller r c t : r_chain r = Some c → caller_step Sign config (manager (c_txm c)) t →
    relayer_step r (set_txm r c (set_manager (c_txm c) t)).
End relayer.

(** ** What the relayer promises *)

Section promises.
Context {AL : AddrLib} {CL : CellLib} {OL : OnceLib} {SL : ServicesLib} {OLAWS : OnceLaws} {SLAWS : ServicesLaws}.
Variables TxmName ChainName RelayerName : string.
Variable Sign : string → bytes → res bytes.
Variable config : TxStore.Config.
Variable ClientWallet : Wallet.
Variable LoadStateInit : Cell → res Cell.

Local Abbreviation relayer_step := (relayer_step Sign config ClientWallet LoadStateInit).
Local Abbreviation service_step := (service_step Sign config ClientWallet LoadStateInit).
Local Abbreviation loop_step := (loop_step config ClientWallet LoadStateInit).

(** The three services move together, and [stopCh] is closed with them. *)
Definition relayer_inv (r : Relayer) : Prop :=
  match r_chain r with
  | None => once_phase (r_StateMachine r) ≠ Started
  | Some c =>
      service_inv (c_txm c) ∧ once_phase (c_starter c) = once_phase (r_StateMachine r) ∧
      once_phase (Starter (c_txm c)) = once_phase (r_StateMachine r) ∧
      (r_stopCh r = true ↔ once_phase (r_StateMachine r) = Stopped)
  end.

Lemma NewRelayer_inv ch cfg : relayer_inv (NewRelayer (Some (NewChainService ch cfg))).
Proof. unfold relayer_inv. cbn. rewrite once_new. split; [apply NewService_inv|done]. Qed.

(** *** The manager inside *)

Lemma txm_starts s : once_phase (Starter s) = Unstarted →
  ∃ s', txm_Start s = Ok (None, s') ∧ Start s = Ok s' ∧ once_phase (Starter s') = Started.
Proof.
  intros Hp. unfold txm_Start, Start. pose proof (start_once (Starter s)) as H. destruct (StartOnce (Starter s)) as [o|]; [|done].
  eexists. split; [done|]. split; [done|]. by destruct H.
Qed.
Lemma txm_stops s : service_inv s → once_phase (Starter s) = Started →
  ∃ s', txm_Close s = Ok (None, s') ∧ Close s = Ok s' ∧ once_phase (Starter s') = Stopped ∧ closing s' = true.
Proof.
  intros (_ & _ & _ & Hi) Hp. unfold txm_Close, Close. pose proof (stop_once (Starter s)) as H.
  destruct (StopOnce (Starter s)) as [o|]; [|done]. rewrite Hp in Hi. destruct Hi as [-> _].
  eexists. split; [done|]. split; [done|]. by destruct H.
Qed.
Lemma loop_step_Starter s s' : loop_step s s' → Starter s' = Starter s.
Proof.
  intros [s1 tx t _ _ _|send st s1 tx t _ _|s1 s1' H|order keys s1 _ _ _ _|sub fuel s1 p todo t _ _|s1 _|s1 s1' H|s1 s1' H]; try done.
  - unfold broadcastLoop_stops in H. case_match; [|done]. destruct (Done s1); [done|]. by injection H as <-.
  - unfold confirmLoop_stops in H. case_match; [|done]. destruct (Done s1); [done|]. by injection H as <-.
  - unfold Close_return in H. case_match; [|done]. by injection H as <-.
Qed.

(** *** Starting and closing go down to it *)

Lemma chain_starts c : once_phase (c_starter c) = Unstarted → once_phase (Starter (c_txm c)) = Unstarted →
  ∃ c', chain_Start c = Ok (None, c') ∧ Start (c_txm c) = Ok (c_txm c') ∧
    once_phase (c_starter c') = Started ∧ once_phase (Starter (c_txm c')) = Started.
Proof.
  intros Hc Ht. destruct (txm_starts _ Ht) as (s & Hs & Hst & Hp).
  destruct (RunStart_runs (c_starter c) (MultiStart txm_Start) (c_txm c) None s Hc) as (o & Ho & Hpo); [by apply MultiStart_runs|].
  exists (set_chain c (o, s)). unfold chain_Start. by rewrite Ho.
Qed.
Lemma chain_stops c : service_inv (c_txm c) → once_phase (c_starter c) = Started → once_phase (Starter (c_txm c)) = Started →
  ∃ c', chain_Close c = Ok (None, c') ∧ Close (c_txm c) = Ok (c_txm c') ∧
    once_phase (c_starter c') = Stopped ∧ once_phase (Starter (c_txm c')) = Stopped ∧ closing (c_txm c') = true.
Proof.
  intros Hi Hc Ht. destruct (txm_stops _ Hi Ht) as (s & Hs & Hst & Hp & Hcl).
  destruct (RunStop_runs (c_starter c) (CloseAll txm_Close) (c_txm c) None s Hc) as (o & Ho & Hpo); [by apply CloseAll_runs|].
  exists (set_chain c (o, s)). unfold chain_Close. by rewrite Ho.
Qed.

Lemma Relayer_starts r c : relayer_inv r → r_chain r = Some c → once_phase (r_StateMachine r) = Unstarted →
  ∃ r' c', Relayer_Start r = Ok (None, r') ∧ r_chain r' = Some c' ∧ Start (c_txm c) = Ok (c_txm c') ∧
    once_phase (r_StateMachine r') = Started ∧ relayer_inv r'.
Proof.
  unfold relayer_inv. intros Hi Hc Hp. rewrite Hc, Hp in Hi. destruct Hi as (Hs & Hpc & Hpt & Hstop).
  destruct (chain_starts c Hpc Hpt) as (c' & Hch & Hst & Hpc' & Hpt').
  destruct (RunStart_runs (r_StateMachine r) starting (r_stopCh r, r_chain r) None (r_stopCh r, Some c') Hp) as (o & Ho & Hpo).
  { unfold starting. cbn [snd]. by rewrite Hc, Hch. }
  exists (set_relayer (o, (r_stopCh r, Some c'))), c'. unfold Relayer_Start. rewrite Ho. split; [done|]. split; [done|].
  split; [done|]. split; [done|]. cbn. rewrite Hpo. split; [by eapply Start_inv|]. split; [done|]. split; [done|].
  split; [by intros H%Hstop|done].
Qed.
Lemma Relayer_stops r c : relayer_inv r → r_chain r = Some c → once_phase (r_StateMachine r) = Started →
  ∃ r' c', Relayer_Close r = Ok (None, r') ∧ r_chain r' = Some c' ∧ Close (c_txm c) = Ok (c_txm c') ∧
    once_phase (r_StateMachine r') = Stopped ∧ closing (c_txm c') = true ∧ relayer_inv r'.
Proof.
  unfold relayer_inv. intros Hi Hc Hp. rewrite Hc, Hp in Hi. destruct Hi as (Hs & Hpc & Hpt & Hstop).
  destruct (chain_stops c Hs Hpc Hpt) as (c' & Hch & Hst & Hpc' & Hpt' & Hcl).
  destruct (RunStop_runs (r_StateMachine r) stopping (r_stopCh r, r_chain r) None (true, Some c') Hp) as (o & Ho & Hpo).
  { unfold stopping. cbn [fst snd]. rewrite Hc. destruct (r_stopCh r); [by discriminate (proj1 Hstop eq_refl)|]. by rewrite Hch. }
  exists (set_relayer (o, (true, Some c'))), c'. unfold Relayer_Close. rewrite Ho. split; [done|]. split; [done|].
  split; [done|]. split; [done|]. split; [done|]. cbn. rewrite Hpo. split; [by eapply Close_inv|done].
Qed.

Lemma Relayer_Start_refused r : once_phase (r_StateMachine r) ≠ Unstarted → ∃ e, Relayer_Start r = Ok (Some e, r).
Proof.
  intros Hp. destruct (RunStart_refused _ starting (r_stopCh r, r_chain r) Hp) as (e & He). exists e.
  unfold Relayer_Start. rewrite He. by destruct r.
Qed.
Lemma Relayer_Close_refused r : once_phase (r_StateMachine r) ≠ Started → ∃ e, Relayer_Close r = Ok (Some e, r).
Proof.
  intros Hp. destruct (RunStop_refused _ stopping (r_stopCh r, r_chain r) Hp) as (e & He). exists e.
  unfold Relayer_Close. rewrite He. by destruct r.
Qed.

(** *** Every run *)

Lemma set_txm_inv r c s :
  relayer_inv r → r_chain r = Some c → service_inv s → Starter s = Starter (c_txm c) → relayer_inv (set_txm r c s).
Proof. unfold relayer_inv. intros Hi Hc Hs He. rewrite Hc in Hi. destruct Hi as (_ & ? & ? & ?). cbn. by rewrite He. Qed.

(** A step of the relayer keeps the invariant, and the manager inside moves by its own steps. *)
Lemma relayer_step_sim r r' c : relayer_step r r' → relayer_inv r → r_chain r = Some c →
  ∃ c', r_chain r' = Some c' ∧ rtc service_step (c_txm c) (c_txm c') ∧ relayer_inv r'.
Proof.
  intros Hstep Hi Hc. assert (service_inv (c_txm c)) as Hs by (unfold relayer_inv in Hi; rewrite Hc in Hi; by destruct Hi).
  destruct Hstep as [r e r' H|r e r' H|r c0 s Hc0 Hl|r c0 m Hc0 Hl].
  - destruct (decide (once_phase (r_StateMachine r) = Unstarted)) as [Hp|Hp].
    + destruct (Relayer_starts r c Hi Hc Hp) as (r1 & c1 & Hr1 & Hc1 & Hst & _ & Hi1). rewrite Hr1 in H. injection H as <- <-.
      exists c1. split; [done|]. split; [|done]. by apply rtc_once, service_start.
    + destruct (Relayer_Start_refused r Hp) as (e' & He). rewrite He in H. injection H as <- <-. by exists c.
  - destruct (decide (once_phase (r_StateMachine r) = Started)) as [Hp|Hp].
    + destruct (Relayer_stops r c Hi Hc Hp) as (r1 & c1 & Hr1 & Hc1 & Hst & _ & _ & Hi1). rewrite Hr1 in H. injection H as <- <-.
      exists c1. split; [done|]. split; [|done]. by apply rtc_once, service_close.
    + destruct (Relayer_Close_refused r Hp) as (e' & He). rewrite He in H. injection H as <- <-. by exists c.
  - rewrite Hc in Hc0. injection Hc0 as <-. eexists. split; [done|]. split; [by apply rtc_once, service_loop|].
    apply set_txm_inv; [done..| |by eapply loop_step_Starter]. eapply loop_step_inv; [done|exact Hl].
  - rewrite Hc in Hc0. injection Hc0 as <-. eexists. split; [done|]. split; [by apply rtc_once, service_caller|].
    by apply set_txm_inv.
Qed.

Lemma relayer_steps_sim r r' c : rtc relayer_step r r' → relayer_inv r → r_chain r = Some c →
  ∃ c', r_chain r' = Some c' ∧ rtc service_step (c_txm c) (c_txm c') ∧ relayer_inv r'.
Proof.
  intros H. revert c. induction H as [r|r r1 r2 Hs _ IH]; intros c Hi Hc; [by exists c|].
  destruct (relayer_step_sim r r1 c Hs Hi Hc) as (c1 & Hc1 & Hm & Hi1).
  destruct (IH c1 Hi1 Hc1) as (c2 & Hc2 & Hm2 & Hi2). exists c2. split; [done|]. split; [by etrans|done].
Qed.

Lemma relayer_ready r c : relayer_inv r → r_chain r = Some c →
  (Relayer_Ready r = Ok None ↔ once_phase (r_StateMachine r) = Started).
Proof.
  unfold relayer_inv, Relayer_Ready, chain_of. intros Hi Hc. rewrite Hc in Hi |- *. destruct Hi as (_ & Hpc & Hpt & _).
  cbn. unfold chain_Ready, txm_Ready. rewrite <- Hpt at 1. split.
  - intros [= [_ H]%Join_None]. by apply once_ready.
  - intros H. f_equal. apply Join_None. by rewrite !once_ready, Hpc, <- Hpt.
Qed.

(** The manager of a started service works, and only then. *)
Lemma service_working s : service_inv s →
  (once_phase (Starter s) = Started ↔ broadcastLoop s = true ∧ confirmLoop s = true ∧ Stop s = false).
Proof.
  intros (_ & _ & _ & Hi). destruct (once_phase (Starter s)).
  - destruct Hi as (_ & -> & _). split; [done|by intros [? _]].
  - destruct Hi as (-> & -> & -> & _). done.
  - destruct Hi as [-> _]. split; [done|by intros (_ & _ & ?)].
Qed.

(** From a new relayer on, whatever the node, the goroutines and the clients of
    the manager do, nothing panics: the first [Start] succeeds and makes the relayer
    ready, the first [Close] after it succeeds, every other one only returns an
    error; the manager inside is in a state of its own runs, and the relayer is ready exactly
    while both loops of the manager run and have not been told to stop. *)
Theorem relayer_reachable (ch : chain) (cfg : TOMLConfig) (r : Relayer)
    (Hr : rtc relayer_step (NewRelayer (Some (NewChainService ch cfg))) r) :
  ∃ c, r_chain r = Some c ∧ rtc service_step NewService (c_txm c) ∧
    match once_phase (r_StateMachine r) with
    | Unstarted => (∃ r', Relayer_Start r = Ok (None, r') ∧ Relayer_Ready r' = Ok None) ∧
                   ∃ e, Relayer_Close r = Ok (Some e, r)
    | Started => (∃ e, Relayer_Start r = Ok (Some e, r)) ∧ ∃ r', Relayer_Close r = Ok (None, r')
    | Stopped => (∃ e, Relayer_Start r = Ok (Some e, r)) ∧ ∃ e, Relayer_Close r = Ok (Some e, r)
    end ∧
    (Relayer_Ready r = Ok None ↔
     broadcastLoop (c_txm c) = true ∧ confirmLoop (c_txm c) = true ∧ Stop (c_txm c) = false).
Proof.
  destruct (relayer_steps_sim _ r _ Hr (NewRelayer_inv ch cfg) eq_refl) as (c & Hc & Hm & Hi).
  exists c. split; [done|]. split; [done|]. split.
  - destruct (once_phase (r_StateMachine r)) eqn:Hp.
    + destruct (Relayer_starts r c Hi Hc Hp) as (r' & c' & Hst & Hc' & _ & Hp' & Hi'). split.
      * exists r'. split; [done|]. by apply (relayer_ready r' c').
      * apply Relayer_Close_refused. by rewrite Hp.
    + destruct (Relayer_stops r c Hi Hc Hp) as (r' & c' & Hst & _). split; [|by exists r'].
      apply Relayer_Start_refused. by rewrite Hp.
    + split; [apply Relayer_Start_refused|apply Relayer_Close_refused]; by rewrite Hp.
  - rewrite (relayer_ready r c Hi Hc). unfold relayer_inv in Hi. rewrite Hc in Hi. destruct Hi as (Hs & _ & <- & _).
    by apply service_working.
Qed.

(** [Stop] is never opened again. *)
Lemma service_steps_Stop s s' : service_inv s → rtc service_step s s' → Stop s = true → Stop s' = true.
Proof.
  intros Hi H. induction H as [|s s1 s2 Hst _ IH]; [done|]. intros Hs.
  pose proof (service_step_inv _ _ _ _ _ _ Hi Hst) as Hi1. apply IH; [done|].
  pose proof (stop_phase s Hi Hs) as Hp. destruct Hst as [s s' H|s s' H|s s' H|s t H]; [| | |done].
  - unfold Start in H. pose proof (start_once (Starter s)) as Ho. destruct (StartOnce _); [|done]. destruct Ho; congruence.
  - unfold Close in H. pose proof (stop_once (Starter s)) as Ho. destruct (StopOnce _); [|done]. destruct Ho; congruence.
  - apply loop_step_Starter in H. destruct Hi1 as (_ & _ & _ & Hi1). rewrite H, Hp in Hi1. by destruct Hi1.
Qed.

(** Closing comes to its end once the turns of the manager's loops do: when the sending and the
    waits for the traces of the round end, [steps_left] steps of the goroutines let the manager's
    [Close] return, and with it the other two; fewer never do, and both loops have then left. *)
Theorem relayer_Close_completes (ch : chain) (cfg : TOMLConfig) (r r' : Relayer)
    (Hr : rtc relayer_step (NewRelayer (Some (NewChainService ch cfg))) r) (Hclose : Relayer_Close r = Ok (None, r')) :
  ∃ c, r_chain r' = Some c ∧ closing (c_txm c) = true ∧
    (∀ n s, nsteps service_step n (c_txm c) s → closing s = false →
       steps_left (c_txm c) ≤ n ∧ broadcastLoop s = false ∧ confirmLoop s = false) ∧
    (send_ends config ClientWallet LoadStateInit (c_txm c) → round_ends (c_txm c) →
     ∃ s, nsteps loop_step (steps_left (c_txm c)) (c_txm c) s ∧ closing s = false).
Proof.
  destruct (relayer_steps_sim _ r _ Hr (NewRelayer_inv ch cfg) eq_refl) as (c & Hc & _ & Hi).
  destruct (decide (once_phase (r_StateMachine r) = Started)) as [Hp|Hp].
  2:{ destruct (Relayer_Close_refused r Hp) as (e & He). by rewrite He in Hclose. }
  destruct (Relayer_stops r c Hi Hc Hp) as (r1 & c1 & Hr1 & Hc1 & Hst & Hp1 & Hcl & Hi1).
  rewrite Hr1 in Hclose. injection Hclose as <-. unfold relayer_inv in Hi1. rewrite Hc1, Hp1 in Hi1.
  destruct Hi1 as (Hs & _ & Hpt & _).
  exists c1. split; [done|]. split; [done|]. split; [|by apply closing_path].
  intros n s Hn Hcs. split; [by eapply steps_left_enough|].
  assert (rtc service_step (c_txm c1) s) as Hsteps by (apply rtc_nsteps; by exists n).
  pose proof (service_steps_inv _ _ _ _ _ _ Hs Hsteps) as Hinv.
  assert (Stop s = true) as Hstop by (apply (service_steps_Stop _ _ Hs Hsteps); by apply closing_stop).
  pose proof (stop_phase s Hinv Hstop) as Hp'. destruct Hinv as (_ & _ & _ & Hinv). rewrite Hp' in Hinv.
  by apply Hinv.
Qed.

(** The health report has one entry for each of the three services, when their names
    differ, and they agree: each is healthy exactly while the relayer is ready. *)
Theorem relayer_health (ch : chain) (cfg : TOMLConfig) (r : Relayer)
    (Hr : rtc relayer_step (NewRelayer (Some (NewChainService ch cfg))) r)
    (Hnames : NoDup [RelayerName; ChainName; TxmName]) :
  ∃ m, Relayer_HealthReport TxmName ChainName RelayerName r = Ok m ∧ dom m = {[ RelayerName; ChainName; TxmName ]} ∧
    ∀ name e, m !! name = Some e → (e = None ↔ Relayer_Ready r = Ok None).
Proof.
  destruct (relayer_steps_sim _ r _ Hr (NewRelayer_inv ch cfg) eq_refl) as (c & Hc & _ & Hi).
  apply NoDup_cons in Hnames as [H1 Hnames]. apply NoDup_cons in Hnames as [H2 _].
  assert (RelayerName ≠ ChainName ∧ RelayerName ≠ TxmName ∧ ChainName ≠ TxmName) as (Hrc & Hrt & Hct) by set_solver.
  pose proof (relayer_ready r c Hi Hc) as Hready. unfold relayer_inv in Hi. rewrite Hc in Hi. destruct Hi as (_ & Hpc & Hpt & _).
  unfold Relayer_HealthReport, chain_of, chain_HealthReport, txm_HealthReport. rewrite Hc. cbn [mbind res_bind].
  rewrite (copy_health {[ ChainName := _ ]}) by (by apply map_disjoint_singleton_l, lookup_singleton_ne).
  rewrite copy_health by (apply map_disjoint_singleton_l, lookup_union_None; by rewrite !lookup_singleton_ne by congruence).
  eexists. split; [done|]. split; [rewrite !dom_union_L, !dom_singleton_L; set_solver|].
  intros name e [H|[_ [H|[_ H]]%lookup_union_Some_raw]]%lookup_union_Some_raw;
    apply lookup_singleton_Some in H as [_ <-]; by rewrite Hready, once_healthy, ?Hpc, ?Hpt.
Qed.

(** A relayer without a chain never starts: [Start] returns an error, after which neither
    [Start] nor [Close] runs again, so closing it is safe; asking for its readiness or
    its health is not. *)
Theorem relayer_without_chain :
  ∃ e r, Relayer_Start (NewRelayer None) = Ok (Some e, r) ∧
    (∃ e, Relayer_Start r = Ok (Some e, r)) ∧ (∃ e, Relayer_Close r = Ok (Some e, r)) ∧
    is_panic (Relayer_Ready r) = true ∧ is_panic (Relayer_HealthReport TxmName ChainName RelayerName r) = true.
Proof.
  destruct (RunStart_runs NewOnce starting (false, None) _ _ once_new eq_refl) as (o & Ho & Hp).
  eexists _, (set_relayer (o, (false, None))). unfold Relayer_Start at 1. cbn [r_StateMachine r_stopCh r_chain NewRelayer].
  rewrite Ho. split; [done|]. split; [apply Relayer_Start_refused; cbn; by rewrite Hp|].
  split; [apply Relayer_Close_refused; cbn; by rewrite Hp|done].
Qed.
End promises.

(** *** The plugin never gets a relayer *)

Section plugin.
Context {AL : AddrLib} {CL : CellLib} {OL : OnceLib} {Client : Type}.
Variable Accounts : res (list string).
Variable FromSigner : Client → bytes → res Wallet.
Variable answers : nat → @NodeAnswers Client.
Variable Decode : string → res (node_heap * TOMLConfig).

(** No configuration gives a relayer, because no chain is constructed; a configuration
    that is not valid is an error, not a panic. *)
Theorem plugin_NewRelayer_fails (raw : string) (now : Z) (indexes : list nat) :
  is_ok (plugin_NewRelayer Accounts FromSigner answers Decode raw now indexes) = false ∧
  (is_err (NewDecodedTOMLConfig Decode raw) = true →
   plugin_NewRelayer Accounts FromSigner answers Decode raw now indexes = Err "failed to read configs").
Proof.
  unfold plugin_NewRelayer. split; [|by destruct (NewDecodedTOMLConfig Decode raw)].
  destruct (NewDecodedTOMLConfig Decode raw) as [[h cfg]| | |]; try done. cbn [wrap_err mbind res_bind].
  destruct (res_map (load_node h) (Nodes cfg)) as [nodes| | |]; try done. cbn [mbind res_bind].
  pose proof (NewChain_not_ok answers Accounts FromSigner cfg nodes now indexes) as H.
  by destruct (NewChain Accounts FromSigner answers cfg nodes now indexes).
Qed.
End plugin.

(** ** The CCIP provider as a service (pkg/ccip/provider/provider.go) *)

Section provider.
Context {OL : OnceLib} {SL : ServicesLib}.
Variable CCIPProviderName : string.

(** Its once-only state and the counter of its wait group. *)
Record provider_service := { p_StateMachine : Once; p_wg : nat }.
Definition NewProvider : provider_service := {| p_StateMachine := NewOnce; p_wg := 0 |}.

Definition set_provider (r : option string * (Once * nat)) : option string * provider_service :=
  (r.1, {| p_StateMachine := r.2.1; p_wg := r.2.2 |}).
Definition Provider_Start (p : provider_service) : outcome provider_service :=
  set_provider <$> RunStart (p_StateMachine p) (λ wg, Ok (None, wg)) (p_wg p).
(** Waiting for a group that is not empty, and that no one leaves, does not return. *)
Definition Provider_Close (p : provider_service) : outcome provider_service :=
  set_provider <$> RunStop (p_StateMachine p) (λ wg, if wg =? 0 then Ok (None, wg) else Diverge) (p_wg p).
Definition Provider_Ready (p : provider_service) : option string := OnceReady (p_StateMachine p).
Definition Provider_HealthReport (p : provider_service) : health :=
  {[ CCIPProviderName := OnceHealthy (p_StateMachine p) ]}.

Inductive provider_step : provider_service → provider_service → Prop :=
| provider_start p e p' : Provider_Start p = Ok (e, p') → provider_step p p'
| provider_close p e p' : Provider_Close p = Ok (e, p') → provider_step p p'.

Context {OLAWS : OnceLaws} {SLAWS : ServicesLaws}.

Lemma provider_step_wg p p' : provider_step p p' → p_wg p' = p_wg p.
Proof.
  intros [q e q' H|q e q' H]; unfold Provider_Start, Provider_Close, RunStart, RunStop in H.
  - destruct (StartOnce (p_StateMachine q)); cbn in H; by injection H as <- <-.
  - destruct (StopOnce (p_StateMachine q)); [destruct (p_wg q) eqn:E|]; cbn in H; try done; by injection H as <- <-.
Qed.

(** A provider closes at once, whatever was started and closed before, as nothing ever
    joins its group; and it is ready and healthy between its start and its close. *)
Theorem provider_returns (p : provider_service) (Hp : rtc provider_step NewProvider p) :
  is_ok (Provider_Start p) = true ∧ is_ok (Provider_Close p) = true ∧
  (Provider_Ready p = None ↔ once_phase (p_StateMachine p) = Started) ∧
  (Provider_HealthReport p !! CCIPProviderName = Some None ↔ once_phase (p_StateMachine p) = Started).
Proof.
  assert (p_wg p = 0) as Hwg.
  { change 0 with (p_wg NewProvider). induction Hp as [|q q1 q2 H _ IH]; [done|]. rewrite IH. by apply provider_step_wg. }
  unfold Provider_Start, Provider_Close, RunStart, RunStop. rewrite Hwg.
  split; [by destruct (StartOnce _)|]. split; [by destruct (StopOnce _)|]. split; [exact (once_ready _)|].
  unfold Provider_HealthReport. rewrite lookup_singleton_eq, <- once_healthy. split; [by intros [= ->]|by intros ->].
Qed.
End provider.

(** ** Runs *)

Module RelayerRuns.
Import BitCells TraceRuns TxmRuns LifecycleRuns.

#[export] Instance PhaseServices : ServicesLib := {|
  StartFails _ := Stopped : Once;
  StopFails _ := Stopped : Once;
  OnceReady o := if decide ((o : phase) = Started) then None else Some "not started"%string;
  OnceHealthy o := if decide ((o : phase) = Started) then None else Some "not started"%string;
  MultiStart _ f s := f s;
  CloseAll _ f s := f s;
  CopyHealth dest src := dest ∪ src;
|}.
#[export] Instance PhaseServicesLaws : ServicesLaws.
Proof.
  split; intros; try reflexivity.
  1,2: unfold OnceReady, OnceHealthy; cbn; case_decide; split; done.
  all: cbn; by destruct (f s) as [[? ?]| | |].
Defined.

Definition ch1 : chain := {| ch_id := "-3"; ch_nodes := []; ch_ClientTTL := 0 |}.
Definition cfg1 : TOMLConfig := {|
  Enabled := None; ChainID := "-3"; NetworkName := ""; NetworkNameFull := "";
  cfg_Chain := {| TransactionManager := None; ClientTTL := 0 |}; Nodes := [] |}.
Definition relayer0 : Relayer := NewRelayer (Some (NewChainService ch1 cfg1)).
Definition relayer1 : Relayer :=
  {| r_StateMachine := Started : Once; r_stopCh := false;
     r_chain := Some {| c_starter := Started : Once; c_txm := running1; c_chain := ch1; c_cfg := cfg1 |} |}.
Definition relayer2 : Relayer :=
  {| r_StateMachine := Stopped : Once; r_stopCh := true;
     r_chain := Some {| c_starter := Stopped : Once; c_txm := closing1; c_chain := ch1; c_cfg := cfg1 |} |}.

Abbreviation step1 := (relayer_step sign1 TxStore.DefaultConfigSet wallet1 load1).
Lemma relayer1_reachable : rtc step1 relayer0 relayer1.
Proof. apply rtc_once, (relayer_start _ _ _ _ relayer0 None relayer1). reflexivity. Defined.

Lemma relayer_reachable_witness : ∃ c, r_chain relayer1 = Some c ∧ Relayer_Ready relayer1 = Ok None ∧
  ∃ r', Relayer_Close relayer1 = Ok (None, r').
Proof.
  destruct (relayer_reachable sign1 TxStore.DefaultConfigSet wallet1 load1 ch1 cfg1 relayer1 relayer1_reachable)
    as (c & Hc & _ & (_ & Hclose) & Hready).
  exists c. split; [exact Hc|]. split; [|exact Hclose]. apply Hready. injection Hc as <-. split_and!; reflexivity.
Defined.

Lemma relayer_Close_completes_witness : ∃ c s, r_chain relayer2 = Some c ∧
  nsteps (loop_step TxStore.DefaultConfigSet wallet1 load1) 3 (c_txm c) s ∧ closing s = false.
Proof.
  destruct (relayer_Close_completes sign1 TxStore.DefaultConfigSet wallet1 load1 ch1 cfg1 relayer1 relayer2 relayer1_reachable eq_refl)
    as (c & Hc & _ & _ & H). injection Hc as <-.
  destruct H as (s & Hs & Hcs); [intros tx Htx; discriminate|intros todo p m Htodo; discriminate|].
  eexists. exists s. split; [reflexivity|]. exact (conj Hs Hcs).
Defined.

Lemma relayer_health_witness : ∃ m, Relayer_HealthReport "txm" "chain" "relayer" relayer1 = Ok m ∧
  m !! "txm"%string = Some None.
Proof.
  destruct (relayer_health "txm" "chain" "relayer" sign1 TxStore.DefaultConfigSet wallet1 load1 ch1 cfg1 relayer1 relayer1_reachable)
    as (m & Hm & _); [by repeat constructor; set_solver|].
  exists m. split; [exact Hm|]. injection Hm as <-. reflexivity.
Defined.
End RelayerRuns.
