(* ===== verification/TestKit.v ===== *)
(** * TestKit: the helpers of the integration tests

    integration-tests/utils, integration-tests/tracetracking/testutils and
    pkg/relay/testutils: parsing an emitted event, the keystore of the tests, the funding
    of wallets, and the check of an account's balance against a trace.  A requirement
    that does not hold ends the test: it is an [Err]. *)

From S2P Require Import Prelude Cells BitCells Tlb ExitCodes Trace TraceSpec TxStore Txm Loader Contract Strconv.

(** ** Events (utils/event.go) *)

Section events.
Context {AL : AddrLib} {CL : CellLib}.

Definition ParseEventFromCell {T} (t : Tlb T) (cell : option Cell) : res T :=
  match cell with
  | None => Err "cell is nil"
  | Some cell => r ← wrap_err "failed to parse event" (LoadFromCell (Tlb := t) (BeginParse cell)); Ok r.1
  end.
Definition ParseEventFromMsg {T} (t : Tlb T) (msg : ExternalOut) : res T :=
  match eo_Body msg with
  | None => Err "message body is nil"
  | Some body => ParseEventFromCell t (Some body)
  end.

(** A body that was written as an event is read back. *)
Lemma ParseEventFromMsg_decodes {T} (t : Tlb T) msg body v :
  eo_Body msg = Some body → decodes t body v → ParseEventFromMsg t msg = Ok v.
Proof. intros Hb (s & Hd). unfold ParseEventFromMsg. rewrite Hb. cbn. by rewrite Hd. Qed.
End events.

(** ** The keystore (relay/testutils/keystore.go) *)

Section keystore.
(** ed25519 of the Go library: the public key of a private key, and signing. *)
Variable PrivateKey : Type.
Variable Public : PrivateKey → bytes.
Variable ed25519_Sign : PrivateKey → bytes → bytes.

Record TestKeystore := { Keys : gmap string PrivateKey }.
Definition NewTestKeystore : TestKeystore := {| Keys := ∅ |}.

Definition AddKey (privateKey : PrivateKey) (tk : TestKeystore) : res TestKeystore :=
  pubKeyHex ← wrap_err "failed to convert public key to hex" (PublicKeyHex (Ed25519Key (Public privateKey)));
  if bool_decide (is_Some (Keys tk !! pubKeyHex)) then Err "Key already exists"
  else Ok {| Keys := <[pubKeyHex := privateKey]> (Keys tk) |}.

(** No bytes to sign is the question whether the account exists. *)
Definition keystore_Sign (tk : TestKeystore) (id : string) (hash : bytes) : res bytes :=
  match Keys tk !! id with
  | None => Err "No such key"
  | Some privateKey => if bool_decide (hash = []) then Ok [] else Ok (ed25519_Sign privateKey hash)
  end.

(** [order] is the order in which the map is ranged over. *)
Definition keystore_Accounts (order : list string) (tk : TestKeystore) : res (list string) := Ok order.

Lemma hex_encode_inj a b : hex_encode a = hex_encode b → a = b.
Proof. intros H. apply (f_equal hex_decode) in H. rewrite !hex_decode_encode in H. by injection H. Qed.

Definition add_keys (keys : list PrivateKey) : res TestKeystore :=
  foldl (λ r k, tk ← r; AddKey k tk) (Ok NewTestKeystore) keys.

Lemma add_keys_spec keys tk : add_keys keys = Ok tk →
  NoDup (Public <$> keys) ∧ (map_to_list (Keys tk)).*1 ≡ₚ hex_encode ∘ Public <$> keys ∧
  ∀ k, k ∈ keys → Keys tk !! hex_encode (Public k) = Some k.
Proof.
  revert tk. induction keys as [|k keys IH] using rev_ind; intros tk H.
  { injection H as <-. cbn. rewrite map_to_list_empty. split_and!; [constructor|done|by intros k ?%elem_of_nil]. }
  unfold add_keys in H. rewrite foldl_snoc in H. apply bind_ok in H as (tk0 & H0 & H).
  destruct (IH tk0 H0) as (Hnd & Hp & Hk). unfold AddKey in H. cbn in H. case_bool_decide as Hn; [done|].
  injection H as <-. apply eq_None_not_Some in Hn. cbn [Keys].
  assert (Public k ∉ Public <$> keys) as Hnew.
  { intros (k' & E & Hk')%list_elem_of_fmap. rewrite E, (Hk k' Hk') in Hn. done. }
  split; [|split].
  - rewrite fmap_app. apply NoDup_app. split; [done|]. split; [|apply NoDup_singleton].
    intros x Hx Hk'%list_elem_of_singleton. by subst x.
  - rewrite map_to_list_insert by done. cbn. rewrite Hp, fmap_app. cbn. apply Permutation_cons_append.
  - intros k' [Hk'|Hk'%list_elem_of_singleton]%elem_of_app; [|subst k'; by rewrite lookup_insert_eq].
    rewrite lookup_insert_ne; [by apply Hk|]. intros E%hex_encode_inj. apply Hnew. rewrite E. by apply list_elem_of_fmap_2.
Qed.

(** A keystore that keys were added to serves the transaction manager and the chain: each account it lists
    is the hex of a public key, decodes to it, and signs with the key behind it. *)
Theorem keystore_serves (keys : list PrivateKey) (tk : TestKeystore) (order : list string)
    (Hadd : add_keys keys = Ok tk)
    (Horder : order ≡ₚ (map_to_list (Keys tk)).*1) :
  NoDup (Public <$> keys) ∧ order ≡ₚ (hex_encode ∘ Public) <$> keys ∧
  ∀ account, account ∈ order → ∃ k, k ∈ keys ∧ hex_decode account = Ok (Public k) ∧
    keystore_Sign tk account [] = Ok [] ∧
    ∀ h, h ≠ [] → keystore_Sign tk account h = Ok (ed25519_Sign k h).
Proof.
  destruct (add_keys_spec keys tk Hadd) as (Hnd & Hp & Hk). split; [done|]. split; [by rewrite Horder|].
  intros account Ha. rewrite Horder, Hp in Ha. apply list_elem_of_fmap in Ha as (k & -> & Hin). exists k.
  split; [done|]. split; [apply hex_decode_encode|]. unfold keystore_Sign. cbn. rewrite (Hk k Hin).
  split; [done|]. intros h Hh. by rewrite bool_decide_eq_false_2.
Qed.

(** Keys of distinct public keys are all accepted, in any order. *)
Theorem add_keys_total (keys : list PrivateKey) (Hnd : NoDup (Public <$> keys)) : is_ok (add_keys keys) = true.
Proof.
  induction keys as [|k keys IH] using rev_ind; [done|]. rewrite fmap_app in Hnd.
  apply NoDup_app in Hnd as (Hnd & Hdisj & _). specialize (IH Hnd). unfold add_keys in *. rewrite foldl_snoc.
  destruct (foldl _ _ keys) as [tk| | |] eqn:E; try done. cbn. rewrite bool_decide_eq_false_2; [done|]. intros [k' Hk'].
  destruct (add_keys_spec keys tk E) as (_ & Hp & _).
  assert (hex_encode (Public k) ∈ (map_to_list (Keys tk)).*1) as Hin.
  { apply list_elem_of_fmap. exists (hex_encode (Public k), k'). split; [done|]. by apply elem_of_map_to_list. }
  rewrite Hp in Hin. apply list_elem_of_fmap in Hin as (k2 & E2%hex_encode_inj & Hin).
  apply (Hdisj (Public k)); [rewrite E2; by apply list_elem_of_fmap_2|by apply list_elem_of_singleton].
Qed.
End keystore.

(** ** Funding wallets (utils/chain.go) *)

Section airdrop.
Context {AL : AddrLib} {CL : CellLib}.

(** The state of an account: absent, or its balance. *)
Definition initial_balance (acc : res (option Z)) : Z :=
  match acc with Ok (Some balance) => balance | _ => 0 end.

Variable GetAccount : Address → res (option Z).
Definition initial_balances (recipients : list Address) : gmap string Z :=
  foldl (λ m addr, <[AddrString addr := initial_balance (GetAccount addr)]> m) ∅ recipients.
Definition expected_min (recipients : list Address) (amounts : list Z) (i : nat) : res Z :=
  match recipients !! i, amounts !! i with
  | Some addr, Some amount => Ok (default 0%Z (initial_balances recipients !! AddrString addr) + amount)%Z
  | _, _ => Panic "index out of range"
  end.

(** The goroutines that still poll, the addresses in the channel, the count of the
    collecting loop, whether the time is up, and what the call returned; [seen] are the
    goroutines that saw their balance. *)
Record airdrop := {
  polling : list nat;
  completed : nat;
  count : nat;
  expired : bool;
  outcome : option (res ());
  seen : list nat;
}.
Definition airdrop_start (n : nat) : airdrop :=
  {| polling := seq 0 n; completed := 0; count := 0; expired := false; outcome := None; seen := [] |}.

(** A goroutine whose poll shows an active account with enough balance. *)
Variable sufficient : nat → Prop.

(** Each select may take any of its ready cases. *)
Inductive airdrop_step (n : nat) : airdrop → airdrop → Prop :=
| airdrop_seen i l1 l2 s : polling s = l1 ++ i :: l2 → sufficient i → airdrop_step n s
    {| polling := l1 ++ l2; completed := S (completed s); count := count s; expired := expired s; outcome := outcome s;
       seen := i :: seen s |}
| airdrop_gone i l1 l2 s : polling s = l1 ++ i :: l2 → expired s = true → airdrop_step n s
    {| polling := l1 ++ l2; completed := completed s; count := count s; expired := expired s; outcome := outcome s;
       seen := seen s |}
| airdrop_collect c s : completed s = S c → outcome s = None → airdrop_step n s
    {| polling := polling s; completed := c; count := S (count s); expired := expired s;
       outcome := if S (count s) =? n then Some (Ok ()) else None; seen := seen s |}
| airdrop_expire s : airdrop_step n s
    {| polling := polling s; completed := completed s; count := count s; expired := true; outcome := outcome s; seen := seen s |}
| airdrop_timeout s : expired s = true → outcome s = None → airdrop_step n s
    {| polling := polling s; completed := completed s; count := count s; expired := expired s;
       outcome := Some (Err "timeout"); seen := seen s |}.

Record airdrop_ok (n : nat) (s : airdrop) : Prop := {
  ao_nodup : NoDup (polling s ++ seen s);
  ao_range i : i ∈ polling s ++ seen s → i < n;
  ao_seen i : i ∈ seen s → sufficient i;
  ao_count : completed s + count s = length (seen s);
  ao_alive : expired s = false → length (polling s ++ seen s) = n;
  ao_done : outcome s = Some (Ok ()) → count s = n ∧ n ≠ 0;
  ao_timeout : outcome s ≠ None → outcome s ≠ Some (Ok ()) → expired s = true;
}.

Lemma airdrop_start_ok n : airdrop_ok n (airdrop_start n).
Proof.
  split; cbn; rewrite ?app_nil_r; try done; [apply NoDup_seq| |by intros i ?%elem_of_nil|by rewrite length_seq].
  intros i Hi%elem_of_seq. lia.
Qed.

Lemma airdrop_step_ok n s s' : airdrop_ok n s → airdrop_step n s s' → airdrop_ok n s'.
Proof.
  intros [H1 H2 H3 H4 H5 H6 H7] Hs. destruct Hs as [i l1 l2 s E Hi|i l1 l2 s E He|c s E Ho|s|s He Ho].
  - rewrite E in *. assert (l1 ++ l2 ++ i :: seen s ≡ₚ (l1 ++ i :: l2) ++ seen s) as Hp.
    { rewrite <- !app_assoc. f_equiv. cbn. by rewrite <- Permutation_middle. }
    split; cbn; rewrite <- ?app_assoc, ?Hp; try done.
    + intros j. rewrite Hp. apply H2. + intros j [->|Hj]%elem_of_cons; [done|by apply H3]. + lia.
  - rewrite E in *. assert ((l1 ++ l2) ++ seen s `sublist_of` (l1 ++ i :: l2) ++ seen s) as Hp.
    { apply sublist_app; [|done]. apply sublist_app; [done|]. by constructor. }
    split; cbn; try done; [by eapply sublist_NoDup| |congruence].
    intros j Hj. apply H2. revert Hj. rewrite !elem_of_app, elem_of_cons. tauto.
  - split; cbn -[Nat.eqb]; try done; [lia| |].
    + intros Hd. destruct (Nat.eqb_spec (S (count s)) n) as [En|]; [split; [exact En|lia]|discriminate Hd].
    + intros Hne Hok. destruct (S (count s) =? n); [by destruct Hok|by destruct Hne].
  - split; cbn; try done.
  - split; cbn; try done.
Qed.

(** Waiting for an airdrop succeeds only after every recipient's goroutine saw its
    balance; it fails only when the time is up; and without recipients it never
    succeeds, as the count is only compared after a completion. *)
Theorem airdrop_outcome (n : nat) (s : airdrop) (Hs : rtc (airdrop_step n) (airdrop_start n) s) :
  (outcome s = Some (Ok ()) → n ≠ 0 ∧ seen s ≡ₚ seq 0 n ∧ ∀ i, i < n → sufficient i) ∧
  (∀ e, outcome s = Some (Err e) → expired s = true) ∧
  (n = 0 → outcome s ≠ Some (Ok ())).
Proof.
  assert (airdrop_ok n s) as [H1 H2 H3 H4 H5 H6 H7].
  { pose proof (airdrop_start_ok n) as H. induction Hs as [s|s1 s2 s3 Hs _ IH]; [done|]. apply IH. by eapply airdrop_step_ok. }
  assert (outcome s = Some (Ok ()) → n ≠ 0 ∧ seen s ≡ₚ seq 0 n) as Hok.
  { intros Ho. destruct (H6 Ho) as [Hc Hn]. split; [done|]. apply NoDup_app in H1 as (_ & _ & Hnd).
    assert (seen s ⊆+ seq 0 n) as Hsub.
    { apply NoDup_submseteq; [done|]. intros i Hi. apply elem_of_seq. split; [lia|]. apply H2, elem_of_app. by right. }
    apply submseteq_length_Permutation; [done|]. rewrite length_seq. lia. }
  split; [|split].
  - intros Ho. destruct (Hok Ho) as [Hn Hp]. split; [done|]. split; [done|]. intros i Hi. apply H3. rewrite Hp.
    apply elem_of_seq. lia.
  - intros e He. apply H7; by rewrite He.
  - intros -> Ho. by destruct (Hok Ho).
Qed.
End airdrop.

(** ** Wallets and their funding (utils/chain.go and testutils/test_utils.go) *)

Section wallets.
Context {AL : AddrLib} {CL : CellLib}.

(** tonutils-go: seeds, wallets and their addresses; a transfer, and sending many. *)
Variable Seed HlWallet : Type.
Variable FromSeed : Seed → res HlWallet.
Variable FromPrivateKey : HlWallet → res Wallet.
Variable BuildTransfer : Address → Z → res WalletMessage.
Variable SendManyWaitTransaction : list WalletMessage → res (Transaction * BlockIDExt).

Definition GetRandomWallet (seed : Seed) : res Wallet :=
  w ← wrap_err "failed to generate random wallet" (FromSeed seed);
  wrap_err "failed to generate random wallet" (FromPrivateKey w).
Definition CreateRandomWallet (seed : Seed) : res Wallet :=
  rw ← wrap_err "failed to generate random wallet" (FromSeed seed);
  wrap_err "failed to generate random wallet" (FromPrivateKey rw).

(** The query id and the creation time of a highload wallet's message, by the Unix time. *)
Definition highload_MessageBuilder (unix : Z) : Z * Z :=
  let createdAt := (unix - 30)%Z in (u32 (Z.rem createdAt (2 ^ 23)), createdAt).

(** The address of the funder, which is double checked, and the outcome of waiting. *)
Variable funder_address : res string.
Variable DefaultTonHlWalletAddress : string.
Variable waitForAirdropCompletion : list Address → list Z → res ().

Definition FundWallets (recipients : list Address) (amounts : list Z) : res () :=
  funder ← funder_address;
  if negb (bool_decide (funder = DefaultTonHlWalletAddress)) then Err "funder address mismatch" else
  if negb (length recipients =? length amounts) then Err "number of recipients does not match number of amounts" else
  messages ← res_map (λ '(addr, amount), wrap_err "failed to build transfer" (BuildTransfer addr amount)) (zip recipients amounts);
  _ ← wrap_err "airdrop transaction failed" (SendManyWaitTransaction messages);
  wrap_err "airdrop completion verification failed" (waitForAirdropCompletion recipients amounts).

(** One wallet per seed, each funded with the same amount. *)
Definition SetUpTest (seeds : list Seed) (initialAmount : Z) : res (list Wallet) :=
  accounts ← res_map CreateRandomWallet seeds;
  _ ← FundWallets (w_Address <$> accounts) (replicate (length accounts) initialAmount);
  Ok accounts.

(** A test that was set up has one wallet per seed, each of which was sent its amount. *)
Theorem SetUpTest_funds (seeds : list Seed) (initialAmount : Z) (accounts : list Wallet)
    (H : SetUpTest seeds initialAmount = Ok accounts) :
  Forall2 (λ s w, ∃ hl, FromSeed s = Ok hl ∧ FromPrivateKey hl = Ok w) seeds accounts ∧
  ∃ messages r, Forall2 (λ w m, BuildTransfer (w_Address w) initialAmount = Ok m) accounts messages ∧
    SendManyWaitTransaction messages = Ok r ∧
    waitForAirdropCompletion (w_Address <$> accounts) (replicate (length seeds) initialAmount) = Ok ().
Proof.
  unfold SetUpTest in H. apply bind_ok in H as (ws & Hws & H). apply bind_ok in H as ([] & Hf & [= <-]).
  pose proof (res_map_ok_inv _ _ _ Hws) as Hall. split.
  { eapply Forall2_impl; [exact Hall|]. intros s w Hw. unfold CreateRandomWallet in Hw.
    apply bind_ok in Hw as (hl & Hhl & Hw). exists hl. by apply wrap_err_ok in Hhl, Hw. }
  unfold FundWallets in Hf. apply bind_ok in Hf as (f & _ & Hf). case_bool_decide; [|done]. cbn [negb] in Hf.
  rewrite length_fmap, length_replicate, Nat.eqb_refl in Hf. cbn [negb] in Hf.
  apply bind_ok in Hf as (ms & Hms & Hf). apply bind_ok in Hf as (r & Hr & Hf). apply wrap_err_ok in Hr, Hf.
  exists ms, r. apply Forall2_length in Hall. rewrite <- Hall in Hf. split; [|by split].
  apply res_map_ok_inv in Hms. clear - Hms. revert ms Hms. induction ws as [|w ws IH]; intros ms Hms; cbn in Hms.
  - apply Forall2_nil_inv_l in Hms as ->. constructor.
  - apply Forall2_cons_inv_l in Hms as (m & ms' & Hm & Hms & ->). apply wrap_err_ok in Hm. constructor; [done|by apply IH].
Qed.
End wallets.

(** ** Getters and balances (testutils/test_utils.go) *)

Section balances.
Context {AL : AddrLib} {CL : CellLib}.
Variable ExecutionResult : Type.
Variable CurrentMasterchainInfo : res BlockIDExt.
Variable WaitRunGetMethod : Z → BlockIDExt → Address → string → res ExecutionResult.
Variable ResultInt : ExecutionResult → nat → res Z.
(** An account at a block: inactive, or its balance. *)
Variable WaitGetAccount : Z → BlockIDExt → Address → res (option Z).

Definition Get (w : Wallet) (key : string) : res ExecutionResult :=
  block ← wrap_err "failed to get current block" CurrentMasterchainInfo;
  WaitRunGetMethod (blk_SeqNo block) block (w_Address w) key.

(** [big.Int.Int64]: the low word of the absolute value as a signed integer, with the sign. *)
Definition big_Int64 (v : Z) : Z :=
  let m := i64 (u64 (Z.abs v)) in if (v <? 0)%Z then i64 (- m) else m.
Definition UintFrom (r : res ExecutionResult) : res Z :=
  r ← wrap_err "failed to run get method" r;
  val ← wrap_err "failed to extract value" (ResultInt r 0);
  Ok (u64 (big_Int64 val)).
Definition GetWalletSeqno (w : Wallet) : res Z := UintFrom (Get w "seqno").

Definition GetBalance (w : Wallet) : res Z :=
  master ← wrap_err "failed to get masterchain info for funder balance check" CurrentMasterchainInfo;
  r ← wrap_err "get account err" (WaitGetAccount (blk_SeqNo master) master (w_Address w));
  match r with Some balance => Ok balance | None => Err "account is not active" end.
Definition MustGetBalance (w : Wallet) : res Z := wrap_err "failed to get balance" (GetBalance w).

Lemma i64_shift z : ∃ k, i64 z = (z + k * 2 ^ 64)%Z.
Proof.
  exists (- ((z + 2 ^ 63) / 2 ^ 64))%Z. unfold i64, swrap. change (64 - 1)%Z with 63%Z.
  pose proof (Z.div_mod (z + 2 ^ 63) (2 ^ 64)). lia.
Qed.
Lemma u64_shift z : ∃ k, u64 z = (z + k * 2 ^ 64)%Z.
Proof. exists (- (z / 2 ^ 64))%Z. unfold u64. pose proof (Z.div_mod z (2 ^ 64)). lia. Qed.

(** The conversion is exact modulo 2^64, for negative results too. *)
Lemma UintFrom_value r v : ResultInt r 0 = Ok v → UintFrom (Ok r) = Ok (u64 v).
Proof.
  intros Hv. unfold UintFrom. cbn [wrap_err mbind res_bind]. rewrite Hv. cbn [wrap_err mbind res_bind]. f_equal.
  assert (∃ k, big_Int64 v = (v + k * 2 ^ 64)%Z) as (k & ->); [|unfold u64; apply Z_mod_plus_full].
  unfold big_Int64. destruct (i64_shift (u64 (Z.abs v))) as (k1 & ->), (u64_shift (Z.abs v)) as (k2 & ->).
  destruct (Z.ltb_spec v 0).
  - destruct (i64_shift (- (Z.abs v + k2 * 2 ^ 64 + k1 * 2 ^ 64))) as (k3 & ->). exists (k3 - k2 - k1)%Z. lia.
  - exists (k2 + k1)%Z. lia.
Qed.

(** *** The balance of an account against a trace *)

(** The expected balance is computed first; the log then computes the fees three more
    times, which changes the message. *)
Definition VerifyTransaction (h : heap) (i : ptr) (initialBalance expectedNetTransfer finalBalance : Z) : res heap :=
  m ← deref h (Some i);
  credit ← NetCreditResult h m;
  r1 ← TotalTransactionExecutionFee h i;
  let expectedBalance := (Sum [initialBalance; credit] - Sum [rm_StorageFeeCharged m; r1.1])%Z in
  r2 ← TotalActionPhaseFees r1.2 i;
  r3 ← TotalTransactionExecutionFee r2.2 i;
  r4 ← TotalTransactionExecutionFee r3.2 i;
  if negb (expectedBalance =? finalBalance)%Z then Err "Expected balance does not match actual balance" else
  m ← deref r4.2 (Some i);
  credit ← NetCreditResult r4.2 m;
  if negb (expectedNetTransfer =? credit)%Z
  then Err "Expected transferred amount does not match actual net transaction result"
  else Ok r4.2.

(** One round of fees: the value, and the message as the round leaves it. *)
Lemma execution_fee_round h i m a f :
  h !! i = Some (set_TotalActionFees m a) → forward_fees h (set_TotalActionFees m a) = Ok f →
  let h' := <[i := set_TotalActionFees m (a + f)]> h in
  TotalTransactionExecutionFee h i = Ok (rm_ImportFee m + rm_GasFee m + (a + f) + rm_MagicFee m, h')%Z ∧
  TotalActionPhaseFees h i = Ok (a + f, h')%Z ∧
  h' !! i = Some (set_TotalActionFees m (a + f)) ∧ forward_fees h' (set_TotalActionFees m (a + f)) = Ok f.
Proof.
  intros Hi Hf h'. pose proof (TotalActionPhaseFees_value h i _ f Hi Hf) as Hv. split; [|split; [done|split]].
  - unfold TotalTransactionExecutionFee. cbn [deref]. rewrite Hi. cbn [mbind res_bind]. by rewrite Hv.
  - apply list_lookup_insert_eq. by eapply lookup_lt_Some.
  - by apply (forward_fees_set h i (set_TotalActionFees m a) (a + f)).
Qed.

Lemma VerifyTransaction_rounds h i m f credit initial net final :
  h !! i = Some m → forward_fees h m = Ok f → NetCreditResult h m = Ok credit →
  VerifyTransaction h i initial net final =
  if negb (initial + credit - (rm_StorageFeeCharged m + (rm_ImportFee m + rm_GasFee m + (rm_TotalActionFees m + f) + rm_MagicFee m))
           =? final)%Z
  then Err "Expected balance does not match actual balance"
  else if negb (net =? credit)%Z then Err "Expected transferred amount does not match actual net transaction result"
  else Ok (<[i := set_TotalActionFees m (rm_TotalActionFees m + 4 * f)]> h).
Proof.
  intros H0 F0 Hc. unfold VerifyTransaction. cbn [deref]. rewrite H0. cbn [mbind res_bind]. rewrite Hc. cbn [mbind res_bind].
  assert (m = set_TotalActionFees m (rm_TotalActionFees m)) as Em by by destruct m. rewrite Em in H0, F0.
  destruct (execution_fee_round h i m _ f H0 F0) as (-> & _ & H1 & F1). cbn [mbind res_bind fst snd].
  destruct (execution_fee_round _ i m _ f H1 F1) as (_ & -> & H2 & F2). cbn [mbind res_bind fst snd].
  destruct (execution_fee_round _ i m _ f H2 F2) as (-> & _ & H3 & F3). cbn [mbind res_bind fst snd].
  destruct (execution_fee_round _ i m _ f H3 F3) as (-> & _ & H4 & F4). cbn [mbind res_bind fst snd].
  rewrite !list_insert_insert_eq in *.
  replace (rm_TotalActionFees m + f + f + f + f)%Z with (rm_TotalActionFees m + 4 * f)%Z in * by lia.
  unfold Sum. cbn [foldl]. replace (0 + initial + credit)%Z with (initial + credit)%Z by lia.
  match goal with |- (if negb (?x =? final)%Z then _ else _) = (if negb (?y =? final)%Z then _ else _) =>
    replace x with y by lia end.
  destruct (negb _); [done|]. rewrite H4. cbn [mbind res_bind]. rewrite <- Em in H0.
  rewrite (NetCreditResult_set h i m (rm_TotalActionFees m + 4 * f) credit H0 Hc). cbn [mbind res_bind].
  by destruct (negb _).
Qed.

(** The balance check holds exactly when the balance moved by the amount received less the
    amounts sent, the storage fee and the execution fee, and the transfer was as
    expected; but checking leaves the forward fees counted four more times in the
    message, so that a second check of the same message with the same balances fails whenever
    anything was forwarded for a fee. *)
Theorem VerifyTransaction_spec (h : heap) (i : ptr) (m : ReceivedMessage) (f credit initial net final : Z)
    (Hi : h !! i = Some m) (Hf : forward_fees h m = Ok f) (Hc : NetCreditResult h m = Ok credit) :
  let fees := (rm_ImportFee m + rm_GasFee m + rm_TotalActionFees m + f + rm_MagicFee m)%Z in
  (is_ok (VerifyTransaction h i initial net final) = true ↔
   final = (initial + credit - rm_StorageFeeCharged m - fees)%Z ∧ net = credit) ∧
  (∀ h', VerifyTransaction h i initial net final = Ok h' → f ≠ 0%Z →
     is_err (VerifyTransaction h' i initial net final) = true).
Proof.
  intros fees. rewrite (VerifyTransaction_rounds h i m f credit) by done. subst fees. split.
  - destruct (Z.eqb_spec (initial + credit - (rm_StorageFeeCharged m +
      (rm_ImportFee m + rm_GasFee m + (rm_TotalActionFees m + f) + rm_MagicFee m))) final), (Z.eqb_spec net credit);
      cbn; split; try done; try lia; by intros [? ?].
  - intros h'. destruct (Z.eqb_spec (initial + credit - (rm_StorageFeeCharged m +
      (rm_ImportFee m + rm_GasFee m + (rm_TotalActionFees m + f) + rm_MagicFee m))) final) as [E|]; [|done]. cbn [negb].
    destruct (Z.eqb_spec net credit); [|done]. intros [= <-] Hne.
    rewrite (VerifyTransaction_rounds _ i (set_TotalActionFees m (rm_TotalActionFees m + 4 * f)) f credit).
    + rewrite (proj2 (Z.eqb_neq _ _)); [done|]. cbn. lia.
    + apply list_lookup_insert_eq. by eapply lookup_lt_Some.
    + by apply forward_fees_set.
    + by apply NetCreditResult_set.
Qed.

(** For a message just mapped from a transaction, the balance that is expected is what
    the chain charges: the amount received, less the amounts sent, the fees of the
    transaction and the forward fees of its messages. *)
Theorem VerifyTransaction_mapped (tx : Transaction) (m : ReceivedMessage) (initial net final : Z)
    (Hm : MapToReceivedMessage tx = Ok m) :
  is_ok (VerifyTransaction [m] 0 initial net final) = true ↔
  net = (rm_Amount m - sumZ sm_Amount (rm_Sent m))%Z ∧
  final = (initial + net - tx_TotalFees tx - sumZ sm_FwdFee (rm_Sent m))%Z.
Proof.
  assert (rm_Received m = []) as Hrec by by apply MapToReceivedMessage_ok in Hm as (inc & _ & ->).
  destruct (MapToReceivedMessage_accounts tx m Hm) as (Hfees & _).
  assert (forward_fees [m] m = Ok (sumZ sm_FwdFee (rm_Sent m))) as Hf by (unfold forward_fees; rewrite Hrec; cbn; by rewrite Z.add_0_r).
  assert (NetCreditResult [m] m = Ok (rm_Amount m - sumZ sm_Amount (rm_Sent m))%Z) as Hc.
  { unfold NetCreditResult, OutgoingAmount. rewrite Hrec. cbn. by rewrite foldl_sum. }
  rewrite (VerifyTransaction_rounds [m] 0 m _ _ initial net final eq_refl Hf Hc).
  match goal with |- context [negb (?x =? final)%Z] => destruct (Z.eqb_spec x final) end;
    cbn [negb]; [|split; [done|intros [-> ->]; lia]].
  match goal with |- context [negb (net =? ?x)%Z] => destruct (Z.eqb_spec net x) end; cbn; [|by split; [|intros [? _]]].
  split; [intros _; split; lia|done].
Qed.
End balances.
