(* ===== verification/EventEmitter.v ===== *)
(** * EventEmitter: the emitter of test events (integration-tests/smoke/logpoller/helper)

    The smoke test of the log poller drives a counter contract: a goroutine sends a
    message per tick until a target, bulk sends fill blocks, and the events that
    were loaded are checked against the counter.  The goroutine, its callers and the
    lock they share are a step relation; the rest are functions. *)

From S2P Require Import Prelude Cells BitCells Tlb Trace Txm Loader Contract Jetton TestKit.

(** ** The emitter and its goroutine *)

Section emitter.
Context {AL : AddrLib}.

(** [TestEventSource] without its client, wallet and logger; [done] is nil, open or closed. *)
Record TestEventSource := {
  e_name : string;
  contractAddress : Address;
  e_id : Z;
  sentCounter : Z;
  targetCounter : Z;
  running : bool;
  done_closed : option bool;
}.

Definition NewSource (name : string) (addr : Address) (id : Z) : TestEventSource :=
  {| e_name := name; contractAddress := addr; e_id := id; sentCounter := 0; targetCounter := 0; running := false;
     done_closed := None |}.

Definition Name (e : TestEventSource) : string := e_name e.
Definition ContractAddress (e : TestEventSource) : Address := contractAddress e.
Definition GetID (e : TestEventSource) : Z := e_id e.

(** Where the goroutine is: at its select, before it reads the counter under the lock,
    sending, or before it takes the lock to count what it sent. *)
Inductive loop_pc := AtSelect | AtRead | AtSend | AtCount.

(** The emitter with its goroutine and the target that read, whether the context is
    cancelled, whether a call of [Stop] holds the lock and waits, and the messages
    that were posted. Every other holder of the lock releases it at once. *)
Record world := {
  source : TestEventSource;
  loop : option loop_pc;
  loop_target : Z;
  cancelled : bool;
  stopping : bool;
  posted : Z;
}.
Definition NewWorld (e : TestEventSource) : world :=
  {| source := e; loop := None; loop_target := 0; cancelled := false; stopping := false; posted := 0 |}.

(** [uint32(e.targetCounter.Uint64())] *)
Definition target_of (t : Z) : Z := u32 (big_Uint64 t).

Definition Start (target : Z) (w : world) : res world :=
  let e := source w in
  if running e then Err "event emitter is already running" else
  Ok {| source := {| e_name := e_name e; contractAddress := contractAddress e; e_id := e_id e;
                     sentCounter := sentCounter e; targetCounter := target; running := true;
                     done_closed := Some false |};
        loop := Some AtSelect; loop_target := target_of target; cancelled := false; stopping := stopping w;
        posted := posted w |}.

Definition IsRunning (w : world) : bool := running (source w).

(** [Stop] up to its wait for [done], with the lock, and its return. *)
Definition Stop (w : world) : world :=
  if running (source w)
  then {| source := source w; loop := loop w; loop_target := loop_target w; cancelled := cancelled w;
          stopping := true; posted := posted w |}
  else w.
Definition Stop_return (w : world) : option world :=
  let e := source w in
  if stopping w && bool_decide (done_closed e = Some true)
  then Some {| source := {| e_name := e_name e; contractAddress := contractAddress e; e_id := e_id e;
                            sentCounter := sentCounter e; targetCounter := targetCounter e; running := false;
                            done_closed := done_closed e |};
               loop := loop w; loop_target := loop_target w; cancelled := cancelled w; stopping := false;
               posted := posted w |}
  else None.

Definition cancel (w : world) : world :=
  {| source := source w; loop := loop w; loop_target := loop_target w; cancelled := true; stopping := stopping w;
     posted := posted w |}.

Definition goto (w : world) (pc : loop_pc) : world :=
  {| source := source w; loop := Some pc; loop_target := loop_target w; cancelled := cancelled w;
     stopping := stopping w; posted := posted w |}.

(** [close(e.done)] and the return of the goroutine. *)
Definition close_done (w : world) : res world :=
  let e := source w in
  match done_closed e with
  | None => Panic "close of nil channel"
  | Some true => Panic "close of closed channel"
  | Some false =>
      Ok {| source := {| e_name := e_name e; contractAddress := contractAddress e; e_id := e_id e;
                         sentCounter := sentCounter e; targetCounter := targetCounter e; running := running e;
                         done_closed := Some true |};
            loop := None; loop_target := loop_target w; cancelled := cancelled w; stopping := stopping w;
            posted := posted w |}
  end.

(** What the goroutine does next: the select takes the cancellation or a tick, the
    sending of a message fails or succeeds; reading and counting need the lock. *)
Inductive loop_event := EvCancelled | EvTick | EvRead | EvSendFailed | EvSent | EvCount.

Definition eventLoop (ev : loop_event) (w : world) : option (res world) :=
  let e := source w in
  match ev, loop w with
  | EvCancelled, Some AtSelect => if cancelled w then Some (close_done w) else None
  | EvTick, Some AtSelect => Some (Ok (goto w AtRead))
  | EvRead, Some AtRead =>
      if stopping w then None else
      Some (if (loop_target w <=? sentCounter e)%Z then close_done w else Ok (goto w AtSend))
  | EvSendFailed, Some AtSend => Some (Ok (goto w AtSelect))
  | EvSent, Some AtSend =>
      Some (Ok {| source := e; loop := Some AtCount; loop_target := loop_target w; cancelled := cancelled w;
                  stopping := stopping w; posted := posted w + 1 |})
  | EvCount, Some AtCount =>
      if stopping w then None else
      Some (Ok {| source := {| e_name := e_name e; contractAddress := contractAddress e; e_id := e_id e;
                               sentCounter := u32 (sentCounter e + 1); targetCounter := targetCounter e;
                               running := running e; done_closed := done_closed e |};
                  loop := Some AtSelect; loop_target := loop_target w; cancelled := cancelled w;
                  stopping := stopping w; posted := posted w |})
  | _, _ => None
  end.

(** The callers use targets up to a bound. *)
Inductive emitter_step (bound : Z) : world → world → Prop :=
| emitter_start t w w' : stopping w = false → (target_of t ≤ bound)%Z → Start t w = Ok w' → emitter_step bound w w'
| emitter_stop w : stopping w = false → emitter_step bound w (Stop w)
| emitter_stopped w w' : Stop_return w = Some w' → emitter_step bound w w'
| emitter_cancel w : emitter_step bound w (cancel w)
| emitter_loop ev w w' : eventLoop ev w = Some (Ok w') → emitter_step bound w w'.
End emitter.

(** ** What the emitter promises *)

Section promises.
Context {AL : AddrLib}.
Variable bound : Z.
Hypothesis bound_fits : (0 ≤ bound < 2 ^ 32)%Z.

Local Abbreviation step := (emitter_step bound).

(** A message that is sent but not counted. *)
Definition in_flight (pc : option loop_pc) : Z := match pc with Some AtCount => 1 | _ => 0 end.

(** A goroutine lives only while the emitter runs, and [done] is closed exactly when
    it has returned; the counter lags behind the messages by the one in flight. *)
Record world_ok (w : world) : Prop := {
  wo_idle : running (source w) = false → loop w = None ∧ stopping w = false;
  wo_running : running (source w) = true →
    ∃ c, done_closed (source w) = Some c ∧ (c = true ↔ loop w = None);
  wo_target : is_Some (loop w) → (0 ≤ loop_target w ≤ bound)%Z;
  wo_below : loop w = Some AtSend ∨ loop w = Some AtCount → (sentCounter (source w) < loop_target w)%Z;
  wo_posted : posted w = (sentCounter (source w) + in_flight (loop w))%Z;
  wo_counter : (0 ≤ sentCounter (source w) ≤ bound)%Z;
}.

Lemma NewWorld_ok name addr id : world_ok (NewWorld (NewSource name addr id)).
Proof. split; cbn; [done..|by intros [? ?]|by intros [?|?]|done|lia]. Qed.

(** While the goroutine lives, the emitter runs and [done] is open. *)
Lemma alive w pc : world_ok w → loop w = Some pc → running (source w) = true ∧ done_closed (source w) = Some false.
Proof.
  intros [H1 H2 _ _ _ _] Hl. destruct (running (source w)); [|by destruct (H1 eq_refl); congruence].
  split; [done|]. destruct (H2 eq_refl) as ([] & Hc & Hcl); [|done]. by rewrite (proj1 Hcl eq_refl) in Hl.
Qed.

Lemma alive_ok w pc :
  running (source w) = true → done_closed (source w) = Some false → loop w = Some pc →
  (0 ≤ loop_target w ≤ bound)%Z → (0 ≤ sentCounter (source w) ≤ bound)%Z →
  (pc = AtSend ∨ pc = AtCount → (sentCounter (source w) < loop_target w)%Z) →
  posted w = (sentCounter (source w) + in_flight (Some pc))%Z → world_ok w.
Proof.
  intros Hr Hd Hl Ht Hs Hb Hp. split; rewrite ?Hl; [by rewrite Hr|by exists false|done| | |done].
  - intros [[= ->]|[= ->]]; apply Hb; auto.
  - done.
Qed.

(** Closing [done] works whenever the goroutine is there to do it. *)
Lemma close_done_ok w pc : world_ok w → loop w = Some pc → pc ≠ AtCount →
  ∃ w', close_done w = Ok w' ∧ world_ok w' ∧ stopping w' = stopping w ∧ loop w' = None ∧ posted w' = posted w ∧
    done_closed (source w') = Some true ∧ sentCounter (source w') = sentCounter (source w).
Proof.
  intros Hw Hl Hpc. destruct (alive w pc Hw Hl) as [Hr Hd]. destruct Hw as [_ _ _ _ H5 H6].
  unfold close_done. rewrite Hd. eexists. split; [done|]. split; [|done]. rewrite Hl in H5.
  split; cbn; [congruence|by exists true|by intros [? ?]|by intros [?|?]|by destruct pc|done].
Qed.

(** A move of the goroutine never panics, and keeps what is said above. *)
Lemma eventLoop_ok ev w r : world_ok w → eventLoop ev w = Some r →
  ∃ w', r = Ok w' ∧ world_ok w' ∧ stopping w' = stopping w.
Proof.
  intros Hw H. pose proof (alive w) as Ha.
  pose proof Hw as [_ _ H3 H4 H5 H6]. unfold eventLoop in H. destruct (loop w) as [pc|] eqn:El; [|by destruct ev].
  destruct (Ha pc Hw eq_refl) as [Hr Hd]. specialize (H3 ltac:(by eexists)).
  destruct ev, pc; try done.
  - destruct (cancelled w); [|done]. destruct (close_done_ok w AtSelect Hw El) as (w' & Hc & ? & ? & _); [done|].
    rewrite Hc in H. injection H as <-. by exists w'.
  - injection H as <-. eexists. split; [done|]. split; [|done]. by apply (alive_ok _ AtRead); try (by intros [|]).
  - destruct (stopping w) eqn:Es; [done|]. destruct (Z.leb_spec (loop_target w) (sentCounter (source w))) as [Hle|Hgt].
    + destruct (close_done_ok w AtRead Hw El) as (w' & Hc & ? & ? & _); [done|]. rewrite Hc in H. injection H as <-.
      exists w'. by rewrite <- Es.
    + injection H as <-. eexists. split; [done|]. split; [|done]. by apply (alive_ok _ AtSend).
  - injection H as <-. eexists. split; [done|]. split; [|done]. by apply (alive_ok _ AtSelect); try (by intros [|]).
  - injection H as <-. eexists. split; [done|]. split; [|done]. apply (alive_ok _ AtCount); try done.
    + intros _. apply H4. by left.
    + cbn in *. lia.
  - destruct (stopping w) eqn:Es; [done|]. injection H as <-. eexists. split; [done|]. split; [|done].
    specialize (H4 (or_intror eq_refl)). assert (u32 (sentCounter (source w) + 1) = (sentCounter (source w) + 1)%Z) as E
      by (apply Z.mod_small; lia). apply (alive_ok _ AtSelect); cbn; rewrite ?E; try done; try lia; try (by intros [|]).
    cbn in *. lia.
Qed.

Lemma step_ok w w' : world_ok w → step w w' → world_ok w'.
Proof.
  intros Hw Hs. destruct Hs as [t w w' Hl Ht H|w Hl|w w' H|w|ev w w' H].
  - unfold Start in H. destruct (running (source w)) eqn:Er; [done|]. injection H as <-. destruct Hw as [H1 _ _ _ H5 H6].
    destruct (H1 Er) as [El _]. rewrite El in H5.
    apply (alive_ok _ AtSelect); try done; try (by intros [|]). cbn. split; [|done]. unfold target_of, u32. by apply Z.mod_pos_bound.
  - unfold Stop. destruct (running (source w)) eqn:Er; [|done]. destruct Hw as [H1 H2 H3 H4 H5 H6]. split; cbn; try done. congruence.
  - unfold Stop_return in H. destruct (stopping w); [|done]. case_bool_decide as Hd; [|done]. injection H as <-.
    destruct Hw as [H1 H2 H3 H4 H5 H6]. destruct (running (source w)) eqn:Er; [|by destruct (H1 eq_refl)].
    destruct (H2 eq_refl) as (c & Hc & Hcl). rewrite Hd in Hc. injection Hc as <-. rewrite (proj1 Hcl eq_refl) in *.
    split; cbn; done || (by intros [? ?]) || by intros [?|?].
  - by destruct Hw; split.
  - destruct (eventLoop_ok ev w _ Hw H) as (w1 & [= <-] & ? & _). done.
Qed.

Lemma steps_ok w w' : world_ok w → rtc step w w' → world_ok w'.
Proof. intros Hw H. induction H as [|w1 w2 w3 Hs _ IH]; [done|]. apply IH. by eapply step_ok. Qed.

(** However callers start, stop and cancel it, the emitter posts no more messages than the
    largest target, its counter is at most one message behind, the goroutine never
    panics, and starting one succeeds only when none lives. *)
Theorem emitter_reachable (name : string) (addr : Address) (id : Z) (w : world)
    (Hw : rtc step (NewWorld (NewSource name addr id)) w) :
  (sentCounter (source w) ≤ posted w ≤ sentCounter (source w) + 1 ∧ 0 ≤ posted w ≤ bound)%Z ∧
  (∀ ev r, eventLoop ev w = Some r → is_panic r = false) ∧
  (∀ t w', Start t w = Ok w' → loop w = None).
Proof.
  apply steps_ok in Hw; [|apply NewWorld_ok]. pose proof Hw as [H1 _ H3 H4 H5 H6]. split; [|split].
  - destruct (loop w) as [pc|]; cbn in H5; [|lia]. specialize (H3 ltac:(by eexists)).
    destruct pc; cbn in H5; try lia. specialize (H4 (or_intror eq_refl)). lia.
  - intros ev r H. by destruct (eventLoop_ok ev w r Hw H) as (w' & -> & _).
  - intros t w' H. unfold Start in H. destruct (running (source w)) eqn:Er; [done|]. by apply H1.
Qed.

(** *** Stopping *)

(** A goroutine that needs the lock while [Stop] holds it. *)
Definition blocked (w : world) : Prop := stopping w = true ∧ (loop w = Some AtRead ∨ loop w = Some AtCount).
(** A goroutine that nobody has told to stop, and a [Stop] that waits for it. *)
Definition waiting (w : world) : Prop := stopping w = true ∧ is_Some (loop w) ∧ cancelled w = false.

Lemma blocked_forever w w' : world_ok w → blocked w → rtc step w w' → blocked w' ∧ posted w' = posted w.
Proof.
  intros Hw Hb H. induction H as [w|w w1 w2 Hs _ IH]; [done|].
  assert (blocked w1 ∧ posted w1 = posted w) as [Hb1 Hp1]; [|destruct IH; [by eapply step_ok|done|split; [done|congruence]]].
  destruct Hb as [Hst Hl]. destruct Hs as [t w w' Hf _ _|w Hf|w w' H|w|ev w w' H]; try congruence.
  - unfold Stop_return in H. rewrite Hst in H. case_bool_decide as Hd; [|done].
    exfalso. destruct Hl as [Hl|Hl]; destruct (alive w _ Hw Hl); congruence.
  - done.
  - unfold eventLoop in H. rewrite Hst in H. destruct Hl as [Hl|Hl]; rewrite Hl in H; by destruct ev.
Qed.

Lemma waiting_step w w' : world_ok w → waiting w → step w w' → w' = cancel w ∨ waiting w'.
Proof.
  intros Hw (Hst & [pc Hl] & Hc) Hs. destruct Hs as [t w w' Hf _ _|w Hf|w w' H|w|ev w w' H]; try congruence; [|by left|right].
  - unfold Stop_return in H. rewrite Hst in H. case_bool_decide as Hd; [|done].
    destruct (alive w pc Hw Hl). congruence.
  - unfold waiting. unfold eventLoop in H. rewrite Hst, Hl in H. destruct ev, pc; try done; [by rewrite Hc in H|..];
      injection H as <-; by split_and!.
Qed.

(** At its select or while sending, the goroutine can still see a cancellation. *)
Lemma stop_after_cancel w pc :
  world_ok w → stopping w = true → loop w = Some pc → pc = AtSelect ∨ pc = AtSend →
  ∃ w', rtc step w w' ∧ stopping w' = false ∧ running (source w') = false.
Proof.
  intros Hw Hst Hl Hpc.
  assert (∃ w1, rtc step w w1 ∧ world_ok w1 ∧ stopping w1 = true ∧ loop w1 = Some AtSelect ∧ cancelled w1 = true) as
    (w1 & H1 & Hw1 & Hst1 & Hl1 & Hc1).
  { assert (∀ w, world_ok w → stopping w = true → loop w = Some AtSelect → ∃ w1, rtc step w w1 ∧ world_ok w1 ∧
      stopping w1 = true ∧ loop w1 = Some AtSelect ∧ cancelled w1 = true) as Hsel.
    { intros w0 H0 ? ?. exists (cancel w0). split; [apply rtc_once, emitter_cancel|]. split; [|done].
      eapply step_ok; [exact H0|apply emitter_cancel]. }
    destruct Hpc as [->| ->]; [by apply Hsel|].
    assert (step w (goto w AtSelect)) as Hs by (apply (emitter_loop bound EvSendFailed); unfold eventLoop; by rewrite Hl).
    destruct (Hsel (goto w AtSelect)) as (w1 & ? & ?); [by eapply step_ok|done|done|]. exists w1. split; [|done].
    by eapply rtc_l. }
  destruct (close_done_ok w1 AtSelect Hw1 Hl1) as (w2 & Hcl & Hw2 & Hst2 & Hl2 & _ & Hd2 & _); [done|].
  destruct (Stop_return w2) as [w3|] eqn:E.
  - exists w3. split.
    + etrans; [exact H1|]. eapply rtc_l; [apply (emitter_loop bound EvCancelled)|apply rtc_once, emitter_stopped, E].
      unfold eventLoop. by rewrite Hl1, Hc1, Hcl.
    + unfold Stop_return in E. case_match; [|done]. by injection E as <-.
  - unfold Stop_return in E. rewrite Hst2, Hst1, bool_decide_eq_true_2 in E by done. done.
Qed.

(** A call of [Stop] waits for the goroutine with the lock the goroutine needs: caught
    before it reads or writes the counter, the two block each other for ever, a cancellation
    included; otherwise [Stop] goes on waiting until the context is cancelled, after
    which it can return. *)
Theorem Stop_deadlocks (name : string) (addr : Address) (id : Z) (w : world)
    (Hw : rtc step (NewWorld (NewSource name addr id)) w) (Hstop : stopping w = true) :
  (loop w = Some AtRead ∨ loop w = Some AtCount →
   ∀ w', rtc step w w' → stopping w' = true ∧ posted w' = posted w) ∧
  (is_Some (loop w) → cancelled w = false → ∀ w', step w w' → w' = cancel w ∨ waiting w') ∧
  (loop w = Some AtSelect ∨ loop w = Some AtSend → ∃ w', rtc step w w' ∧ stopping w' = false) ∧
  (loop w = None → is_Some (Stop_return w)).
Proof.
  apply steps_ok in Hw; [|apply NewWorld_ok]. split; [|split; [|split]].
  - intros Hl w' H. destruct (blocked_forever w w' Hw) as [[? _] ?]; by try split.
  - intros Hl Hc w' H. by apply waiting_step.
  - intros [Hl|Hl]; destruct (stop_after_cancel w _ Hw Hstop Hl) as (w' & ? & ? & _); eauto.
  - intros Hl. destruct Hw as [H1 H2 _ _ _ _]. destruct (running (source w)); [|by destruct (H1 eq_refl); congruence].
    destruct (H2 eq_refl) as (c & Hc & Hcl). rewrite (proj2 Hcl Hl) in Hc. unfold Stop_return.
    rewrite Hstop, bool_decide_eq_true_2 by done. by eexists.
Qed.

(** *** Finishing *)

(** A round of the goroutine that sends and counts one message. *)
Lemma loop_round w :
  world_ok w → stopping w = false → loop w = Some AtSelect → (sentCounter (source w) < loop_target w)%Z →
  ∃ w', rtc step w w' ∧ stopping w' = false ∧ loop w' = Some AtSelect ∧ loop_target w' = loop_target w ∧
    posted w' = (posted w + 1)%Z ∧ sentCounter (source w') = (sentCounter (source w) + 1)%Z.
Proof.
  intros Hw Hst Hl Hlt. pose proof (wo_target w Hw ltac:(by eexists)) as Hb. pose proof (wo_counter w Hw) as Hcn.
  destruct (eventLoop EvSent (goto (goto w AtRead) AtSend)) as [[w3| | |]|] eqn:E3; try done.
  destruct (eventLoop EvCount w3) as [[w4| | |]|] eqn:E4; injection E3 as <-; cbn in E4; rewrite Hst in E4; try done.
  exists w4. split.
  - eapply rtc_l; [apply (emitter_loop bound EvTick); unfold eventLoop; by rewrite Hl|].
    eapply rtc_l; [apply (emitter_loop bound EvRead); cbn; rewrite Hst; by rewrite (proj2 (Z.leb_gt _ _))|].
    eapply rtc_l; [by apply (emitter_loop bound EvSent)|]. apply rtc_once, (emitter_loop bound EvCount). cbn. by rewrite Hst.
  - injection E4 as <-. cbn. split_and!; try done. apply Z.mod_small. lia.
Qed.

(** The round that sees the target reached: the goroutine returns, and so would [Stop]. *)
Lemma loop_last w :
  world_ok w → stopping w = false → loop w = Some AtSelect → (loop_target w ≤ sentCounter (source w))%Z →
  ∃ w', rtc step w w' ∧ loop w' = None ∧ posted w' = posted w ∧ is_Some (Stop_return (Stop w')).
Proof.
  intros Hw Hst Hl Hle. destruct (alive w _ Hw Hl) as [Hr Hd].
  destruct (close_done (goto w AtRead)) as [w'| | |] eqn:Ec; unfold close_done in Ec; cbn in Ec; rewrite Hd in Ec; try done.
  exists w'. split; [|injection Ec as <-; split_and!; try done].
  - eapply rtc_l; [apply (emitter_loop bound EvTick); unfold eventLoop; by rewrite Hl|].
    apply rtc_once, (emitter_loop bound EvRead). cbn. rewrite Hst, (proj2 (Z.leb_le _ _)) by done.
    unfold close_done. cbn. by rewrite Hd, Ec.
  - unfold Stop. cbn. rewrite Hr. unfold Stop_return. cbn. by eexists.
Qed.

(** Left alone, with sends that succeed, the goroutine reaches its target and returns. *)
Lemma loop_finishes n w :
  world_ok w → stopping w = false → loop w = Some AtSelect → n = Z.to_nat (loop_target w - sentCounter (source w)) →
  ∃ w', rtc step w w' ∧ loop w' = None ∧ posted w' = Z.max (posted w) (loop_target w) ∧ is_Some (Stop_return (Stop w')).
Proof.
  revert w. induction n as [|n IH]; intros w Hw Hst Hl Hn; pose proof (wo_posted w Hw) as Hp; rewrite Hl in Hp; cbn in Hp.
  - destruct (loop_last w) as (w' & ? & ? & Hp' & ?); [done..|lia|]. exists w'. split_and!; try done. lia.
  - destruct (loop_round w) as (w1 & H1 & Hst1 & Hl1 & Ht1 & Hp1 & Hs1); [done..|lia|].
    destruct (IH w1) as (w' & H2 & ? & Hp' & ?); [by eapply steps_ok|done|done|lia|].
    exists w'. split; [by etrans|]. split; [done|]. split; [|done]. rewrite Hp', Hp1, Ht1. lia.
Qed.

(** A started emitter that nobody disturbs can always reach its target: it has then
    posted exactly that many messages, or the ones of an earlier, larger target, and [Stop]
    returns at once. *)
Theorem Start_completes (name : string) (addr : Address) (id t : Z) (w w1 : world)
    (Hw : rtc step (NewWorld (NewSource name addr id)) w) (Hfree : stopping w = false)
    (Ht : (target_of t ≤ bound)%Z) (Hstart : Start t w = Ok w1) :
  ∃ w', rtc step w1 w' ∧ loop w' = None ∧ posted w' = Z.max (posted w) (target_of t) ∧ is_Some (Stop_return (Stop w')).
Proof.
  apply steps_ok in Hw; [|apply NewWorld_ok]. pose proof (emitter_start bound t w w1 Hfree Ht Hstart) as Hs.
  pose proof (step_ok _ _ Hw Hs) as Hw1. unfold Start in Hstart. destruct (running (source w)); [done|]. injection Hstart as <-.
  destruct (loop_finishes _ _ Hw1 Hfree eq_refl eq_refl) as (w' & ? & ? & ? & ?). by exists w'.
Qed.
End promises.

(** ** Sending and checking events *)

Section sending.
Context {AL : AddrLib} {CL : CellLib}.

(** [tlb.MustFromTON]; the wallet's sends and the waits for a block, by the number of
    the call, as their outcomes change over time; and the query ids [rand] draws. *)
Variable MustFromTON : string → res Z.
Variable SendWaitTransaction : WalletMessage → res (Transaction * BlockIDExt).
Variable SendManyWaitTransaction : nat → list WalletMessage → res (Transaction * BlockIDExt).
Variable WaitGetAccount : BlockIDExt → Address → res ().

Definition increase_message (e : TestEventSource) (QueryID : Z) : res WalletMessage :=
  body ← wrap_err "failed to create cell" (ToCell (Tlb := jetton.IncreaseCount_tlb) {| jetton.ic_QueryID := QueryID |});
  amount ← MustFromTON "0.1";
  Ok {| wm_Mode := 1; wm_SrcAddr := None; wm_DstAddr := contractAddress e; wm_Bounce := true; wm_IHRDisabled := true;
        wm_Amount := amount; wm_StateInit := None; wm_Body := body; wm_CreatedAt := 0 |}.

Definition SendIncreaseCounterMsg (e : TestEventSource) (QueryID : Z) : res (Transaction * BlockIDExt) :=
  msg ← increase_message e QueryID;
  wrap_err "failed to send message" (SendWaitTransaction msg).

Definition sendManyIncreaseCountMsgs (e : TestEventSource) (rand : nat → nat → Z) (call : nat) (msgs : Z)
    : res (Transaction * BlockIDExt) :=
  if (msgs <? 0)%Z then Panic "makeslice: len out of range" else
  messages ← res_map (λ i, increase_message e (rand call i)) (seq 0 (Z.to_nat msgs));
  SendManyWaitTransaction call messages.

Record TestEventRes := { tr_Tx : Transaction; tr_Block : BlockIDExt; tr_BatchIdx : Z; tr_TxIdx : Z }.

(** The two loops; [call] counts the transactions that were sent before. *)
Fixpoint send_txs (e : TestEventSource) (rand : nat → nat → Z) (n call : nat) (batchIdx txIdx msgPerTx : Z)
    (txs : list TestEventRes) : res (list TestEventRes) :=
  match n with
  | O => Ok txs
  | S n' =>
      r ← wrap_err "failed to send tx in batch" (sendManyIncreaseCountMsgs e rand call msgPerTx);
      send_txs e rand n' (S call) batchIdx (txIdx + 1) msgPerTx
        (txs ++ [{| tr_Tx := r.1; tr_Block := r.2; tr_BatchIdx := batchIdx; tr_TxIdx := txIdx |}])
  end.
Fixpoint send_batches (e : TestEventSource) (rand : nat → nat → Z) (n call : nat)
    (batchIdx batchCount txPerBatch msgPerTx : Z) (txs : list TestEventRes) : res (list TestEventRes) :=
  match n with
  | O => Ok txs
  | S n' =>
      txs ← send_txs e rand (Z.to_nat txPerBatch) call batchIdx 0 msgPerTx txs;
      _ ← (if (batchIdx <? batchCount - 1)%Z
           then match last (txs : list TestEventRes) with
                | None => Panic "index out of range"
                | Some t => wrap_err "failed to wait for block confirmation" (WaitGetAccount (tr_Block t) (ContractAddress e))
                end
           else Ok ());
      send_batches e rand n' (call + Z.to_nat txPerBatch) (batchIdx + 1) batchCount txPerBatch msgPerTx txs
  end.
Definition SendBulkTestEvents (e : TestEventSource) (rand : nat → nat → Z) (batchCount txPerBatch msgPerTx : Z)
    : res (list TestEventRes) :=
  send_batches e rand (Z.to_nat batchCount) 0 0 batchCount txPerBatch msgPerTx [].

(** *** Loaded events *)

Fixpoint collect_seen (msgs : list ExternalOut) (seen : gset Z) : res (gset Z) :=
  match msgs with
  | [] => Ok seen
  | ext :: msgs' =>
      event ← wrap_err "failed to parse event" (ParseEventFromMsg jetton.CountIncreased_tlb ext);
      let v := jetton.ci_Value event in
      if bool_decide (v ∈ seen) then Err "duplicate counter found" else collect_seen msgs' ({[v]} ∪ seen)
  end.
Definition VerifyLoadedEvents (msgs : list ExternalOut) (expectedCount : Z) : res () :=
  seen ← collect_seen msgs ∅;
  let missing := filter (λ i, u32 i ∉ (seen : gset Z)) (seqZ 1 expectedCount) in
  if 0 <? length missing then Err "not all expected counters found" else Ok ().

(** *** Getters and deployment *)

Variable ExecutionResult : Type.
Variable RunGetMethod : BlockIDExt → Address → string → res ExecutionResult.
Variable ResultInt : ExecutionResult → nat → res Z.
Definition GetCounterID (e : TestEventSource) (block : BlockIDExt) : res Z :=
  res ← wrap_err "failed to run get method 'id'" (RunGetMethod block (ContractAddress e) "id");
  wrap_err "failed to extract id value" (ResultInt res 0).
Definition GetCounterValue (e : TestEventSource) (block : BlockIDExt) : res Z :=
  res ← wrap_err "failed to run get method 'value'" (RunGetMethod block (ContractAddress e) "value");
  wrap_err "failed to extract value value" (ResultInt res 0).

Variable ParseCompiledContract : string → res Cell.
Variable Deploy : Cell → Cell → Z → Cell → res (Contract * heap).
Definition NewTestEventSource (path : string) (wallet : Wallet) (name : string) (id : Z) : res TestEventSource :=
  codeCell ← wrap_err "failed to parse compiled contract" (ParseCompiledContract path);
  data ← wrap_err "failed to create initial data cell"
    (ToCell (Tlb := jetton.ContractData_tlb)
       {| jetton.cd_ID := id; jetton.cd_Value := 0;
          jetton.cd_Ownable := {| Onramp.ow_Owner := w_Address wallet; Onramp.ow_PendingOwner := None |} |});
  amount ← MustFromTON "0.1";
  r ← wrap_err "failed to deploy contract" (Deploy codeCell data amount (EndCell BeginCell));
  Ok (NewSource name (ct_Address (r : Contract * heap).1) id).

(** *** The whole set-up of the smoke test *)

Variable CurrentMasterchainInfo : nat → res BlockIDExt.
(** The condition that is polled: the counter of the [k]-th block that is seen. *)
Definition counter_reached (e : TestEventSource) (expectedCounter : Z) (k : nat) : bool :=
  match CurrentMasterchainInfo k with
  | Ok mb =>
      match GetCounterValue e mb with
      | Ok currentCounterRaw => (u32 (big_Uint64 currentCounterRaw) =? expectedCounter)%Z
      | _ => false
      end
  | _ => false
  end.

(** A new wallet and its funding; there are [polls] polls before the time is up. *)
Variable CreateRandomHighloadWallet : res Wallet.
Variable FundWallets : list Address → list Z → res ().
Definition SendBulkTestEventTxs (path : string) (id : Z) (rand : nat → nat → Z) (polls : nat)
    (batchCount txPerBatch msgPerTx : Z) : res (TestEventSource * list TestEventRes) :=
  sender ← CreateRandomHighloadWallet;
  amount ← MustFromTON "1000";
  _ ← FundWallets [w_Address sender] [amount];
  emitter ← NewTestEventSource path sender "emitter" id;
  txs ← SendBulkTestEvents emitter rand batchCount txPerBatch msgPerTx;
  let expectedCounter := u32 (batchCount * txPerBatch * msgPerTx) in
  if existsb (counter_reached emitter expectedCounter) (seq 0 polls)
  then Ok (emitter, txs) else Err "Counter did not reach expected value within timeout".
End sending.

(** ** What sending and checking promise *)

Section sending_laws.
Context {AL : AddrLib} {CL : CellLib}.
Variable MustFromTON : string → res Z.
Variable SendManyWaitTransaction : nat → list WalletMessage → res (Transaction * BlockIDExt).
Variable WaitGetAccount : BlockIDExt → Address → res ().
Variable e : TestEventSource.
Variable rand : nat → nat → Z.

Local Abbreviation send_many := (sendManyIncreaseCountMsgs MustFromTON SendManyWaitTransaction e rand).
Local Abbreviation send_txs := (send_txs MustFromTON SendManyWaitTransaction e rand).
Local Abbreviation SendBulk := (SendBulkTestEvents MustFromTON SendManyWaitTransaction WaitGetAccount e rand).

(** What the [call]-th transaction reports when a batch has [per] of them. *)
Definition result_of (out : nat → Transaction * BlockIDExt) (per call : nat) : TestEventRes :=
  {| tr_Tx := (out call).1; tr_Block := (out call).2; tr_BatchIdx := Z.of_nat (call / per); tr_TxIdx := Z.of_nat (call mod per) |}.

Lemma send_txs_ok out per b n k txs msgs :
  (∀ c, c < n → send_many (b * per + (k + c)) msgs = Ok (out (b * per + (k + c)))) → k + n ≤ per →
  send_txs n (b * per + k) (Z.of_nat b) (Z.of_nat k) msgs txs
  = Ok (txs ++ (result_of out per <$> seq (b * per + k) n)).
Proof.
  revert k txs. induction n as [|n IH]; intros k txs H Hle; cbn [EventEmitter.send_txs seq]; [by rewrite app_nil_r|].
  pose proof (H 0 ltac:(lia)) as H0. rewrite Nat.add_0_r in H0. rewrite H0. cbn [wrap_err mbind res_bind].
  replace (Z.of_nat k + 1)%Z with (Z.of_nat (S k)) by lia. rewrite <- Nat.add_succ_r. rewrite IH; [|intros c Hc|lia].
  - rewrite <- app_assoc. cbn. do 3 f_equal. unfold result_of. f_equal; f_equal.
    + rewrite Nat.div_add_l by lia. rewrite Nat.div_small by lia. lia.
    + rewrite Nat.add_comm, Nat.Div0.mod_add, Nat.mod_small by lia. done.
  - replace (S k + c) with (k + S c) by lia. apply H. lia.
Qed.

(** When every transaction goes through and every block is confirmed, the bulk returns
    one result per transaction, batch by batch, with the index of its batch and its index
    in the batch. *)
Theorem SendBulkTestEvents_spec (out : nat → Transaction * BlockIDExt) (batches per : nat) (msgs : Z)
    (Hsend : ∀ c, c < batches * per → send_many c msgs = Ok (out c))
    (Hwait : ∀ b, is_ok (WaitGetAccount b (ContractAddress e)) = true) (Hper : 0 < per) :
  SendBulk (Z.of_nat batches) (Z.of_nat per) msgs = Ok (result_of out per <$> seq 0 (batches * per)).
Proof.
  unfold SendBulkTestEvents. rewrite Nat2Z.id.
  assert (∀ n b txs, b + n = batches → txs = result_of out per <$> seq 0 (b * per) →
    send_batches MustFromTON SendManyWaitTransaction WaitGetAccount e rand n (b * per) (Z.of_nat b) (Z.of_nat batches)
      (Z.of_nat per) msgs txs = Ok (result_of out per <$> seq 0 (batches * per))) as H; [|by apply (H batches 0 [])].
  induction n as [|n IH]; intros b txs Hb ->; cbn [send_batches]; [by replace b with batches by lia|].
  pose proof (send_txs_ok out per b per 0 (result_of out per <$> seq 0 (b * per)) msgs) as Ht.
  rewrite Nat.add_0_r in Ht. rewrite Nat2Z.id. change 0%Z with (Z.of_nat 0). rewrite Ht by (lia || (intros c Hc; apply Hsend; nia)).
  cbn [mbind res_bind]. rewrite <- fmap_app, <- seq_app.
  assert ((if (Z.of_nat b <? Z.of_nat batches - 1)%Z
           then match last (result_of out per <$> seq 0 (b * per + per)) with
                | None => Panic "index out of range"
                | Some t => wrap_err "failed to wait for block confirmation" (WaitGetAccount (tr_Block t) (ContractAddress e))
                end
           else Ok ()) = Ok ()) as ->.
  { destruct (_ <? _)%Z; [|done]. replace (b * per + per) with (S (b * per + per - 1)) by lia. rewrite seq_S, fmap_app. cbn.
    rewrite last_snoc. specialize (Hwait (tr_Block (result_of out per (b * per + per - 1)))).
    by destruct (WaitGetAccount _ _) as [[]| | |]. }
  cbn [mbind res_bind]. replace (Z.of_nat b + 1)%Z with (Z.of_nat (S b)) by lia.
  replace (b * per + per) with (S b * per) by lia. apply IH; [lia|done].
Qed.

(** Batches without transactions panic as soon as there are two of them. *)
Theorem SendBulkTestEvents_empty (batches per msgs : Z) (Hb : (2 ≤ batches)%Z) (Hper : (per ≤ 0)%Z) :
  SendBulk batches per msgs = Panic "index out of range".
Proof.
  unfold SendBulkTestEvents. destruct (Z.to_nat batches) as [|n] eqn:E; [lia|]. cbn [send_batches].
  replace (Z.to_nat per) with 0 by lia. cbn [EventEmitter.send_txs mbind res_bind last].
  by rewrite (proj2 (Z.ltb_lt _ _)) by lia.
Qed.
End sending_laws.

Section checking.
Context {AL : AddrLib} {CL : CellLib}.

Local Abbreviation parse := (ParseEventFromMsg jetton.CountIncreased_tlb).

Lemma collect_seen_ok msgs s seen :
  collect_seen msgs s = Ok seen ↔
  ∃ evs, res_map parse msgs = Ok evs ∧ NoDup (jetton.ci_Value <$> evs) ∧ (∀ v, v ∈ jetton.ci_Value <$> evs → v ∉ s) ∧
    seen = list_to_set (jetton.ci_Value <$> evs) ∪ s.
Proof.
  revert s. induction msgs as [|m msgs IH]; intros s; cbn [collect_seen res_map].
  - split.
    + intros [= <-]. exists []. split_and!; [done|constructor|by intros v ?%elem_of_nil|set_solver].
    + intros (evs & [= <-] & _ & _ & ->). f_equal. set_solver.
  - destruct (parse m) as [ev| | |]; cbn [wrap_err mbind res_bind]; try (by split; [done|intros (? & ? & _)]).
    case_bool_decide as Hin.
    + split; [done|]. intros (evs & H & _ & Hs & _). apply bind_ok in H as (evs' & _ & [= <-]).
      destruct (Hs (jetton.ci_Value ev)); [by left|done].
    + rewrite IH. split.
      * intros (evs & -> & Hnd & Hs & ->). exists (ev :: evs). cbn. split; [done|]. split; [|split].
        { constructor; [|done]. intros Hv. specialize (Hs _ Hv). set_solver. }
        { intros v [->|Hv]%elem_of_cons; [done|]. specialize (Hs _ Hv). set_solver. }
        { set_solver. }
      * intros (evs & H & Hnd & Hs & ->). apply bind_ok in H as (evs' & H & [= <-]). exists evs'. split; [done|].
        cbn in Hnd, Hs |- *. apply NoDup_cons in Hnd as [Hv Hnd]. split; [done|]. split; [|set_solver].
        intros v Hv'. specialize (Hs v (list_elem_of_further _ _ _ Hv')). intros [Hv2%elem_of_singleton|?]%elem_of_union; [by subst v|done].
Qed.

(** The loaded events are accepted exactly when all of them parse, no counter value occurs
    twice, and every value from 1 to the expected count occurs; when there
    are as many events as expected, their values are then exactly 1, 2, ..., in some
    order. *)
Theorem VerifyLoadedEvents_spec (msgs : list ExternalOut) (n : Z) (Hn : (0 ≤ n < 2 ^ 32)%Z) :
  (VerifyLoadedEvents msgs n = Ok () ↔
   ∃ evs, res_map parse msgs = Ok evs ∧ NoDup (jetton.ci_Value <$> evs) ∧
     ∀ i, (1 ≤ i ≤ n)%Z → i ∈ jetton.ci_Value <$> evs) ∧
  (∀ evs, res_map parse msgs = Ok evs → Z.of_nat (length msgs) = n →
     (VerifyLoadedEvents msgs n = Ok () ↔ jetton.ci_Value <$> evs ≡ₚ seqZ 1 n)).
Proof.
  assert (VerifyLoadedEvents msgs n = Ok () ↔
   ∃ evs, res_map parse msgs = Ok evs ∧ NoDup (jetton.ci_Value <$> evs) ∧
     ∀ i, (1 ≤ i ≤ n)%Z → i ∈ jetton.ci_Value <$> evs) as Hspec.
  { assert (∀ seen : gset Z, (if 0 <? length (filter (λ i, u32 i ∉ seen) (seqZ 1 n)) then Err "not all expected counters found"%string
      else Ok ()) = Ok () ↔ ∀ i, (1 ≤ i ≤ n)%Z → i ∈ seen) as Hmiss.
    { intros seen. destruct (filter _ _) as [|x l] eqn:E; cbn.
      - split; [|done]. intros _ i Hi. destruct (decide (i ∈ seen)) as [|Hni]; [done|].
        assert (i ∈ filter (λ i, u32 i ∉ seen) (seqZ 1 n)) as Hf; [|by rewrite E in Hf; apply elem_of_nil in Hf].
        apply list_elem_of_filter. split; [unfold u32; by rewrite Z.mod_small by lia|apply elem_of_seqZ; lia].
      - split; [done|]. intros Hall. assert (x ∈ filter (λ i, u32 i ∉ seen) (seqZ 1 n)) as Hf by (rewrite E; by left).
        apply list_elem_of_filter in Hf as [Hx Hr]. apply elem_of_seqZ in Hr. destruct Hx. unfold u32.
        rewrite Z.mod_small by lia. apply Hall. lia. }
    unfold VerifyLoadedEvents. rewrite bind_ok. split.
    - intros (seen & (evs & He & Hnd & _ & ->)%collect_seen_ok & H). exists evs. split; [done|]. split; [done|].
      intros i Hi. rewrite Hmiss in H. specialize (H i Hi). set_solver.
    - intros (evs & He & Hnd & Hall). exists (list_to_set (jetton.ci_Value <$> evs) ∪ ∅). split.
      + apply collect_seen_ok. exists evs. split_and!; [done|done|set_solver|done].
      + apply Hmiss. intros i Hi. specialize (Hall i Hi). set_solver. }
  split; [done|]. intros evs He Hlen. rewrite Hspec. apply res_map_ok_inv in He as Hl. apply Forall2_length in Hl. split.
  - intros (evs' & He' & Hnd & Hall). rewrite He in He'. injection He' as <-. symmetry.
    apply submseteq_length_Permutation; [|rewrite length_seqZ, length_fmap; lia].
    apply NoDup_submseteq; [apply NoDup_seqZ|]. intros i Hi. apply Hall. apply elem_of_seqZ in Hi. lia.
  - intros Hp. exists evs. split; [done|]. split; [rewrite Hp; apply NoDup_seqZ|]. intros i Hi. rewrite Hp.
    apply elem_of_seqZ. lia.
Qed.
End checking.

(** ** Runs *)

Module EmitterRuns.
Import BitCells LoaderRuns.

Definition fresh : world := NewWorld (NewSource "emitter" src1 5).
Definition started : world := match Start 3 fresh with Ok w => w | _ => fresh end.
(** [Stop] is called while the goroutine is about to read the counter. *)
Definition caught : world := Stop (goto started AtRead).

Lemma caught_reachable : rtc (emitter_step 3) fresh caught.
Proof.
  eapply rtc_l; [apply (emitter_start 3 3 fresh started); [reflexivity|vm_compute; discriminate|reflexivity]|].
  eapply rtc_l; [apply (emitter_loop 3 EvTick started (goto started AtRead)); reflexivity|].
  apply rtc_once, (emitter_stop 3 (goto started AtRead)). reflexivity.
Qed.

Lemma bound3 : (0 ≤ 3 < 2 ^ 32)%Z.
Proof. lia. Qed.

Lemma Stop_deadlocks_witness :
  loop caught = Some AtRead ∧ ∀ w', rtc (emitter_step 3) caught w' → stopping w' = true.
Proof.
  split; [reflexivity|]. intros w' H.
  apply (Stop_deadlocks 3 bound3 "emitter" src1 5 caught caught_reachable eq_refl); [by left|done].
Defined.

Lemma emitter_reachable_witness :
  (0 ≤ posted caught ≤ 3)%Z ∧ ∀ t w', Start t caught = Ok w' → loop caught = None.
Proof.
  split.
  - apply (proj2 (proj1 (emitter_reachable 3 bound3 "emitter" src1 5 caught caught_reachable))).
  - apply (emitter_reachable 3 bound3 "emitter" src1 5 caught caught_reachable).
Defined.

Lemma Start_completes_witness : ∃ w', rtc (emitter_step 3) started w' ∧ posted w' = 3%Z.
Proof.
  destruct (Start_completes 3 bound3 "emitter" src1 5 3 fresh started) as (w' & H & _ & Hp & _);
    [apply rtc_refl|reflexivity|vm_compute; discriminate|reflexivity|].
  exists w'. split; [exact H|exact Hp].
Defined.
End EmitterRuns.
