(* ===== verification/Deployments.v ===== *)
(** * Deployments: pkg/bindings/directory.go and the deployments of the example wrappers

    Where the compiled contracts are found, with [path.Join], [path.Clean] and
    [strings.TrimSpace] of the Go standard library, and the operation the wrappers of
    src/integration-tests/tracetracking/async share: init data, code, deployment and
    calls through the contract wrapper of [Contract]. *)

From Stdlib Require Import Strings.Ascii.
From S2P Require Import Prelude Cells Tlb Trace Txm Loader Contract.

(** ** Paths ([path] of the standard library) *)

Definition slash : ascii := "/"%char.

(** A string cut at its slashes; there is always a first segment. *)
Fixpoint segments (s : string) : list string :=
  match s with
  | EmptyString => [EmptyString]
  | String c s' =>
      if Ascii.eqb c slash then EmptyString :: segments s'
      else match segments s' with
           | [] => [String c EmptyString]
           | x :: xs => String c x :: xs
           end
  end.
Fixpoint with_slashes (l : list string) : string :=
  match l with
  | [] => EmptyString
  | [x] => x
  | x :: l' => x +:+ String slash (with_slashes l')
  end.

(** The lexical elimination of [.] and [..]; [acc] holds the segments kept, last first. *)
Fixpoint clean_segments (rooted : bool) (segs acc : list string) : list string :=
  match segs with
  | [] => rev acc
  | s :: segs' =>
      if bool_decide (s = "" ∨ s = ".")%string then clean_segments rooted segs' acc
      else if bool_decide (s = "..")%string then
        match acc with
        | x :: acc' =>
            if bool_decide (x = "..")%string then clean_segments rooted segs' (s :: acc)
            else clean_segments rooted segs' acc'
        | [] => clean_segments rooted segs' (if rooted then [] else [s])
        end
      else clean_segments rooted segs' (s :: acc)
  end.
Definition rooted (s : string) : bool :=
  match s with String c _ => Ascii.eqb c slash | EmptyString => false end.
Definition Clean (s : string) : string :=
  match rooted s, with_slashes (clean_segments (rooted s) (segments s) []) with
  | true, body => String slash body
  | false, EmptyString => "."
  | false, body => body
  end.

(** [path.Join]: the empty elements before the first non-empty one are dropped,
    the others are separated by slashes. *)
Fixpoint drop_empty (l : list string) : list string :=
  match l with EmptyString :: l' => drop_empty l' | _ => l end.
Definition path_Join (elem : list string) : string :=
  match drop_empty elem with [] => EmptyString | l => Clean (with_slashes l) end.

(** ** White space ([strings.TrimSpace]) *)

(** The white space of Unicode, encoded in UTF-8. *)
Definition white_spaces : list (list nat) :=
  [[9]; [10]; [11]; [12]; [13]; [32]; [194; 133]; [194; 160]; [225; 154; 128]] ++
  ((λ k, [226; 128; 128 + k]) <$> seq 0 11) ++
  [[226; 128; 168]; [226; 128; 169]; [226; 128; 175]; [226; 129; 159]; [227; 128; 128]].

Fixpoint strip_prefix (p l : list nat) : option (list nat) :=
  match p, l with
  | [], _ => Some l
  | x :: p', y :: l' => if x =? y then strip_prefix p' l' else None
  | _ :: _, [] => None
  end.
Fixpoint strip_any (ps : list (list nat)) (l : list nat) : option (list nat) :=
  match ps with
  | [] => None
  | p :: ps' => match strip_prefix p l with Some l' => Some l' | None => strip_any ps' l end
  end.
(** Each round drops a byte or more, so the length is enough fuel. *)
Fixpoint trim_left (ps : list (list nat)) (fuel : nat) (l : list nat) : list nat :=
  match fuel with
  | O => l
  | S fuel' => match strip_any ps l with Some l' => trim_left ps fuel' l' | None => l end
  end.
Definition string_bytes (s : string) : list nat := nat_of_ascii <$> String.list_ascii_of_string s.
Definition bytes_string (l : list nat) : string := String.string_of_list_ascii (ascii_of_nat <$> l).
Definition TrimSpace (s : string) : string :=
  let l := trim_left white_spaces (String.length s) (string_bytes s) in
  bytes_string (rev (trim_left ((λ w, rev w) <$> white_spaces) (length l) (rev l))).

(** ** The build directory (directory.go) *)

(** The output of [git rev-parse --show-toplevel], or its failure. *)
Definition GetRepoRootDir (git : res string) : res string :=
  match git with
  | Ok stdout => Ok (TrimSpace stdout)
  | Err e => Panic ("failed to get repo root dir: " +:+ e)
  | Panic p => Panic p
  | Diverge => Diverge
  end.
Definition GetBuildsDir (git : res string) : res string :=
  repoRoot ← GetRepoRootDir git; Ok (path_Join [repoRoot; "contracts"; "build"]%string).
Definition GetBuildDir (git : res string) (contractPath : string) : res string :=
  buildsDir ← GetBuildsDir git; Ok (path_Join [buildsDir; contractPath]).

(** ** Deploying and calling a contract of a wrapper *)

(** A [tracetracking.SignedAPIClient]: what its wallet and its liteclient do. *)
Record SignedAPIClient {AL : AddrLib} {CL : CellLib} := {
  api_Send : WalletMessage → res (Transaction * BlockIDExt);
  api_Deploy : Z → Cell → Cell → Cell → res (Address * Transaction * BlockIDExt);
  api_sub : subscription;
  api_CurrentMasterchainInfo : nat → res BlockIDExt;
}.

(** The rest of the environment: [wallet.PayGasSeparately], [tlb.MustFromTON], the
    file system and [encoding/json] as in [ParseCompiledContract], git, and the
    execution of get methods. *)
Class Environment {AL : AddrLib} {CL : CellLib} := {
  env_PayGasSeparately : Z;
  env_MustFromTON : string → res Z;
  env_NotExist : string → bool;
  env_ReadFile : string → res string;
  env_UnmarshalTact : string → res tactCompiledContract;
  env_UnmarshalTolk : string → res tolkCompiledContract;
  env_git : res string;
  env_ExecutionResult : Type;
  env_RunGetMethod : BlockIDExt → Address → string → res env_ExecutionResult;
  env_ResultInt : env_ExecutionResult → nat → res Z;
}.

Section deployments.
Context {AL : AddrLib} {CL : CellLib} {ENV : Environment}.

(** [wrappers.Contract] with its client. *)
Record BoundContract := { bc_Contract : Contract; bc_Client : SignedAPIClient }.

Definition compiled (path : string) : res Cell :=
  ParseCompiledContract env_NotExist env_ReadFile env_UnmarshalTact env_UnmarshalTolk path.

(** The body of the providers' [Deploy], which differ in the init data and the path. *)
Definition deploy_contract {T} (t : Tlb T) (fuel : nat) (apiClient : SignedAPIClient) (path : res string)
    (initData : T) : res BoundContract :=
  path ← path;
  initDataCell ← wrap_err "failed to serialize init data" (ToCell initData);
  compiledContract ← wrap_err "failed to compile contract" (compiled path);
  let body := EndCell BeginCell in
  amount ← env_MustFromTON "1";
  r ← Deploy (api_Deploy apiClient) (api_sub apiClient) fuel compiledContract initDataCell amount body;
  Ok {| bc_Contract := r.1; bc_Client := apiClient |}.

(** A call of a wrapper with its message and half a TON. *)
Definition send_message {T} (t : Tlb T) (fuel : nat) (c : BoundContract) (message : T) : res heap :=
  amount ← env_MustFromTON "0.5";
  CallWaitRecursively (api_Send (bc_Client c)) env_PayGasSeparately (api_sub (bc_Client c)) t fuel
    (bc_Contract c) message amount.

Definition get_method (c : BoundContract) (key : string) : res env_ExecutionResult :=
  Get (api_CurrentMasterchainInfo (bc_Client c)) env_ExecutionResult env_RunGetMethod (bc_Contract c) key.
Definition get_uint32 (c : BoundContract) (key : string) : res Z :=
  Uint32From env_ExecutionResult env_ResultInt (get_method c key).
Definition get_uint64 (c : BoundContract) (key : string) : res Z :=
  Uint64From env_ExecutionResult env_ResultInt (get_method c key).
End deployments.

(** The lawful layouts of the wrappers. *)
Create HintDb wrappers discriminated.
#[export] Hint Extern 5 (_ < _) => lia : wrappers.
#[export] Hint Extern 5 (_ ≤ _) => lia : wrappers.

(** ** Facts about paths *)

(** A name that [path.Clean] keeps. *)
Definition plain_name (s : string) : Prop :=
  s ≠ "" ∧ s ≠ "." ∧ s ≠ ".." ∧ segments s = [s].

Lemma string_app_cons c (s t : string) : String c s +:+ t = String c (s +:+ t).
Proof. done. Qed.

Lemma segments_cons s : ∃ x xs, segments s = x :: xs.
Proof.
  destruct s as [|c s]; cbn [segments]; [by eexists _, _|].
  destruct (Ascii.eqb c slash); [by eexists _, _|]. destruct (segments s); by eexists _, _.
Qed.

Lemma segments_app (s t : string) : segments s = [s] → segments (s +:+ String slash t) = s :: segments t.
Proof.
  induction s as [|c s IH]; [done|]. rewrite string_app_cons. cbn [segments].
  destruct (Ascii.eqb c slash) eqn:E.
  { destruct (segments_cons s) as (x & xs & ->). done. }
  destruct (segments_cons s) as (x & xs & Hs). rewrite Hs. intros [= -> ->]. by rewrite IH.
Qed.

Lemma segments_with_slashes l : Forall plain_name l → l ≠ [] → segments (with_slashes l) = l.
Proof.
  induction l as [|x l IH]; [done|]. intros [(Hx & _ & _ & Hs) Hl]%Forall_cons _.
  destruct l as [|y l]; [done|]. cbn [with_slashes]. rewrite segments_app by done. f_equal. by apply IH.
Qed.

Lemma clean_plain r l acc : Forall plain_name l → clean_segments r l acc = rev acc ++ l.
Proof.
  revert acc. induction l as [|x l IH]; intros acc Hl; [by rewrite app_nil_r|].
  apply Forall_cons in Hl as [(H1 & H2 & H3 & _) Hl]. cbn [clean_segments].
  rewrite bool_decide_eq_false_2 by tauto. rewrite bool_decide_eq_false_2 by done.
  rewrite IH by done. cbn [rev]. by rewrite <- app_assoc.
Qed.

(** An absolute path of plain names. *)
Definition absolute (l : list string) : string := String slash (with_slashes l).

Lemma Clean_absolute l : Forall plain_name l → l ≠ [] → Clean (absolute l) = absolute l.
Proof.
  intros Hl Hne. unfold Clean, absolute. cbn [rooted segments]. rewrite Ascii.eqb_refl.
  cbn [clean_segments]. rewrite bool_decide_eq_true_2 by tauto.
  rewrite segments_with_slashes by done. by rewrite clean_plain.
Qed.

Lemma with_slashes_app (l m : list string) :
  l ≠ [] → m ≠ [] → with_slashes (l ++ m) = with_slashes l +:+ String slash (with_slashes m).
Proof.
  intros Hl Hm. induction l as [|x l IH]; [done|]. destruct l as [|y l].
  { cbn [app with_slashes]. by destruct m. }
  change ((x :: y :: l) ++ m) with (x :: ((y :: l) ++ m)).
  change (with_slashes (x :: ((y :: l) ++ m))) with (x +:+ String slash (with_slashes ((y :: l) ++ m))).
  rewrite IH by done. cbn [with_slashes].
  induction x as [|c x IHx]; [done|]. rewrite !string_app_cons. by rewrite IHx.
Qed.

Lemma path_Join_absolute (l m : list string) :
  Forall plain_name l → Forall plain_name m → l ≠ [] → m ≠ [] →
  path_Join (absolute l :: m) = absolute (l ++ m).
Proof.
  intros Hl Hm Hl0 Hm0. change (path_Join (absolute l :: m)) with (Clean (with_slashes (absolute l :: m))).
  assert (with_slashes (absolute l :: m) = absolute (l ++ m)) as ->.
  { unfold absolute. rewrite with_slashes_app by done. by destruct m. }
  apply Clean_absolute; [by apply Forall_app|by destruct l].
Qed.

(** The end of the line that git prints is trimmed, and nothing of a path of
    visible ASCII. *)
Definition visible (s : string) : Prop := Forall (λ n, 32 < n < 127) (string_bytes s).

Definition starts_invisible (p : list nat) : bool :=
  match p with [] => false | x :: _ => (x <=? 32) || (127 <=? x) end.

Lemma strip_any_invisible ps n l : forallb starts_invisible ps = true → 32 < n < 127 → strip_any ps (n :: l) = None.
Proof.
  intros Hps Hn. induction ps as [|[|x p] ps IH]; cbn [forallb] in Hps; [done|done|].
  apply andb_true_iff in Hps as [Hx Hps]. cbn [strip_any strip_prefix].
  replace (x =? n) with false; [by apply IH|]. symmetry. apply Nat.eqb_neq. intros ->.
  apply orb_true_iff in Hx as [?%Nat.leb_le|?%Nat.leb_le]; lia.
Qed.

Lemma strip_any_visible n l : 32 < n < 127 → strip_any white_spaces (n :: l) = None ∧
  strip_any ((λ w, rev w) <$> white_spaces) (n :: l) = None.
Proof. intros Hn. split; by apply strip_any_invisible. Qed.

Lemma trim_left_visible fuel n l : 32 < n < 127 →
  trim_left white_spaces fuel (n :: l) = n :: l ∧ trim_left ((λ w, rev w) <$> white_spaces) fuel (n :: l) = n :: l.
Proof. intros Hn. destruct (strip_any_visible n l Hn) as [H1 H2]. destruct fuel; cbn [trim_left]; [done|]. by rewrite H1, H2. Qed.

Lemma bytes_string_bytes s : bytes_string (string_bytes s) = s.
Proof.
  unfold bytes_string, string_bytes. rewrite <- list_fmap_compose.
  rewrite (list_fmap_ext _ id) by (intros; apply ascii_nat_embedding).
  rewrite list_fmap_id. apply String.string_of_list_ascii_of_string.
Qed.

Lemma TrimSpace_line s : s ≠ "" → visible s → TrimSpace (s +:+ String "010" "") = s.
Proof.
  intros Hne Hs. unfold TrimSpace. set (l := string_bytes s).
  assert (string_bytes (s +:+ String "010" "") = l ++ [10]) as ->.
  { unfold l, string_bytes. clear. induction s as [|c s IH]; [done|]. rewrite string_app_cons. cbn. f_equal. exact IH. }
  assert (l = string_bytes s) as Hl by done. clearbody l.
  destruct l as [|n l]. { by destruct s. }
  unfold visible in Hs. rewrite <- Hl in Hs.
  assert (32 < n < 127) as Hn by (by inversion Hs).
  rewrite <- app_comm_cons, (proj1 (trim_left_visible _ n _ Hn)). cbn [length].
  rewrite app_comm_cons, rev_app_distr. cbn [rev app]. cbn [trim_left strip_any strip_prefix white_spaces fmap list_fmap rev app Nat.eqb].
  rewrite <- (bytes_string_bytes s), <- Hl. f_equal.
  assert (∃ m k, rev l ++ [n] = m :: k ∧ 32 < m < 127) as (m & k & E & Hm).
  { assert (Forall (λ n, 32 < n < 127) (rev l ++ [n])) as Hr
      by (change (Forall (λ n, 32 < n < 127) (rev (n :: l))); by apply Forall_rev).
    destruct (rev l ++ [n]) as [|m k] eqn:E; [by destruct (rev l)|]. exists m, k. split; [done|]. by inversion Hr. }
  rewrite E, (proj2 (trim_left_visible _ m k Hm)), <- E. change (rev (rev (n :: l)) = n :: l). apply rev_involutive.
Qed.

(** The compiled contracts are looked for below contracts/build of the repository,
    whatever plain names the path of the repository is made of. *)
Theorem GetBuildDir_spec (root file : list string)
    (Hroot : Forall plain_name root) (Hne : root ≠ []) (Hvis : visible (absolute root))
    (Hfile : Forall plain_name file) (Hfne : file ≠ []) :
  GetBuildDir (Ok (absolute root +:+ String "010" "")) (with_slashes file)
  = Ok (absolute (root ++ ["contracts"; "build"]%string ++ file)).
Proof.
  assert (Forall plain_name ["contracts"; "build"]%string) as Hdirs by (repeat constructor; done).
  unfold GetBuildDir, GetBuildsDir, GetRepoRootDir. rewrite TrimSpace_line by done. cbn [mbind res_bind].
  rewrite path_Join_absolute by done. rewrite app_assoc. f_equal.
  rewrite <- (path_Join_absolute (root ++ ["contracts"; "build"]%string) file); [|by apply Forall_app|done|by destruct root|done].
  unfold path_Join. cbn [drop_empty absolute]. f_equal.
  unfold absolute. destruct file; [done|]. done.
Qed.

(** ** Runs *)

Module PathRuns.

Lemma GetBuildDir_spec_witness :
  GetBuildDir (Ok ("/home/ton" +:+ String "010" "")) "a/b.pkg" = Ok "/home/ton/contracts/build/a/b.pkg"%string.
Proof.
  refine (GetBuildDir_spec ["home"; "ton"]%string ["a"; "b.pkg"]%string _ _ _ _ _).
  - repeat constructor; discriminate.
  - discriminate.
  - repeat constructor; apply Nat.ltb_lt; reflexivity.
  - repeat constructor; discriminate.
  - discriminate.
Defined.
End PathRuns.
