(* ===== verification/TwoMsgChain.v ===== *)
(** * TwoMsgChain: the wrappers of the two-msg-chain example

    src/integration-tests/tracetracking/async/wrappers/twomsgchain: a storage
    contract that forwards the value it is sent to a memory contract.  The query id of a
    message, which the code draws at random, is an argument. *)

From S2P Require Import Prelude Cells BitCells Tlb Trace Txm Loader Contract Deployments.

Section wrappers.
Context {AL : AddrLib} {CL : CellLib} {ENV : Environment}.
Local Open Scope tlb_scope.

(** ** Memory *)

Definition MemoryContractPath : res string :=
  GetBuildDir env_git "examples.async-communication.two-msg-chain.Memory/tact_Memory.pkg".

Record MemoryProvider := { mem_apiClient : SignedAPIClient }.
Definition NewMemoryProvider (apiClient : SignedAPIClient) : MemoryProvider := {| mem_apiClient := apiClient |}.

Record MemoryInitData := { mem_ID : Z }.
Definition MemoryInitData_tlb : Tlb MemoryInitData := tlb_struct (f_iso
  (λ '(a, _), {| mem_ID := a |})
  (λ v, (mem_ID v, tt))
  (f_uint 32 ⊗ f_magic 0x00000000)).

Record Memory := { Memory_Contract : BoundContract }.
Definition MemoryProvider_Deploy (fuel : nat) (p : MemoryProvider) (initData : MemoryInitData) : res Memory :=
  c ← deploy_contract (LazyLoadingContract_tlb MemoryInitData_tlb) fuel (mem_apiClient p) MemoryContractPath
         (LazyLoadingTactContractInitData initData);
  Ok {| Memory_Contract := c |}.

Record setValueMessage := { sv_QueryID : Z; sv_Value : Z }.
Definition setValueMessage_tlb : Tlb setValueMessage := tlb_struct (f_iso
  (λ '(_, (a, b)), {| sv_QueryID := a; sv_Value := b |})
  (λ v, (tt, (sv_QueryID v, sv_Value v)))
  (f_magic 0x00000001 ⊗ f_uint 64 ⊗ f_uint 32)).

Definition SendSetValue (fuel : nat) (c : Memory) (queryID : Z) (i : Z) : res heap :=
  send_message setValueMessage_tlb fuel (Memory_Contract c)
    {| sv_QueryID := queryID; sv_Value := i |}.

Definition Memory_GetValue (c : Memory) : res Z := get_uint32 (Memory_Contract c) "value".

(** ** Storage *)

Definition StorageContractPath : res string :=
  GetBuildDir env_git "examples.async-communication.two-msg-chain.Storage/tact_Storage.pkg".

Record StorageProvider := { sto_apiClient : SignedAPIClient }.
Definition NewStorageProvider (apiClient : SignedAPIClient) : StorageProvider := {| sto_apiClient := apiClient |}.

Record StorageInitData := { sto_ID : Z; sto_MemoryAddress : Address }.
Definition StorageInitData_tlb : Tlb StorageInitData := tlb_struct (f_iso
  (λ '(a, b), {| sto_ID := a; sto_MemoryAddress := b |})
  (λ v, (sto_ID v, sto_MemoryAddress v))
  (f_uint 32 ⊗ f_addr)).

Record Storage := { Storage_Contract : BoundContract }.
Definition StorageProvider_Deploy (fuel : nat) (p : StorageProvider) (initData : StorageInitData) : res Storage :=
  c ← deploy_contract StorageInitData_tlb fuel (sto_apiClient p) StorageContractPath initData;
  Ok {| Storage_Contract := c |}.

Record storeMessage := { sm_QueryID : Z; sm_Value : Z }.
Definition storeMessage_tlb : Tlb storeMessage := tlb_struct (f_iso
  (λ '(_, (a, b)), {| sm_QueryID := a; sm_Value := b |})
  (λ v, (tt, (sm_QueryID v, sm_Value v)))
  (f_magic 0x00000001 ⊗ f_uint 64 ⊗ f_uint 32)).

Definition SendStore (fuel : nat) (c : Storage) (queryID : Z) (i : Z) : res heap :=
  send_message storeMessage_tlb fuel (Storage_Contract c)
    {| sm_QueryID := queryID; sm_Value := i |}.
End wrappers.

(** ** Round trips *)

Section laws.
Context {AL : AddrLib} {CL : CellLib} {CV : CellView} {CW : CellLaws}.

Definition MemoryInitData_ok (v : MemoryInitData) : Prop := uint_ok 32 (mem_ID v).
Definition setValueMessage_ok (v : setValueMessage) : Prop := uint_ok 64 (sv_QueryID v) ∧ uint_ok 32 (sv_Value v).
Definition StorageInitData_ok (v : StorageInitData) : Prop := uint_ok 32 (sto_ID v) ∧ std_addr (sto_MemoryAddress v).
Definition storeMessage_ok (v : storeMessage) : Prop := uint_ok 64 (sm_QueryID v) ∧ uint_ok 32 (sm_Value v).

Lemma TwoMsgChain_MemoryInitData_lawful : stream_lawful MemoryInitData_tlb MemoryInitData_ok 64 64 0.
Proof. solve_lawful. Qed.
Lemma TwoMsgChain_setValueMessage_lawful : stream_lawful setValueMessage_tlb setValueMessage_ok 128 128 0.
Proof. solve_lawful. Qed.
Lemma TwoMsgChain_StorageInitData_lawful : stream_lawful StorageInitData_tlb StorageInitData_ok 299 299 0.
Proof. solve_lawful. Qed.
Lemma TwoMsgChain_storeMessage_lawful : stream_lawful storeMessage_tlb storeMessage_ok 128 128 0.
Proof. solve_lawful. Qed.
End laws.

#[export] Hint Resolve TwoMsgChain_MemoryInitData_lawful
  TwoMsgChain_setValueMessage_lawful
  TwoMsgChain_StorageInitData_lawful
  TwoMsgChain_storeMessage_lawful : wrappers.
