(* ===== verification/RequestReply.v ===== *)
(** * RequestReply: the wrappers of the request-reply example

    src/integration-tests/tracetracking/async/wrappers/requestreply: a storage
    contract asks a price registry, which asks the item's price contract. *)

From S2P Require Import Prelude Cells BitCells Tlb Trace Txm Loader Contract Deployments.

Section wrappers.
Context {AL : AddrLib} {CL : CellLib} {ENV : Environment}.
Local Open Scope tlb_scope.

(** ** ItemPrice *)

Definition ItemPriceContractPath : res string :=
  GetBuildDir env_git "examples.async-communication.request-reply.ItemPrice/tact_ItemPrice.pkg".

Record ItemPriceProvider := { ip_apiClient : SignedAPIClient }.
Definition NewItemPriceProvider (apiClient : SignedAPIClient) : ItemPriceProvider := {| ip_apiClient := apiClient |}.

Record ItemPriceInitData := { ip_ID : Z; ip_Price : Z }.
Definition ItemPriceInitData_tlb : Tlb ItemPriceInitData := tlb_struct (f_iso
  (λ '(a, b), {| ip_ID := a; ip_Price := b |})
  (λ v, (ip_ID v, ip_Price v))
  (f_uint 32 ⊗ f_uint 64)).

Record ItemPrice := { ItemPrice_Contract : BoundContract }.
Definition ItemPriceProvider_Deploy (fuel : nat) (p : ItemPriceProvider) (initData : ItemPriceInitData) : res ItemPrice :=
  c ← deploy_contract ItemPriceInitData_tlb fuel (ip_apiClient p) ItemPriceContractPath initData;
  Ok {| ItemPrice_Contract := c |}.

(** ** PriceRegistry *)

Definition PriceRegistryContractPath : res string :=
  GetBuildDir env_git "examples.async-communication.request-reply.PriceRegistry/tact_PriceRegistry.pkg".

Record PriceRegistryProvider := { pr_apiClient : SignedAPIClient }.
Definition NewPriceRegistryProvider (apiClient : SignedAPIClient) : PriceRegistryProvider := {| pr_apiClient := apiClient |}.

Record PriceRegistryInitData := { pr_ID : Z }.
Definition PriceRegistryInitData_tlb : Tlb PriceRegistryInitData := tlb_struct (f_iso
  (λ a, {| pr_ID := a |})
  (λ v, pr_ID v)
  (f_uint 32)).

Record PriceRegistry := { PriceRegistry_Contract : BoundContract }.
Definition PriceRegistryProvider_Deploy (fuel : nat) (p : PriceRegistryProvider) (initData : PriceRegistryInitData) : res PriceRegistry :=
  c ← deploy_contract (LazyLoadingContract_tlb PriceRegistryInitData_tlb) fuel (pr_apiClient p) PriceRegistryContractPath
         (LazyLoadingTactContractInitData initData);
  Ok {| PriceRegistry_Contract := c |}.

Record AddPriceItemMessage := { ap_QueryID : Z; ap_Key : Z; ap_Addr : Address }.
Definition AddPriceItemMessage_tlb : Tlb AddPriceItemMessage := tlb_struct (f_iso
  (λ '(_, (a, (b, c))), {| ap_QueryID := a; ap_Key := b; ap_Addr := c |})
  (λ v, (tt, (ap_QueryID v, (ap_Key v, ap_Addr v))))
  (f_magic 0x00000003 ⊗ f_uint 64 ⊗ f_uint 8 ⊗ f_addr)).

Definition SendAddPriceItem (fuel : nat) (c : PriceRegistry) (queryID : Z) (key : Z) (addr : Address) : res heap :=
  send_message AddPriceItemMessage_tlb fuel (PriceRegistry_Contract c)
    {| ap_QueryID := queryID; ap_Key := key; ap_Addr := addr |}.

(** ** Storage *)

Definition StorageContractPath : res string :=
  GetBuildDir env_git "examples.async-communication.request-reply.Storage/tact_Storage.pkg".

Record StorageProvider := { sto_apiClient : SignedAPIClient }.
Definition NewStorageProvider (apiClient : SignedAPIClient) : StorageProvider := {| sto_apiClient := apiClient |}.

Record StorageInitData := { sto_ID : Z }.
Definition StorageInitData_tlb : Tlb StorageInitData := tlb_struct (f_iso
  (λ a, {| sto_ID := a |})
  (λ v, sto_ID v)
  (f_uint 32)).

Record Storage := { Storage_Contract : BoundContract }.
Definition StorageProvider_Deploy (fuel : nat) (p : StorageProvider) (initData : StorageInitData) : res Storage :=
  c ← deploy_contract (LazyLoadingContract_tlb StorageInitData_tlb) fuel (sto_apiClient p) StorageContractPath
         (LazyLoadingTactContractInitData initData);
  Ok {| Storage_Contract := c |}.

Record getPriceFromMessage := { gp_QueryID : Z; gp_PriceRegistry : Address; gp_Key : Z }.
Definition getPriceFromMessage_tlb : Tlb getPriceFromMessage := tlb_struct (f_iso
  (λ '(_, (a, (b, c))), {| gp_QueryID := a; gp_PriceRegistry := b; gp_Key := c |})
  (λ v, (tt, (gp_QueryID v, (gp_PriceRegistry v, gp_Key v))))
  (f_magic 0x00000001 ⊗ f_uint 64 ⊗ f_addr ⊗ f_uint 8)).

Definition SendGetPriceFrom (fuel : nat) (c : Storage) (queryID : Z) (priceRegistry : Address) (key : Z) : res heap :=
  send_message getPriceFromMessage_tlb fuel (Storage_Contract c)
    {| gp_QueryID := queryID; gp_PriceRegistry := priceRegistry; gp_Key := key |}.

Definition Storage_GetValue (c : Storage) : res Z := get_uint64 (Storage_Contract c) "value".
End wrappers.

(** ** Round trips *)

Section laws.
Context {AL : AddrLib} {CL : CellLib} {CV : CellView} {CW : CellLaws}.

Definition ItemPriceInitData_ok (v : ItemPriceInitData) : Prop := uint_ok 32 (ip_ID v) ∧ uint_ok 64 (ip_Price v).
Definition PriceRegistryInitData_ok (v : PriceRegistryInitData) : Prop := uint_ok 32 (pr_ID v).
Definition AddPriceItemMessage_ok (v : AddPriceItemMessage) : Prop := uint_ok 64 (ap_QueryID v) ∧ uint_ok 8 (ap_Key v) ∧ std_addr (ap_Addr v).
Definition StorageInitData_ok (v : StorageInitData) : Prop := uint_ok 32 (sto_ID v).
Definition getPriceFromMessage_ok (v : getPriceFromMessage) : Prop := uint_ok 64 (gp_QueryID v) ∧ std_addr (gp_PriceRegistry v) ∧ uint_ok 8 (gp_Key v).

Lemma RequestReply_ItemPriceInitData_lawful : stream_lawful ItemPriceInitData_tlb ItemPriceInitData_ok 96 96 0.
Proof. solve_lawful. Qed.
Lemma RequestReply_PriceRegistryInitData_lawful : stream_lawful PriceRegistryInitData_tlb PriceRegistryInitData_ok 32 32 0.
Proof. solve_lawful. Qed.
Lemma RequestReply_AddPriceItemMessage_lawful : stream_lawful AddPriceItemMessage_tlb AddPriceItemMessage_ok 371 371 0.
Proof. solve_lawful. Qed.
Lemma RequestReply_StorageInitData_lawful : stream_lawful StorageInitData_tlb StorageInitData_ok 32 32 0.
Proof. solve_lawful. Qed.
Lemma RequestReply_getPriceFromMessage_lawful : stream_lawful getPriceFromMessage_tlb getPriceFromMessage_ok 371 371 0.
Proof. solve_lawful. Qed.
End laws.

#[export] Hint Resolve RequestReply_ItemPriceInitData_lawful
  RequestReply_PriceRegistryInitData_lawful
  RequestReply_AddPriceItemMessage_lawful
  RequestReply_StorageInitData_lawful
  RequestReply_getPriceFromMessage_lawful : wrappers.
