(* ===== verification/RequestReplyTwo.v ===== *)
(** * RequestReplyTwo: the wrappers of the request-reply example with two dependencies

    src/integration-tests/tracetracking/async/wrappers/requestreplywithtwodependencies:
    a storage contract asks an inventory, which asks the price and the count of the item.
    The provider of the storage deploys the storage of the request-reply example. *)

From S2P Require Import Prelude Cells BitCells Tlb Trace Txm Loader Contract Deployments.

Section wrappers.
Context {AL : AddrLib} {CL : CellLib} {ENV : Environment}.
Local Open Scope tlb_scope.

(** ** Inventory *)

Definition InventoryContractPath : res string :=
  GetBuildDir env_git "examples.async-communication.request-reply-with-two-dependencies.Inventory/tact_Inventory.pkg".

Record InventoryProvider := { inv_apiClient : SignedAPIClient }.
Definition NewInventoryProvider (apiClient : SignedAPIClient) : InventoryProvider := {| inv_apiClient := apiClient |}.

Record InventoryInitData := { inv_ID : Z }.
Definition InventoryInitData_tlb : Tlb InventoryInitData := tlb_struct (f_iso
  (λ a, {| inv_ID := a |})
  (λ v, inv_ID v)
  (f_uint 32)).

Record Inventory := { Inventory_Contract : BoundContract }.
Definition InventoryProvider_Deploy (fuel : nat) (p : InventoryProvider) (initData : InventoryInitData) : res Inventory :=
  c ← deploy_contract (LazyLoadingContract_tlb InventoryInitData_tlb) fuel (inv_apiClient p) InventoryContractPath
         (LazyLoadingTactContractInitData initData);
  Ok {| Inventory_Contract := c |}.

Record AddItemMessage := { ai_QueryID : Z; ai_Key : Z; ai_PriceAddr : Address; ai_CountAddr : Address }.
Definition AddItemMessage_tlb : Tlb AddItemMessage := tlb_struct (f_iso
  (λ '(_, (a, (b, (c, d)))), {| ai_QueryID := a; ai_Key := b; ai_PriceAddr := c; ai_CountAddr := d |})
  (λ v, (tt, (ai_QueryID v, (ai_Key v, (ai_PriceAddr v, ai_CountAddr v)))))
  (f_magic 0x00000002 ⊗ f_uint 64 ⊗ f_uint 8 ⊗ f_addr ⊗ f_addr)).

Definition SendAddItem (fuel : nat) (c : Inventory) (queryID : Z) (key : Z) (priceAddr : Address) (countAddr : Address) : res heap :=
  send_message AddItemMessage_tlb fuel (Inventory_Contract c)
    {| ai_QueryID := queryID; ai_Key := key; ai_PriceAddr := priceAddr; ai_CountAddr := countAddr |}.

Record Item := { item_PriceAddr : Address; item_CountAddr : Address }.

(** ** ItemCount *)

Definition ItemCountContractPath : res string :=
  GetBuildDir env_git "examples.async-communication.request-reply-with-two-dependencies.ItemCount/tact_ItemCount.pkg".

Record ItemCountProvider := { ic_apiClient : SignedAPIClient }.
Definition NewItemCountProvider (apiClient : SignedAPIClient) : ItemCountProvider := {| ic_apiClient := apiClient |}.

Record ItemCountInitData := { ic_ID : Z; ic_Count : Z }.
Definition ItemCountInitData_tlb : Tlb ItemCountInitData := tlb_struct (f_iso
  (λ '(a, b), {| ic_ID := a; ic_Count := b |})
  (λ v, (ic_ID v, ic_Count v))
  (f_uint 32 ⊗ f_uint 64)).

Record ItemCount := { ItemCount_Contract : BoundContract }.
Definition ItemCountProvider_Deploy (fuel : nat) (p : ItemCountProvider) (initData : ItemCountInitData) : res ItemCount :=
  c ← deploy_contract ItemCountInitData_tlb fuel (ic_apiClient p) ItemCountContractPath initData;
  Ok {| ItemCount_Contract := c |}.

(** ** ItemPrice *)

Definition ItemPriceContractPath : res string :=
  GetBuildDir env_git "examples.async-communication.request-reply-with-two-dependencies.ItemPrice/tact_ItemPrice.pkg".

Record ItemPriceProvider := { ip_apiClient : SignedAPIClient }.
Definition NewItemPriceProvider (apiClient : SignedAPIClient) : ItemPriceProvider := {| ip_apiClient := apiClient |}.

Record ItemPriceInitData := { ip_ID : Z; ip_Price : Z }.
Definition ItemPriceInitData_tlb : Tlb ItemPriceInitData := tlb_struct (f_iso
  (λ '(a, b), {| ip_ID := a; ip_Price := b |})
  (λ v, (ip_ID v, ip_Price v))
  (f_uint 32 ⊗ f_uint 64)).

Record ItemPrice := { ItemPrice_Contract : BoundContract }.
Definition ItemPriceProvider_Deploy (fuel : nat) (p : ItemPriceProvider) (initData : ItemPriceInitData) : res ItemPrice :=
  c ← deploy_contract ItemPriceInitData_tlb fuel (ip_apiClient p) ItemPriceContractPath initData;
  Ok {| ItemPrice_Contract := c |}.

(** ** Storage *)

Definition StorageContractPath : res string :=
  GetBuildDir env_git "examples.async-communication.request-reply.Storage/tact_Storage.pkg".

Record StorageProvider := { sto_apiClient : SignedAPIClient }.
Definition NewStorageProvider (apiClient : SignedAPIClient) : StorageProvider := {| sto_apiClient := apiClient |}.

Record StorageInitData := { sto_ID : Z }.
Definition StorageInitData_tlb : Tlb StorageInitData := tlb_struct (f_iso
  (λ a, {| sto_ID := a |})
  (λ v, sto_ID v)
  (f_uint 32)).

Record Storage := { Storage_Contract : BoundContract }.
Definition StorageProvider_Deploy (fuel : nat) (p : StorageProvider) (initData : StorageInitData) : res Storage :=
  c ← deploy_contract (LazyLoadingContract_tlb StorageInitData_tlb) fuel (sto_apiClient p) StorageContractPath
         (LazyLoadingTactContractInitData initData);
  Ok {| Storage_Contract := c |}.

Record getCapitalFromMessage := { gc_QueryID : Z; gc_PriceRegistry : Address; gc_Key : Z }.
Definition getCapitalFromMessage_tlb : Tlb getCapitalFromMessage := tlb_struct (f_iso
  (λ '(_, (a, (b, c))), {| gc_QueryID := a; gc_PriceRegistry := b; gc_Key := c |})
  (λ v, (tt, (gc_QueryID v, (gc_PriceRegistry v, gc_Key v))))
  (f_magic 0x00000001 ⊗ f_uint 64 ⊗ f_addr ⊗ f_uint 8)).

Definition SendGetCapitalFrom (fuel : nat) (c : Storage) (queryID : Z) (priceRegistry : Address) (key : Z) : res heap :=
  send_message getCapitalFromMessage_tlb fuel (Storage_Contract c)
    {| gc_QueryID := queryID; gc_PriceRegistry := priceRegistry; gc_Key := key |}.

Definition Storage_GetValue (c : Storage) : res Z := get_uint64 (Storage_Contract c) "value".
End wrappers.

(** ** Round trips *)

Section laws.
Context {AL : AddrLib} {CL : CellLib} {CV : CellView} {CW : CellLaws}.

Definition InventoryInitData_ok (v : InventoryInitData) : Prop := uint_ok 32 (inv_ID v).
Definition AddItemMessage_ok (v : AddItemMessage) : Prop := uint_ok 64 (ai_QueryID v) ∧ uint_ok 8 (ai_Key v) ∧ std_addr (ai_PriceAddr v) ∧ std_addr (ai_CountAddr v).
Definition ItemCountInitData_ok (v : ItemCountInitData) : Prop := uint_ok 32 (ic_ID v) ∧ uint_ok 64 (ic_Count v).
Definition ItemPriceInitData_ok (v : ItemPriceInitData) : Prop := uint_ok 32 (ip_ID v) ∧ uint_ok 64 (ip_Price v).
Definition StorageInitData_ok (v : StorageInitData) : Prop := uint_ok 32 (sto_ID v).
Definition getCapitalFromMessage_ok (v : getCapitalFromMessage) : Prop := uint_ok 64 (gc_QueryID v) ∧ std_addr (gc_PriceRegistry v) ∧ uint_ok 8 (gc_Key v).

Lemma RequestReplyTwo_InventoryInitData_lawful : stream_lawful InventoryInitData_tlb InventoryInitData_ok 32 32 0.
Proof. solve_lawful. Qed.
Lemma RequestReplyTwo_AddItemMessage_lawful : stream_lawful AddItemMessage_tlb AddItemMessage_ok 638 638 0.
Proof. solve_lawful. Qed.
Lemma RequestReplyTwo_ItemCountInitData_lawful : stream_lawful ItemCountInitData_tlb ItemCountInitData_ok 96 96 0.
Proof. solve_lawful. Qed.
Lemma RequestReplyTwo_ItemPriceInitData_lawful : stream_lawful ItemPriceInitData_tlb ItemPriceInitData_ok 96 96 0.
Proof. solve_lawful. Qed.
Lemma RequestReplyTwo_StorageInitData_lawful : stream_lawful StorageInitData_tlb StorageInitData_ok 32 32 0.
Proof. solve_lawful. Qed.
Lemma RequestReplyTwo_getCapitalFromMessage_lawful : stream_lawful getCapitalFromMessage_tlb getCapitalFromMessage_ok 371 371 0.
Proof. solve_lawful. Qed.
End laws.

#[export] Hint Resolve RequestReplyTwo_InventoryInitData_lawful
  RequestReplyTwo_AddItemMessage_lawful
  RequestReplyTwo_ItemCountInitData_lawful
  RequestReplyTwo_ItemPriceInitData_lawful
  RequestReplyTwo_StorageInitData_lawful
  RequestReplyTwo_getCapitalFromMessage_lawful : wrappers.
