(* ===== verification/TwoPhaseCommit.v ===== *)
(** * TwoPhaseCommit: the wrappers of the two-phase-commit example

    src/integration-tests/tracetracking/async/wrappers/twophasecommit: a database
    prepares values on counters, collects their acknowledgements and commits. *)

From S2P Require Import Prelude Cells BitCells Tlb Trace Txm Loader Contract Deployments.

Section wrappers.
Context {AL : AddrLib} {CL : CellLib} {ENV : Environment}.
Local Open Scope tlb_scope.

(** ** Counter *)

Definition CounterContractPath : res string :=
  GetBuildDir env_git "examples.async-communication.two-phase-commit.Counter/tact_Counter.pkg".

Record CounterProvider := { cn_apiClient : SignedAPIClient }.
Definition NewCounterProvider (apiClient : SignedAPIClient) : CounterProvider := {| cn_apiClient := apiClient |}.

Record CounterInitData := { cn_ID : Z; cn_Value : Z; cn_AutoAck : bool }.
Definition CounterInitData_tlb : Tlb CounterInitData := tlb_struct (f_iso
  (λ '(a, (b, c)), {| cn_ID := a; cn_Value := b; cn_AutoAck := c |})
  (λ v, (cn_ID v, (cn_Value v, cn_AutoAck v)))
  (f_uint 32 ⊗ f_uint 32 ⊗ f_bool)).

Record Counter := { Counter_Contract : BoundContract }.
Definition CounterProvider_Deploy (fuel : nat) (p : CounterProvider) (initData : CounterInitData) : res Counter :=
  c ← deploy_contract (LazyLoadingContract_tlb CounterInitData_tlb) fuel (cn_apiClient p) CounterContractPath
         (LazyLoadingTactContractInitData initData);
  Ok {| Counter_Contract := c |}.

Record sendAckMessage := { sa_QueryID : Z }.
Definition sendAckMessage_tlb : Tlb sendAckMessage := tlb_struct (f_iso
  (λ '(_, a), {| sa_QueryID := a |})
  (λ v, (tt, sa_QueryID v))
  (f_magic 0x00000003 ⊗ f_uint 64)).

Definition SendAck (fuel : nat) (c : Counter) (queryID : Z) : res heap :=
  send_message sendAckMessage_tlb fuel (Counter_Contract c)
    {| sa_QueryID := queryID |}.

Definition Counter_GetValue (c : Counter) : res Z := get_uint32 (Counter_Contract c) "value".

(** ** DB *)

Definition DbContractPath : res string :=
  GetBuildDir env_git "examples.async-communication.two-phase-commit.DB/tact_DB.pkg".

Record DBProvider := { db_apiClient : SignedAPIClient }.
Definition NewDBProvider (apiClient : SignedAPIClient) : DBProvider := {| db_apiClient := apiClient |}.

Record DBInitData := { db_ID : Z }.
Definition DBInitData_tlb : Tlb DBInitData := tlb_struct (f_iso
  (λ a, {| db_ID := a |})
  (λ v, db_ID v)
  (f_uint 32)).

Record DB := { DB_Contract : BoundContract }.
Definition DBProvider_Deploy (fuel : nat) (p : DBProvider) (initData : DBInitData) : res DB :=
  c ← deploy_contract (LazyLoadingContract_tlb DBInitData_tlb) fuel (db_apiClient p) DbContractPath
         (LazyLoadingTactContractInitData initData);
  Ok {| DB_Contract := c |}.

Record beginTransactionMessage := { bt_QueryID : Z }.
Definition beginTransactionMessage_tlb : Tlb beginTransactionMessage := tlb_struct (f_iso
  (λ '(_, a), {| bt_QueryID := a |})
  (λ v, (tt, bt_QueryID v))
  (f_magic 0x00000001 ⊗ f_uint 64)).

Definition SendBeginTransaction (fuel : nat) (c : DB) (queryID : Z) : res heap :=
  send_message beginTransactionMessage_tlb fuel (DB_Contract c)
    {| bt_QueryID := queryID |}.

Record setValueMessage := { sv_QueryID : Z; sv_Counter : Address; sv_Value : Z }.
Definition setValueMessage_tlb : Tlb setValueMessage := tlb_struct (f_iso
  (λ '(_, (a, (b, c))), {| sv_QueryID := a; sv_Counter := b; sv_Value := c |})
  (λ v, (tt, (sv_QueryID v, (sv_Counter v, sv_Value v))))
  (f_magic 0x00000002 ⊗ f_uint 64 ⊗ f_addr ⊗ f_uint 32)).

Definition SendSetValue (fuel : nat) (c : DB) (queryID : Z) (counterAddr : Address) (value : Z) : res heap :=
  send_message setValueMessage_tlb fuel (DB_Contract c)
    {| sv_QueryID := queryID; sv_Counter := counterAddr; sv_Value := value |}.

Record commitMessage := { cm_QueryID : Z }.
Definition commitMessage_tlb : Tlb commitMessage := tlb_struct (f_iso
  (λ '(_, a), {| cm_QueryID := a |})
  (λ v, (tt, cm_QueryID v))
  (f_magic 0x00000005 ⊗ f_uint 64)).

Definition SendCommit (fuel : nat) (c : DB) (queryID : Z) : res heap :=
  send_message commitMessage_tlb fuel (DB_Contract c)
    {| cm_QueryID := queryID |}.
End wrappers.

(** ** Round trips *)

Section laws.
Context {AL : AddrLib} {CL : CellLib} {CV : CellView} {CW : CellLaws}.

Definition CounterInitData_ok (v : CounterInitData) : Prop := uint_ok 32 (cn_ID v) ∧ uint_ok 32 (cn_Value v).
Definition sendAckMessage_ok (v : sendAckMessage) : Prop := uint_ok 64 (sa_QueryID v).
Definition DBInitData_ok (v : DBInitData) : Prop := uint_ok 32 (db_ID v).
Definition beginTransactionMessage_ok (v : beginTransactionMessage) : Prop := uint_ok 64 (bt_QueryID v).
Definition setValueMessage_ok (v : setValueMessage) : Prop := uint_ok 64 (sv_QueryID v) ∧ std_addr (sv_Counter v) ∧ uint_ok 32 (sv_Value v).
Definition commitMessage_ok (v : commitMessage) : Prop := uint_ok 64 (cm_QueryID v).

Lemma TwoPhaseCommit_CounterInitData_lawful : stream_lawful CounterInitData_tlb CounterInitData_ok 65 65 0.
Proof. solve_lawful. Qed.
Lemma TwoPhaseCommit_sendAckMessage_lawful : stream_lawful sendAckMessage_tlb sendAckMessage_ok 96 96 0.
Proof. solve_lawful. Qed.
Lemma TwoPhaseCommit_DBInitData_lawful : stream_lawful DBInitData_tlb DBInitData_ok 32 32 0.
Proof. solve_lawful. Qed.
Lemma TwoPhaseCommit_beginTransactionMessage_lawful : stream_lawful beginTransactionMessage_tlb beginTransactionMessage_ok 96 96 0.
Proof. solve_lawful. Qed.
Lemma TwoPhaseCommit_setValueMessage_lawful : stream_lawful setValueMessage_tlb setValueMessage_ok 395 395 0.
Proof. solve_lawful. Qed.
Lemma TwoPhaseCommit_commitMessage_lawful : stream_lawful commitMessage_tlb commitMessage_ok 96 96 0.
Proof. solve_lawful. Qed.
End laws.

#[export] Hint Resolve TwoPhaseCommit_CounterInitData_lawful
  TwoPhaseCommit_sendAckMessage_lawful
  TwoPhaseCommit_DBInitData_lawful
  TwoPhaseCommit_beginTransactionMessage_lawful
  TwoPhaseCommit_setValueMessage_lawful
  TwoPhaseCommit_commitMessage_lawful : wrappers.
