(* ===== verification/AsyncSpec.v ===== *)
(** * AsyncSpec: what the wrappers of the asynchronous examples promise

    Deploying and calling through a wrapper, for any init data and message whose
    layout is lawful, and the layouts of the four examples. *)

From S2P Require Import Prelude Cells BitCells Tlb ExitCodes Trace TraceSpec Txm TxmSpec Loader Contract ContractSpec Deployments.
From S2P Require Import TwoMsgChain RequestReply RequestReplyTwo TwoPhaseCommit.

Section lazy.
Context {AL : AddrLib} {CL : CellLib} {CV : CellView} {CW : CellLaws}.

(** The lazy loading bit goes in front of any layout that has a bit to spare. *)
Lemma LazyLoading_lawful {T} (t : Tlb T) dom mb nb nr :
  stream_lawful t dom mb nb nr → nb < 1023 → nr ≤ 4 →
  stream_lawful (LazyLoadingContract_tlb t) (λ v, dom (lz_Contract v)) (S mb) (S nb) nr.
Proof.
  intros Ht Hnb Hnr. eapply struct_stream; [|lia|lia].
  eapply (lawful_weaken _ (λ v, dom (lz_Contract v)));
    [eapply lawful_iso; [eapply lawful_pair; [apply lawful_bool|apply lawful_inline; exact Ht]| |by intros []]| | | |].
  - intros [b v] Hv. cbn. split; [exact I|exact Hv].
  - intros v Hv. exact Hv.
  - lia.
  - lia.
  - lia.
Qed.
End lazy.

Section deployments.
Context {AL : AddrLib} {CL : CellLib} {CV : CellView} {CW : CellLaws} {ENV : Environment}.

(** Deploying through a provider hands the wallet one TON, an empty body, the
    compiled code and a cell that decodes to the init data; over a delivered trace it
    returns the contract at the address the wallet reports, bound to the provider's
    client, exactly when the deployment ended with exit code 0 and one message. *)
Theorem deploy_contract_spec {T} (t : Tlb T) (dom : T → Prop) (fuel n : nat) (client : SignedAPIClient)
    (path : string) (initData : T) (code : Cell) (amount : Z) (addr : Address) (tx : Transaction)
    (block : BlockIDExt) (m : ReceivedMessage)
    (Ht : cell_lawful t dom) (Hinit : dom initData)
    (Hcode : compiled path = Ok code) (Hton : env_MustFromTON "1" = Ok amount)
    (Hdeploy : ∀ data, decodes t data initData →
       api_Deploy client amount (EndCell BeginCell) code data = Ok (addr, tx, block))
    (Hm : MapToReceivedMessage tx = Ok m) (Hdelivered : delivered (api_sub client) m n) (Hfuel : n ≤ fuel) :
  if (rm_ExitCode m =? ExitCodeSuccess)%Z && (length (rm_Sent m) =? 1)
  then deploy_contract t fuel client (Ok path) initData
       = Ok {| bc_Contract := {| ct_Address := addr |}; bc_Client := client |}
  else is_err (deploy_contract t fuel client (Ok path) initData) = true.
Proof.
  destruct (Ht initData Hinit) as (data & Hdata & Hdec).
  pose proof (Deploy_outcome _ _ fuel n code data (EndCell BeginCell) amount addr tx block m
                (Hdeploy data Hdec) Hm Hdelivered Hfuel) as H.
  unfold deploy_contract. cbn [mbind res_bind]. rewrite Hdata. cbn [wrap_err mbind res_bind].
  rewrite Hcode. cbn [wrap_err mbind res_bind]. rewrite Hton. cbn [mbind res_bind].
  destruct (_ && _).
  - destruct H as (h & j & -> & _). done.
  - by destruct (Deploy _ _ _ _ _ _ _).
Qed.

(** Without the compiled contract, or with a path that could not be computed, nothing
    is sent. *)
Lemma deploy_contract_fails {T} (t : Tlb T) fuel client path (initData : T) e :
  path = Panic e ∨ (∃ p data, path = Ok p ∧ ToCell initData = Ok data ∧ compiled p = Err e) →
  deploy_contract t fuel client path initData = Panic e ∨
  deploy_contract t fuel client path initData = Err "failed to compile contract".
Proof.
  intros [->|(p & data & -> & Hd & Hc)]; [by left|right].
  unfold deploy_contract. cbn [mbind res_bind]. rewrite Hd. cbn [wrap_err mbind res_bind]. by rewrite Hc.
Qed.

(** A call through a wrapper sends half a TON, bounceable and without state init,
    from the wallet to the contract's address, with a body that decodes to the
    message, and returns the settled trace of the wallet's transaction. *)
Theorem send_message_spec {T} (t : Tlb T) (dom : T → Prop) (fuel n : nat) (c : BoundContract) (message : T)
    (amount : Z) (tx : Transaction) (block : BlockIDExt) (m : ReceivedMessage)
    (Ht : cell_lawful t dom) (Hmsg : dom message) (Hton : env_MustFromTON "0.5" = Ok amount)
    (Hsend : ∀ msg, decodes t (wm_Body msg) message → wm_DstAddr msg = ct_Address (bc_Contract c) →
       wm_Amount msg = amount → wm_Bounce msg = true → wm_StateInit msg = None →
       api_Send (bc_Client c) msg = Ok (tx, block))
    (Hm : MapToReceivedMessage tx = Ok m) (Hdelivered : delivered (api_sub (bc_Client c)) m n) (Hfuel : n ≤ fuel) :
  ∃ h, send_message t fuel c message = Ok h ∧ settled_heap h ∧
    ∃ ps, h !! 0 = Some (set_outgoing m (rm_MsgFeesChargedToSender m) [] ps (rm_External m)) ∧
          length ps = length (rm_Sent m).
Proof.
  destruct (Ht message Hmsg) as (body & Hbody & Hdec). unfold send_message. rewrite Hton. cbn [mbind res_bind].
  edestruct (CallWaitRecursively_settled (api_Send (bc_Client c)) env_PayGasSeparately) as [_ H];
    [exact Hbody| |exact Hm|exact Hdelivered|exact Hfuel|exact H].
  intros msg <-. by apply Hsend.
Qed.
End deployments.

(** ** The layouts of the examples *)

Section layouts.
Context {AL : AddrLib} {CL : CellLib} {CV : CellView} {CW : CellLaws}.

(** The init data of the lazily loaded contracts starts with a clear bit and is read
    back, and so are the other init data and the messages. *)
Theorem async_layouts :
  cell_lawful (LazyLoadingContract_tlb MemoryInitData_tlb) (λ v, MemoryInitData_ok (lz_Contract v)) ∧
  cell_lawful TwoMsgChain.setValueMessage_tlb TwoMsgChain.setValueMessage_ok ∧
  cell_lawful TwoMsgChain.StorageInitData_tlb TwoMsgChain.StorageInitData_ok ∧
  cell_lawful storeMessage_tlb storeMessage_ok ∧
  cell_lawful RequestReply.ItemPriceInitData_tlb RequestReply.ItemPriceInitData_ok ∧
  cell_lawful (LazyLoadingContract_tlb PriceRegistryInitData_tlb) (λ v, PriceRegistryInitData_ok (lz_Contract v)) ∧
  cell_lawful AddPriceItemMessage_tlb AddPriceItemMessage_ok ∧
  cell_lawful (LazyLoadingContract_tlb RequestReply.StorageInitData_tlb)
    (λ v, RequestReply.StorageInitData_ok (lz_Contract v)) ∧
  cell_lawful getPriceFromMessage_tlb getPriceFromMessage_ok ∧
  cell_lawful (LazyLoadingContract_tlb InventoryInitData_tlb) (λ v, InventoryInitData_ok (lz_Contract v)) ∧
  cell_lawful AddItemMessage_tlb AddItemMessage_ok ∧
  cell_lawful ItemCountInitData_tlb ItemCountInitData_ok ∧
  cell_lawful getCapitalFromMessage_tlb getCapitalFromMessage_ok ∧
  cell_lawful (LazyLoadingContract_tlb CounterInitData_tlb) (λ v, CounterInitData_ok (lz_Contract v)) ∧
  cell_lawful sendAckMessage_tlb sendAckMessage_ok ∧
  cell_lawful (LazyLoadingContract_tlb DBInitData_tlb) (λ v, DBInitData_ok (lz_Contract v)) ∧
  cell_lawful beginTransactionMessage_tlb beginTransactionMessage_ok ∧
  cell_lawful TwoPhaseCommit.setValueMessage_tlb TwoPhaseCommit.setValueMessage_ok ∧
  cell_lawful commitMessage_tlb commitMessage_ok.
Proof.
  split_and!; eapply stream_cell; first [solve [eauto with wrappers]|eapply LazyLoading_lawful; eauto with wrappers].
Qed.

(** The storage of the example with two dependencies is deployed from the compiled
    storage of the other example, and cannot be told from it by its messages: both
    requests of the two packages are the same cell. *)
Theorem storages_shared `{ENV : !Environment} (queryID key : Z) (registry : Address) :
  RequestReplyTwo.StorageContractPath = RequestReply.StorageContractPath ∧
  ToCell (Tlb := getCapitalFromMessage_tlb) {| gc_QueryID := queryID; gc_PriceRegistry := registry; gc_Key := key |}
  = ToCell (Tlb := getPriceFromMessage_tlb) {| gp_QueryID := queryID; gp_PriceRegistry := registry; gp_Key := key |}.
Proof. done. Qed.
End layouts.

(** ** Runs *)

Module AsyncRuns.
Import BitCells TraceRuns TxmRuns ContractRuns.

Definition ton2 (s : string) : res Z := if bool_decide (s = "1"%string) then Ok 1000000000%Z else Ok 500000000%Z.
#[local] Instance env1 : Environment := {|
  env_PayGasSeparately := 1; env_MustFromTON := ton2; env_NotExist := λ _, false; env_ReadFile := λ _, Ok ""%string;
  env_UnmarshalTact := λ _, Ok tact1; env_UnmarshalTolk := λ _, Err ""; env_git := Ok "/home/ton
"%string; env_ExecutionResult := Z; env_RunGetMethod := λ _ _ _, Ok 12%Z; env_ResultInt := λ r _, Ok r |}.
Definition client1 : SignedAPIClient := {|
  api_Send := wallet_send; api_Deploy := wallet_deploy; api_sub := sub1; api_CurrentMasterchainInfo := growing |}.
Definition counter1 : BoundContract := {| bc_Contract := {| ct_Address := a2 |}; bc_Client := client1 |}.

Lemma CounterContractPath_value :
  CounterContractPath = Ok "/home/ton/contracts/build/examples.async-communication.two-phase-commit.Counter/tact_Counter.pkg"%string.
Proof. vm_compute. reflexivity. Qed.

Definition counter_data : LazyLoadingContract CounterInitData :=
  LazyLoadingTactContractInitData {| cn_ID := 7; cn_Value := 3; cn_AutoAck := true |}.
Lemma deploy_contract_spec_witness :
  deploy_contract (LazyLoadingContract_tlb CounterInitData_tlb) 2 client1 (Ok "a.pkg"%string) counter_data
  = Ok {| bc_Contract := {| ct_Address := a2 |}; bc_Client := client1 |}.
Proof.
  apply (deploy_contract_spec (LazyLoadingContract_tlb CounterInitData_tlb)
           (λ v, CounterInitData_ok (lz_Contract v)) 2 2 client1 "a.pkg" counter_data (BCell [true] []) 1000000000 a2 tx1
           (block_at 7) msg1).
  - eapply stream_cell. eapply LazyLoading_lawful; [apply TwoPhaseCommit_CounterInitData_lawful|lia|lia].
  - split; split; reflexivity || discriminate.
  - reflexivity.
  - reflexivity.
  - intros data _. reflexivity.
  - reflexivity.
  - exact msg1_delivered.
  - lia.
Defined.

Lemma send_message_spec_witness :
  ∃ h, send_message sendAckMessage_tlb 2 counter1 {| sa_QueryID := 9 |} = Ok h ∧ settled_heap h.
Proof.
  destruct (send_message_spec sendAckMessage_tlb sendAckMessage_ok 2 2 counter1 {| sa_QueryID := 9 |}
              500000000 tx1 (block_at 7) msg1) as (h & H & Hs & _).
  - eapply stream_cell. apply TwoPhaseCommit_sendAckMessage_lawful.
  - split; reflexivity || discriminate.
  - reflexivity.
  - intros. reflexivity.
  - reflexivity.
  - exact msg1_delivered.
  - lia.
  - exists h. exact (conj H Hs).
Defined.
End AsyncRuns.
