(* ===== verification/ChainAccessor.v ===== *)
(** * ChainAccessor: pkg/ccip/chainaccessor/ton_accessor.go

    The accessor of the CCIP plugins.  It only holds what it is built from: every
    read is an error, except for the price updates, which are the nil map.  The
    result types of chainlink-common are parameters. *)

From S2P Require Import Prelude Cells LogPoller.

Section accessor.
Variable Logger APIClientWrapped LogPollerI AddressCodecI : Type.
Variable ChainConfigSnapshot ChainFeeComponents Message TimestampedUnixBig FeeQuoterDestChainConfig
  CommitPluginReportWithMeta TimestampedBig CurseInfo ConfidenceLevel : Type.

Record TONAccessor := { ac_lggr : Logger; ac_client : APIClientWrapped; ac_logPoller : LogPollerI }.

Definition NewTONAccessor (lggr : Logger) (client : APIClientWrapped) (logPoller : LogPollerI)
    (addrCodec : AddressCodecI) : res TONAccessor :=
  Ok {| ac_lggr := lggr; ac_client := client; ac_logPoller := logPoller |}.

Definition not_implemented {A} : res A := Err "not implemented".

Definition GetContractAddress (a : TONAccessor) (contractName : string) : res bytes := not_implemented.
Definition GetAllConfigLegacySnapshot (a : TONAccessor) : res ChainConfigSnapshot := not_implemented.
Definition GetChainFeeComponents (a : TONAccessor) : res ChainFeeComponents := not_implemented.
Definition Sync (a : TONAccessor) (contractName : string) (contractAddress : bytes) : res () := not_implemented.
Definition MsgsBetweenSeqNums (a : TONAccessor) (dest : Z) (seqNumRange : Z * Z) : res (list Message) :=
  not_implemented.
Definition LatestMessageTo (a : TONAccessor) (dest : Z) : res Z := not_implemented.
Definition GetExpectedNextSequenceNumber (a : TONAccessor) (dest : Z) : res Z := not_implemented.
Definition GetTokenPriceUSD (a : TONAccessor) (address : bytes) : res TimestampedUnixBig := not_implemented.
Definition GetFeeQuoterDestChainConfig (a : TONAccessor) (dest : Z) : res FeeQuoterDestChainConfig :=
  not_implemented.
Definition CommitReportsGTETimestamp (a : TONAccessor) (ts : Z) (confidence : ConfidenceLevel) (limit : Z) :
    res (list CommitPluginReportWithMeta) := not_implemented.
Definition ExecutedMessages (a : TONAccessor) (ranges : gmap Z (list (Z * Z))) (confidence : ConfidenceLevel) :
    res (gmap Z (list Z)) := not_implemented.
Definition NextSeqNum (a : TONAccessor) (sources : list Z) : res (gmap Z Z) := not_implemented.
Definition Nonces (a : TONAccessor) (addresses : gmap Z (list string)) : res (gmap Z (gmap string Z)) :=
  not_implemented.
(** The nil map. *)
Definition GetChainFeePriceUpdate (a : TONAccessor) (selectors : list Z) : option (gmap Z TimestampedBig) := None.
Definition GetLatestPriceSeqNr (a : TONAccessor) : res Z := not_implemented.
Definition GetRMNCurseInfo (a : TONAccessor) : res CurseInfo := not_implemented.

(** An accessor can be built, and answers none of the questions of the plugins; the
    missing price updates are not told from there being none. *)
Theorem accessor_answers_nothing lggr client logPoller addrCodec :
  ∃ a, NewTONAccessor lggr client logPoller addrCodec = Ok a ∧
    ac_client a = client ∧ ac_logPoller a = logPoller ∧
    (∀ ranges confidence, is_err (ExecutedMessages a ranges confidence) = true) ∧
    (∀ dest range, is_err (MsgsBetweenSeqNums a dest range) = true) ∧
    (∀ ts confidence limit, is_err (CommitReportsGTETimestamp a ts confidence limit) = true) ∧
    (∀ sources, is_err (NextSeqNum a sources) = true) ∧ (∀ addresses, is_err (Nonces a addresses) = true) ∧
    (∀ selectors, GetChainFeePriceUpdate a selectors = None).
Proof. eexists. split; [reflexivity|]. by split_and!. Qed.
End accessor.
