(* ===== verification/EventFlow.v ===== *)
(** * EventFlow: from the events of the chain to the answers of the log poller

    The composition of the filter registry, the log collector, the poller and the
    log store: what a consumer that registered a filter gets from a query is what the
    contract emitted. *)

From S2P Require Import Prelude Cells BitCells Event LogFilters LogQuery LogQuerySpec Loader LogPoller LogPollerSpec PollerHistory.
From S2P Require Import Tlb TestKit.

Section flow.
Context {AL : AddrLib} {AW : AddrLaws} {CL : CellLib}.
Hypothesis boc_roundtrip : ∀ c, FromBOC (ToBOC c) = Ok c.
Variable clock : nat → Z.
Variable MustParseAddr : string → res Address.
Hypothesis MustParseAddr_ok : ∀ s a, ParseAddr s = Ok a → MustParseAddr s = Ok a.
Variable h : history.
Hypothesis h_ok : history_ok h.

(** ** One log *)

Section query.
Context {E : Type}.
Variable parser : Cell → res E.

(** The event that a query for a topic reads from a message. *)
Definition event_of (topic : Z) (m : MsgWithCtx) : option E :=
  match topic_of m with
  | Ok t => if (t =? topic)%Z then match parser (mc_Body m) with Ok e => Some e | _ => None end else None
  | _ => None
  end.

(** The event that the query finds in the content of a log. *)
Definition found_in (a : string) (topic : Z) (l : Z * Address * bytes * Z * Z * bytes) : option E :=
  let '(_, src, _, _, t, data) := l in
  if (t =? topic)%Z && bool_decide (AddrString src = a) then
    match FromBOC data ≫= parser with Ok e => Some e | _ => None end
  else None.

(** How many registered filters watch an address for a topic. *)
Definition watchers (f : Filters) (a : Address) (topic : Z) : nat :=
  length (filter (λ flt, matches a topic flt = true) (map_to_list (filtersByName f)).*2).
Definition answers (n : nat) (o : option E) : list E := match o with Some e => replicate n e | None => [] end.

Lemma omap_replicated {A B C} (f : A → B) (g : B → option C) o l :
  (∀ x, g (f x) = o) → omap g (f <$> l) = match o with Some e => replicate (length l) e | None => [] end.
Proof.
  intros H. induction l as [|x l IH]; [by destruct o|]. cbn. rewrite H, IH. by destruct o.
Qed.

(** The logs of a message answer a query once for each watcher. *)
Lemma message_answers names f a topic m :
  registry_inv f → names ≡ₚ (map_to_list (filtersByName f)).*1 → std_addr a → mc_Src m = a →
  omap (found_in (AddrString a) topic) (log_content <$> message_logs names f m)
  ≡ₚ answers (watchers f a topic) (event_of topic m).
Proof.
  intros Hf Hn Ha Hm. unfold message_logs, event_of. destruct (topic_of m) as [t|e|e|]; [|done..].
  rewrite Hm, <- list_fmap_compose.
  rewrite (omap_replicated _ _ (if (t =? topic)%Z then match parser (mc_Body m) with Ok e => Some e | _ => None end else None)).
  - destruct (Z.eqb_spec t topic) as [->|]; [|done]. destruct (parser _); cbn [answers]; [|done..].
    by rewrite (Permutation_length (matching_complete f names a topic Hf Hn Ha)), length_fmap.
  - intros fid. cbn [compose found_in log_content log_of log_Address log_Topic log_Data log_FilterID log_TxHash log_TxLT].
    rewrite Hm, bool_decide_eq_true_2, andb_true_r by done. by rewrite boc_roundtrip.
Qed.

(** The logs of other addresses do not answer it. *)
Lemma message_silent names f a topic m :
  AddrString (mc_Src m) ≠ AddrString a → omap (found_in (AddrString a) topic) (log_content <$> message_logs names f m) = [].
Proof.
  intros Hm. unfold message_logs. destruct (topic_of m) as [t|e|e|]; [|done..]. rewrite <- list_fmap_compose.
  rewrite (omap_replicated _ _ None); [done|]. intros fid.
  cbn [compose found_in log_content log_of log_Address log_Topic log_Data log_FilterID log_TxHash log_TxLT].
  by rewrite bool_decide_eq_false_2, andb_false_r.
Qed.

(** A query reads the content of the logs only. *)
Lemma query_content a topic s :
  (∀ d, is_ok (FromBOC d) = true ∨ is_err (FromBOC d) = true) →
  (∀ c, is_ok (parser c) = true ∨ is_err (parser c) = true) →
  LogQuery.FilteredLogsWithParser a topic parser None s = Ok (omap (found_in a topic) (log_content <$> logs s)).
Proof.
  intros Hboc Hparser. rewrite FilteredLogsWithParser_spec by done. f_equal.
  induction (logs s) as [|l ls IH]; [done|]. cbn [fmap list_fmap omap list_omap]. rewrite <- IH.
  unfold found_in at 1, log_content at 1, selects at 1. destruct (_ && _); [|done].
  by destruct (FromBOC (log_Data l) ≫= parser).
Qed.

(** ** A history of logs *)

(** On chain, the source of a message is the account that sent it. *)
Definition own_messages (a : Address) : Prop := ∀ tx m, tx ∈ txs h a → m ∈ messages_of 0 tx → mc_Src m = a.
Definition sources_ok (lp : Service) : Prop := ∀ a, watched lp a → own_messages a.

Lemma omap_bind {A B C} (f : B → option C) (g : A → list B) l : omap f (l ≫= g) = l ≫= λ x, omap f (g x).
Proof. induction l as [|x l IH]; [done|]. by rewrite !bind_cons, omap_app, IH. Qed.
Lemma fmap_bind {A B C} (f : B → C) (g : A → list B) l : f <$> (l ≫= g) = l ≫= λ x, f <$> g x.
Proof. induction l as [|x l IH]; [done|]. by rewrite !bind_cons, fmap_app, IH. Qed.
Lemma bind_perm_in {A B} (f g : A → list B) l : (∀ x, x ∈ l → f x ≡ₚ g x) → l ≫= f ≡ₚ l ≫= g.
Proof.
  induction l as [|x l IH]; intros H; [done|]. rewrite !bind_cons, (H x) by apply list_elem_of_here.
  rewrite IH; [done|]. intros y Hy. by apply H, list_elem_of_further.
Qed.
(** Only one address contributes. *)
Lemma bind_single {A B} (f : A → list B) l x :
  NoDup l → x ∈ l → (∀ y, y ∈ l → y ≠ x → f y ≡ₚ []) → l ≫= f ≡ₚ f x.
Proof.
  induction l as [|y l IH]; intros Hnd Hx H; [by apply not_elem_of_nil in Hx|].
  apply NoDup_cons in Hnd as [Hy Hnd]. rewrite bind_cons. apply elem_of_cons in Hx as [->|Hx].
  - assert (l ≫= f ≡ₚ l ≫= λ _, []) as ->.
    { apply bind_perm_in. intros z Hz. apply H; [by apply list_elem_of_further|]. by intros ->. }
    assert ((l ≫= λ _, [] : list B) = []) as -> by (clear; by induction l). by rewrite app_nil_r.
  - rewrite (H y); [|apply list_elem_of_here|by intros ->]. apply IH; [done..|].
    intros z Hz. apply H. by apply list_elem_of_further.
Qed.

Lemma between_source s s' a m : own_messages a → m ∈ messages_between h s s' a → mc_Src m = a.
Proof.
  intros Hs (tx & Hm & Htx)%list_elem_of_bind. apply (Hs tx m); [|done].
  eapply subseteq_take, subseteq_drop; exact Htx.
Qed.

Lemma logs_answers names addrs f a topic s s' :
  (∀ b, b ∈ addrs → own_messages b) → registry_inv f → names ≡ₚ (map_to_list (filtersByName f)).*1 →
  NoDup addrs → a ∈ addrs → (∀ b, b ∈ addrs → std_addr b) →
  omap (found_in (AddrString a) topic) (log_content <$> logs_between h names addrs f s s')
  ≡ₚ messages_between h s s' a ≫= λ m, answers (watchers f a topic) (event_of topic m).
Proof.
  intros Hsrc Hf Hn Hnd Ha Hstd. unfold logs_between. rewrite fmap_bind, omap_bind.
  rewrite (bind_single _ addrs a); [|done|done|].
  - rewrite fmap_bind, omap_bind. apply bind_perm_in. intros m Hm%between_source; [|by apply Hsrc].
    apply message_answers; auto.
  - intros b Hb Hne. rewrite fmap_bind, omap_bind.
    transitivity (messages_between h s s' b ≫= λ _, [] : list E); [|by induction (messages_between h s s' b)].
    apply bind_perm_in. intros m Hm%between_source; [|by apply Hsrc]. rewrite message_silent; [done|]. rewrite Hm.
    intros Heq. apply Hne. by apply (AddrString_inj); [apply Hstd..|].
Qed.

Lemma events_answered (rs : list Round) (lp : Service) (name : string) (flt : Filter)
    (topic : Z)
    (Hfresh : lastProcessedSeqNo lp = 0%Z ∧ logs (store lp) = []) (Hpage : (0 < loaderPageSize lp)%Z)
    (Hregistry : registry_inv (filters lp)) (Hflt : filtersByName (filters lp) !! name = Some flt)
    (Hrounds : Forall (round_ok h lp) rs) (Htopics : topics_ok h lp) (Hsources : sources_ok lp)
    (Hboc : ∀ d, is_ok (FromBOC d) = true ∨ is_err (FromBOC d) = true)
    (Hparser : ∀ c, is_ok (parser c) = true ∨ is_err (parser c) = true) :
  ∃ lp' events, ticks clock MustParseAddr rs lp = Ok lp' ∧
    FilteredLogsWithParser (flt_Address flt) topic parser None lp' = Ok events ∧
    events ≡ₚ messages_between h 0 (foldl Z.max 0%Z (safe lp <$> rs)) (flt_Address flt)
              ≫= λ m, answers (watchers (filters lp) (flt_Address flt) topic) (event_of topic m).
Proof.
  destruct Hfresh as [Hl0 Hlogs0]. set (names' := (map_to_list (filtersByName (filters lp))).*1).
  destruct (distinct_addresses MustParseAddr MustParseAddr_ok (filters lp)
              (map_to_list (filtersByAddress (filters lp))).*1) as (addrs & _ & Hnd & Haddrs); [done|done|].
  destruct (ticks_extend clock MustParseAddr h h_ok MustParseAddr_ok rs lp names' addrs)
    as (lp' & ls & Hticks & Hlast & Hlogs & Hc); try done; [lia|].
  rewrite Hlogs0 in Hlogs. cbn [app] in Hlogs. rewrite Hl0 in *. exists lp'. eexists. split; [done|].
  unfold FilteredLogsWithParser. split; [by apply query_content|]. rewrite Hlogs, Hc, Hlast.
  apply logs_answers; try done; [intros b Hb; by apply Hsources, Haddrs|apply Haddrs; by exists name, flt|].
  intros b (n & g & Hg & <-)%Haddrs. by apply (proj2 (proj2 Hregistry) n).
Qed.

(** C8: a consumer of a fresh poller whose filters watch an address for a topic gets, after
    any ticks against any heads of the chain, exactly the events of that topic the
    contract emitted up to the furthest safe block, from the body of each message: each
    once for every filter that watches the address for the topic, none of another
    contract or topic, and nothing for bodies that the parser rejects.  Every external message
    of a watched account is taken to carry an event topic ([topics_ok]). *)
Theorem events_queryable (rs : list Round) (lp : Service) (name : string) (flt : Filter)
    (topic : Z)
    (Hfresh : lastProcessedSeqNo lp = 0%Z ∧ logs (store lp) = []) (Hpage : (0 < loaderPageSize lp)%Z)
    (Hregistry : registry_inv (filters lp)) (Hflt : filtersByName (filters lp) !! name = Some flt)
    (Hrounds : Forall (round_ok h lp) rs) (Htopics : topics_ok h lp) (Hsources : sources_ok lp)
    (Hboc : ∀ d, is_ok (FromBOC d) = true ∨ is_err (FromBOC d) = true)
    (Hparser : ∀ c, is_ok (parser c) = true ∨ is_err (parser c) = true) :
  ∃ lp' events, ticks clock MustParseAddr rs lp = Ok lp' ∧
    FilteredLogsWithParser (flt_Address flt) topic parser None lp' = Ok events ∧
    events ≡ₚ messages_between h 0 (foldl Z.max 0%Z (safe lp <$> rs)) (flt_Address flt)
              ≫= λ m, answers (watchers (filters lp) (flt_Address flt) topic) (event_of topic m).
Proof. by apply (events_answered rs lp name flt). Qed.
End query.

(** ** Typed events *)

(** The parser of a consumer that knows the layout of the event. *)
Definition parse_event {T} (t : Tlb T) (c : Cell) : res T := ParseEventFromCell t (Some c).

Lemma parse_written {T} (t : Tlb T) dom v c :
  cell_lawful t dom → dom v → ToCell v = Ok c → parse_event t c = Ok v.
Proof.
  intros Ht Hv Hc. destruct (Ht v Hv) as (c' & Hc' & s & Hd). rewrite Hc in Hc'. injection Hc' as <-.
  unfold parse_event, ParseEventFromCell. by rewrite Hd.
Qed.

(** The messages of a topic. *)
Definition of_topic (topic : Z) (m : MsgWithCtx) : bool :=
  match topic_of m with Ok t => (t =? topic)%Z | _ => false end.

Lemma answered_values {T} (t : Tlb T) dom (val : MsgWithCtx → T) topic ms :
  cell_lawful t dom →
  (∀ m, m ∈ ms → of_topic topic m = true → dom (val m) ∧ ToCell (val m) = Ok (mc_Body m)) →
  (ms ≫= λ m, answers 1 (event_of (parse_event t) topic m)) = val <$> filter (λ m, of_topic topic m = true) ms.
Proof.
  intros Ht. induction ms as [|m ms IH]; intros Hms; [done|]. rewrite bind_cons, filter_cons, IH
    by (intros m' Hm'; apply Hms; by apply list_elem_of_further).
  specialize (Hms m (list_elem_of_here _ _)). unfold event_of, of_topic in *.
  destruct (topic_of m) as [t'|e|e|]; [|done..]. destruct (t' =? topic)%Z; [|done].
  destruct (Hms eq_refl) as [Hd Hc]. rewrite (parse_written t dom _ _ Ht Hd Hc). rewrite decide_True by done. done.
Qed.

(** C9: when the contract writes its events of a topic with a lawful layout and one filter
    watches them, a query that parses them with that layout returns exactly the values
    the contract wrote up to the furthest safe block, each once.  Every external message of a
    watched account is taken to carry an event topic ([topics_ok]). *)
Theorem typed_events_queryable {T} (t : Tlb T) (dom : T → Prop) (val : MsgWithCtx → T)
    (rs : list Round) (lp : Service) (name : string) (flt : Filter)
    (Ht : cell_lawful t dom) (Htotal : ∀ c, is_ok (parse_event t c) = true ∨ is_err (parse_event t c) = true)
    (Hfresh : lastProcessedSeqNo lp = 0%Z ∧ logs (store lp) = []) (Hpage : (0 < loaderPageSize lp)%Z)
    (Hregistry : registry_inv (filters lp)) (Hflt : filtersByName (filters lp) !! name = Some flt)
    (Hone : watchers (filters lp) (flt_Address flt) (flt_EventTopic flt) = 1)
    (Hrounds : Forall (round_ok h lp) rs) (Htopics : topics_ok h lp) (Hsources : sources_ok lp)
    (Hboc : ∀ d, is_ok (FromBOC d) = true ∨ is_err (FromBOC d) = true)
    (Hwritten : ∀ m tx, tx ∈ txs h (flt_Address flt) → m ∈ messages_of 0 tx → of_topic (flt_EventTopic flt) m = true →
       dom (val m) ∧ ToCell (val m) = Ok (mc_Body m)) :
  ∃ lp' events, ticks clock MustParseAddr rs lp = Ok lp' ∧
    FilteredLogsWithParser (flt_Address flt) (flt_EventTopic flt) (parse_event t) None lp' = Ok events ∧
    events ≡ₚ val <$> filter (λ m, of_topic (flt_EventTopic flt) m = true)
                             (messages_between h 0 (foldl Z.max 0%Z (safe lp <$> rs)) (flt_Address flt)).
Proof.
  destruct (events_answered (parse_event t) rs lp name flt (flt_EventTopic flt)) as (lp' & events & Hticks & Hq & Hp); try done.
  exists lp', events. split; [done|]. split; [done|]. rewrite Hp, Hone.
  rewrite (answered_values t dom val); [done|done|]. intros m (tx & Hm & Htx)%list_elem_of_bind. apply (Hwritten m tx); [|done].
  eapply subseteq_take, subseteq_drop; exact Htx.
Qed.
End flow.

(** ** Runs *)

Module EventRuns.
Import BitCells FilterRuns LoaderRuns PollerRuns HistoryRuns.

(** The bodies of the four events of [HistoryRuns]. *)
Lemma events_queryable_witness :
  ∃ lp' events, ticks clock1 parse1 [round1 2; round1 1; round1 4] poller2 = Ok lp' ∧
    FilteredLogsWithParser src1 7 (λ c, Ok c) None lp' = Ok events ∧ length events = 4.
Proof.
  destruct (events_queryable boc_roundtrip clock1 parse1 parse1_ok history1 history1_ok (λ c, Ok c)
              [round1 2; round1 1; round1 4] poller2 "seven" filter7 7) as (lp' & events & H & Hq & Hp).
  - done.
  - done.
  - by destruct poller1_filters.
  - reflexivity.
  - repeat (apply Forall_cons; split; [apply round1_ok; lia|]). apply Forall_nil_2.
  - apply poller2_topics.
  - intros a ->%poller1_watched tx m Htx Hm. by apply (history1_message tx m).
  - intros d. cbn. unfold from_boc. repeat case_match; first [by left|by right].
  - by left.
  - exists lp', events. split; [exact H|]. split; [exact Hq|]. rewrite Hp. reflexivity.
Defined.

(** The events are single bits. *)
Definition bit_tlb : Tlb bool := tlb_struct f_bool.
Definition bit_of (m : MsgWithCtx) : bool := match mc_Body m with BCell (b :: _) _ => b | _ => false end.

Lemma history1_bits tx m : tx ∈ hist1 → m ∈ messages_of 0 tx → ToCell (Tlb := bit_tlb) (bit_of m) = Ok (mc_Body m).
Proof.
  intros Htx Hm. repeat (apply elem_of_cons in Htx as [->|Htx]); [..|by apply elem_of_nil in Htx];
    cbn in Hm; repeat (apply elem_of_cons in Hm as [->|Hm]; [reflexivity|]); by apply elem_of_nil in Hm.
Qed.

Lemma typed_events_queryable_witness :
  ∃ lp' events, ticks clock1 parse1 [round1 2; round1 1; round1 4] poller2 = Ok lp' ∧
    FilteredLogsWithParser src1 7 (parse_event bit_tlb) None lp' = Ok events ∧ length events = 4.
Proof.
  destruct (typed_events_queryable boc_roundtrip clock1 parse1 parse1_ok history1 history1_ok bit_tlb (λ _, True) bit_of
              [round1 2; round1 1; round1 4] poller2 "seven" filter7) as (lp' & events & H & Hq & Hp).
  - eapply stream_cell, struct_stream; [apply lawful_bool|lia|lia].
  - intros [[|b bits] refs]; first [by left|by right].
  - done.
  - done.
  - by destruct poller1_filters.
  - reflexivity.
  - reflexivity.
  - repeat (apply Forall_cons; split; [apply round1_ok; lia|]). apply Forall_nil_2.
  - apply poller2_topics.
  - intros a ->%poller1_watched tx m Htx Hm. by apply (history1_message tx m).
  - intros d. cbn. unfold from_boc. repeat case_match; first [by left|by right].
  - intros m tx Htx Hm _. split; [exact I|by eapply history1_bits].
  - exists lp', events. split; [exact H|]. split; [exact Hq|]. rewrite Hp. reflexivity.
Defined.
End EventRuns.
