(* ===== verification/Tolk.v ===== *)
(** * Tolk: what the contracts under src/contracts/contracts share

    The contracts of the repository are written in Tolk.  A message handler runs on
    the contract's storage, sends messages, and either finishes or throws an exit
    code; a throw undoes the storage and the messages.  [M] is that: state, output
    and exit code.  [Run] lifts one handler to the sequence of messages a contract
    receives.  [Iterator] is lib/utils.tolk's reader of [vec<T>] cells, over the same
    cell interface as the Go bindings; the handlers of the contracts take such a cell
    as the list the iterator yields, or, where the code also counts its elements, as a cell that
    is read by [Slices]. *)

From S2P Require Import Prelude Cells Tlb Snake SnakeFacts.

(** ** Values *)

(** An [address] is a slice of 267 bits, [LEN_ADDRESS] (only standard addresses are
    modelled); as a number it orders the keys of a dictionary. *)
Abbreviation address := Z (only parsing).

(** A role, an operation id, a hash, a public key. *)
Abbreviation uint256 := Z (only parsing).

(** A cell: bits and references.  Only the bits of message bodies are looked at. *)
#[warnings="-register-all"]
Inductive cell := MkCell (bits : list bool) (refs : list cell).
Definition cell_bits (c : cell) : list bool := let '(MkCell bits _) := c in bits.

(** [storeCoins]: the number of bytes in 4 bits, then the bytes. *)
Definition coins_encoding (v : Z) : list bool :=
  let n := if (v =? 0)%Z then 0 else Z.to_nat ((Z.log2 v + 8) / 8) in
  Z_bits 4 (Z.of_nat n) ++ Z_bits (8 * n) v.

(** ** Exit codes *)

Inductive exit (A : Type) : Type :=
| Done (a : A)
| Throw (code : Z).
Arguments Done {A} a.
Arguments Throw {A} code.

#[export] Instance exit_ret : MRet exit := λ A a, Done a.
#[export] Instance exit_bind : MBind exit := λ A B f m,
  match m with Done a => f a | Throw c => Throw c end.

Definition assert (b : bool) (code : Z) : exit () := if b then Done tt else Throw code.

(** [storeUint(v, n)]: the TVM's range check, exit code 5. *)
Definition storeUint (v : Z) (n : nat) : exit Z :=
  if ((0 <=? v) && (v <? 2 ^ Z.of_nat n))%Z then Done v else Throw 5.

Lemma exit_bind_done {A B} (f : A → exit B) (m : exit A) b :
  m ≫= f = Done b ↔ ∃ a, m = Done a ∧ f a = Done b.
Proof.
  split.
  - destruct m; cbn; intros H; [by eexists|discriminate].
  - intros (a & -> & H). exact H.
Qed.

Lemma assert_done b code u : assert b code = Done u ↔ b = true.
Proof. destruct b, u; cbn; split; congruence. Qed.

Lemma storeUint_done v n v' :
  storeUint v n = Done v' ↔ v' = v ∧ (0 ≤ v < 2 ^ Z.of_nat n)%Z.
Proof.
  unfold storeUint. destruct ((0 <=? v) && _)%Z eqn:E; split; intros H;
    [injection H as <-|f_equal; symmetry; apply H|discriminate|destruct H as [_ H]]; lia.
Qed.

Lemma storeUint_ok v n : (0 ≤ v < 2 ^ Z.of_nat n)%Z → storeUint v n = Done v.
Proof. intros H. by apply storeUint_done. Qed.

(** ** Outgoing messages *)

(** [createMessage]: to [dest], with [value] and [body]. *)
Record message (B : Type) := Message { bounce : bool; value : Z; dest : address; body : B }.
Arguments Message {B} _ _ _ _.
Arguments bounce {B} _.
Arguments value {B} _.
Arguments dest {B} _.
Arguments body {B} _.

(** [msg.send(mode)], [createExternalLogMessage] with or without a topic, and
    [reserveToncoinsOnBalance]. *)
Inductive action (B : Type) : Type :=
| Send (m : message B) (mode : Z)
| Log (topic : option Z) (b : B)
| Reserve (amount mode : Z).
Arguments Send {B} _ _.
Arguments Log {B} _ _.
Arguments Reserve {B} _ _.

Definition action_map {B C} (f : B → C) (a : action B) : action C :=
  match a with
  | Send m mode => Send (Message (bounce m) (value m) (dest m) (f (body m))) mode
  | Log t b => Log t (f b)
  | Reserve n mode => Reserve n mode
  end.

Definition SEND_MODE_REGULAR : Z := 0.
Definition SEND_MODE_PAY_FEES_SEPARATELY : Z := 1.
Definition SEND_MODE_IGNORE_ERRORS : Z := 2.
Definition SEND_MODE_CARRY_ALL_REMAINING_MESSAGE_VALUE : Z := 64.
Definition RESERVE_MODE_EXACT_AMOUNT : Z := 0.

(** [ERROR_WRONG_OP] of lib/utils.tolk. *)
Definition ERROR_WRONG_OP : Z := 0xffff.

(** ** Handlers *)

Definition M (St B A : Type) : Type := St → exit (A * St * list (action B)).

#[export] Instance M_ret St B : MRet (M St B) := λ A a s, Done (a, s, []).
#[export] Instance M_bind St B : MBind (M St B) := λ A C f m s,
  match m s with
  | Throw c => Throw c
  | Done (a, s1, o1) =>
      match f a s1 with
      | Throw c => Throw c
      | Done (c, s2, o2) => Done (c, s2, o1 ++ o2)
      end
  end.

Section handlers.
Context {St B : Type}.

Definition get : M St B St := λ s, Done (s, s, []).
Definition put (s : St) : M St B () := λ _, Done (tt, s, []).
Definition lift {A} (e : exit A) : M St B A := λ s,
  match e with Done a => Done (a, s, []) | Throw c => Throw c end.
Definition throw {A} (code : Z) : M St B A := λ _, Throw code.
Definition require (b : bool) (code : Z) : M St B () := lift (assert b code).
Definition act (a : action B) : M St B () := λ s, Done (tt, s, [a]).
Definition send (m : message B) (mode : Z) : M St B () := act (Send m mode).
Definition emit (topic : Z) (b : B) : M St B () := act (Log (Some topic) b).

(** The body of [while (!it.empty()) { x = it.next(); ... }] over the elements. *)
Fixpoint for_each {X} (f : X → M St B ()) (xs : list X) : M St B () :=
  match xs with
  | [] => mret tt
  | x :: xs => f x ≫= λ _, for_each f xs
  end.

(** The same with the loop counter [index]. *)
Fixpoint for_each_i {X} (f : Z → X → M St B ()) (i : Z) (xs : list X) : M St B () :=
  match xs with
  | [] => mret tt
  | x :: xs => f i x ≫= λ _, for_each_i f (i + 1)%Z xs
  end.

Lemma bind_run {A C} (m : M St B A) (f : A → M St B C) s :
  (m ≫= f) s =
  match m s with
  | Throw c => Throw c
  | Done (a, s1, o1) =>
      match f a s1 with Throw c => Throw c | Done (c, s2, o2) => Done (c, s2, o1 ++ o2) end
  end.
Proof. done. Qed.

Lemma M_bind_done {A C} (m : M St B A) (f : A → M St B C) s c s2 o :
  (m ≫= f) s = Done (c, s2, o) ↔
  ∃ a s1 o1 o2, m s = Done (a, s1, o1) ∧ f a s1 = Done (c, s2, o2) ∧ o = o1 ++ o2.
Proof.
  unfold mbind, M_bind. split.
  - destruct (m s) as [[[a s1] o1]|e]; [|discriminate].
    destruct (f a s1) as [[[c' s2'] o2]|e] eqn:E; [|discriminate].
    intros [= -> -> <-]. by exists a, s1, o1, o2.
  - intros (a & s1 & o1 & o2 & -> & -> & ->). done.
Qed.

Lemma M_bind_throw {A C} (m : M St B A) (f : A → M St B C) s e :
  m s = Throw e → (m ≫= f) s = Throw e.
Proof. unfold mbind, M_bind. by intros ->. Qed.

Lemma M_bind_pure {A C} (m : M St B A) (f : A → M St B C) s a :
  m s = Done (a, s, []) → (m ≫= f) s = f a s.
Proof.
  unfold mbind, M_bind. intros ->. by destruct (f a s) as [[[? ?] ?]|].
Qed.

(** A step without output, a step with output. *)
Lemma M_bind_next {A C} (m : M St B A) (f : A → M St B C) s a s1 :
  m s = Done (a, s1, []) → (m ≫= f) s = f a s1.
Proof. unfold mbind, M_bind. intros ->. by destruct (f a s1) as [[[? ?] ?]|]. Qed.

Lemma act_bind {C} (a : action B) (f : () → M St B C) s :
  (act a ≫= f) s =
  match f tt s with Done (c, s2, o2) => Done (c, s2, a :: o2) | Throw e => Throw e end.
Proof. done. Qed.

Lemma M_bind_out {A C} (m : M St B A) (f : A → M St B C) s a s1 o1 c s2 o2 :
  m s = Done (a, s1, o1) → f a s1 = Done (c, s2, o2) → (m ≫= f) s = Done (c, s2, o1 ++ o2).
Proof. intros H1 H2. apply M_bind_done. by exists a, s1, o1, o2. Qed.

Lemma get_bind {A} (f : St → M St B A) s : (get ≫= f) s = f s s.
Proof. by rewrite (M_bind_pure _ _ s s). Qed.

Lemma lift_done {A} (e : exit A) s a s' o :
  lift e s = Done (a, s', o) ↔ e = Done a ∧ s' = s ∧ o = [].
Proof. unfold lift. destruct e; naive_solver. Qed.

Lemma require_done b code s u s' o :
  require b code s = Done (u, s', o) ↔ b = true ∧ s' = s ∧ o = [].
Proof. unfold require. rewrite lift_done, assert_done. done. Qed.

Lemma require_true b code s : b = true → require b code s = Done (tt, s, []).
Proof. by intros ->. Qed.

Lemma require_false b code s : b = false → require b code s = Throw code.
Proof. by intros ->. Qed.

Lemma require_bind (b : bool) n {A} (k : () → M St B A) s :
  (require b n ≫= k) s = if b then k tt s else Throw n.
Proof. destruct b; [|done]. by rewrite (M_bind_next _ _ _ tt s). Qed.

Lemma lift_bind {A C} (x : exit A) (k : A → M St B C) s :
  (lift x ≫= k) s = match x with Done a => k a s | Throw c => Throw c end.
Proof. destruct x; [|done]. by rewrite (M_bind_next _ _ _ a s). Qed.

(** A loop whose body only writes. *)
Lemma for_each_i_out {X} (f : Z → X → M St B ()) (g : Z → X → list (action B)) s xs i :
  (∀ j x, x ∈ xs → f j x s = Done (tt, s, g j x)) →
  for_each_i f i xs s = Done (tt, s, concat (imap (λ k x, g (i + Z.of_nat k)%Z x) xs)).
Proof.
  revert i. induction xs as [|x xs IH]; intros i Hf; [done|]. cbn [for_each_i].
  erewrite M_bind_out; [|by apply Hf, list_elem_of_here|apply IH; intros; by apply Hf, list_elem_of_further].
  cbn. rewrite Z.add_0_r. do 4 f_equal. apply imap_ext. intros k y _. cbn. f_equal. lia.
Qed.
End handlers.

(** A struct held inside another: run a method of it on its own storage and hand
    back the changed struct. *)
Definition within {St B In C A} (f : C → B) (m : M In C A) (i : In) : M St B (A * In) := λ s,
  match m i with
  | Throw c => Throw c
  | Done (a, i', o) => Done (a, i', s, action_map f <$> o)
  end.

Lemma within_done {St B In C A} (f : C → B) (m : M In C A) i (s : St) r s' o :
  within f m i s = Done (r, s', o) ↔
  s' = s ∧ ∃ o', m i = Done (r.1, r.2, o') ∧ o = action_map f <$> o'.
Proof.
  unfold within. destruct r as [a i'], (m i) as [[[a0 i0] o0]|]; cbn; split.
  - intros [= -> -> -> <-]. split; [done|]. by exists o0.
  - by intros (-> & o' & [= -> -> ->] & ->).
  - discriminate.
  - by intros (_ & o' & [=] & _).
Qed.

(** Takes a successful handler apart. *)
Ltac inv_tolk :=
  repeat match goal with
  | H : (get ≫= _) _ = Done (_, _, _) |- _ => rewrite get_bind in H; cbv beta in H
  | H : (_ ≫= _) _ = Done (_, _, _) |- _ =>
      apply M_bind_done in H as (? & ? & ? & ? & ? & H & ?)
  | H : lift _ _ = Done _ |- _ => apply lift_done in H as (? & ? & ?)
  | H : require _ _ _ = Done _ |- _ => apply require_done in H as (? & ? & ?)
  | H : get _ = Done _ |- _ => (injection H; clear H; intros)
  | H : put _ _ = Done _ |- _ => (injection H; clear H; intros)
  | H : send _ _ _ = Done _ |- _ => (injection H; clear H; intros)
  | H : emit _ _ _ = Done _ |- _ => (injection H; clear H; intros)
  | H : act _ _ = Done _ |- _ => (injection H; clear H; intros)
  | H : mret _ _ = Done _ |- _ => (injection H; clear H; intros)
  | H : throw _ _ = Done _ |- _ => discriminate H
  | H : Throw _ = Done _ |- _ => discriminate H
  | H : within _ _ _ _ = Done _ |- _ => apply within_done in H as (? & ? & ? & ?)
  | H : Done _ = Done _ |- _ => (injection H; clear H; intros)
  | H : (_, _) = (_, _) |- _ => (injection H; clear H; intros)
  end; subst; cbn [fst snd app] in *.

(** ** Dictionaries read in the order of their keys *)

Definition dict_keys (m : gset Z) : list Z := merge_sort Z.le (elements m).

(** [sDictDeleteFirstAndGet]/[uDictDeleteFirstAndGet], [...GetFirst] and [...GetNext]: the
    key found, [None] for TVM's null. *)
Definition dictDeleteFirstAndGet (m : gset Z) : gset Z * option Z :=
  match dict_keys m with
  | [] => (m, None)
  | k :: _ => (m ∖ {[k]}, Some k)
  end.
Definition dictGetFirst (m : gset Z) : option Z := head (dict_keys m).
Definition dictGetNext (m : gset Z) (pivot : Z) : option Z :=
  head (filter (λ k, pivot < k)%Z (dict_keys m)).

(** [while (i < index) { dict.DictDeleteFirstAndGet(..); i += 1 }]. *)
Fixpoint dictDeleteFirst (n : nat) (m : gset Z) : gset Z :=
  match n with
  | O => m
  | S n => dictDeleteFirst n (dictDeleteFirstAndGet m).1
  end.

#[local] Instance Zle_trans : Transitive Z.le.
Proof. intros a b c. lia. Qed.
#[local] Instance Zle_total : Total Z.le.
Proof. intros a b. lia. Qed.

Lemma dict_keys_perm m : dict_keys m ≡ₚ elements m.
Proof. apply merge_sort_Permutation. Qed.

Lemma dict_keys_sorted m : StronglySorted Z.le (dict_keys m).
Proof. apply StronglySorted_merge_sort; apply _. Qed.

Lemma elem_of_dict_keys m k : k ∈ dict_keys m ↔ k ∈ m.
Proof. by rewrite dict_keys_perm, elem_of_elements. Qed.

Lemma dict_keys_length m : length (dict_keys m) = size m.
Proof. by rewrite dict_keys_perm. Qed.

Lemma dict_keys_NoDup m : NoDup (dict_keys m).
Proof. rewrite dict_keys_perm. apply NoDup_elements. Qed.

Lemma dict_keys_delete m k ks : dict_keys m = k :: ks → dict_keys (m ∖ {[k]}) = ks.
Proof.
  intros E. apply (StronglySorted_unique_strong Z.le).
  - intros; lia.
  - apply dict_keys_sorted.
  - pose proof (dict_keys_sorted m) as Hs. rewrite E in Hs. by inversion Hs.
  - pose proof (dict_keys_NoDup m) as Hn. rewrite E in Hn. apply NoDup_cons in Hn as [Hk Hn].
    apply NoDup_Permutation; [apply dict_keys_NoDup|done|]. intros x.
    rewrite elem_of_dict_keys, elem_of_difference, elem_of_singleton, <- elem_of_dict_keys, E, elem_of_cons.
    naive_solver.
Qed.

(** Deleting the first [n] keys and looking at the first of the rest is the [n]-th key. *)
Lemma dict_nth m n : dictGetFirst (dictDeleteFirst n m) = dict_keys m !! n.
Proof.
  revert m. induction n as [|n IH]; intros m; cbn [dictDeleteFirst].
  - unfold dictGetFirst. by destruct (dict_keys m).
  - rewrite IH. unfold dictDeleteFirstAndGet. destruct (dict_keys m) as [|k ks] eqn:E; cbn.
    + by rewrite E.
    + by rewrite (dict_keys_delete m k ks E).
Qed.

Lemma delete_first_get m : (dictDeleteFirstAndGet m).2 = dictGetFirst m.
Proof. unfold dictDeleteFirstAndGet, dictGetFirst. by destruct (dict_keys m). Qed.

Lemma sorted_next ks i k :
  StronglySorted Z.le ks → NoDup ks → ks !! i = Some k →
  head (filter (λ x, k < x)%Z ks) = ks !! S i.
Proof.
  intros Hs Hn. revert i. induction Hs as [|x ks Hs IH Hx]; intros i; [done|].
  apply NoDup_cons in Hn as [Hnx Hn]. rewrite Forall_forall in Hx.
  destruct i as [|i]; intros Hi.
  - injection Hi as ->. rewrite filter_cons_False by lia. clear IH Hs. cbn [lookup list_lookup].
    destruct ks as [|y ks]; [done|]. pose proof (Hx y (list_elem_of_here _ _)).
    rewrite filter_cons_True; [done|]. assert (y ≠ k) by (intros ->; apply Hnx, list_elem_of_here). lia.
  - cbn in Hi. rewrite filter_cons_False; [by apply IH|].
    apply list_elem_of_lookup_2 in Hi. specialize (Hx k Hi). lia.
Qed.

Lemma dict_next m i k : dict_keys m !! i = Some k → dictGetNext m k = dict_keys m !! S i.
Proof. apply sorted_next; [apply dict_keys_sorted|apply dict_keys_NoDup]. Qed.

(** ** Transactions

    A contract receives inputs one after the other; a handler that throws leaves
    neither state nor messages behind. *)

Section run.
Context {I St B : Type} (handle : I → M St B ()).

Definition transaction (i : I) (s : St) : St * list (action B) :=
  match handle i s with
  | Done (_, s', o) => (s', o)
  | Throw _ => (s, [])
  end.

Fixpoint run (ins : list I) (s : St) : St :=
  match ins with
  | [] => s
  | i :: ins => run ins (transaction i s).1
  end.

(** The inputs that were handled, with the storage they found and the messages they sent. *)
Record step := Step { pre : St; inp : I; out : list (action B) }.

Fixpoint handled (ins : list I) (s : St) : list step :=
  match ins with
  | [] => []
  | i :: ins =>
      match handle i s with
      | Done (_, s', o) => Step s i o :: handled ins s'
      | Throw _ => handled ins s
      end
  end.

Lemma run_app ins1 ins2 s : run (ins1 ++ ins2) s = run ins2 (run ins1 s).
Proof. revert s. induction ins1 as [|i ins1 IH]; intros s; [done|apply IH]. Qed.

Lemma run_snoc ins i s : run (ins ++ [i]) s = (transaction i (run ins s)).1.
Proof. by rewrite run_app. Qed.

Lemma handled_snoc ins i s :
  handled (ins ++ [i]) s = handled ins s ++
    match handle i (run ins s) with Done (_, _, o) => [Step (run ins s) i o] | Throw _ => [] end.
Proof.
  revert s. induction ins as [|j ins IH]; intros s; cbn.
  - by destruct (handle i s) as [[[? ?] ?]|].
  - unfold transaction. destruct (handle j s) as [[[u s'] o]|]; cbn; by rewrite IH.
Qed.

Lemma handled_inp ins s st : st ∈ handled ins s → inp st ∈ ins.
Proof.
  revert s. induction ins as [|i ins IH]; intros s; cbn; [by intros ?%elem_of_nil|].
  destruct (handle i s) as [[[u s'] o]|]; [|by intros H%IH; apply list_elem_of_further].
  intros [->|H]%elem_of_cons; [apply list_elem_of_here|by apply list_elem_of_further, (IH s')].
Qed.

Lemma handled_done ins s st : st ∈ handled ins s → ∃ s', handle (inp st) (pre st) = Done (tt, s', out st).
Proof.
  revert s. induction ins as [|i ins IH]; intros s; cbn; [by intros ?%elem_of_nil|].
  destruct (handle i s) as [[[[] s'] o]|] eqn:E; [|apply IH].
  intros [->|H]%elem_of_cons; [by exists s'|by apply (IH s')].
Qed.

(** What every handler preserves holds after any inputs. *)
Lemma run_invariant (Inv : St → Prop) ins s :
  (∀ i s u s' o, Inv s → handle i s = Done (u, s', o) → Inv s') → Inv s → Inv (run ins s).
Proof.
  intros Hstep. revert s. induction ins as [|i ins IH]; intros s Hs; [done|]. cbn. apply IH.
  unfold transaction. destruct (handle i s) as [[[u s'] o]|] eqn:E; [by eapply Hstep|done].
Qed.

(** The steps of a history with one more. *)
Lemma snoc_cases {X} (h h1 h2 : list X) (x y : X) :
  h ++ [x] = h1 ++ y :: h2 → (h1 = h ∧ y = x ∧ h2 = []) ∨ ∃ h3, h2 = h3 ++ [x] ∧ h = h1 ++ y :: h3.
Proof.
  destruct h2 as [|z h2 _] using rev_ind.
  - intros [-> [= ->]]%app_inj_tail. by left.
  - rewrite app_comm_cons, app_assoc. intros [-> ->]%app_inj_tail. right. by exists h2.
Qed.

(** The same with a history: what has been handled so far. *)
Lemma run_history (Inv : list step → St → Prop) ins s :
  (∀ h i s u s' o, i ∈ ins → Inv h s → handle i s = Done (u, s', o) → Inv (h ++ [Step s i o]) s') →
  Inv [] s → Inv (handled ins s) (run ins s).
Proof.
  intros Hstep Hs. induction ins as [|i ins IH] using rev_ind; [done|].
  specialize (IH (λ h j t u t' o Hj, Hstep h j t u t' o ltac:(set_solver))).
  rewrite handled_snoc, run_snoc. unfold transaction.
  destruct (handle i (run ins s)) as [[[u s'] o]|] eqn:E; [|by rewrite app_nil_r].
  eapply Hstep; [set_solver|done..].
Qed.
End run.
Arguments Step {I St B} _ _ _.
Arguments pre {I St B} _.
Arguments inp {I St B} _.
Arguments out {I St B} _.

(** ** Iterator<T> (lib/utils.tolk)

    Iterates over arrays stored as snake data: elements back to back in a cell, the
    next cell is the reference left when the bits are used up. *)

Section iterator.
Context {AL : AddrLib} {CL : CellLib} {T : Type} (TT : Tlb T).

Definition Iterator_new (data : Cell) : Slice := BeginParse data.

Definition remainingRefs (s : Slice) : res Z := c ← SliceToCell s; Ok (RefsNum c).

(** [self.data.isEmpty()]: neither bits nor references. *)
Definition Iterator_empty (s : Slice) : res bool :=
  refs ← remainingRefs s; Ok ((SliceBitsLeft s =? 0) && (refs =? 0))%Z.

Definition Iterator_next (s : Slice) : res (T * Slice) :=
  s ← (if (SliceBitsLeft s =? 0)%Z
       then r ← LoadRefCell s; Ok (BeginParse r.1)
       else Ok s);
  LoadFromCell s.

(** [while (!it.empty()) { x = it.next(); ... }]: the elements in order. *)
Fixpoint Iterator_elements (fuel : nat) (s : Slice) : res (list T) :=
  match fuel with
  | O => Diverge
  | S fuel =>
      e ← Iterator_empty s;
      if (e : bool) then Ok []
      else r ← Iterator_next s; xs ← Iterator_elements fuel r.2; Ok (r.1 :: xs)
  end.

(** [Iterator<T>.has]. *)
Fixpoint Iterator_has `{EqDecision T} (fuel : nat) (elem : T) (s : Slice) : res bool :=
  match fuel with
  | O => Diverge
  | S fuel =>
      e ← Iterator_empty s;
      if (e : bool) then Ok false
      else
        r ← Iterator_next s;
        if decide (r.1 = elem) then Ok true else Iterator_has fuel elem r.2
  end.
End iterator.

(** ** What the Go bindings write, the iterator reads *)

Section iterator_facts.
Context {AL : AddrLib} {CL : CellLib} {CV : CellView} {CW : CellLaws}.
Context {T : Type} {TT : Tlb T} {dom : T → Prop} {nb nr : nat}.
Context (HT : stream_lawful TT dom 1 nb nr).

(** [bits] and [refs] are the encodings of [ys] one after the other. *)
Inductive packed : list bool → list Cell → list T → Prop :=
| packed_nil : packed [] [] []
| packed_cons b r bits refs y ys :
    1 ≤ length b → reads (LoadFromCell (T:=T)) b r y → packed bits refs ys →
    packed (b ++ bits) (r ++ refs) (y :: ys).

Definition packed_chunk (b : Builder) (ys : list T) : Prop := packed (bbits b) (brefs b) ys.

Lemma packed_snoc bits refs ys b r y :
  packed bits refs ys → 1 ≤ length b → reads (LoadFromCell (T:=T)) b r y →
  packed (bits ++ b) (refs ++ r) (ys ++ [y]).
Proof.
  intros H1 Hl Hy. induction H1 as [|b1 r1 bits refs z zs ?? _ IH]; cbn.
  - rewrite <- (app_nil_r b), <- (app_nil_r r). constructor; [done..|constructor].
  - rewrite <- !app_assoc. by constructor.
Qed.

Lemma empty_value s :
  Iterator_empty s = Ok (bool_decide (sbits s = [] ∧ srefs s = [])).
Proof.
  unfold Iterator_empty, remainingRefs. destruct (slice_to_cell s) as (c & -> & _ & Hr). cbn.
  rewrite slice_bits_left, refs_num, Hr. f_equal.
  destruct (sbits s), (srefs s); cbn; reflexivity || (symmetry; apply bool_decide_eq_false; naive_solver).
Qed.

(** Reading one chunk and going on. *)
Lemma elements_packed bits refs ys s rest zs fuel :
  packed bits refs ys → sbits s = bits → srefs s = refs ++ rest →
  (∀ s', sbits s' = [] → srefs s' = rest → Iterator_elements TT fuel s' = Ok zs) →
  Iterator_elements TT (length ys + fuel) s = Ok (ys ++ zs).
Proof.
  intros Hp. revert s. induction Hp as [|b r bits refs y ys Hl Hy Hp IH]; intros s Hb Hr Hk.
  { by apply Hk. }
  cbn [length Nat.add Iterator_elements]. rewrite empty_value, bool_decide_eq_false_2.
  2:{ rewrite Hb. intros [Hn _]. destruct b; [cbn in Hl; lia|discriminate]. }
  cbn [mbind res_bind]. unfold Iterator_next.
  rewrite slice_bits_left, Hb. replace (Z.of_nat _ =? 0)%Z with false.
  2:{ symmetry. apply Z.eqb_neq. rewrite length_app. lia. }
  cbn [mbind res_bind]. destruct (Hy s bits (refs ++ rest) Hb) as (s' & -> & Hb' & Hr').
  { by rewrite Hr, app_assoc. }
  cbn [mbind res_bind fst snd]. by rewrite (IH s' Hb' Hr' Hk).
Qed.

(** From the first cell of a chain, or from a slice that only holds a reference to it. *)
Lemma elements_linked bs xs c :
  chunks packed_chunk packed_chunk bs xs → linked bs c → Forall (λ b, bbits b ≠ []) (tail bs) →
  ∀ fuel, length xs < fuel → Iterator_elements TT fuel (BeginParse c) = Ok xs.
Proof.
  intros Hch. revert c. induction Hch as [b ys Hd|b bs ys zs Hd Hch IH]; intros c Hlk Hne fuel Hf;
    inversion Hlk as [? ? Hcb Hcr|? ? ? n Hn Hcb Hcr]; subst.
  2:{ inversion Hn. }
  2:{ inversion Hch. }
  - replace fuel with (length ys + (fuel - length ys)) by lia. rewrite <- (app_nil_r ys) at 3.
    eapply elements_packed; [exact Hd|by rewrite parse_bits|by rewrite parse_refs, Hcr, app_nil_r|].
    intros s' Hb Hr. destruct (fuel - length ys) eqn:E; [lia|]. cbn [Iterator_elements].
    by rewrite empty_value, bool_decide_eq_true_2.
  - rewrite length_app in Hf. replace fuel with (length ys + (fuel - length ys)) by lia.
    eapply elements_packed; [exact Hd|by rewrite parse_bits|by rewrite parse_refs, Hcr|].
    cbn [tail] in Hne. intros s' Hb Hr. destruct bs as [|b' bs]; [inversion Hn|].
    apply Forall_cons in Hne as [Hne Hne']. specialize (IH n Hn Hne').
    destruct (fuel - length ys) as [|f] eqn:E; [lia|]. specialize (IH (S f)).
    rewrite <- IH by lia. cbn [Iterator_elements].
    assert (cbits n = bbits b') as Hnb by (by inversion Hn).
    rewrite !empty_value, bool_decide_eq_false_2, bool_decide_eq_false_2.
    2:{ rewrite parse_bits, Hnb. naive_solver. }
    2:{ rewrite Hr. naive_solver. }
    cbn [mbind res_bind]. unfold Iterator_next. rewrite !slice_bits_left, Hb, parse_bits, Hnb.
    cbn [length Z.of_nat Z.eqb].
    destruct (load_ref n s' [] []) as (s2 & -> & _); [done..|]. cbn [mbind res_bind fst].
    destruct (bbits b'); [done|]. done.
Qed.

Lemma pack_loop_packed xs prev b ys cells :
  Forall dom xs → packed_chunk b ys → pack_static_loop xs prev b = Ok cells →
  ∃ bs, cells = prev ++ bs ∧ chunks packed_chunk packed_chunk bs (ys ++ xs) ∧
    Forall (λ b, bbits b ≠ []) (tail bs) ∧ (bbits b ≠ [] → Forall (λ b, bbits b ≠ []) bs).
Proof.
  intros Hxs. revert prev b ys. induction Hxs as [|x xs Hx Hxs IH]; intros prev b ys Hd.
  { cbn. intros [= <-]. exists [b]. rewrite app_nil_r.
    split; [done|]. split; [by left|]. split; [constructor|by intros; constructor]. }
  destruct (HT x Hx) as (c & Hc & [Hmb _] & _ & Hreads). cbn. rewrite Hc. cbn [wrap_err mbind res_bind].
  assert (cbits c ≠ []) as Hcne by (intros E; rewrite E in Hmb; cbn in Hmb; lia).
  assert (Hst : ∀ b b1, StoreBuilder (ToBuilder c) b = Ok b1 →
    bbits b1 = bbits b ++ cbits c ∧ brefs b1 = brefs b ++ crefs c).
  { intros b0 b1 E. rewrite <- (to_builder_bits c), <- (to_builder_refs c).
    by eapply (stores_ok _ b0 b1 _ _ (store_builder (ToBuilder c) b0)). }
  destruct (BitsLeft b <? BitsSize c)%Z; intros H; simplify_res;
    match goal with E : StoreBuilder _ _ = Ok _ |- _ => destruct (Hst _ _ E) as [Hb1 Hr1] end.
  - rewrite begin_bits in Hb1. rewrite begin_refs in Hr1. cbn in Hb1, Hr1.
    destruct (IH _ _ [x] ltac:(unfold packed_chunk; rewrite Hb1, Hr1, <- (app_nil_r (cbits c)),
      <- (app_nil_r (crefs c)); constructor; [done..|constructor]) H) as (bs & -> & Hch & _ & Hne).
    specialize (Hne ltac:(by rewrite Hb1)).
    exists (b :: bs). rewrite <- app_assoc. split; [done|]. split; [by right|].
    split; [done|]. intros. by constructor.
  - destruct (IH _ _ (ys ++ [x]) ltac:(unfold packed_chunk; rewrite Hb1, Hr1; by apply packed_snoc) H)
      as (bs & -> & Hch & Hne & Hne').
    exists bs. rewrite <- app_assoc in Hch. split; [done|]. split; [done|]. split; [done|].
    intros _. apply Hne'. rewrite Hb1. by destruct (bbits b), (cbits c).
Qed.

Lemma link_cells_ok msg bs c : link_cells msg bs = Ok (Some c) → linked bs c.
Proof.
  revert c. induction bs as [|b bs IH]; intros c H; [discriminate|]. cbn in H.
  destruct (link_cells msg bs) as [[n|]| | |] eqn:E; cbn in H; try discriminate.
  - destruct (StoreRef n b) as [b1| | |] eqn:Es; cbn in H; try discriminate. injection H as <-.
    apply (stores_ok _ b b1 _ _ (store_ref n b)) in Es as [Hb Hr].
    eright; [by apply IH|by rewrite end_bits, Hb, app_nil_r|by rewrite end_refs].
  - injection H as <-. destruct bs as [|b' bs].
    + left; [apply end_bits|apply end_refs].
    + exfalso. cbn in E. destruct (link_cells msg bs) as [[|]| | |]; cbn in E; try discriminate.
      destruct (StoreRef _ _); discriminate.
Qed.

(** The cell the Go packer builds for [xs] holds [xs] for the iterator. *)
Lemma packed_elements xs c fuel :
  Forall dom xs → packArrayWithStaticType xs = Ok (Some c) → length xs < fuel →
  Iterator_elements TT fuel (Iterator_new c) = Ok xs.
Proof.
  intros Hxs H Hf. unfold packArrayWithStaticType in H. apply bind_ok in H as (bs & Hp & Hl).
  destruct (pack_loop_packed xs [] BeginCell [] bs Hxs) as (bs' & -> & Hch & Hne & _); [|done|].
  { unfold packed_chunk. rewrite begin_bits, begin_refs. constructor. }
  eapply elements_linked; [done|by eapply link_cells_ok|done|done].
Qed.
End iterator_facts.
