(* ===== verification/Slices.v ===== *)
(** * Slices: reading cells in the contracts (lib/utils.tolk)

    Slices, the iterator over the vectors that contracts receive, and how contracts count the
    elements of a vector.  The iterator follows the first reference of a cell whose bits are used
    up; [countBytes] and [countAddresses] measure all the cells below a vector, so that what is
    counted and what is read can differ: what is read is never more than what is counted, and it
    is the same when no cell of the vector has a second reference. *)

From S2P Require Import Prelude Tolk.

(** ** Equality of cells *)

#[export] Instance cell_eq_dec : EqDecision cell.
Proof.
  unfold EqDecision, Decision. fix go 1. intros [b1 r1] [b2 r2].
  destruct (decide (b1 = b2)) as [<-|Hb]; [|right; congruence].
  assert ({r1 = r2} + {r1 ≠ r2}) as [<-|Hr]; [|by left|right; congruence].
  revert r2. induction r1 as [|x r1 IH]; intros [|y r2]; [by left|by right|by right|].
  destruct (go x y) as [<-|Hx]; [|right; congruence].
  destruct (IH r2) as [<-|Hr]; [by left|right; congruence].
Defined.

Definition cell_refs (c : cell) : list cell := let '(MkCell _ refs) := c in refs.

Module slices.
Local Open Scope Z_scope.

(** ** Slices *)

Definition slice : Type := list bool * list cell.
Definition beginParse (c : cell) : slice := let '(MkCell bits refs) := c in (bits, refs).
Definition isEmpty (s : slice) : bool := match s with ([], []) => true | _ => false end.

(** The TVM's codes for reading more than there is, and for a tree of more cells than allowed. *)
Definition CELL_UNDERFLOW : Z := 9.
Definition CELL_OVERFLOW : Z := 8.

Definition loadBits (n : nat) (s : slice) : exit (list bool * slice) :=
  if (n <=? length s.1)%nat then Done (take n s.1, (drop n s.1, s.2)) else Throw CELL_UNDERFLOW.
Definition loadUint (n : nat) (s : slice) : exit (Z * slice) :=
  r ← loadBits n s; mret (bits_Z r.1, r.2).
Definition loadRef (s : slice) : exit (cell * slice) :=
  match s.2 with c :: refs => Done (c, (s.1, refs)) | [] => Throw CELL_UNDERFLOW end.
Definition loadMaybeRef (s : slice) : exit (option cell * slice) :=
  r ← loadUint 1 s;
  if r.1 =? 0 then mret (None, r.2) else c ← loadRef r.2; mret (Some c.1, c.2).

(** A standard address. *)
Definition ADDR_KEY_LEN : nat := 267.
Definition loadAddress : slice → exit (address * slice) := loadUint ADDR_KEY_LEN.

(** The bits below a cell and in a slice. *)
Fixpoint total_bits (c : cell) : nat :=
  let '(MkCell bits refs) := c in (length bits + list_sum (total_bits <$> refs))%nat.
Definition slice_bits (s : slice) : nat := (length s.1 + list_sum (total_bits <$> s.2))%nat.

(** ** [Iterator<T>]

    [next], and the elements of a vector: what is read before the end, and how reading ends. *)

Section iterator.
Context {T : Type} (loadAny : slice → exit (T * slice)).

Definition next (s : slice) : exit (T * slice) :=
  s ← match s.1 with [] => r ← loadRef s; mret (beginParse r.1) | _ => mret s end;
  loadAny s.

Fixpoint elements (fuel : nat) (s : slice) : option (list T * exit ()) :=
  match fuel with
  | O => None
  | S fuel =>
      if isEmpty s then Some ([], Done tt) else
      match next s with
      | Throw code => Some ([], Throw code)
      | Done (x, s) =>
          match elements fuel s with Some (xs, e) => Some (x :: xs, e) | None => None end
      end
  end.

Definition vec (c : cell) : list T * exit () :=
  default ([], Throw CELL_UNDERFLOW) (elements (S (total_bits c)) (beginParse c)).
End iterator.

(** [while (!it.empty()) { x = it.next(); ... }]. *)
Definition for_vec {St B T} (f : T → M St B ()) (v : list T * exit ()) : M St B () := for_each f v.1;; lift v.2.

(** ** Counting *)

Definition ERROR_INVALID_DATA : Z := 0x77.
Definition maxCells : nat := 128.

Fixpoint subcells (c : cell) : list cell := c :: match c with MkCell _ refs => concat (subcells <$> refs) end.

(** The distinct cells below references. *)
Definition below (refs : list cell) : list cell := remove_dups (concat (subcells <$> refs)).

(** [dataBitsSize] of [calculateSizeStrict]: the bits of a slice and of the cells below it, equal
    cells counted once; too many cells are refused. *)
Definition calculateSizeStrict (s : slice) (maxCells : nat) : exit Z :=
  let cells := below s.2 in
  assert (length cells <=? maxCells)%nat CELL_OVERFLOW;;
  mret (Z.of_nat (length s.1 + list_sum ((λ c, length (cell_bits c)) <$> cells))).

Definition countBytes (s : slice) : exit Z :=
  dataBitsSize ← calculateSizeStrict s maxCells;
  assert (dataBitsSize `mod` 8 =? 0) ERROR_INVALID_DATA;;
  mret (dataBitsSize / 8).

(** [Iterator<T>.size(elemSize)] of an iterator at the start of [data]. *)
Definition size (elemSize : Z) (data : cell) : exit Z :=
  n ← countBytes (beginParse data); mret (n / elemSize).

(** The cell itself is one of those that are measured. *)
Definition countAddresses (data : cell) : exit Z :=
  dataBitsSize ← calculateSizeStrict ([], [data]) maxCells;
  assert (dataBitsSize `mod` Z.of_nat ADDR_KEY_LEN =? 0) ERROR_INVALID_DATA;;
  mret (dataBitsSize / Z.of_nat ADDR_KEY_LEN).

(** ** The fuel is enough

    Elements have at least one bit. *)

Section fuel.
Context {T : Type} (loadAny : slice → exit (T * slice)).
Hypothesis loadAny_consumes : ∀ s x s', loadAny s = Done (x, s') → (slice_bits s' < slice_bits s)%nat.

Lemma next_consumes s x s' : next loadAny s = Done (x, s') → (slice_bits s' < slice_bits s)%nat.
Proof.
  unfold next. destruct s as [[|b bits] refs]; cbn [fst].
  - intros (t & Ht & H%loadAny_consumes)%exit_bind_done. apply exit_bind_done in Ht as ([c s1] & Hc & Ht).
    injection Ht as <-. destruct refs as [|c' refs]; [discriminate|]. injection Hc as <- <-.
    destruct c' as [bits refs'].
    change (slice_bits s' < total_bits (MkCell bits refs'))%nat in H.
    change (slice_bits s' < total_bits (MkCell bits refs') + list_sum (total_bits <$> refs))%nat. lia.
  - intros H. by apply loadAny_consumes in H.
Qed.

Lemma elements_total fuel s : (slice_bits s < fuel)%nat → is_Some (elements loadAny fuel s).
Proof.
  revert s. induction fuel as [|fuel IH]; intros s Hs; [lia|]. cbn. destruct (isEmpty s); [done|].
  destruct (next loadAny s) as [[x s']|code] eqn:E; [|done]. apply next_consumes in E.
  destruct (IH s' ltac:(lia)) as [[xs e] ->]. done.
Qed.

Lemma vec_read c : elements loadAny (S (total_bits c)) (beginParse c) = Some (vec loadAny c).
Proof.
  unfold vec. destruct (elements_total (S (total_bits c)) (beginParse c)) as [r ->]; [|done].
  destruct c. apply Nat.lt_succ_diag_r.
Qed.
End fuel.

(** ** What is counted and what is read *)

(** The cells reached by first references, and whether there are others. *)
Fixpoint chain (c : cell) : list cell :=
  c :: match c with MkCell _ (r :: _) => chain r | MkCell _ [] => [] end.
Fixpoint linear (c : cell) : bool :=
  match c with MkCell _ [] => true | MkCell _ [r] => linear r | _ => false end.

Definition bits_of (cells : list cell) : nat := list_sum ((λ c, length (cell_bits c)) <$> cells).

Fixpoint depth (c : cell) : nat := let '(MkCell _ refs) := c in S (foldr max O (depth <$> refs)).

(** Induction along the first references. *)
Lemma first_ind (P : cell → Prop) :
  (∀ bits, P (MkCell bits [])) → (∀ bits r refs, P r → P (MkCell bits (r :: refs))) → ∀ c, P c.
Proof. intros H0 H1. fix go 1. intros [bits [|r refs]]; [apply H0|apply H1, go]. Qed.

Lemma chain_depth c d : d ∈ chain c → (depth d ≤ depth c)%nat.
Proof.
  induction c as [bits|bits r refs IH] using first_ind; cbn [chain].
  - by intros ->%list_elem_of_singleton.
  - intros [->|H%IH]%elem_of_cons; [done|]. cbn. lia.
Qed.

Lemma chain_NoDup c : NoDup (chain c).
Proof.
  induction c as [bits|bits r refs IH] using first_ind; cbn [chain]; [apply NoDup_singleton|].
  constructor; [|done]. intros H%chain_depth. cbn in H. lia.
Qed.

Lemma chain_subcells c : chain c ⊆ subcells c.
Proof. induction c as [bits|bits r refs IH] using first_ind; cbn; [done|]. set_unfold; naive_solver. Qed.

Lemma linear_subcells c : linear c = true → subcells c = chain c.
Proof.
  induction c as [bits|bits r refs IH] using first_ind; [done|]. cbn. destruct refs; [|done].
  intros H. cbn. by rewrite app_nil_r, (IH H).
Qed.

Lemma bits_of_cons c cs : bits_of (c :: cs) = (length (cell_bits c) + bits_of cs)%nat.
Proof. done. Qed.

Lemma bits_of_app xs ys : bits_of (xs ++ ys) = (bits_of xs + bits_of ys)%nat.
Proof. unfold bits_of. by rewrite fmap_app, list_sum_app. Qed.

Lemma bits_of_perm xs ys : xs ≡ₚ ys → bits_of xs = bits_of ys.
Proof.
  induction 1 as [|x xs ys H IH|x y xs|xs ys zs _ IH1 _ IH2]; rewrite ?bits_of_cons; lia.
Qed.

Lemma bits_of_subset xs ys : NoDup xs → xs ⊆ ys → (bits_of xs ≤ bits_of ys)%nat.
Proof.
  intros Hn Hs. assert (xs ⊆+ ys) as [zs H]%submseteq_Permutation by by apply NoDup_submseteq.
  rewrite (bits_of_perm ys (xs ++ zs)) by done. rewrite bits_of_app. lia.
Qed.

Lemma remove_dups_NoDup (l : list cell) : NoDup l → remove_dups l = l.
Proof.
  induction 1 as [|x l Hx Hl IH]; [done|]. cbn. destruct (decide_rel _ x l); [done|]. by rewrite IH.
Qed.

(** The bits of the cells that the iterator goes through, and of all that are counted. *)
Definition chain_bits (s : slice) : nat := (length s.1 + match s.2 with r :: _ => bits_of (chain r) | [] => 0 end)%nat.

Lemma chain_bits_parse c : chain_bits (beginParse c) = bits_of (chain c).
Proof. by destruct c as [bits [|r refs]]. Qed.

Definition slice_linear (s : slice) : bool := match s.2 with [] => true | [r] => linear r | _ => false end.

Lemma slice_linear_parse c : slice_linear (beginParse c) = linear c.
Proof. by destruct c as [bits [|r [|]]]. Qed.

Lemma chain_counted s : (chain_bits s ≤ length s.1 + bits_of (below s.2))%nat.
Proof.
  unfold chain_bits. apply Nat.add_le_mono_l. destruct s as [bits [|r refs]]; cbn [snd]; [apply Nat.le_0_l|].
  apply bits_of_subset; [apply chain_NoDup|]. intros d Hd%chain_subcells. unfold below.
  apply elem_of_remove_dups. cbn. set_solver.
Qed.

Lemma chain_counted_linear s : slice_linear s = true → chain_bits s = (length s.1 + bits_of (below s.2))%nat.
Proof.
  unfold chain_bits, slice_linear, below. intros H. f_equal. destruct s as [bits [|r [|]]]; cbn [snd] in *; [done| |done].
  cbn [fmap list_fmap concat]. rewrite app_nil_r, (linear_subcells r H).
  by rewrite remove_dups_NoDup by apply chain_NoDup.
Qed.

(** Elements of [k] bits without references. *)
Section fixed.
Context {T : Type} (loadAny : slice → exit (T * slice)) (k : nat).
Hypothesis loadAny_bits : ∀ s x s', loadAny s = Done (x, s') → length s.1 = (k + length s'.1)%nat ∧ s'.2 = s.2.

Lemma next_bits s x s' : next loadAny s = Done (x, s') → chain_bits s = (k + chain_bits s')%nat.
Proof.
  unfold next. intros (t & Ht & [H1 H2]%loadAny_bits)%exit_bind_done.
  assert (chain_bits s = chain_bits t) as ->.
  { destruct s as [[|b bits] refs]; cbn [fst] in Ht; [|by injection Ht as <-].
    apply exit_bind_done in Ht as ([c s1] & Hc & Ht). injection Ht as <-.
    destruct refs as [|c' refs]; [discriminate|]. injection Hc as <- <-. by rewrite chain_bits_parse. }
  unfold chain_bits. rewrite H2. lia.
Qed.

Lemma elements_bits fuel s xs e :
  elements loadAny fuel s = Some (xs, e) →
  (k * length xs ≤ chain_bits s)%nat ∧ (e = Done tt → k * length xs = chain_bits s)%nat.
Proof.
  revert s xs. induction fuel as [|fuel IH]; intros s xs; [discriminate|]. cbn.
  destruct (isEmpty s) eqn:Es.
  { intros [= <- <-]. destruct s as [[|] [|]]; try discriminate. cbn. lia. }
  destruct (next loadAny s) as [[x s']|code] eqn:En.
  - apply next_bits in En. destruct (elements loadAny fuel s') as [[ys e']|] eqn:Ee; [|discriminate].
    intros [= <- <-]. apply IH in Ee as [H1 H2]. cbn [length]. split; [lia|]. intros He. specialize (H2 He). lia.
  - intros [= <- <-]. cbn. split; [lia|discriminate].
Qed.

Lemma fixed_vec_bits c :
  (k * length (vec loadAny c).1 ≤ bits_of (chain c))%nat ∧
  ((vec loadAny c).2 = Done tt → k * length (vec loadAny c).1 = bits_of (chain c))%nat.
Proof.
  rewrite <- chain_bits_parse. unfold vec.
  destruct (elements loadAny _ _) as [[xs e]|] eqn:E; cbn; [by eapply elements_bits|].
  split; [lia|discriminate].
Qed.

(** [n] elements are counted: from the start of the vector, or with the bits of its cell as
    those of a cell below. *)
Lemma counted_vec c s bits :
  s = beginParse c ∨ s = ([], [c]) →
  calculateSizeStrict s maxCells = Done bits →
  (Z.of_nat k * Z.of_nat (length (vec loadAny c).1) ≤ bits) ∧
  ((vec loadAny c).2 = Done tt → linear c = true → Z.of_nat k * Z.of_nat (length (vec loadAny c).1) = bits).
Proof.
  intros Hs ([] & _ & H)%exit_bind_done. injection H as <-. fold (bits_of (below s.2)).
  destruct (fixed_vec_bits c) as [H1 H2]. pose proof (chain_counted s) as H3. pose proof (chain_counted_linear s) as H4.
  assert (chain_bits s = bits_of (chain c) ∧ slice_linear s = linear c) as [E1 E2].
  { destruct Hs as [-> | ->]; [|done]. by rewrite chain_bits_parse, slice_linear_parse. }
  rewrite E1, E2 in *. split; [lia|]. intros He Hl. specialize (H2 He). specialize (H4 Hl). lia.
Qed.
End fixed.

(** ** The vectors of the contracts *)

Lemma loadBits_done n s bits s' :
  loadBits n s = Done (bits, s') → length s.1 = (n + length s'.1)%nat ∧ s'.2 = s.2 ∧ length bits = n.
Proof.
  unfold loadBits. destruct (Nat.leb_spec n (length s.1)); [|discriminate]. intros [= <- <-]. cbn.
  rewrite length_drop, length_take. split_and!; [lia|done|lia].
Qed.

Lemma loadUint_done n s z s' :
  loadUint n s = Done (z, s') → length s.1 = (n + length s'.1)%nat ∧ s'.2 = s.2 ∧ 0 ≤ z < 2 ^ Z.of_nat n.
Proof.
  intros ([bits s1] & (H1 & H2 & <-)%loadBits_done & H)%exit_bind_done. injection H as <- <-.
  split_and!; [done|done|apply bits_Z_range..].
Qed.

(** What is read with an invariant of the elements. *)
Lemma vec_Forall {T} (loadAny : slice → exit (T * slice)) (P : T → Prop) c :
  (∀ s x s', loadAny s = Done (x, s') → P x) → Forall P (vec loadAny c).1.
Proof.
  intros HP. unfold vec. generalize (S (total_bits c)) (beginParse c). intros fuel s.
  destruct (elements loadAny fuel s) as [[xs e]|] eqn:E; [|constructor]. cbn.
  revert s xs e E. induction fuel as [|fuel IH]; intros s xs e; [discriminate|]. cbn.
  destruct (isEmpty s); [intros [= <- <-]; constructor|].
  destruct (next loadAny s) as [[x s']|] eqn:En; [|intros [= <- <-]; constructor].
  destruct (elements loadAny fuel s') as [[ys e']|] eqn:Ee; [|discriminate]. intros [= <- <-].
  constructor; [|by eapply IH]. unfold next in En. by apply exit_bind_done in En as (t & _ & En%HP).
Qed.

(** A vector that is read to its end without elements is empty. *)
Lemma vec_nil {T} (loadAny : slice → exit (T * slice)) c : vec loadAny c = ([], Done tt) → c = MkCell [] [].
Proof.
  unfold vec. cbn [elements]. destruct c as [[|b bits] [|r refs]]; cbn [beginParse isEmpty]; [done|..];
    (destruct (next loadAny _) as [[x s']|]; [destruct (elements _ _ _) as [[]|]; cbn; intros; simplify_eq|discriminate]).
Qed.

(** What is counted are whole elements of [k] bytes. *)
Lemma size_bits (s : slice) k n :
  (b ← countBytes s; mret (b / k) : exit Z) = Done n → 0 < k →
  ∃ bits, calculateSizeStrict s maxCells = Done bits ∧ 8 * k * n ≤ bits < 8 * k * (n + 1).
Proof.
  intros (b & (bits & Hb & H)%exit_bind_done & Hn)%exit_bind_done Hk.
  apply exit_bind_done in H as ([] & Hm%assert_done & H). injection H as <-. injection Hn as <-.
  exists bits. split; [done|]. Z.div_mod_to_equations. nia.
Qed.

(** [vec<uint256>] and the like, of elements of [k] bytes. *)
Lemma size_vec {T} (loadAny : slice → exit (T * slice)) (k : nat) c n :
  (∀ s x s', loadAny s = Done (x, s') → length s.1 = (8 * k + length s'.1)%nat ∧ s'.2 = s.2) → (0 < k)%nat →
  size (Z.of_nat k) c = Done n →
  0 ≤ n ∧ Z.of_nat (length (vec loadAny c).1) ≤ n ∧
  ((vec loadAny c).2 = Done tt → linear c = true → Z.of_nat (length (vec loadAny c).1) = n).
Proof.
  intros HT Hk (bits & Hb & Hn)%size_bits; [|lia].
  destruct (counted_vec loadAny (8 * k) HT c _ bits (or_introl eq_refl) Hb) as [H1 H2].
  set (m := Z.of_nat (length _)) in *. rewrite Nat2Z.inj_mul in *. split_and!; [nia|nia|].
  intros He Hl. specialize (H2 He Hl). nia.
Qed.

Lemma loadUint_bits n s x s' : loadUint n s = Done (x, s') → length s.1 = (n + length s'.1)%nat ∧ s'.2 = s.2.
Proof. intros (H1 & H2 & _)%loadUint_done. done. Qed.

Lemma size_uint k c n :
  (0 < k)%nat → size (Z.of_nat k) c = Done n →
  0 ≤ n ∧ Z.of_nat (length (vec (loadUint (8 * k)) c).1) ≤ n ∧
  ((vec (loadUint (8 * k)) c).2 = Done tt → linear c = true → Z.of_nat (length (vec (loadUint (8 * k)) c).1) = n).
Proof. intros Hk. apply size_vec; [|done]. intros s x s'. apply loadUint_bits. Qed.

Lemma countAddresses_vec c n :
  countAddresses c = Done n →
  0 ≤ n ∧ Z.of_nat (length (vec loadAddress c).1) ≤ n ∧
  ((vec loadAddress c).2 = Done tt → linear c = true → Z.of_nat (length (vec loadAddress c).1) = n).
Proof.
  unfold countAddresses. intros (bits & Hb & ([] & Hm%assert_done & H)%exit_bind_done)%exit_bind_done.
  injection H as <-.
  destruct (counted_vec loadAddress ADDR_KEY_LEN (loadUint_bits _) c _ bits (or_intror eq_refl) Hb) as [H1 H2].
  set (m := Z.of_nat (length _)) in *. change (Z.of_nat ADDR_KEY_LEN) with 267 in *. split_and!.
  - Z.div_mod_to_equations. lia.
  - Z.div_mod_to_equations. lia.
  - intros He Hl. specialize (H2 He Hl). Z.div_mod_to_equations. lia.
Qed.

Lemma vec_uint_range n c : Forall (λ z, 0 ≤ z < 2 ^ Z.of_nat n) (vec (loadUint n) c).1.
Proof. apply vec_Forall. intros s x s' H. by apply loadUint_done in H as (_ & _ & H). Qed.

(** A vector with one element in each cell. *)
Fixpoint cell_vec {T} (encode : T → list bool) (l : list T) : cell :=
  match l with
  | [] => MkCell [] []
  | [x] => MkCell (encode x) []
  | x :: l => MkCell (encode x) [cell_vec encode l]
  end.
End slices.
