(* ===== verification/Ownable.v ===== *)
(** * Ownable: src/contracts/contracts/lib/access/ownable_2step.tolk

    The two-step transfer of a contract's ownership, and who can have become its
    owner after any sequence of messages. *)

From S2P Require Import Prelude Tolk.

Module ownable.

(** Exit codes. *)
Definition ERROR_ONLY_CALLABLE_BY_OWNER : Z := 132.
Definition ERROR_CANNOT_TRANSFER_TO_SELF : Z := 1001.
Definition ERROR_MUST_BE_PROPOSED_OWNER : Z := 1002.

Record Ownable2Step := { owner : address; pendingOwner : option address }.

(** [Ownable2Step_Messages]; [Other] is a body with any other opcode. *)
Inductive Messages :=
| TransferOwnership (queryId : Z) (newOwner : address)
| AcceptOwnership (queryId : Z)
| Other.

(** The events. *)
Inductive Event :=
| OwnershipTransferRequested (queryId : Z) (newOwner : address)
| OwnershipTransferred (queryId : Z) (oldOwner newOwner : address).

Definition requireOwner (sender : address) : M Ownable2Step Event () :=
  self ← get;
  require (sender =? owner self)%Z ERROR_ONLY_CALLABLE_BY_OWNER.

Definition transferOwnership (sender to : address) : M Ownable2Step Event () :=
  requireOwner sender;;
  self ← get;
  require (negb (to =? owner self)%Z) ERROR_CANNOT_TRANSFER_TO_SELF;;
  put {| owner := owner self; pendingOwner := Some to |}.

Definition acceptOwnership (sender : address) : M Ownable2Step Event () :=
  self ← get;
  match pendingOwner self with
  | None => throw ERROR_MUST_BE_PROPOSED_OWNER
  | Some pending =>
      require (sender =? pending)%Z ERROR_MUST_BE_PROPOSED_OWNER;;
      put {| owner := sender; pendingOwner := None |}
  end.

(** [Ownable2Step.onInternalMessage]: whether the message was one of the trait. *)
Definition onInternalMessage (sender : address) (msg : Messages) : M Ownable2Step Event bool :=
  match msg with
  | TransferOwnership queryId newOwner =>
      transferOwnership sender newOwner;;
      act (Log None (OwnershipTransferRequested queryId newOwner));;
      mret true
  | AcceptOwnership queryId =>
      self ← get;
      acceptOwnership sender;;
      act (Log None (OwnershipTransferred queryId (owner self) sender));;
      mret true
  | Other => mret false
  end.

(** The trait alone as a contract: an input is a sender with a message. *)
Definition input : Type := address * Messages.
Definition handle (i : input) : M Ownable2Step Event () := onInternalMessage i.1 i.2;; mret tt.

(** ** Lemmas *)

(** [requireOwner] only looks. *)
Lemma requireOwner_done sender self u self' o :
  requireOwner sender self = Done (u, self', o) ↔ sender = owner self ∧ self' = self ∧ o = [].
Proof.
  unfold requireOwner. split; intros H.
  - inv_tolk. split; [lia|done].
  - destruct H as (-> & -> & ->). destruct u. rewrite get_bind, require_true by lia. done.
Qed.

Lemma transfer_done sender q new self b self' o :
  onInternalMessage sender (TransferOwnership q new) self = Done (b, self', o) ↔
  sender = owner self ∧ new ≠ owner self ∧ b = true ∧
  self' = {| owner := owner self; pendingOwner := Some new |} ∧
  o = [Log None (OwnershipTransferRequested q new)].
Proof.
  split; intros H.
  - cbn in H. unfold transferOwnership in H. inv_tolk.
    match goal with H : requireOwner _ _ = _ |- _ => apply requireOwner_done in H as (-> & -> & ->) end.
    repeat split; lia || done.
  - destruct H as (-> & Hne & -> & -> & ->). cbn -[requireOwner].
    unfold transferOwnership, requireOwner, mbind, M_bind, get, require, lift, assert. cbn.
    rewrite Z.eqb_refl. cbn. by rewrite (proj2 (Z.eqb_neq _ _) Hne).
Qed.

Lemma accept_done sender q self b self' o :
  onInternalMessage sender (AcceptOwnership q) self = Done (b, self', o) ↔
  pendingOwner self = Some sender ∧ b = true ∧
  self' = {| owner := sender; pendingOwner := None |} ∧
  o = [Log None (OwnershipTransferred q (owner self) sender)].
Proof.
  cbn. unfold acceptOwnership. rewrite get_bind. split; intros H.
  - apply M_bind_done in H as (? & ? & ? & ? & H & H2 & ?).
    rewrite get_bind in H.
    destruct (pendingOwner self) as [p|]; inv_tolk.
    repeat split; try done. f_equal. lia.
  - destruct H as (Hp & -> & -> & ->). unfold mbind, M_bind, get. cbn. rewrite Hp.
    unfold require, lift, assert. by rewrite Z.eqb_refl.
Qed.

(** One handled input. *)
Lemma handle_cases i self u self' o :
  handle i self = Done (u, self', o) →
  (∃ q new, i = (owner self, TransferOwnership q new) ∧
     self' = {| owner := owner self; pendingOwner := Some new |}) ∨
  (∃ q sender, i = (sender, AcceptOwnership q) ∧ pendingOwner self = Some sender ∧
     self' = {| owner := sender; pendingOwner := None |}) ∨
  self' = self.
Proof.
  unfold handle. destruct i as [sender [q new|q|]]; intros H;
    apply M_bind_done in H as (b & ? & ? & ? & H & [= <- <- _] & _); cbn [fst snd] in H.
  - left. apply transfer_done in H as (-> & _ & _ & -> & _). by exists q, new.
  - right. left. apply accept_done in H as (Hp & _ & -> & _). by exists q, sender.
  - right. right. by injection H.
Qed.

(** [a] was proposed by who was the owner then. *)
Definition proposed (ins : list input) (self : Ownable2Step) (a : address) : Prop :=
  ∃ ins1 q ins2, ins = ins1 ++ (owner (run handle ins1 self), TransferOwnership q a) :: ins2.

Lemma proposed_snoc ins self a i : proposed ins self a → proposed (ins ++ [i]) self a.
Proof.
  intros (ins1 & q & ins2 & ->). exists ins1, q, (ins2 ++ [i]). by rewrite <- app_assoc.
Qed.

Lemma pending_proposed ins self a :
  pendingOwner self = None → pendingOwner (run handle ins self) = Some a → proposed ins self a.
Proof.
  intros Hn. revert a. induction ins as [|i ins IH] using rev_ind; intros a; [cbn; congruence|].
  rewrite run_snoc. unfold transaction.
  destruct (handle i (run handle ins self)) as [[[u s'] o]|] eqn:E; cbn.
  2:{ intros. by apply proposed_snoc, IH. }
  apply handle_cases in E as [(q & new & -> & ->)|[(q & sender & -> & _ & ->)| ->]]; cbn.
  - intros [= ->]. by exists ins, q, [].
  - discriminate.
  - intros. by apply proposed_snoc, IH.
Qed.

(** C38: whatever messages a contract receives, its owner is the one it started with or
    an account that accepted the ownership after the owner of that moment had proposed
    it: nobody else can take a contract over, and nobody owns it without asking. *)
Theorem owner_custody ins self :
  pendingOwner self = None →
  let final := owner (run handle ins self) in
  final = owner self ∨
  ∃ ins1 q ins2, ins = ins1 ++ (final, AcceptOwnership q) :: ins2 ∧ proposed ins1 self final.
Proof.
  intros Hn. cbn. induction ins as [|i ins IH] using rev_ind; [by left|].
  rewrite run_snoc. unfold transaction.
  assert (Hkeep : ∀ a, a = owner (run handle ins self) →
    a = owner self ∨ ∃ ins1 q ins2, ins ++ [i] = ins1 ++ (a, AcceptOwnership q) :: ins2 ∧
      proposed ins1 self a).
  { intros a ->. destruct IH as [IH|(ins1 & q & ins2 & E & Hp)]; [by left|right].
    exists ins1, q, (ins2 ++ [i]). split; [|done]. by rewrite E at 1; rewrite <- app_assoc. }
  destruct (handle i (run handle ins self)) as [[[u s'] o]|] eqn:E; cbn; [|by apply Hkeep].
  apply handle_cases in E as [(q & new & _ & ->)|[(q & sender & -> & Hp & ->)| ->]]; cbn;
    [by apply Hkeep| |by apply Hkeep].
  right. exists ins, q, []. split; [done|]. by apply pending_proposed.
Qed.

(** An owner 7 that hands over to 8, with 9 trying to interfere. *)
Definition sample_start : Ownable2Step := {| owner := 7%Z; pendingOwner := None |}.
Definition sample_inputs : list input :=
  [(9%Z, TransferOwnership 0 9%Z); (7%Z, TransferOwnership 1 8%Z); (9%Z, AcceptOwnership 2);
   (8%Z, AcceptOwnership 3)].

Lemma owner_custody_witness :
  owner (run handle sample_inputs sample_start) = 8%Z ∧
  (8%Z = owner sample_start ∨
   ∃ ins1 q ins2, sample_inputs = ins1 ++ (8%Z, AcceptOwnership q) :: ins2 ∧
     proposed ins1 sample_start 8%Z).
Proof.
  split; [reflexivity|]. exact (owner_custody sample_inputs sample_start eq_refl).
Defined.
End ownable.
