(* ===== verification/AccessControl.v ===== *)
(** * AccessControl: src/contracts/contracts/lib/access/access_control.tolk

    Role-based access control with enumerable members, a trait that contracts embed. *)

From S2P Require Import Prelude Tolk.

Module ac.

(** ** Data *)

Definition DEFAULT_ADMIN_ROLE : uint256 := 0x00%Z.
Definition ERROR_ACCESS_CONTROL_UNAUTHORIZED_ACCOUNT : Z := 90.
Definition ERROR_ACCESS_CONTROL_BAD_CONFIRMATION : Z := 91.

(** [hasRole] maps every member to an empty slice: its keys. *)
Record RoleData := { adminRole : uint256; membersLen : Z; hasRoleDict : gset address }.

Record Data := { roles : gmap uint256 RoleData }.

Inductive InMessage :=
| GrantRole (queryId : Z) (role : uint256) (account : address)
| RevokeRole (queryId : Z) (role : uint256) (account : address)
| RenounceRole (queryId : Z) (role : uint256) (callerConfirmation : address)
| Other.

Inductive Event :=
| RoleGranted (queryId : Z) (role : uint256) (account sender : address)
| RoleRevoked (queryId : Z) (role : uint256) (account sender : address)
| RoleAdminChanged (queryId : Z) (role previousAdminRole newAdminRole : uint256).

(** [AccessControl_Hooks<T>]: functions a host contract may put in, which may throw. *)
Record Hooks (T : Type) := {
  hook_msgSender : option (option T → address → InMessage → address);
  hook_shouldGrantRole : option (option T → Z → uint256 → address → exit ());
  hook_shouldRevokeRole : option (option T → Z → uint256 → address → exit ());
}.
Arguments hook_msgSender {T} _.
Arguments hook_shouldGrantRole {T} _.
Arguments hook_shouldRevokeRole {T} _.

(** ** Queries *)

Definition hasRole (self : Data) (role : uint256) (account : address) : bool :=
  match roles self !! role with
  | None => false
  | Some d => bool_decide (account ∈ hasRoleDict d)
  end.

Definition getRoleAdmin (self : Data) (role : uint256) : uint256 :=
  match roles self !! role with
  | None => DEFAULT_ADMIN_ROLE
  | Some d => adminRole d
  end.

(** [None] is the none address. *)
Definition getRoleMember (self : Data) (role : uint256) (index : Z) : option address :=
  match roles self !! role with
  | None => None
  | Some d =>
      if (membersLen d <=? index)%Z then None
      else (dictDeleteFirstAndGet (dictDeleteFirst (Z.to_nat index) (hasRoleDict d))).2
  end.

Definition getRoleMemberCount (self : Data) (role : uint256) : Z :=
  match roles self !! role with
  | None => 0
  | Some d => membersLen d
  end.

Definition getRoleMemberFirst (self : Data) (role : uint256) : option address :=
  match roles self !! role with
  | None => None
  | Some d => if (membersLen d =? 0)%Z then None else dictGetFirst (hasRoleDict d)
  end.

Definition getRoleMemberNext (self : Data) (role : uint256) (pivot : address) : option address :=
  match roles self !! role with
  | None => None
  | Some d => dictGetNext (hasRoleDict d) pivot
  end.

Definition getRoleMembers (self : Data) (role : uint256) : gset address :=
  match roles self !! role with
  | None => ∅
  | Some d => hasRoleDict d
  end.

(** ** Mutations *)

Section methods.
Context {T : Type} (context : option T) (hooks : option (Hooks T)).

Definition msgSender (sender : address) (msgBody : InMessage) : address :=
  match hooks ≫= hook_msgSender with
  | Some f => f context sender msgBody
  | None => sender
  end.

Definition requireRole (role : uint256) (account : address) : M Data Event () :=
  self ← get;
  require (hasRole self role account) ERROR_ACCESS_CONTROL_UNAUTHORIZED_ACCOUNT.

(** [d.toCell()] of a role's data: the counter has to fit its 64 bits. *)
Definition RoleData_toCell (d : RoleData) : exit RoleData :=
  _ ← storeUint (membersLen d) 64; mret d.

(** [self.data.roles.uDictSetRef(LEN_ROLE, role, d.toCell())]. *)
Definition setRoleData (role : uint256) (d : RoleData) : M Data Event () :=
  d ← lift (RoleData_toCell d);
  self ← get;
  put {| roles := <[role := d]> (roles self) |}.

(** The default is also stored. *)
Definition getRoleDataOrSetDefault (role : uint256) : M Data Event RoleData :=
  self ← get;
  match roles self !! role with
  | Some d => mret d
  | None =>
      let d := {| adminRole := DEFAULT_ADMIN_ROLE; membersLen := 0; hasRoleDict := ∅ |} in
      setRoleData role d;;
      mret d
  end.

Definition setRoleAdmin (queryId : Z) (sender : address) (role newAdminRole : uint256)
  : M Data Event () :=
  d ← getRoleDataOrSetDefault role;
  setRoleData role {| adminRole := newAdminRole; membersLen := membersLen d;
    hasRoleDict := hasRoleDict d |};;
  send (Message false 0 sender (RoleAdminChanged queryId role (adminRole d) newAdminRole))
    SEND_MODE_IGNORE_ERRORS.

Definition grantRoleTo (queryId : Z) (sender : address) (role : uint256) (account : address)
  : M Data Event bool :=
  match hooks ≫= hook_shouldGrantRole with
  | Some f => lift (f context queryId role account)
  | None => mret tt
  end;;
  d ← getRoleDataOrSetDefault role;
  if bool_decide (account ∈ hasRoleDict d) then mret false
  else
    setRoleData role {| adminRole := adminRole d; membersLen := membersLen d + 1;
      hasRoleDict := {[account]} ∪ hasRoleDict d |};;
    send (Message false 0 account (RoleGranted queryId role account sender))
      SEND_MODE_IGNORE_ERRORS;;
    mret true.

Definition revokeRoleFrom (queryId : Z) (sender : address) (role : uint256) (account : address)
  : M Data Event bool :=
  match hooks ≫= hook_shouldRevokeRole with
  | Some f => lift (f context queryId role account)
  | None => mret tt
  end;;
  d ← getRoleDataOrSetDefault role;
  if negb (bool_decide (account ∈ hasRoleDict d)) then mret false
  else
    setRoleData role {| adminRole := adminRole d; membersLen := membersLen d - 1;
      hasRoleDict := hasRoleDict d ∖ {[account]} |};;
    send (Message false 0 account (RoleRevoked queryId role account sender))
      SEND_MODE_IGNORE_ERRORS;;
    mret true.

Definition grantRole (queryId : Z) (sender : address) (role : uint256) (account : address)
  : M Data Event bool :=
  self ← get;
  requireRole (getRoleAdmin self role) sender;;
  grantRoleTo queryId sender role account.

Definition revokeRole (queryId : Z) (sender : address) (role : uint256) (account : address)
  : M Data Event bool :=
  self ← get;
  requireRole (getRoleAdmin self role) sender;;
  revokeRoleFrom queryId sender role account.

Definition renounceRole (queryId : Z) (sender : address) (role : uint256)
  (callerConfirmation : address) : M Data Event bool :=
  require (callerConfirmation =? sender)%Z ERROR_ACCESS_CONTROL_BAD_CONFIRMATION;;
  revokeRole queryId sender role callerConfirmation.

(** Whether the message was one of the trait (-1 or 0 in the source). *)
Definition onInternalMessage (sender : address) (msgBody : InMessage) : M Data Event bool :=
  let sender := msgSender sender msgBody in
  match msgBody with
  | GrantRole queryId role account => grantRole queryId sender role account;; mret true
  | RevokeRole queryId role account => revokeRole queryId sender role account;; mret true
  | RenounceRole queryId role confirmation => renounceRole queryId sender role confirmation;; mret true
  | Other => mret false
  end.
End methods.

(** The trait alone as a contract without hooks: an input is a sender with a message. *)
Definition input : Type := address * InMessage.
Definition handle (i : input) : M Data Event () :=
  onInternalMessage (T := ()) None None i.1 i.2;; mret tt.

(** ** What the methods do *)

(** The data of a role that has none stored. *)
Definition role_data (self : Data) (role : uint256) : RoleData :=
  default {| adminRole := DEFAULT_ADMIN_ROLE; membersLen := 0; hasRoleDict := ∅ |} (roles self !! role).

Definition set_role (self : Data) (role : uint256) (d : RoleData) : Data :=
  {| roles := <[role := d]> (roles self) |}.

Lemma hasRole_data self role a : hasRole self role a = bool_decide (a ∈ hasRoleDict (role_data self role)).
Proof.
  unfold hasRole, role_data. destruct (roles self !! role); [done|]. symmetry. apply bool_decide_eq_false. set_solver.
Qed.

Lemma getRoleAdmin_data self role : getRoleAdmin self role = adminRole (role_data self role).
Proof. unfold getRoleAdmin, role_data. by destruct (roles self !! role). Qed.

Lemma role_data_set self role d role' :
  role_data (set_role self role d) role' = if decide (role = role') then d else role_data self role'.
Proof.
  unfold role_data, set_role. cbn. destruct (decide (role = role')) as [->|Hne];
    [by rewrite lookup_insert_eq|by rewrite lookup_insert_ne].
Qed.

(** [membersLen] counts the members, in 64 bits. *)
Definition wf (self : Data) : Prop :=
  ∀ role d, roles self !! role = Some d →
    membersLen d = Z.of_nat (size (hasRoleDict d)) ∧ (membersLen d < 2 ^ 64)%Z.

Lemma wf_data self role :
  wf self → membersLen (role_data self role) = Z.of_nat (size (hasRoleDict (role_data self role))).
Proof. intros Hwf. unfold role_data. destruct (roles self !! role) eqn:E; [by eapply Hwf|done]. Qed.

Lemma wf_bound self role : wf self → (membersLen (role_data self role) < 2 ^ 64)%Z.
Proof. intros Hwf. unfold role_data. destruct (roles self !! role) eqn:E; [by eapply Hwf|done]. Qed.

Lemma wf_set self role d :
  wf self → membersLen d = Z.of_nat (size (hasRoleDict d)) → (membersLen d < 2 ^ 64)%Z →
  wf (set_role self role d).
Proof.
  intros Hwf Hd Hb r d'. cbn. rewrite lookup_insert. case_decide; [by intros [= <-]|apply Hwf].
Qed.

Lemma getRoleData_done self role :
  getRoleDataOrSetDefault role self =
  Done (role_data self role, set_role self role (role_data self role), []).
Proof.
  unfold getRoleDataOrSetDefault. rewrite get_bind. unfold role_data, set_role.
  destruct (roles self !! role) as [d|] eqn:E; cbn.
  - rewrite insert_id by done. by destruct self.
  - reflexivity.
Qed.

Lemma setRoleData_value self role d :
  (0 ≤ membersLen d)%Z →
  setRoleData role d self =
  if (membersLen d <? 2 ^ 64)%Z then Done (tt, set_role self role d, []) else Throw 5.
Proof.
  intros H. unfold setRoleData, RoleData_toCell, storeUint, mbind at 1, M_bind.
  replace (0 <=? membersLen d)%Z with true by lia. cbn. by destruct (_ <? _)%Z.
Qed.

Lemma set_role_twice self role d d' : set_role (set_role self role d) role d' = set_role self role d'.
Proof. unfold set_role. cbn. by rewrite insert_insert_eq. Qed.

(** A role's data with a member more, or one less. *)
Definition add_member (d : RoleData) (a : address) : RoleData :=
  if bool_decide (a ∈ hasRoleDict d) then d
  else {| adminRole := adminRole d; membersLen := membersLen d + 1; hasRoleDict := {[a]} ∪ hasRoleDict d |}.
Definition del_member (d : RoleData) (a : address) : RoleData :=
  if bool_decide (a ∈ hasRoleDict d)
  then {| adminRole := adminRole d; membersLen := membersLen d - 1; hasRoleDict := hasRoleDict d ∖ {[a]} |}
  else d.

Section facts.
Context {T : Type} (context : option T).

Lemma grantRoleTo_value q sender role a self :
  wf self →
  grantRoleTo context None q sender role a self =
  if hasRole self role a then Done (false, set_role self role (add_member (role_data self role) a), [])
  else if (membersLen (role_data self role) + 1 <? 2 ^ 64)%Z
  then Done (true, set_role self role (add_member (role_data self role) a),
    [Send (Message false 0 a (RoleGranted q role a sender)) SEND_MODE_IGNORE_ERRORS])
  else Throw 5.
Proof.
  intros Hwf. unfold grantRoleTo, add_member. rewrite hasRole_data. cbn [mbind option_bind].
  rewrite (M_bind_next _ _ _ tt self) by done. rewrite (M_bind_next _ _ _ _ _ (getRoleData_done self role)).
  case_bool_decide as Ha; [done|]. pose proof (wf_data self role Hwf) as Hl.
  unfold mbind at 1, M_bind at 1. rewrite setRoleData_value by (cbn; lia). cbn [membersLen].
  destruct (_ <? _)%Z; [|done]. by rewrite set_role_twice.
Qed.

Lemma revokeRoleFrom_value q sender role a self :
  wf self → (membersLen (role_data self role) < 2 ^ 64)%Z →
  revokeRoleFrom context None q sender role a self =
  Done (hasRole self role a, set_role self role (del_member (role_data self role) a),
    if hasRole self role a
    then [Send (Message false 0 a (RoleRevoked q role a sender)) SEND_MODE_IGNORE_ERRORS] else []).
Proof.
  intros Hwf Hr. unfold revokeRoleFrom, del_member. rewrite hasRole_data. cbn [mbind option_bind].
  rewrite (M_bind_next _ _ _ tt self) by done. rewrite (M_bind_next _ _ _ _ _ (getRoleData_done self role)).
  case_bool_decide as Ha; [cbn [negb]|done]. pose proof (wf_data self role Hwf) as Hl.
  assert (size (hasRoleDict (role_data self role)) ≠ 0) by (rewrite size_non_empty_iff; set_solver).
  unfold mbind at 1, M_bind at 1. rewrite setRoleData_value by (cbn; lia). cbn [membersLen].
  replace (_ <? _)%Z with true by lia. by rewrite set_role_twice.
Qed.

Lemma requireRole_value role a self :
  requireRole role a self =
  if hasRole self role a then Done (tt, self, []) else Throw ERROR_ACCESS_CONTROL_UNAUTHORIZED_ACCOUNT.
Proof. unfold requireRole. rewrite get_bind. by destruct (hasRole self role a). Qed.
End facts.

Lemma add_member_wf d a :
  membersLen d = Z.of_nat (size (hasRoleDict d)) →
  membersLen (add_member d a) = Z.of_nat (size (hasRoleDict (add_member d a))).
Proof.
  intros Hd. unfold add_member. case_bool_decide; [done|]. cbn.
  rewrite size_union, size_singleton by set_solver. lia.
Qed.

Lemma del_member_wf d a :
  membersLen d = Z.of_nat (size (hasRoleDict d)) →
  membersLen (del_member d a) = Z.of_nat (size (hasRoleDict (del_member d a))).
Proof.
  intros Hd. unfold del_member. case_bool_decide as Ha; [|done]. cbn.
  rewrite size_difference, size_singleton by set_solver.
  assert (size (hasRoleDict d) ≠ 0) by (rewrite size_non_empty_iff; set_solver). lia.
Qed.

Lemma add_member_elem d a x : x ∈ hasRoleDict (add_member d a) ↔ x = a ∨ x ∈ hasRoleDict d.
Proof. unfold add_member. case_bool_decide; cbn; set_solver. Qed.

Lemma del_member_elem d a x : x ∈ hasRoleDict (del_member d a) ↔ x ≠ a ∧ x ∈ hasRoleDict d.
Proof. unfold del_member. case_bool_decide; cbn; set_solver. Qed.

Lemma add_member_admin d a : adminRole (add_member d a) = adminRole d.
Proof. unfold add_member. by case_bool_decide. Qed.

Lemma del_member_admin d a : adminRole (del_member d a) = adminRole d.
Proof. unfold del_member. by case_bool_decide. Qed.

(** ** The trait against its promise *)

(** Why a message is refused. *)
Definition denied (self : Data) (i : input) : option Z :=
  let may role := hasRole self (getRoleAdmin self role) i.1 in
  match i.2 with
  | GrantRole _ role x =>
      if may role
      then if hasRole self role x || (membersLen (role_data self role) + 1 <? 2 ^ 64)%Z
           then None else Some 5%Z
      else Some 90%Z
  | RevokeRole _ role _ => if may role then None else Some 90%Z
  | RenounceRole _ role confirmation =>
      if (confirmation =? i.1)%Z then (if may role then None else Some 90%Z) else Some 91%Z
  | Other => None
  end.

(** Who has which role afterwards, and the events, when it is not. *)
Definition member_after (self : Data) (i : input) (role : uint256) (a : address) : bool :=
  match i.2 with
  | GrantRole _ r x => bool_decide (r = role ∧ x = a) || hasRole self role a
  | RevokeRole _ r x | RenounceRole _ r x => negb (bool_decide (r = role ∧ x = a)) && hasRole self role a
  | Other => hasRole self role a
  end.

Definition events (self : Data) (i : input) : list (action Event) :=
  match i.2 with
  | GrantRole q role x =>
      if hasRole self role x then []
      else [Send (Message false 0 x (RoleGranted q role x i.1)) SEND_MODE_IGNORE_ERRORS]
  | RevokeRole q role x | RenounceRole q role x =>
      if hasRole self role x
      then [Send (Message false 0 x (RoleRevoked q role x i.1)) SEND_MODE_IGNORE_ERRORS] else []
  | Other => []
  end.

(** The state after, as the methods compute it. *)
Definition state_after (self : Data) (i : input) : Data :=
  match i.2 with
  | GrantRole _ role x => set_role self role (add_member (role_data self role) x)
  | RevokeRole _ role x | RenounceRole _ role x => set_role self role (del_member (role_data self role) x)
  | Other => self
  end.

Lemma handle_value self i :
  wf self →
  handle i self =
  match denied self i with
  | Some code => Throw code
  | None => Done (tt, state_after self i, events self i)
  end.
Proof.
  intros Hwf. destruct i as [sender [q role a|q role a|q role a|]]; unfold handle; cbn [fst snd];
    unfold onInternalMessage, msgSender, denied, state_after, events; cbn [mbind option_bind fst snd].
  4: done.
  3: unfold renounceRole; destruct (a =? sender)%Z eqn:Es; [|done];
     apply Z.eqb_eq in Es as ->.
  all: unfold grantRole, revokeRole;
    unfold mbind, M_bind, get, require, lift, assert; rewrite requireRole_value;
    destruct (hasRole self (getRoleAdmin self role) sender); [|done].
  1: rewrite grantRoleTo_value by done. 2,3: rewrite revokeRoleFrom_value by (done || by apply wf_bound).
  all: destruct (hasRole self role _); cbn [orb]; try done.
  by destruct (_ <? _)%Z.
Qed.

Lemma state_after_wf self i : wf self → denied self i = None → wf (state_after self i).
Proof.
  intros Hwf. unfold state_after, denied.
  destruct i.2 as [q role x|q role x|q role x|]; [..|done]; intros Hd; apply wf_set; try done;
    pose proof (wf_data self role Hwf); pose proof (wf_bound self role Hwf).
  1,3,5: first [by apply add_member_wf|by apply del_member_wf].
  - destruct (hasRole self (getRoleAdmin self role) _); [|done]. rewrite hasRole_data in Hd.
    unfold add_member. case_bool_decide; [done|]. cbn in Hd |- *. destruct (_ <? _)%Z eqn:E; [lia|done].
  - unfold del_member. case_bool_decide; cbn; lia.
  - unfold del_member. case_bool_decide; cbn; lia.
Qed.

Lemma state_after_member self i role a :
  hasRole (state_after self i) role a = member_after self i role a.
Proof.
  unfold state_after, member_after. destruct i.2 as [q r x|q r x|q r x|]; [..|done];
    rewrite !hasRole_data, role_data_set; case_decide as E; subst.
  all: repeat case_bool_decide; cbn; try done; exfalso.
  all: rewrite ?add_member_elem, ?del_member_elem in *; naive_solver.
Qed.

Lemma state_after_admin self i role : getRoleAdmin (state_after self i) role = getRoleAdmin self role.
Proof.
  unfold state_after. destruct i.2; [..|done]; rewrite !getRoleAdmin_data, role_data_set; case_decide;
    subst; rewrite ?add_member_admin, ?del_member_admin; done.
Qed.

(** C28: what a message does to the roles, on every branch.  A message is refused, with the
    code of the first check that fails, exactly when the sender does not hold the admin role
    of the role it names, renounces in another's name, or the counter is full; otherwise exactly one membership
    changes, every other membership and every admin role stays, the counters keep counting the
    members, and an event is sent if and only if the membership changed.  The same check
    guards [RenounceRole]: a member that does not hold the admin role cannot give up its
    role. *)
Theorem access_spec self i :
  wf self →
  match denied self i with
  | Some code => handle i self = Throw code
  | None => ∃ self', handle i self = Done (tt, self', events self i) ∧ wf self' ∧
      (∀ role a, hasRole self' role a = member_after self i role a) ∧
      (∀ role, getRoleAdmin self' role = getRoleAdmin self role)
  end.
Proof.
  intros Hwf. rewrite handle_value by done. destruct (denied self i) eqn:E; [done|].
  exists (state_after self i). split; [done|]. split; [by apply state_after_wf|].
  split; intros; [apply state_after_member|apply state_after_admin].
Qed.

Definition sample_data : Data := {| roles :=
  <[0%Z := {| adminRole := 0%Z; membersLen := 1; hasRoleDict := {[10%Z]} |}]>
  (<[5%Z := {| adminRole := 0%Z; membersLen := 1; hasRoleDict := {[20%Z]} |}]> ∅) |}.

Lemma sample_data_wf : wf sample_data.
Proof.
  intros role d. unfold sample_data. cbn. rewrite !lookup_insert.
  repeat case_decide; intros [= <-]; cbn; rewrite ?size_singleton; done.
Qed.

Lemma access_spec_witness :
  denied sample_data (10%Z, GrantRole 1 5 30%Z) = None ∧
  denied sample_data (20%Z, RenounceRole 1 5 20%Z) = Some 90%Z ∧
  handle (20%Z, RenounceRole 1 5 20%Z) sample_data = Throw 90 ∧
  ∃ self', handle (10%Z, GrantRole 1 5 30%Z) sample_data =
      Done (tt, self', events sample_data (10%Z, GrantRole 1 5 30%Z)) ∧ wf self' ∧
    (∀ role a, hasRole self' role a = member_after sample_data (10%Z, GrantRole 1 5 30%Z) role a) ∧
    (∀ role, getRoleAdmin self' role = getRoleAdmin sample_data role).
Proof.
  split; [vm_compute; reflexivity|]. split; [vm_compute; reflexivity|]. split.
  - exact (access_spec sample_data (20%Z, RenounceRole 1 5 20%Z) sample_data_wf).
  - exact (access_spec sample_data (10%Z, GrantRole 1 5 30%Z) sample_data_wf).
Defined.

(** ** Runs *)

Lemma handle_inv i self u self' o :
  wf self → handle i self = Done (u, self', o) →
  denied self i = None ∧ self' = state_after self i ∧ o = events self i.
Proof.
  intros Hwf. rewrite handle_value by done. destruct (denied self i); [discriminate|].
  by intros [= _ <- <-].
Qed.

Lemma run_wf ins self : wf self → wf (run handle ins self).
Proof.
  intros Hwf. apply run_invariant; [|done]. intros i s u s' o Hs H.
  apply handle_inv in H as (Hd & -> & _); [|done]. by apply state_after_wf.
Qed.

(** What the enumeration getters say about a role's data. *)
Lemma getRoleMember_nth self role i :
  wf self → getRoleMember self role (Z.of_nat i) = dict_keys (getRoleMembers self role) !! i.
Proof.
  intros Hwf. unfold getRoleMember, getRoleMembers. destruct (roles self !! role) as [d|] eqn:E; [|done].
  destruct (Hwf role d E) as [Hl _]. rewrite Hl. destruct (_ <=? _)%Z eqn:Ei.
  - symmetry. apply lookup_ge_None. rewrite dict_keys_length. lia.
  - by rewrite Nat2Z.id, delete_first_get, dict_nth.
Qed.

Lemma getRoleMemberCount_size self role :
  wf self → getRoleMemberCount self role = Z.of_nat (size (getRoleMembers self role)).
Proof.
  intros Hwf. unfold getRoleMemberCount, getRoleMembers.
  destruct (roles self !! role) as [d|] eqn:E; [by eapply Hwf|done].
Qed.

Lemma getRoleMembers_hasRole self role a : a ∈ getRoleMembers self role ↔ hasRole self role a = true.
Proof.
  unfold getRoleMembers, hasRole. destruct (roles self !! role); [by rewrite bool_decide_eq_true|set_solver].
Qed.

(** After any messages, [getRoleMemberCount] is the number of members of a role and the
    indices below it enumerate them: every member at exactly one index, in the order of the
    addresses, nothing beyond; [getRoleMemberFirst] and [getRoleMemberNext] walk through the
    same sequence to its end. *)
Theorem members_enumerated ins self role :
  wf self →
  let s := run handle ins self in
  let members := dict_keys (getRoleMembers s role) in
  getRoleMemberCount s role = Z.of_nat (length members) ∧
  (∀ i, getRoleMember s role (Z.of_nat i) = members !! i) ∧
  NoDup members ∧ (∀ a, a ∈ members ↔ hasRole s role a = true) ∧
  getRoleMemberFirst s role = members !! 0 ∧
  (∀ i a, members !! i = Some a → getRoleMemberNext s role a = members !! S i).
Proof.
  intros Hwf. cbn. pose proof (run_wf ins self Hwf) as Hs. set (s := run handle ins self) in *.
  rewrite dict_keys_length. split; [by apply getRoleMemberCount_size|].
  split; [intros; by apply getRoleMember_nth|]. split; [apply dict_keys_NoDup|].
  split; [intros; by rewrite elem_of_dict_keys, getRoleMembers_hasRole|]. split.
  - unfold getRoleMemberFirst, getRoleMembers. destruct (roles s !! role) as [d|] eqn:E; [|done].
    destruct (Hs role d E) as [Hl _]. rewrite Hl. unfold dictGetFirst.
    rewrite <- dict_keys_length. by destruct (dict_keys (hasRoleDict d)).
  - intros i a Ha. unfold getRoleMemberNext. unfold getRoleMembers in *.
    destruct (roles s !! role) as [d|]; [by apply dict_next|done].
Qed.

Definition sample_run : list input :=
  [(10%Z, GrantRole 1 5 30%Z); (20%Z, GrantRole 2 5 40%Z); (10%Z, GrantRole 3 5 7%Z);
   (10%Z, RevokeRole 4 5 20%Z)].

Lemma members_enumerated_witness :
  wf sample_data ∧
  dict_keys (getRoleMembers (run handle sample_run sample_data) 5) = [7%Z; 30%Z] ∧
  getRoleMemberCount (run handle sample_run sample_data) 5 =
    Z.of_nat (length (dict_keys (getRoleMembers (run handle sample_run sample_data) 5))).
Proof.
  split; [exact sample_data_wf|]. split; [vm_compute; reflexivity|].
  exact (proj1 (members_enumerated sample_run sample_data 5%Z sample_data_wf)).
Defined.

(** C29: nobody has a role that was not given to them: an account that holds a role after
    some messages held it before them, or one of them granted it, sent by an account that
    held the role's admin role at that moment; and no message changes which role
    administers which. *)
Theorem role_provenance ins self role a :
  wf self →
  (∀ r, getRoleAdmin (run handle ins self) r = getRoleAdmin self r) ∧
  (hasRole (run handle ins self) role a = true →
   hasRole self role a = true ∨
   ∃ ins1 granter q ins2, ins = ins1 ++ (granter, GrantRole q role a) :: ins2 ∧
     hasRole (run handle ins1 self) (getRoleAdmin self role) granter = true).
Proof.
  intros Hwf. induction ins as [|i ins [IHa IH]] using rev_ind; [by split; [|left]|].
  rewrite run_snoc. unfold transaction.
  assert (Hkeep : hasRole (run handle ins self) role a = true →
    hasRole self role a = true ∨ ∃ ins1 granter q ins2,
      ins ++ [i] = ins1 ++ (granter, GrantRole q role a) :: ins2 ∧
      hasRole (run handle ins1 self) (getRoleAdmin self role) granter = true).
  { intros [H|(ins1 & g & q & ins2 & -> & H)]%IH; [by left|right].
    exists ins1, g, q, (ins2 ++ [i]). by rewrite <- app_assoc. }
  destruct (handle i (run handle ins self)) as [[[u s'] o]|] eqn:E; cbn; [|by split].
  apply handle_inv in E as (Hd & -> & _); [|by apply run_wf].
  split; [intros r; by rewrite state_after_admin|].
  rewrite state_after_member. unfold member_after.
  destruct i as [sender [q r x|q r x|q r x|]]; cbn [fst snd]; intros H; [|apply Hkeep; by destruct (bool_decide _)..|by apply Hkeep].
  case_bool_decide as Hx; [|by apply Hkeep]. destruct Hx as [-> ->]. right.
  exists ins, sender, q, []. split; [done|]. unfold denied in Hd. cbn in Hd. rewrite IHa in Hd.
  by destruct (hasRole _ _ sender).
Qed.

Lemma role_provenance_witness :
  hasRole (run handle sample_run sample_data) 5 7 = true ∧
  (hasRole sample_data 5 7 = true ∨
   ∃ ins1 granter q ins2, sample_run = ins1 ++ (granter, GrantRole q 5 7) :: ins2 ∧
     hasRole (run handle ins1 sample_data) (getRoleAdmin sample_data 5) granter = true).
Proof.
  split; [vm_compute; reflexivity|].
  apply (proj2 (role_provenance sample_run sample_data 5%Z 7%Z sample_data_wf)). vm_compute. reflexivity.
Defined.
End ac.
