(* ===== verification/TimelockContract.v ===== *)
(** * TimelockContract: src/contracts/contracts/mcms/rbac_timelock.tolk

    The timelock: operations are scheduled, cancelled and executed by accounts with the
    roles of [AccessControl], which it embeds.  [vec] cells are the lists their iterators
    yield, [hash] is the representation hash of the cell of an operation. *)

From S2P Require Import Prelude Event Tolk AccessControl.

Module tl.

(** ** Data *)

Record Call := { target : address; call_value : Z; data : cell }.

Record OperationBatch := { calls : list Call; predecessor : uint256; salt : uint256 }.

Record Timelock_Data := {
  id : Z;
  minDelay : Z;
  timestamps : gmap uint256 Z;
  blockedFnSelectorsLen : Z;
  blockedFnSelectors : gset Z;
  rbac : ac.Data;
}.

Inductive InMessage :=
| Init (queryId minDelay : Z) (admin : address)
    (proposers executors cancellers bypassers : list address)
| TopUp (queryId : Z)
| ScheduleBatch (queryId : Z) (calls : list Call) (predecessor salt : uint256) (delay : Z)
| Cancel (queryId : Z) (id : uint256)
| ExecuteBatch (queryId : Z) (calls : list Call) (predecessor salt : uint256)
| UpdateDelay (queryId newDelay : Z)
| BlockFunctionSelector (queryId selector : Z)
| UnblockFunctionSelector (queryId selector : Z)
| BypasserExecuteBatch (queryId : Z) (calls : list Call)
| Rbac (msg : ac.InMessage).

(** The bodies the contract sends: its events, those of [AccessControl], and the data of calls. *)
Inductive Body :=
| CallScheduled (queryId : Z) (id : uint256) (index : Z) (call : Call) (predecessor salt : uint256)
    (delay : Z)
| CallExecuted (queryId : Z) (id : uint256) (index : Z) (target : address) (value : Z) (data : cell)
| BypasserCallExecuted (queryId : Z) (index : Z) (target : address) (value : Z) (data : cell)
| Canceled (queryId : Z) (id : uint256)
| MinDelayChange (queryId oldDuration newDuration : Z)
| FunctionSelectorBlocked (queryId selector : Z)
| FunctionSelectorUnblocked (queryId selector : Z)
| RbacEvent (e : ac.Event)
| CallData (data : cell).

(** ** Constants *)

Definition TOPIC_BYPASSER_CALL_EXECUTED : Z := CRC32 "Timelock_BypasserCallExecuted".
Definition TOPIC_CALL_SCHEDULED : Z := CRC32 "Timelock_CallScheduled".
Definition TOPIC_CALL_EXECUTED : Z := CRC32 "Timelock_CallExecuted".

(** [stringSha256_32] of the names. *)
Definition ADMIN_ROLE : uint256 := 0x7debc35e%Z.
Definition PROPOSER_ROLE : uint256 := 0xad5da77b%Z.
Definition CANCELLER_ROLE : uint256 := 0x39ffe979%Z.
Definition EXECUTOR_ROLE : uint256 := 0x9af6067b%Z.
Definition BYPASSER_ROLE : uint256 := 0x20798d61%Z.

Definition DONE_TIMESTAMP : Z := 1.

Definition ERROR_SELECTOR_IS_BLOCKED : Z := 101.
Definition ERROR_OPERATION_NOT_READY : Z := 102.
Definition ERROR_OPERATION_MISSING_DEPENDENCY : Z := 103.
Definition ERROR_OPERATION_CAN_NOT_BE_CANCELLED : Z := 104.
Definition ERROR_OPERATION_ALREADY_SCHEDULED : Z := 105.
Definition ERROR_INSUFFICIENT_DELAY : Z := 106.

Definition MIN_TON_FOR_STORAGE : Z := 1000000000.

(** Changes of one field of the storage. *)
Definition set_minDelay (v : Z) (s : Timelock_Data) : Timelock_Data :=
  {| id := id s; minDelay := v; timestamps := timestamps s;
     blockedFnSelectorsLen := blockedFnSelectorsLen s; blockedFnSelectors := blockedFnSelectors s;
     rbac := rbac s |}.
Definition set_timestamps (v : gmap uint256 Z) (s : Timelock_Data) : Timelock_Data :=
  {| id := id s; minDelay := minDelay s; timestamps := v;
     blockedFnSelectorsLen := blockedFnSelectorsLen s; blockedFnSelectors := blockedFnSelectors s;
     rbac := rbac s |}.
Definition set_blocked (n : Z) (v : gset Z) (s : Timelock_Data) : Timelock_Data :=
  {| id := id s; minDelay := minDelay s; timestamps := timestamps s;
     blockedFnSelectorsLen := n; blockedFnSelectors := v; rbac := rbac s |}.
Definition set_rbac (v : ac.Data) (s : Timelock_Data) : Timelock_Data :=
  {| id := id s; minDelay := minDelay s; timestamps := timestamps s;
     blockedFnSelectorsLen := blockedFnSelectorsLen s; blockedFnSelectors := blockedFnSelectors s;
     rbac := v |}.

(** ** Queries *)

Definition getTimestamp (self : Timelock_Data) (id : uint256) : Z := default 0%Z (timestamps self !! id).
Definition isOperation (self : Timelock_Data) (id : uint256) : bool := (0 <? getTimestamp self id)%Z.
Definition isOperationPending (self : Timelock_Data) (id : uint256) : bool :=
  (DONE_TIMESTAMP <? getTimestamp self id)%Z.
Definition isOperationReady (now : Z) (self : Timelock_Data) (id : uint256) : bool :=
  let t := getTimestamp self id in ((DONE_TIMESTAMP <? t) && (t <=? now))%Z.
Definition isOperationDone (self : Timelock_Data) (id : uint256) : bool :=
  (getTimestamp self id =? DONE_TIMESTAMP)%Z.
Definition getMinDelay (self : Timelock_Data) : Z := minDelay self.

Definition getBlockedFunctionSelectorCount (self : Timelock_Data) : Z := blockedFnSelectorsLen self.

(** 0 when there is none; [None] is TVM's null. *)
Definition getBlockedFunctionSelectorAt (self : Timelock_Data) (index : Z) : option Z :=
  if (blockedFnSelectorsLen self <=? index)%Z then Some 0%Z
  else (dictDeleteFirstAndGet (dictDeleteFirst (Z.to_nat index) (blockedFnSelectors self))).2.
Definition getBlockedFunctionSelectorFirst (self : Timelock_Data) : option Z :=
  if (blockedFnSelectorsLen self =? 0)%Z then Some 0%Z else dictGetFirst (blockedFnSelectors self).
Definition getBlockedFunctionSelectorNext (self : Timelock_Data) (pivot : Z) : Z :=
  default 0%Z (dictGetNext (blockedFnSelectors self) pivot).

(** ** Methods *)

Section methods.
Context (hash : OperationBatch → uint256).
(** [blockchain.now()]. *)
Context (now : Z).

Abbreviation method := (M Timelock_Data Body).

(** Without the hook. *)
Definition hashOperationBatch (op : OperationBatch) : uint256 := hash op.

(** [hookTrait__AccessControl]: a copy of the trait's data. *)
Definition hookTrait (self : Timelock_Data) : ac.Data := rbac self.

(** A method of the trait on such a copy. *)
Definition on_rbac {A} (m : M ac.Data ac.Event A) (r : ac.Data) : method (A * ac.Data) :=
  within RbacEvent m r.

Definition onlyRoleOrAdminRole (role : uint256) (sender : address) : method () :=
  self ← get;
  if negb (ac.hasRole (hookTrait self) ADMIN_ROLE sender)
  then on_rbac (ac.requireRole role sender) (hookTrait self);; mret tt
  else mret tt.

(** [rbac.requireRole(ADMIN_ROLE, sender)]. *)
Definition onlyAdmin (sender : address) : method () :=
  self ← get;
  on_rbac (ac.requireRole ADMIN_ROLE sender) (hookTrait self);; mret tt.

(** What [init] does with the trait. *)
Definition init_roles (sender : address) (queryId : Z) (admin : address)
  (proposers executors cancellers bypassers : list address) : M ac.Data ac.Event () :=
  ac.setRoleAdmin queryId sender ADMIN_ROLE ADMIN_ROLE;;
  ac.setRoleAdmin queryId sender PROPOSER_ROLE ADMIN_ROLE;;
  ac.setRoleAdmin queryId sender EXECUTOR_ROLE ADMIN_ROLE;;
  ac.setRoleAdmin queryId sender CANCELLER_ROLE ADMIN_ROLE;;
  ac.setRoleAdmin queryId sender BYPASSER_ROLE ADMIN_ROLE;;
  let grant role acc := ac.grantRoleTo (T := ()) None None queryId sender role acc;; mret tt in
  grant ADMIN_ROLE admin;;
  for_each (grant PROPOSER_ROLE) proposers;;
  for_each (grant EXECUTOR_ROLE) executors;;
  for_each (grant CANCELLER_ROLE) cancellers;;
  for_each (grant BYPASSER_ROLE) bypassers.

(** The changed copy of the trait's data is dropped: only [minDelay] is assigned. *)
Definition init (sender : address) (queryId newMinDelay : Z) (admin : address)
  (proposers executors cancellers bypassers : list address) : method () :=
  self ← get;
  _ ← on_rbac (init_roles sender queryId admin proposers executors cancellers bypassers) (hookTrait self);
  put (set_minDelay newMinDelay self);;
  send (Message false 0 sender (MinDelayChange queryId 0 newMinDelay)) SEND_MODE_REGULAR.

(** The first 32 bits of the body, when it has them. *)
Definition checkFunctionSelectorNotBlocked (body : cell) : method () :=
  self ← get;
  if length (cell_bits body) <? 32 then mret tt
  else
    let selector := bits_Z (take 32 (cell_bits body)) in
    require (negb (bool_decide (selector ∈ blockedFnSelectors self))) ERROR_SELECTOR_IS_BLOCKED.

Definition schedule (id : uint256) (delay : Z) : method () :=
  self ← get;
  require (negb (isOperation self id)) ERROR_OPERATION_ALREADY_SCHEDULED;;
  require (getMinDelay self <=? delay)%Z ERROR_INSUFFICIENT_DELAY;;
  t ← lift (storeUint (now + delay) 64);
  put (set_timestamps (<[id := t]> (timestamps self)) self).

Definition scheduleBatch (sender : address) (queryId : Z) (calls : list Call)
  (predecessor salt : uint256) (delay : Z) : method () :=
  onlyRoleOrAdminRole PROPOSER_ROLE sender;;
  let id := hashOperationBatch {| calls := calls; predecessor := predecessor; salt := salt |} in
  schedule id delay;;
  for_each_i (λ index call,
    checkFunctionSelectorNotBlocked (data call);;
    emit TOPIC_CALL_SCHEDULED (CallScheduled queryId id index call predecessor salt delay)) 0 calls.

Definition cancel (sender : address) (queryId : Z) (id : uint256) : method () :=
  onlyRoleOrAdminRole CANCELLER_ROLE sender;;
  self ← get;
  require (isOperationPending self id) ERROR_OPERATION_CAN_NOT_BE_CANCELLED;;
  put (set_timestamps (delete id (timestamps self)) self);;
  send (Message false 0 sender (Canceled queryId id)) SEND_MODE_CARRY_ALL_REMAINING_MESSAGE_VALUE.

Definition execute (call : Call) : method () :=
  send (Message true (call_value call) (target call) (CallData (data call))) SEND_MODE_PAY_FEES_SEPARATELY.

Definition beforeCall (id predecessor : uint256) : method () :=
  self ← get;
  require (isOperationReady now self id) ERROR_OPERATION_NOT_READY;;
  require ((predecessor =? 0)%Z || isOperationDone self predecessor) ERROR_OPERATION_MISSING_DEPENDENCY;;
  act (Reserve MIN_TON_FOR_STORAGE RESERVE_MODE_EXACT_AMOUNT).

Definition afterCall (id : uint256) : method () :=
  self ← get;
  require (isOperationReady now self id) ERROR_OPERATION_NOT_READY;;
  put (set_timestamps (<[id := DONE_TIMESTAMP]> (timestamps self)) self).

Definition executeBatch (sender : address) (queryId : Z) (calls : list Call)
  (predecessor salt : uint256) : method () :=
  onlyRoleOrAdminRole EXECUTOR_ROLE sender;;
  let id := hashOperationBatch {| calls := calls; predecessor := predecessor; salt := salt |} in
  beforeCall id predecessor;;
  for_each_i (λ index call,
    execute call;;
    emit TOPIC_CALL_EXECUTED
      (CallExecuted queryId id index (target call) (call_value call) (data call))) 0 calls;;
  afterCall id.

Definition updateDelay (sender : address) (queryId newDelay : Z) : method () :=
  onlyAdmin sender;;
  self ← get;
  send (Message false 0 sender (MinDelayChange queryId (minDelay self) newDelay))
    SEND_MODE_CARRY_ALL_REMAINING_MESSAGE_VALUE;;
  put (set_minDelay newDelay self).

Definition blockFunctionSelector (sender : address) (queryId selector : Z) : method bool :=
  onlyAdmin sender;;
  self ← get;
  if bool_decide (selector ∈ blockedFnSelectors self) then mret false
  else
    put (set_blocked (blockedFnSelectorsLen self + 1) ({[selector]} ∪ blockedFnSelectors self) self);;
    send (Message false 0 sender (FunctionSelectorBlocked queryId selector))
      SEND_MODE_CARRY_ALL_REMAINING_MESSAGE_VALUE;;
    mret true.

Definition unblockFunctionSelector (sender : address) (queryId selector : Z) : method bool :=
  onlyAdmin sender;;
  self ← get;
  if negb (bool_decide (selector ∈ blockedFnSelectors self)) then mret false
  else
    put (set_blocked (blockedFnSelectorsLen self - 1) (blockedFnSelectors self ∖ {[selector]}) self);;
    send (Message false 0 sender (FunctionSelectorUnblocked queryId selector))
      SEND_MODE_CARRY_ALL_REMAINING_MESSAGE_VALUE;;
    mret true.

Definition bypasserExecuteBatch (sender : address) (queryId : Z) (calls : list Call) : method () :=
  onlyRoleOrAdminRole BYPASSER_ROLE sender;;
  for_each_i (λ index call,
    execute call;;
    emit TOPIC_BYPASSER_CALL_EXECUTED
      (BypasserCallExecuted queryId index (target call) (call_value call) (data call))) 0 calls.

(** [Timelock<T>.onInternalMessage]. *)
Definition on_message (sender : address) (msg : InMessage) : method () :=
  match msg with
  | Init queryId newMinDelay admin proposers executors cancellers bypassers =>
      init sender queryId newMinDelay admin proposers executors cancellers bypassers
  | TopUp _ => mret tt
  | ScheduleBatch queryId calls predecessor salt delay =>
      scheduleBatch sender queryId calls predecessor salt delay
  | Cancel queryId id => cancel sender queryId id
  | ExecuteBatch queryId calls predecessor salt => executeBatch sender queryId calls predecessor salt
  | UpdateDelay queryId newDelay => updateDelay sender queryId newDelay
  | BlockFunctionSelector queryId selector => blockFunctionSelector sender queryId selector;; mret tt
  | UnblockFunctionSelector queryId selector => unblockFunctionSelector sender queryId selector;; mret tt
  | BypasserExecuteBatch queryId calls => bypasserExecuteBatch sender queryId calls
  | Rbac msg =>
      self ← get;
      r ← on_rbac (ac.onInternalMessage (T := ()) None None sender msg) (hookTrait self);
      require r.1 ERROR_WRONG_OP;;
      put (set_rbac r.2 self)
  end.

(** [timelock.data.storeAsContractData()]: the counters have to fit their fields. *)
Definition storeAsContractData : method () :=
  self ← get;
  _ ← lift (storeUint (minDelay self) 64);
  _ ← lift (storeUint (blockedFnSelectorsLen self) 32);
  mret tt.
End methods.

(** The contract's [onInternalMessage]: an input is the time, the sender and the message. *)
Record input := { now : Z; sender : address; msg : InMessage }.

Definition onInternalMessage (hash : OperationBatch → uint256) (i : input)
  : M Timelock_Data Body () :=
  on_message hash (now i) (sender i) (msg i);;
  storeAsContractData.
End tl.
