(* ===== verification/TimelockSpec.v ===== *)
(** * TimelockSpec: what the timelock promises

    Each method evaluated on every branch, the life cycle of an operation as a step
    relation, and what a run of the contract can have executed. *)

From S2P Require Import Prelude Tolk AccessControl TimelockContract.

Module tlspec.
Import tl.

(** ** The methods, evaluated *)

(** The account has the role or the admin role. *)
Definition authorised (s : Timelock_Data) (role : uint256) (a : address) : bool :=
  ac.hasRole (rbac s) ADMIN_ROLE a || ac.hasRole (rbac s) role a.

(** The body starts with a blocked selector. *)
Definition blocked (s : Timelock_Data) (c : Call) : bool :=
  (32 <=? length (cell_bits (data c))) &&
  bool_decide (bits_Z (take 32 (cell_bits (data c))) ∈ blockedFnSelectors s).

Lemma only_value role a s :
  onlyRoleOrAdminRole role a s = if authorised s role a then Done (tt, s, []) else Throw 90.
Proof.
  unfold onlyRoleOrAdminRole, authorised, hookTrait. rewrite get_bind.
  destruct (ac.hasRole (rbac s) ADMIN_ROLE a); [done|]. cbn [negb orb].
  unfold on_rbac. rewrite bind_run. unfold within. rewrite ac.requireRole_value.
  by destruct (ac.hasRole (rbac s) role a).
Qed.

Lemma onlyAdmin_value a s :
  onlyAdmin a s = if ac.hasRole (rbac s) ADMIN_ROLE a then Done (tt, s, []) else Throw 90.
Proof.
  unfold onlyAdmin, hookTrait. rewrite get_bind.
  unfold on_rbac. rewrite bind_run. unfold within. rewrite ac.requireRole_value.
  by destruct (ac.hasRole (rbac s) ADMIN_ROLE a).
Qed.

Lemma check_value s c :
  checkFunctionSelectorNotBlocked (data c) s = if blocked s c then Throw 101 else Done (tt, s, []).
Proof.
  unfold checkFunctionSelectorNotBlocked, blocked. rewrite get_bind.
  destruct (_ <? 32) eqn:E.
  - replace (32 <=? _) with false by (symmetry; apply Nat.leb_gt; apply Nat.ltb_lt in E; lia). done.
  - replace (32 <=? _) with true by (symmetry; apply Nat.leb_le; apply Nat.ltb_ge in E; lia).
    by case_bool_decide.
Qed.

Section values.
Context (hash : OperationBatch → uint256).

(** Scheduling alone: what is stored, or why not. *)
Definition schedule_error (now : Z) (s : Timelock_Data) (id : uint256) (delay : Z) : option Z :=
  if isOperation s id then Some 105%Z
  else if (delay <? minDelay s)%Z then Some 106%Z
  else if ((0 <=? now + delay) && (now + delay <? 2 ^ 64))%Z then None else Some 5%Z.

Lemma schedule_value now s id delay :
  schedule now id delay s =
  match schedule_error now s id delay with
  | Some code => Throw code
  | None => Done (tt, set_timestamps (<[id := (now + delay)%Z]> (timestamps s)) s, [])
  end.
Proof.
  unfold schedule, schedule_error. rewrite get_bind. destruct (isOperation s id); [done|].
  cbn [negb]. rewrite (M_bind_next _ _ _ tt s) by done. unfold getMinDelay.
  destruct (delay <? minDelay s)%Z eqn:E.
  - apply M_bind_throw. apply require_false. lia.
  - rewrite (M_bind_next _ _ _ tt s) by (apply require_true; lia).
    rewrite bind_run. unfold storeUint. change (2 ^ Z.of_nat 64)%Z with (2 ^ 64)%Z.
    by destruct (_ && _)%Z.
Qed.

(** The events of the loop, unless a call is blocked. *)
Definition scheduled_events (q id predecessor salt delay : Z) (calls : list Call) : list (action Body) :=
  concat (imap (λ k c, [Log (Some TOPIC_CALL_SCHEDULED)
    (CallScheduled q id (0 + Z.of_nat k) c predecessor salt delay)]) calls).

Lemma schedule_loop s q id p salt delay calls i :
  for_each_i (λ index call, checkFunctionSelectorNotBlocked (data call);;
    emit TOPIC_CALL_SCHEDULED (CallScheduled q id index call p salt delay)) i calls s =
  if existsb (blocked s) calls then Throw 101
  else Done (tt, s, concat (imap (λ k c, [Log (Some TOPIC_CALL_SCHEDULED)
    (CallScheduled q id (i + Z.of_nat k) c p salt delay)]) calls)).
Proof.
  revert i. induction calls as [|c calls IH]; intros i; [done|]. cbn [for_each_i existsb].
  rewrite !bind_run, check_value. destruct (blocked s c); [done|].
  cbn [orb]. unfold emit, act. rewrite IH. destruct (existsb (blocked s) calls); [done|].
  cbn. rewrite Z.add_0_r. do 4 f_equal. apply imap_ext. intros k y _. cbn. do 3 f_equal. lia.
Qed.

(** [scheduleBatch] on every branch. *)
Definition schedule_batch_error (now : Z) (s : Timelock_Data) (sender : address) (calls : list Call)
  (p salt delay : Z) : option Z :=
  if authorised s PROPOSER_ROLE sender then
    match schedule_error now s (hash {| calls := calls; predecessor := p; salt := salt |}) delay with
    | Some code => Some code
    | None => if existsb (blocked s) calls then Some 101%Z else None
    end
  else Some 90%Z.

Lemma scheduleBatch_value now s sender q calls p salt delay :
  let id := hash {| calls := calls; predecessor := p; salt := salt |} in
  scheduleBatch hash now sender q calls p salt delay s =
  match schedule_batch_error now s sender calls p salt delay with
  | Some code => Throw code
  | None => Done (tt, set_timestamps (<[id := (now + delay)%Z]> (timestamps s)) s,
      scheduled_events q id p salt delay calls)
  end.
Proof.
  cbn zeta. unfold scheduleBatch, schedule_batch_error, hashOperationBatch.
  rewrite bind_run, only_value. destruct (authorised s PROPOSER_ROLE sender); [|done].
  cbv beta iota. rewrite bind_run, schedule_value.
  destruct (schedule_error _ _ _ _); [done|]. rewrite schedule_loop.
  replace (existsb (blocked (set_timestamps _ s)) calls) with (existsb (blocked s) calls) by done.
  by destruct (existsb _ _).
Qed.

(** The messages and events of an executed batch. *)
Definition call_send (c : Call) : action Body :=
  Send (Message true (call_value c) (target c) (CallData (data c))) SEND_MODE_PAY_FEES_SEPARATELY.
Definition executed_calls (q id : Z) (calls : list Call) : list (action Body) :=
  concat (imap (λ k c, [call_send c; Log (Some TOPIC_CALL_EXECUTED)
    (CallExecuted q id (0 + Z.of_nat k) (target c) (call_value c) (data c))]) calls).
Definition bypassed_calls (q : Z) (calls : list Call) : list (action Body) :=
  concat (imap (λ k c, [call_send c; Log (Some TOPIC_BYPASSER_CALL_EXECUTED)
    (BypasserCallExecuted q (0 + Z.of_nat k) (target c) (call_value c) (data c))]) calls).

Definition execute_error (now : Z) (s : Timelock_Data) (sender : address) (id predecessor : Z) : option Z :=
  if authorised s EXECUTOR_ROLE sender then
    if isOperationReady now s id then
      if (predecessor =? 0)%Z || isOperationDone s predecessor then None else Some 103%Z
    else Some 102%Z
  else Some 90%Z.

Lemma executeBatch_value now s sender q calls p salt :
  let id := hash {| calls := calls; predecessor := p; salt := salt |} in
  executeBatch hash now sender q calls p salt s =
  match execute_error now s sender id p with
  | Some code => Throw code
  | None => Done (tt, set_timestamps (<[id := DONE_TIMESTAMP]> (timestamps s)) s,
      Reserve MIN_TON_FOR_STORAGE RESERVE_MODE_EXACT_AMOUNT :: executed_calls q id calls)
  end.
Proof.
  cbn zeta. unfold executeBatch, execute_error, hashOperationBatch.
  set (id := hash _). rewrite bind_run, only_value.
  destruct (authorised s EXECUTOR_ROLE sender); [|done]. cbv beta iota.
  rewrite bind_run. unfold beforeCall. rewrite get_bind.
  destruct (isOperationReady now s id) eqn:Er; [|done].
  rewrite (M_bind_next _ _ _ tt s) by done.
  destruct ((p =? 0)%Z || isOperationDone s p); [|done].
  rewrite (M_bind_next _ _ _ tt s) by done. cbn [act].
  rewrite bind_run.
  rewrite (for_each_i_out _ (λ j c, [call_send c; Log (Some TOPIC_CALL_EXECUTED)
    (CallExecuted q id j (target c) (call_value c) (data c))])) by done.
  unfold afterCall. rewrite get_bind, Er, (M_bind_next _ _ _ tt s) by done. cbn [put].
  by rewrite app_nil_r.
Qed.

Lemma bypasserExecuteBatch_value s sender q calls :
  bypasserExecuteBatch sender q calls s =
  if authorised s BYPASSER_ROLE sender then Done (tt, s, bypassed_calls q calls) else Throw 90.
Proof.
  unfold bypasserExecuteBatch. rewrite bind_run, only_value.
  destruct (authorised s BYPASSER_ROLE sender); [|done]. cbv beta iota.
  by rewrite (for_each_i_out _ (λ j c, [call_send c; Log (Some TOPIC_BYPASSER_CALL_EXECUTED)
    (BypasserCallExecuted q j (target c) (call_value c) (data c))])).
Qed.

Lemma cancel_value s sender q id :
  cancel sender q id s =
  if authorised s CANCELLER_ROLE sender then
    if isOperationPending s id
    then Done (tt, set_timestamps (delete id (timestamps s)) s,
      [Send (Message false 0 sender (Canceled q id)) SEND_MODE_CARRY_ALL_REMAINING_MESSAGE_VALUE])
    else Throw 104
  else Throw 90.
Proof.
  unfold cancel. rewrite bind_run, only_value.
  destruct (authorised s CANCELLER_ROLE sender); [|done]. cbv beta iota. rewrite get_bind.
  by destruct (isOperationPending s id).
Qed.
End values.

(** ** One message *)

(** [o] has a message that carries a call's data. *)
Definition makes_call (o : list (action Body)) : Prop :=
  ∃ m mode d, Send m mode ∈ o ∧ body m = CallData d.

Lemma makes_call_nil : ¬ makes_call [].
Proof. intros (m & mode & d & H & _). set_solver. Qed.

Lemma makes_call_app o1 o2 : makes_call (o1 ++ o2) ↔ makes_call o1 ∨ makes_call o2.
Proof. unfold makes_call. set_solver. Qed.

(** Closes [¬ makes_call o] for a concrete list of events. *)
Ltac no_call :=
  let H := fresh in let E := fresh in
  intros (? & ? & ? & H & E); cbn in H; rewrite ?app_nil_r in H;
  repeat (apply elem_of_cons in H as [H|H]; [injection H as -> ->; discriminate E|]);
  by apply elem_of_nil in H.

Lemma makes_call_rbac o : ¬ makes_call (action_map RbacEvent <$> o).
Proof.
  intros (m & mode & d & H & E). apply list_elem_of_fmap in H as ([m0 md|t b|n md] & H & _);
    [|discriminate..]. injection H as -> ->. discriminate.
Qed.

Lemma onlyRole_done role a s u s' o :
  onlyRoleOrAdminRole role a s = Done (u, s', o) → authorised s role a = true ∧ s' = s ∧ o = [].
Proof. rewrite only_value. destruct (authorised s role a); [|discriminate]. by intros [= _ <- <-]. Qed.

Lemma onlyAdmin_done a s u s' o :
  onlyAdmin a s = Done (u, s', o) → ac.hasRole (rbac s) ADMIN_ROLE a = true ∧ s' = s ∧ o = [].
Proof. rewrite onlyAdmin_value. destruct (ac.hasRole _ _ a); [|discriminate]. by intros [= _ <- <-]. Qed.

(** The messages that neither touch an operation nor make a call. *)
Definition administrative (m : InMessage) : bool :=
  match m with
  | ScheduleBatch _ _ _ _ _ | Cancel _ _ | ExecuteBatch _ _ _ _ | BypasserExecuteBatch _ _ => false
  | _ => true
  end.

Section messages.
Context (hash : OperationBatch → uint256).

Lemma administrative_keeps now sender m s u s' o :
  administrative m = true → on_message hash now sender m s = Done (u, s', o) →
  timestamps s' = timestamps s ∧ ¬ makes_call o.
Proof.
  destruct m as [q d a pp ee cc bb|q|q cs p sa d|q id|q cs p sa|q d|q sel|q sel|q cs|m]; intros Ha H;
    try discriminate Ha; clear Ha; cbn [on_message] in H.
  - unfold init, on_rbac in H. inv_tolk. split; [done|]. rewrite makes_call_app.
    intros [Hc|Hc]; [by eapply makes_call_rbac|revert Hc; no_call].
  - injection H as _ <- <-. split; [done|no_call].
  - unfold updateDelay in H. apply M_bind_done in H as (? & ? & ? & ? & H1 & H & ->).
    apply onlyAdmin_done in H1 as (_ & -> & ->). inv_tolk. split; [done|no_call].
  - unfold blockFunctionSelector in H. apply M_bind_done in H as (? & ? & ? & ? & H & H2 & ->).
    apply M_bind_done in H as (? & ? & ? & ? & H1 & H & ->).
    apply onlyAdmin_done in H1 as (_ & -> & ->). inv_tolk.
    case_bool_decide; inv_tolk; (split; [done|no_call]).
  - unfold unblockFunctionSelector in H. apply M_bind_done in H as (? & ? & ? & ? & H & H2 & ->).
    apply M_bind_done in H as (? & ? & ? & ? & H1 & H & ->).
    apply onlyAdmin_done in H1 as (_ & -> & ->). inv_tolk.
    case_bool_decide; cbn [negb] in H; inv_tolk; (split; [done|no_call]).
  - unfold on_rbac in H. inv_tolk. split; [done|]. rewrite !app_nil_r. apply makes_call_rbac.
Qed.

Lemma onInternalMessage_done i s u s' o :
  onInternalMessage hash i s = Done (u, s', o) →
  on_message hash (now i) (sender i) (msg i) s = Done (tt, s', o).
Proof.
  unfold onInternalMessage, storeAsContractData. intros H. inv_tolk. rewrite app_nil_r.
  match goal with H : _ = Done (?x, _, _) |- _ => destruct x end. done.
Qed.

(** ** The life of an operation *)

Inductive status := Unset | Pending (t : Z) | Executed.

Definition status_of (s : Timelock_Data) (id : uint256) : status :=
  match timestamps s !! id with
  | None => Unset
  | Some t => if (t =? DONE_TIMESTAMP)%Z then Executed else Pending t
  end.

(** [i] schedules, or executes, the operation [id]. *)
Definition schedules (i : input) (id : uint256) (delay : Z) (cs : list Call) : Prop :=
  ∃ q p salt, msg i = ScheduleBatch q cs p salt delay ∧
    hash {| calls := cs; predecessor := p; salt := salt |} = id.
Definition executes (i : input) (id : uint256) (cs : list Call) (p : uint256) : Prop :=
  ∃ q salt, msg i = ExecuteBatch q cs p salt ∧ hash {| calls := cs; predecessor := p; salt := salt |} = id.
Definition cancels (i : input) (id : uint256) : Prop := ∃ q, msg i = Cancel q id.

(** What may become of an operation by one message that finds the storage [s]. *)
Inductive op_step (s : Timelock_Data) (i : input) (id : uint256) : status → status → Prop :=
| op_schedule delay cs :
    schedules i id delay cs → authorised s PROPOSER_ROLE (sender i) = true → (minDelay s ≤ delay)%Z →
    Forall (λ c, blocked s c = false) cs →
    op_step s i id Unset (Pending (now i + delay))
| op_cancel t :
    cancels i id → authorised s CANCELLER_ROLE (sender i) = true → op_step s i id (Pending t) Unset
| op_execute t cs p :
    executes i id cs p → authorised s EXECUTOR_ROLE (sender i) = true → (t ≤ now i)%Z →
    (p = 0%Z ∨ status_of s p = Executed) → op_step s i id (Pending t) Executed
| op_keep st :
    (∀ delay cs, ¬ schedules i id delay cs) → (∀ cs p, ¬ executes i id cs p) → ¬ cancels i id →
    op_step s i id st st.

(** The time and the delay of an input are those of the chain. *)
Definition input_ok (i : input) : Prop :=
  (1 < now i)%Z ∧ match msg i with ScheduleBatch _ _ _ _ delay => (0 ≤ delay)%Z | _ => True end.

Lemma isOperation_status s id :
  (∀ t, timestamps s !! id = Some t → (1 ≤ t)%Z) →
  isOperation s id = match status_of s id with Unset => false | _ => true end.
Proof.
  unfold isOperation, getTimestamp, status_of, DONE_TIMESTAMP. intros H.
  destruct (timestamps s !! id) as [t|]; [|done]. specialize (H t eq_refl). cbn. destruct (t =? 1)%Z; lia.
Qed.

Lemma isOperationDone_status s id : isOperationDone s id = true ↔ status_of s id = Executed.
Proof.
  unfold isOperationDone, getTimestamp, status_of, DONE_TIMESTAMP. destruct (timestamps s !! id) as [t|]; cbn;
    [destruct (t =? 1)%Z; naive_solver|naive_solver].
Qed.

Lemma pending_status s id t :
  timestamps s !! id = Some t → (DONE_TIMESTAMP < t)%Z → status_of s id = Pending t.
Proof. unfold status_of. intros -> H. by replace (t =? DONE_TIMESTAMP)%Z with false by lia. Qed.

Lemma status_set s id t id' :
  status_of (set_timestamps (<[id := t]> (timestamps s)) s) id' =
  if decide (id = id') then (if (t =? DONE_TIMESTAMP)%Z then Executed else Pending t) else status_of s id'.
Proof. unfold status_of. cbn. rewrite lookup_insert. by case_decide. Qed.

Lemma status_delete s id id' :
  status_of (set_timestamps (delete id (timestamps s)) s) id' =
  if decide (id = id') then Unset else status_of s id'.
Proof. unfold status_of. cbn. rewrite lookup_delete. by case_decide. Qed.

(** Timestamps are never 0. *)
Definition stamped (s : Timelock_Data) : Prop := ∀ id t, timestamps s !! id = Some t → (1 ≤ t)%Z.

Lemma existsb_blocked s cs : existsb (blocked s) cs = false → Forall (λ c, blocked s c = false) cs.
Proof.
  induction cs as [|c cs IH]; cbn; [constructor|]. intros [H1 H2]%orb_false_iff. by constructor; [|apply IH].
Qed.

(** The three messages on operations, when they are handled. *)
Lemma schedule_done now sender q cs p salt delay s u s' o :
  on_message hash now sender (ScheduleBatch q cs p salt delay) s = Done (u, s', o) →
  let id := hash {| calls := cs; predecessor := p; salt := salt |} in
  s' = set_timestamps (<[id := (now + delay)%Z]> (timestamps s)) s ∧
  o = scheduled_events q id p salt delay cs ∧ isOperation s id = false ∧
  authorised s PROPOSER_ROLE sender = true ∧ (minDelay s ≤ delay)%Z ∧
  Forall (λ c, blocked s c = false) cs.
Proof.
  cbn [on_message]. rewrite scheduleBatch_value. unfold schedule_batch_error, schedule_error.
  destruct (authorised s PROPOSER_ROLE sender); [|discriminate].
  destruct (isOperation s _); [discriminate|]. destruct (delay <? minDelay s)%Z eqn:Ed; [discriminate|].
  destruct (_ && _)%Z; [|discriminate]. destruct (existsb (blocked s) cs) eqn:Eb; [discriminate|].
  intros [= _ <- <-]. repeat split; try done; [lia|by apply existsb_blocked].
Qed.

Lemma execute_done now sender q cs p salt s u s' o :
  on_message hash now sender (ExecuteBatch q cs p salt) s = Done (u, s', o) →
  let id := hash {| calls := cs; predecessor := p; salt := salt |} in
  s' = set_timestamps (<[id := DONE_TIMESTAMP]> (timestamps s)) s ∧
  o = Reserve MIN_TON_FOR_STORAGE RESERVE_MODE_EXACT_AMOUNT :: executed_calls q id cs ∧
  isOperationReady now s id = true ∧ authorised s EXECUTOR_ROLE sender = true ∧
  (p = 0%Z ∨ status_of s p = Executed).
Proof.
  cbn [on_message]. rewrite executeBatch_value. unfold execute_error.
  destruct (authorised s EXECUTOR_ROLE sender); [|discriminate].
  destruct (isOperationReady now s _); [|discriminate].
  destruct (_ || _) eqn:Ep; [|discriminate]. intros [= _ <- <-]. repeat split; try done.
  apply orb_true_iff in Ep as [Ep|Ep]; [left; lia|right; by apply isOperationDone_status].
Qed.

Lemma cancel_done now sender q id s u s' o :
  on_message hash now sender (Cancel q id) s = Done (u, s', o) →
  s' = set_timestamps (delete id (timestamps s)) s ∧ ¬ makes_call o ∧
  isOperationPending s id = true ∧ authorised s CANCELLER_ROLE sender = true.
Proof.
  cbn [on_message]. rewrite cancel_value. destruct (authorised s CANCELLER_ROLE sender); [|discriminate].
  destruct (isOperationPending s id); [|discriminate]. intros [= _ <- <-]. repeat split; try done. no_call.
Qed.

Lemma bypass_done now sender q cs s u s' o :
  on_message hash now sender (BypasserExecuteBatch q cs) s = Done (u, s', o) →
  s' = s ∧ o = bypassed_calls q cs ∧ authorised s BYPASSER_ROLE sender = true.
Proof.
  cbn [on_message]. rewrite bypasserExecuteBatch_value.
  destruct (authorised s BYPASSER_ROLE sender); [|discriminate]. by intros [= _ <- <-].
Qed.

Lemma ready_pending now s id :
  isOperationReady now s id = true → ∃ t, status_of s id = Pending t ∧ (1 < t ≤ now)%Z.
Proof.
  unfold isOperationReady, getTimestamp, DONE_TIMESTAMP. intros H.
  destruct (timestamps s !! id) as [t|] eqn:E; cbn in H; [|lia].
  exists t. split; [apply pending_status; [done|unfold DONE_TIMESTAMP; lia]|lia].
Qed.

Lemma stamped_set s id t : stamped s → (1 ≤ t)%Z → stamped (set_timestamps (<[id := t]> (timestamps s)) s).
Proof.
  intros Hs Ht i t'. cbn. rewrite lookup_insert. case_decide; [by intros [= <-]|apply Hs].
Qed.

(** Every handled message moves every operation along one of the steps. *)
Lemma op_step_sound i s u s' o :
  input_ok i → stamped s → onInternalMessage hash i s = Done (u, s', o) →
  stamped s' ∧ ∀ id, op_step s i id (status_of s id) (status_of s' id).
Proof.
  intros [Hnow Hd] Hs H%onInternalMessage_done.
  destruct (administrative (msg i)) eqn:Ha.
  { apply administrative_keeps in H as [Ht _]; [|done]. split; [intros id t; rewrite Ht; apply Hs|].
    intros id. unfold status_of. rewrite Ht. apply op_keep; unfold schedules, executes, cancels;
      destruct (msg i); discriminate || naive_solver. }
  destruct (msg i) as [| |q cs p salt delay|q id0|q cs p salt| | | |q cs|] eqn:Em; try discriminate Ha; clear Ha.
  - apply schedule_done in H as (-> & _ & Hop & Ha & Hmin & Hb). split; [apply stamped_set; [done|lia]|].
    intros id. rewrite status_set. case_decide as E.
    + rewrite isOperation_status in Hop by (intros ?; apply Hs). rewrite E in Hop.
      destruct (status_of s id) eqn:Es; try discriminate.
      replace (now i + delay =? DONE_TIMESTAMP)%Z with false by (unfold DONE_TIMESTAMP; lia).
      eapply op_schedule; [exists q, p, salt; by split|done..].
    + apply op_keep; unfold schedules, executes, cancels; rewrite Em; naive_solver.
  - apply cancel_done in H as (-> & _ & Hp & Ha). split.
    { intros id t. cbn. rewrite lookup_delete. case_decide; [done|apply Hs]. }
    intros id. rewrite status_delete. case_decide as E.
    + subst id0. unfold isOperationPending, getTimestamp in Hp.
      destruct (timestamps s !! id) as [t|] eqn:Et; [|discriminate Hp]. cbn in Hp.
      rewrite (pending_status s id t Et) by lia. apply op_cancel; [by exists q|done].
    + apply op_keep; unfold schedules, executes, cancels; rewrite Em; naive_solver.
  - apply execute_done in H as (-> & _ & Hr & Ha & Hp). split; [by apply stamped_set|].
    intros id. rewrite status_set. case_decide as E.
    + rewrite E in Hr. apply ready_pending in Hr as (t & -> & Ht). cbn.
      eapply op_execute; [exists q, salt; by split|done|lia|done].
    + apply op_keep; unfold schedules, executes, cancels; rewrite Em; naive_solver.
  - apply bypass_done in H as (-> & _ & _). split; [done|]. intros id.
    apply op_keep; unfold schedules, executes, cancels; rewrite Em; naive_solver.
Qed.

(** ** Histories *)

Abbreviation tstep := (step (I := input) (St := Timelock_Data) (B := Body)).

(** The message of [st] leaves the operation alone. *)
Definition untouched (id : uint256) (st : tstep) : Prop :=
  (∀ cs p, ¬ executes (inp st) id cs p) ∧ ¬ cancels (inp st) id.

(** The history scheduled [id] for [t]: by a proposer, no sooner than the delay of that
    moment, without a blocked selector; it has not been cancelled or executed since. *)
Definition scheduled_by (h : list tstep) (id : uint256) (t : Z) : Prop :=
  ∃ h1 st h2 delay cs, h = h1 ++ st :: h2 ∧ schedules (inp st) id delay cs ∧
    t = (now (inp st) + delay)%Z ∧ (minDelay (pre st) ≤ delay)%Z ∧
    authorised (pre st) PROPOSER_ROLE (sender (inp st)) = true ∧
    Forall (λ c, blocked (pre st) c = false) cs ∧ Forall (untouched id) h2.

Definition executed_in (h : list tstep) (id : uint256) : Prop :=
  ∃ st cs p, st ∈ h ∧ executes (inp st) id cs p.

(** [st] made its calls rightly, after [h]. *)
Definition justified (h : list tstep) (st : tstep) : Prop :=
  (∃ q cs, msg (inp st) = BypasserExecuteBatch q cs ∧ out st = bypassed_calls q cs ∧
     authorised (pre st) BYPASSER_ROLE (sender (inp st)) = true) ∨
  (∃ q id cs p t, executes (inp st) id cs p ∧
     out st = Reserve MIN_TON_FOR_STORAGE RESERVE_MODE_EXACT_AMOUNT :: executed_calls q id cs ∧
     authorised (pre st) EXECUTOR_ROLE (sender (inp st)) = true ∧
     scheduled_by h id t ∧ (t ≤ now (inp st))%Z ∧ (p = 0%Z ∨ executed_in h p) ∧ ¬ executed_in h id).

Definition history (h : list tstep) (s : Timelock_Data) : Prop :=
  stamped s ∧
  (∀ id t, status_of s id = Pending t → scheduled_by h id t) ∧
  (∀ id, status_of s id = Executed ↔ executed_in h id) ∧
  (∀ h1 st h2, h = h1 ++ st :: h2 → makes_call (out st) → justified h1 st).

Lemma scheduled_snoc h id t st : scheduled_by h id t → untouched id st → scheduled_by (h ++ [st]) id t.
Proof.
  intros (h1 & s1 & h2 & delay & cs & -> & Hs & Ht & Hm & Ha & Hb & Hu) Hst.
  exists h1, s1, (h2 ++ [st]), delay, cs. rewrite <- app_assoc. repeat split; try done.
  apply Forall_app. by split; [|apply Forall_singleton].
Qed.

Lemma executed_snoc h id st : executed_in (h ++ [st]) id ↔ executed_in h id ∨ ∃ cs p, executes (inp st) id cs p.
Proof.
  unfold executed_in. setoid_rewrite elem_of_app. setoid_rewrite list_elem_of_singleton. naive_solver.
Qed.

(** What a handled message that makes calls is. *)
Lemma calls_justified h i s u s' o :
  history h s → onInternalMessage hash i s = Done (u, s', o) → makes_call o → justified h (Step s i o).
Proof.
  intros (Hs & Hp & Hx & _) H%onInternalMessage_done Hc. unfold justified. cbn.
  destruct (administrative (msg i)) eqn:Ha; [by apply administrative_keeps in H as [_ []]|].
  destruct (msg i) as [| |q cs p salt delay|q id0|q cs p salt| | | |q cs|] eqn:Em; try discriminate Ha; clear Ha.
  - apply schedule_done in H as (_ & -> & _). exfalso. destruct Hc as (m & mode & d & Hin & _).
    unfold scheduled_events in Hin. apply list_elem_of_In, in_concat in Hin as (l & Hl & Hin).
    apply list_elem_of_In, list_elem_of_lookup in Hl as [k Hk]. rewrite list_lookup_imap in Hk.
    destruct (cs !! k); [|discriminate]. injection Hk as <-. destruct Hin as [[=]|[]].
  - by apply cancel_done in H as (_ & [] & _).
  - right. apply execute_done in H as (_ & -> & Hr & Ha & Hpre).
    apply ready_pending in Hr as (t & Ht & Hle).
    exists q, (hash {| calls := cs; predecessor := p; salt := salt |}), cs, p, t.
    split; [exists q, salt; by split|]. split; [done|]. split; [done|]. split; [by apply Hp|].
    split; [lia|]. split; [by rewrite <- Hx|]. rewrite <- Hx, Ht. discriminate.
  - left. apply bypass_done in H as (_ & -> & Ha). by exists q, cs.
Qed.

Lemma history_step h i s u s' o :
  input_ok i → history h s → onInternalMessage hash i s = Done (u, s', o) → history (h ++ [Step s i o]) s'.
Proof.
  intros Hi Hh H. pose proof (calls_justified h i s u s' o Hh H) as Hj.
  destruct Hh as (Hs & Hp & Hx & Hc). apply op_step_sound in H as [Hs' Hstep]; [|done..].
  split; [done|]. split; [|split].
  - intros id t Ht. specialize (Hstep id). rewrite Ht in Hstep.
    inversion Hstep as [delay cs Hsch Ha Hm Hb E1 E2| | |st Hn1 Hn2 Hn3 E1 E2].
    + subst t. exists h, (Step s i o), [], delay, cs. repeat split; try done; constructor.
    + apply scheduled_snoc; [by apply Hp|by split].
  - intros id. rewrite executed_snoc. cbn. specialize (Hstep id). rewrite <- Hx.
    inversion Hstep as [delay cs Hsch Ha Hm Hb E1 E2|t Hca Ha E1 E2|t cs p He Ha Ht Hpre E1 E2|st Hn1 Hn2 Hn3 E1 E2].
    + split; [discriminate|]. destruct Hsch as (q & p & salt & Em & _).
      intros [[=]|(cs' & p' & q' & salt' & Em' & _)]. congruence.
    + split; [discriminate|]. destruct Hca as (q & Em).
      intros [[=]|(cs' & p' & q' & salt' & Em' & _)]. congruence.
    + split; [intros _; right; by exists cs, p|done].
    + split; [by left|]. intros [E|(cs & p & He)]; [done|by edestruct Hn2].
  - intros h1 st h2 [(-> & -> & _)|(h3 & _ & ->)]%snoc_cases; [exact Hj|by apply (Hc h1 st h3)].
Qed.

Lemma run_timelock_history ins s :
  timestamps s = ∅ → Forall input_ok ins →
  history (handled (onInternalMessage hash) ins s) (run (onInternalMessage hash) ins s).
Proof.
  intros Hs Hins. rewrite Forall_forall in Hins. apply run_history.
  - intros h i s0 u s' o Hi. by apply history_step, Hins.
  - assert (∀ id, status_of s id = Unset) as Hu by (intros id; unfold status_of; by rewrite Hs, lookup_empty).
    split; [intros id t; by rewrite Hs, lookup_empty|].
    split; [intros id t; by rewrite Hu|]. split; [|intros h1 st h2 E; by destruct h1].
    intros id. rewrite Hu. split; [discriminate|]. intros (st & cs & p & Hin & _). by apply elem_of_nil in Hin.
Qed.

(** ** A timelock without members *)

Definition roleless (r : ac.Data) : Prop := ∀ role a, ac.hasRole r role a = false.

Lemma roleless_rbac r sender m b r' o :
  roleless r → ac.onInternalMessage (T := ()) None None sender m r = Done (b, r', o) → b = false.
Proof.
  intros Hr H. destruct m as [q role a|q role a|q role a|]; cbn -[ac.grantRole ac.revokeRole ac.renounceRole] in H;
    unfold ac.renounceRole, ac.grantRole, ac.revokeRole in H; [..|by injection H as <-];
    repeat (apply M_bind_done in H as (? & ? & ? & ? & H & ? & ?));
    inv_tolk;
    match goal with H : ac.requireRole _ _ _ = Done _ |- _ =>
      rewrite ac.requireRole_value, Hr in H; discriminate H end.
Qed.

Lemma roleless_step i s u s' o :
  roleless (rbac s) → onInternalMessage hash i s = Done (u, s', o) →
  rbac s' = rbac s ∧ timestamps s' = timestamps s ∧ ¬ makes_call o.
Proof.
  intros Hr H%onInternalMessage_done.
  assert (∀ role, authorised s role (sender i) = false) as Ha by (intros role; unfold authorised; by rewrite !Hr).
  destruct (msg i) as [q d a pp ee cc bb|q|q cs p sa d|q id|q cs p sa|q d|q sel|q sel|q cs|m] eqn:Em.
  1,2,10: pose proof (administrative_keeps _ _ (msg i) _ _ _ _ ltac:(by rewrite Em) ltac:(by rewrite Em)) as [? ?].
  - split; [|done]. cbn [on_message] in H. unfold init, on_rbac in H. by inv_tolk.
  - split; [|done]. injection H; intros; by subst.
  - cbn [on_message] in H. unfold on_rbac in H. inv_tolk.
    match goal with H : ac.onInternalMessage _ _ _ _ _ = Done _ |- _ => apply roleless_rbac in H; [|done] end.
    congruence.
  - apply schedule_done in H as (_ & _ & _ & Hx & _). by rewrite Ha in Hx.
  - apply cancel_done in H as (_ & _ & _ & Hx). by rewrite Ha in Hx.
  - apply execute_done in H as (_ & _ & _ & Hx & _). by rewrite Ha in Hx.
  - cbn [on_message] in H. unfold updateDelay in H. by rewrite bind_run, onlyAdmin_value, Hr in H.
  - cbn [on_message] in H. unfold blockFunctionSelector in H. by rewrite !bind_run, onlyAdmin_value, Hr in H.
  - cbn [on_message] in H. unfold unblockFunctionSelector in H. by rewrite !bind_run, onlyAdmin_value, Hr in H.
  - apply bypass_done in H as (_ & _ & Hx). by rewrite Ha in Hx.
Qed.
End messages.

(** ** The claims *)

(** C7: every call the timelock makes is rightly made.  Whatever messages a timelock without
    operations receives, a message it sends on carries the data of a call only while it handles
    a bypasser's batch, sent by an account with the bypasser or the admin role, or the batch of an
    operation executed by an account with the executor or the admin role; such an operation was
    scheduled before, by a proposer or admin, with at least the minimal delay of that moment and no
    call that starts with a selector blocked then; that delay is over; it was not cancelled and had
    never been executed; the operation it depends on has been executed; and the calls sent are
    those of the batch, in order. *)
Theorem timelock_calls hash ins s h1 st h2 :
  timestamps s = ∅ → Forall input_ok ins →
  handled (onInternalMessage hash) ins s = h1 ++ st :: h2 →
  makes_call (out st) → justified hash h1 st.
Proof.
  intros Hs Hins E Hc. destruct (run_timelock_history hash ins s Hs Hins) as (_ & _ & _ & H).
  by eapply H.
Qed.

(** C23: the messages move every operation along its life cycle and no other way: unset to pending
    by scheduling, pending to unset by cancelling, pending to executed by executing it when its time
    has come and its predecessor has been executed, each by an account that may; an executed
    operation stays executed. *)
Theorem timelock_lifecycle hash ins i s id :
  timestamps s = ∅ → Forall input_ok (ins ++ [i]) →
  let before := run (onInternalMessage hash) ins s in
  let after := run (onInternalMessage hash) (ins ++ [i]) s in
  after = before ∨ op_step hash before i id (status_of before id) (status_of after id).
Proof.
  intros Hs [Hins Hi]%Forall_app. apply Forall_cons in Hi as [Hi _]. cbn. rewrite run_snoc. unfold transaction.
  destruct (run_timelock_history hash ins s Hs Hins) as (Hst & _).
  destruct (onInternalMessage hash i _) as [[[u s'] o]|] eqn:E; [right|by left].
  destruct (op_step_sound hash i _ u s' o Hi Hst E) as [_ Hop]. exact (Hop id).
Qed.

(** C36: scheduling and executing a batch on every branch: the checks in their order, each with its exit
    code, and otherwise the timestamp stored with one event per call, or the calls sent, each
    followed by its event, and the operation marked as done. *)
Theorem schedule_execute_spec hash now s sender q cs p salt delay :
  let id := hash {| calls := cs; predecessor := p; salt := salt |} in
  scheduleBatch hash now sender q cs p salt delay s =
    (if negb (authorised s PROPOSER_ROLE sender) then Throw 90
     else if isOperation s id then Throw 105
     else if (delay <? minDelay s)%Z then Throw 106
     else if negb ((0 <=? now + delay) && (now + delay <? 2 ^ 64))%Z then Throw 5
     else if existsb (blocked s) cs then Throw 101
     else Done (tt, set_timestamps (<[id := (now + delay)%Z]> (timestamps s)) s,
       scheduled_events q id p salt delay cs)) ∧
  executeBatch hash now sender q cs p salt s =
    (if negb (authorised s EXECUTOR_ROLE sender) then Throw 90
     else if negb (isOperationReady now s id) then Throw 102
     else if negb ((p =? 0)%Z || isOperationDone s p) then Throw 103
     else Done (tt, set_timestamps (<[id := DONE_TIMESTAMP]> (timestamps s)) s,
       Reserve MIN_TON_FOR_STORAGE RESERVE_MODE_EXACT_AMOUNT :: executed_calls q id cs)).
Proof.
  cbn zeta. rewrite scheduleBatch_value, executeBatch_value.
  unfold schedule_batch_error, schedule_error, execute_error. split.
  - destruct (authorised s PROPOSER_ROLE sender); [|done]. destruct (isOperation s _); [done|].
    destruct (delay <? minDelay s)%Z; [done|]. destruct (_ && _); [|done]. by destruct (existsb _ cs).
  - destruct (authorised s EXECUTOR_ROLE sender); [|done]. destruct (isOperationReady now s _); [|done].
    by destruct (_ || _).
Qed.

(** C39: [Init] gives nobody a role: whoever sends it and whatever it names, it only sets the minimal
    delay, because the trait it has changed is a copy that is not stored.  So a timelock deployed
    without members stays without: whatever messages it receives, no role is ever granted, no
    operation scheduled and no call made. *)
Theorem timelock_init hash ins s :
  (∀ i q d admin pp ee cc bb u s' o, msg i = Init q d admin pp ee cc bb →
     onInternalMessage hash i s = Done (u, s', o) → s' = set_minDelay d s) ∧
  (roleless (rbac s) →
     rbac (run (onInternalMessage hash) ins s) = rbac s ∧
     timestamps (run (onInternalMessage hash) ins s) = timestamps s ∧
     Forall (λ st, ¬ makes_call (out st)) (handled (onInternalMessage hash) ins s)).
Proof.
  split.
  - intros i q d admin pp ee cc bb u s' o Em H%onInternalMessage_done. rewrite Em in H. cbn [on_message] in H.
    unfold init, on_rbac in H. by inv_tolk.
  - intros Hr. apply (run_history (onInternalMessage hash) (λ h s', rbac s' = rbac s ∧
      timestamps s' = timestamps s ∧ Forall (λ st, ¬ makes_call (out st)) h)); [|done].
    intros h i s0 u s' o _ (Er & Et & Hh) H. apply roleless_step in H as (-> & -> & Hc); [|by rewrite Er].
    repeat split; [done..|]. apply Forall_app. by split; [|apply Forall_singleton].
Qed.

(** ** A run *)

Definition sample_hash (op : OperationBatch) : uint256 :=
  (1000 + 10 * salt op + Z.of_nat (length (calls op)))%Z.

(** Admin 1, proposer 2, executor 3, canceller 4, bypasser 5. *)
Definition sample_role (members : list address) : ac.RoleData :=
  {| ac.adminRole := ADMIN_ROLE; ac.membersLen := Z.of_nat (length members);
     ac.hasRoleDict := list_to_set members |}.
Definition sample_timelock : Timelock_Data :=
  {| id := 7; minDelay := 50; timestamps := ∅; blockedFnSelectorsLen := 0; blockedFnSelectors := ∅;
     rbac := {| ac.roles := list_to_map [(ADMIN_ROLE, sample_role [1%Z]); (PROPOSER_ROLE, sample_role [2%Z]);
       (EXECUTOR_ROLE, sample_role [3%Z]); (CANCELLER_ROLE, sample_role [4%Z]);
       (BYPASSER_ROLE, sample_role [5%Z])] |} |}.

Definition sample_call : Call :=
  {| target := 77; call_value := 5; data := MkCell (Z_bits 32 0x10000004) [] |}.

(** Scheduled at 100 for 150; too early at 149; executed at 150; once only; then blocked. *)
Definition sample_inputs : list input :=
  [{| now := 100; sender := 2; msg := ScheduleBatch 1 [sample_call] 0 9 50 |};
   {| now := 149; sender := 3; msg := ExecuteBatch 2 [sample_call] 0 9 |};
   {| now := 150; sender := 3; msg := ExecuteBatch 3 [sample_call] 0 9 |};
   {| now := 151; sender := 3; msg := ExecuteBatch 4 [sample_call] 0 9 |};
   {| now := 152; sender := 1; msg := BlockFunctionSelector 5 0x10000004 |};
   {| now := 153; sender := 2; msg := ScheduleBatch 6 [sample_call] 0 10 50 |}].

Lemma sample_inputs_ok : Forall input_ok sample_inputs.
Proof. repeat (constructor; [by split|]). constructor. Qed.

Definition sample_history : list (step (I := input) (St := Timelock_Data) (B := Body)) :=
  handled (onInternalMessage sample_hash) sample_inputs sample_timelock.

Lemma timelock_calls_witness :
  length sample_history = 3 ∧
  ∃ st rest, drop 1 sample_history = st :: rest ∧ makes_call (out st) ∧
    justified sample_hash (take 1 sample_history) st.
Proof.
  split; [vm_compute; reflexivity|].
  destruct (drop 1 sample_history) as [|st rest] eqn:E; [vm_compute in E; discriminate|].
  exists st, rest. split; [reflexivity|].
  assert (makes_call (out st)) as Hc.
  { exists (Message true 5%Z 77%Z (CallData (data sample_call))), SEND_MODE_PAY_FEES_SEPARATELY, (data sample_call).
    vm_compute in E. injection E as <- _. split; [|reflexivity]. vm_compute.
    apply list_elem_of_further, list_elem_of_here. }
  split; [exact Hc|].
  apply (timelock_calls sample_hash sample_inputs sample_timelock (take 1 sample_history) st rest);
    [reflexivity|exact sample_inputs_ok| |exact Hc].
  rewrite <- E. symmetry. apply take_drop.
Defined.

Lemma timelock_lifecycle_witness :
  status_of (run (onInternalMessage sample_hash) (take 3 sample_inputs) sample_timelock) 1091 = Executed ∧
  (run (onInternalMessage sample_hash) (take 2 sample_inputs ++ [{| now := 150; sender := 3;
      msg := ExecuteBatch 3 [sample_call] 0 9 |}]) sample_timelock =
     run (onInternalMessage sample_hash) (take 2 sample_inputs) sample_timelock ∨
   op_step sample_hash (run (onInternalMessage sample_hash) (take 2 sample_inputs) sample_timelock)
     {| now := 150; sender := 3; msg := ExecuteBatch 3 [sample_call] 0 9 |} 1091
     (status_of (run (onInternalMessage sample_hash) (take 2 sample_inputs) sample_timelock) 1091)
     (status_of (run (onInternalMessage sample_hash) (take 2 sample_inputs ++ [{| now := 150; sender := 3;
        msg := ExecuteBatch 3 [sample_call] 0 9 |}]) sample_timelock) 1091)).
Proof.
  split; [vm_compute; reflexivity|].
  apply (timelock_lifecycle sample_hash (take 2 sample_inputs)); [reflexivity|].
  exact (Forall_take _ 3 _ sample_inputs_ok).
Defined.

(** Deployed as [init] expects it, with no member. *)
Definition empty_timelock : Timelock_Data :=
  {| id := 7; minDelay := 0; timestamps := ∅; blockedFnSelectorsLen := 0; blockedFnSelectors := ∅;
     rbac := {| ac.roles := ∅ |} |}.
Definition init_inputs : list input :=
  [{| now := 100; sender := 1; msg := Init 1 50 1 [2%Z] [3%Z] [4%Z] [5%Z] |};
   {| now := 101; sender := 2; msg := ScheduleBatch 2 [sample_call] 0 9 50 |};
   {| now := 102; sender := 9; msg := Init 3 0 9 [] [] [] [] |}].

Lemma timelock_init_witness :
  minDelay (run (onInternalMessage sample_hash) (take 1 init_inputs) empty_timelock) = 50%Z ∧
  minDelay (run (onInternalMessage sample_hash) init_inputs empty_timelock) = 0%Z ∧
  rbac (run (onInternalMessage sample_hash) init_inputs empty_timelock) = {| ac.roles := ∅ |}.
Proof.
  split; [vm_compute; reflexivity|]. split; [vm_compute; reflexivity|].
  apply (proj2 (timelock_init sample_hash init_inputs empty_timelock)).
  intros role a. reflexivity.
Defined.
End tlspec.
