(* ===== verification/McmsContract.v ===== *)
(** * McmsContract: src/contracts/contracts/mcms/mcms.tolk and lib/crypto/merkle_proof.tolk

    The many-chain multisig: a quorum of signers, arranged in a tree of groups, sets the root
    of a Merkle tree of operations, which anyone can then have executed in order.  [hash] is the
    representation hash of a cell and [isSignatureValid] the TVM's signature check.  The keys
    and groups of a configuration are vectors, counted by [Iterator.size] and read by the iterator;
    the signatures and proofs of a message, which are only read, are the lists their iterators
    yield. *)

From S2P Require Import Prelude Tolk Slices Ownable.

Module mc.
Import slices.

(** ** Data *)

Record Signer := { key : uint256; index : Z; group : Z }.

Record Config := {
  config_signers : gmap Z Signer;
  groupQuorums : gmap Z Z;
  groupParents : gmap Z Z;
}.

Record ExpiringRootAndOpCount := { root : uint256; validUntil : Z; opCount : Z }.

Record RootMetadata := {
  md_chainId : Z;
  md_multiSig : address;
  preOpCount : Z;
  postOpCount : Z;
  overridePreviousRoot : bool;
}.

(** [s.r] and [s.s] with the public key. *)
Record Signature := { sig_r : uint256; sig_s : uint256; signer : uint256 }.

Record Op := {
  op_chainId : Z;
  op_multiSig : address;
  nonce : Z;
  op_to : address;
  op_value : Z;
  op_data : cell;
}.

Record MCMS_Data := {
  id : Z;
  own : ownable.Ownable2Step;
  signers : gmap uint256 Signer;
  config : Config;
  seenSignedHashes : gset uint256;
  expiringRootAndOpCount : ExpiringRootAndOpCount;
  rootMetadata : RootMetadata;
}.

Inductive InMessage :=
| TopUp (queryId : Z)
| SetRoot (queryId : Z) (root : uint256) (validUntil : Z) (metadata : RootMetadata)
    (metadataProof : list uint256) (signatures : list Signature)
| Execute (queryId : Z) (op : Op) (proof : list uint256)
| SetConfig (queryId : Z) (signerKeys signerGroups : cell)
    (quorums parents : gmap Z Z) (clearRoot : bool)
| Owner (msg : ownable.Messages).

Inductive Body :=
| NewRoot (queryId : Z) (root : uint256) (validUntil : Z) (metadata : RootMetadata)
| ConfigSet (queryId : Z) (config : Config) (isRootCleared : bool)
| OpExecuted (queryId nonce : Z) (to : address) (data : cell) (value : Z)
| OwnerEvent (e : ownable.Event)
| OpData (data : cell).

(** ** Constants *)

(** [stringSha256_32] of the names. *)
Definition MANY_CHAIN_MULTI_SIG_DOMAIN_SEPARATOR_OP : Z := 0xc43d25b8.
Definition MANY_CHAIN_MULTI_SIG_DOMAIN_SEPARATOR_METADATA : Z := 0x2a8f5d7d.

Definition NUM_GROUPS : nat := 32.
Definition MAX_NUM_SIGNERS : Z := 200.

Definition ERROR_OUT_OF_BOUNDS_NUM_SIGNERS : Z := 100.
Definition ERROR_SIGNER_GROUPS_LENGTH_MISMATCH : Z := 101.
Definition ERROR_OUT_OF_BOUNDS_GROUP : Z := 102.
Definition ERROR_GROUP_TREE_NOT_WELL_FORMED : Z := 103.
Definition ERROR_OUT_OF_BOUNDS_GROUP_QUORUM : Z := 104.
Definition ERROR_SIGNER_IN_DISABLED_GROUP : Z := 105.
Definition ERROR_SIGNERS_KEYS_MUST_BE_STRICTLY_INCREASING : Z := 106.
Definition ERROR_INVALID_SIGNER : Z := 107.
Definition ERROR_INSUFFICIENT_SIGNERS : Z := 108.
Definition ERROR_WRONG_CHAIN_ID : Z := 109.
Definition ERROR_WRONG_MULTI_SIG : Z := 110.
Definition ERROR_WRONG_POST_OP_COUNT : Z := 111.
Definition ERROR_PENDING_OPS : Z := 112.
Definition ERROR_WRONG_PRE_OP_COUNT : Z := 113.
Definition ERROR_PROOF_CANNOT_BE_VERIFIED : Z := 114.
Definition ERROR_ROOT_EXPIRED : Z := 115.
Definition ERROR_WRONG_NONCE : Z := 116.
Definition ERROR_POST_OP_COUNT_REACHED : Z := 117.
Definition ERROR_VALID_UNTIL_HAS_ALREADY_PASSED : Z := 119.
Definition ERROR_MISSING_CONFIG : Z := 120.
Definition ERROR_SIGNED_HASH_ALREADY_SEEN : Z := 121.

(** The TVM's out of gas. *)
Definition OUT_OF_GAS : Z := -14.

(** ** Cells *)

Definition RootMetadata_bits (m : RootMetadata) : list bool :=
  Z_bits 256 (md_chainId m) ++ Z_bits 267 (md_multiSig m) ++ Z_bits 40 (preOpCount m) ++
  Z_bits 40 (postOpCount m) ++ [overridePreviousRoot m].

Definition Op_toCell (op : Op) : cell :=
  MkCell (Z_bits 256 (op_chainId op) ++ Z_bits 267 (op_multiSig op) ++ Z_bits 40 (nonce op) ++
    Z_bits 267 (op_to op) ++ coins_encoding (op_value op)) [op_data op].

(** ** Merkle proofs (lib/crypto/merkle_proof.tolk) *)

Section crypto.
Context (hash : cell → uint256).

Definition hashInternalNode (a b : uint256) : uint256 := hash (MkCell (Z_bits 256 a ++ Z_bits 256 b) []).

Definition hashPair (a b : uint256) : uint256 :=
  if (a <? b)%Z then hashInternalNode a b else hashInternalNode b a.

Fixpoint processProof (proof : list uint256) (computedHash : uint256) : uint256 :=
  match proof with
  | [] => computedHash
  | p :: proof => processProof proof (hashPair computedHash p)
  end.

Definition verify (proof : list uint256) (root leaf : uint256) : bool := (processProof proof leaf =? root)%Z.

Definition signed_hash (root : uint256) (validUntil : Z) : uint256 :=
  hash (MkCell (Z_bits 256 root ++ Z_bits 32 validUntil) []).

Definition metadata_leaf (m : RootMetadata) : uint256 :=
  hash (MkCell (Z_bits 256 MANY_CHAIN_MULTI_SIG_DOMAIN_SEPARATOR_METADATA ++ RootMetadata_bits m) []).

Definition op_leaf (op : Op) : uint256 :=
  hash (MkCell (Z_bits 256 MANY_CHAIN_MULTI_SIG_DOMAIN_SEPARATOR_OP) [Op_toCell op]).
End crypto.

(** ** Counting votes *)

(** A dictionary of bytes read with a default of 0. *)
Definition byte_at (m : gmap Z Z) (i : Z) : Z := default 0%Z (m !! i).

(** The inner loop of [setRoot]: a vote in [group], and in its parent when it just reached
    its quorum.  The fuel is the number of groups there can be. *)
Fixpoint vote (fuel : nat) (cfg : Config) (counts : gmap Z Z) (group : Z) : exit (gmap Z Z) :=
  match fuel with
  | O => Throw OUT_OF_GAS
  | S fuel =>
      votes ← storeUint (byte_at counts group + 1) 8;
      let counts := <[group := votes]> counts in
      let quorum := byte_at (groupQuorums cfg) group in
      if negb (votes =? quorum)%Z || (group =? 0)%Z then Done counts
      else vote fuel cfg counts (byte_at (groupParents cfg) group)
  end.

(** The outer loop. *)
Fixpoint count_votes (isSignatureValid : uint256 → Signature → uint256 → bool) (signedHash : uint256)
  (signers : gmap uint256 Signer) (cfg : Config) (signatures : list Signature) (prevSigner : uint256)
  (counts : gmap Z Z) : exit (gmap Z Z) :=
  match signatures with
  | [] => Done counts
  | s :: signatures =>
      assert (isSignatureValid signedHash s (signer s)) ERROR_INVALID_SIGNER;;
      assert (prevSigner <? signer s)%Z ERROR_SIGNERS_KEYS_MUST_BE_STRICTLY_INCREASING;;
      match signers !! signer s with
      | None => Throw ERROR_INVALID_SIGNER
      | Some sg =>
          assert (key sg =? signer s)%Z ERROR_INVALID_SIGNER;;
          counts ← vote 257 cfg counts (group sg);
          count_votes isSignatureValid signedHash signers cfg signatures (signer s) counts
      end
  end.

(** ** Checking a configuration *)

(** The first loop of [setConfig]: signers are children of their groups. *)
Fixpoint count_signers (groups : list Z) (counts : gmap Z Z) : exit (gmap Z Z) :=
  match groups with
  | [] => Done counts
  | g :: groups =>
      assert (g <? Z.of_nat NUM_GROUPS)%Z ERROR_OUT_OF_BOUNDS_GROUP;;
      count ← storeUint (byte_at counts g + 1) 8;
      count_signers groups (<[g := count]> counts)
  end.

(** One round of the second loop. *)
Definition check_group (quorums parents : gmap Z Z) (i : Z) (counts : gmap Z Z) : exit (gmap Z Z) :=
  let gp := byte_at parents i in
  assert (negb ((negb (i =? 0) && (i <=? gp)) || ((i =? 0) && negb (gp =? 0))))%Z
    ERROR_GROUP_TREE_NOT_WELL_FORMED;;
  let gq := byte_at quorums i in
  let count := byte_at counts i in
  if (gq =? 0)%Z then
    assert (negb (0 <? count)%Z) ERROR_SIGNER_IN_DISABLED_GROUP;; mret counts
  else
    assert (negb (count <? gq)%Z) ERROR_OUT_OF_BOUNDS_GROUP_QUORUM;;
    count ← storeUint (byte_at counts gp + 1) 8;
    mret (<[gp := count]> counts).

(** The groups below [n], from the last to the first. *)
Fixpoint check_groups (quorums parents : gmap Z Z) (n : nat) (counts : gmap Z Z) : exit (gmap Z Z) :=
  match n with
  | O => Done counts
  | S n => counts ← check_group quorums parents (Z.of_nat n) counts; check_groups quorums parents n counts
  end.

(** The loop that stores the signers: [self.data.signers] and [config.signers]; [groups] are the
    groups read in the first loop, after which the second iterator finds nothing. *)
Fixpoint add_signers (keys : list uint256) (groups : list Z) (i prevSigner : Z)
  (signers : gmap uint256 Signer) (indexed : gmap Z Signer) : exit (gmap uint256 Signer * gmap Z Signer) :=
  match keys with
  | [] => Done (signers, indexed)
  | k :: keys =>
      assert (prevSigner <? k)%Z ERROR_SIGNERS_KEYS_MUST_BE_STRICTLY_INCREASING;;
      match groups with
      | [] => Throw CELL_UNDERFLOW
      | g :: groups =>
          i' ← storeUint i 8;
          let s := {| key := k; index := i'; group := g |} in
          add_signers keys groups (i + 1) k (<[k := s]> signers) (<[i := s]> indexed)
      end
  end.

(** The loop that removes the signers of the configuration before. *)
Definition remove_signers (old : gmap Z Signer) (signers : gmap uint256 Signer) : gmap uint256 Signer :=
  foldr (λ s m, delete (key s) m) signers (map_to_list old).*2.

(** ** Methods *)

(** What a transaction sees of the chain. *)
Record env := { now : Z; globalId : Z; getAddress : address }.

Definition set_own (v : ownable.Ownable2Step) (s : MCMS_Data) : MCMS_Data :=
  {| id := id s; own := v; signers := signers s; config := config s;
     seenSignedHashes := seenSignedHashes s; expiringRootAndOpCount := expiringRootAndOpCount s;
     rootMetadata := rootMetadata s |}.
Definition set_root (h : uint256) (r : ExpiringRootAndOpCount) (m : RootMetadata) (s : MCMS_Data) : MCMS_Data :=
  {| id := id s; own := own s; signers := signers s; config := config s;
     seenSignedHashes := {[h]} ∪ seenSignedHashes s; expiringRootAndOpCount := r; rootMetadata := m |}.
Definition set_opCount (n : Z) (s : MCMS_Data) : MCMS_Data :=
  {| id := id s; own := own s; signers := signers s; config := config s;
     seenSignedHashes := seenSignedHashes s;
     expiringRootAndOpCount := {| root := root (expiringRootAndOpCount s);
       validUntil := validUntil (expiringRootAndOpCount s); opCount := n |};
     rootMetadata := rootMetadata s |}.
Definition set_config (sg : gmap uint256 Signer) (c : Config) (s : MCMS_Data) : MCMS_Data :=
  {| id := id s; own := own s; signers := sg; config := c; seenSignedHashes := seenSignedHashes s;
     expiringRootAndOpCount := expiringRootAndOpCount s; rootMetadata := rootMetadata s |}.
Definition clear_root (e : env) (s : MCMS_Data) : MCMS_Data :=
  let n := opCount (expiringRootAndOpCount s) in
  {| id := id s; own := own s; signers := signers s; config := config s;
     seenSignedHashes := seenSignedHashes s;
     expiringRootAndOpCount := {| root := 0; validUntil := 0; opCount := n |};
     rootMetadata := {| md_chainId := globalId e; md_multiSig := getAddress e; preOpCount := n;
       postOpCount := n; overridePreviousRoot := true |} |}.

Section methods.
Context (hash : cell → uint256) (isSignatureValid : uint256 → Signature → uint256 → bool).

Abbreviation method := (M MCMS_Data Body).

Definition setRoot (e : env) (sender : address) (queryId : Z) (newRoot : uint256) (newValidUntil : Z)
  (metadata : RootMetadata) (metadataProof : list uint256) (signatures : list Signature) : method () :=
  self ← get;
  let signedHash := signed_hash hash newRoot newValidUntil in
  require (negb (bool_decide (signedHash ∈ seenSignedHashes self))) ERROR_SIGNED_HASH_ALREADY_SEEN;;
  let cfg := config self in
  groupVoteCounts ← lift (count_votes isSignatureValid signedHash (signers self) cfg signatures 0 ∅);
  match groupQuorums cfg !! 0%Z with
  | None => throw ERROR_MISSING_CONFIG
  | Some rootQuorum =>
      require (negb (rootQuorum =? 0)%Z) ERROR_MISSING_CONFIG;;
      match groupVoteCounts !! 0%Z with
      | None => throw ERROR_INSUFFICIENT_SIGNERS
      | Some rootVotes => require (negb (rootVotes <? rootQuorum)%Z) ERROR_INSUFFICIENT_SIGNERS
      end
  end;;
  require (negb (newValidUntil <? now e)%Z) ERROR_VALID_UNTIL_HAS_ALREADY_PASSED;;
  require (verify hash metadataProof newRoot (metadata_leaf hash metadata)) ERROR_PROOF_CANNOT_BE_VERIFIED;;
  require (globalId e =? md_chainId metadata)%Z ERROR_WRONG_CHAIN_ID;;
  require (getAddress e =? md_multiSig metadata)%Z ERROR_WRONG_MULTI_SIG;;
  let count := opCount (expiringRootAndOpCount self) in
  require (negb (negb (count =? postOpCount (rootMetadata self))%Z && negb (overridePreviousRoot metadata)))
    ERROR_PENDING_OPS;;
  require (count =? preOpCount metadata)%Z ERROR_WRONG_PRE_OP_COUNT;;
  require (preOpCount metadata <=? postOpCount metadata)%Z ERROR_WRONG_POST_OP_COUNT;;
  put (set_root signedHash
    {| root := newRoot; validUntil := newValidUntil; opCount := preOpCount metadata |} metadata self);;
  send (Message false 0 sender (NewRoot queryId newRoot newValidUntil metadata))
    SEND_MODE_CARRY_ALL_REMAINING_MESSAGE_VALUE.

Definition _execute (target : address) (value : Z) (data : cell) : method () :=
  send (Message true value target (OpData data)) SEND_MODE_PAY_FEES_SEPARATELY.

Definition execute (e : env) (sender : address) (queryId : Z) (op : Op) (proof : list uint256) : method () :=
  self ← get;
  let current := expiringRootAndOpCount self in
  require (negb (postOpCount (rootMetadata self) <=? opCount current)%Z) ERROR_POST_OP_COUNT_REACHED;;
  require (op_chainId op =? globalId e)%Z ERROR_WRONG_CHAIN_ID;;
  require (op_multiSig op =? getAddress e)%Z ERROR_WRONG_MULTI_SIG;;
  require (negb (validUntil current <? now e)%Z) ERROR_ROOT_EXPIRED;;
  require (nonce op =? opCount current)%Z ERROR_WRONG_NONCE;;
  require (verify hash proof (root current) (op_leaf hash op)) ERROR_PROOF_CANNOT_BE_VERIFIED;;
  put (set_opCount (opCount current + 1) self);;
  _execute (op_to op) (op_value op) (op_data op);;
  send (Message false 0 sender (OpExecuted queryId (nonce op) (op_to op) (op_data op) (op_value op)))
    SEND_MODE_CARRY_ALL_REMAINING_MESSAGE_VALUE.

Definition setConfig (e : env) (sender : address) (queryId : Z) (signerKeys signerGroups : cell)
  (quorums parents : gmap Z Z) (clearRoot : bool) : method () :=
  self ← get;
  _ ← within OwnerEvent (ownable.requireOwner sender) (own self);
  let signerKeyIterator := vec (loadUint 256) signerKeys in
  let signerGroupIterator := vec (loadUint 8) signerGroups in
  numSigners ← lift (size 32 signerKeys);
  require (negb ((numSigners =? 0) || (MAX_NUM_SIGNERS <? numSigners))%Z) ERROR_OUT_OF_BOUNDS_NUM_SIGNERS;;
  numGroups ← lift (size 1 signerGroups);
  require (numSigners =? numGroups)%Z ERROR_SIGNER_GROUPS_LENGTH_MISMATCH;;
  counts ← lift (count_signers signerGroupIterator.1 ∅);
  _ ← lift signerGroupIterator.2;
  _ ← lift (check_groups quorums parents NUM_GROUPS counts);
  let kept := remove_signers (config_signers (config self)) (signers self) in
  r ← lift (add_signers signerKeyIterator.1 signerGroupIterator.1 0 0 kept ∅);
  _ ← lift signerKeyIterator.2;
  let cfg := {| config_signers := r.2; groupQuorums := quorums; groupParents := parents |} in
  let self := set_config r.1 cfg self in
  put (if clearRoot then clear_root e self else self);;
  send (Message false 0 sender (ConfigSet queryId cfg clearRoot)) SEND_MODE_CARRY_ALL_REMAINING_MESSAGE_VALUE.

(** [MCMS<T>.onInternalMessage]. *)
Definition on_message (e : env) (sender : address) (msg : InMessage) : method () :=
  match msg with
  | TopUp _ => mret tt
  | SetRoot queryId root validUntil metadata metadataProof signatures =>
      setRoot e sender queryId root validUntil metadata metadataProof signatures
  | Execute queryId op proof => execute e sender queryId op proof
  | SetConfig queryId signerKeys signerGroups quorums parents clearRoot =>
      setConfig e sender queryId signerKeys signerGroups quorums parents clearRoot
  | Owner msg =>
      self ← get;
      r ← within OwnerEvent (ownable.onInternalMessage sender msg) (own self);
      require r.1 ERROR_WRONG_OP;;
      put (set_own r.2 self)
  end.

(** [mcms.data.storeAsContractData()]: the counter has to fit its 40 bits. *)
Definition storeAsContractData : method () :=
  self ← get;
  _ ← lift (storeUint (opCount (expiringRootAndOpCount self)) 40);
  mret tt.

(** The contract's [onInternalMessage]: an input is the environment, the sender and the message. *)
Record input := { input_env : env; sender : address; msg : InMessage }.

Definition onInternalMessage (i : input) : method () :=
  on_message (input_env i) (sender i) (msg i);;
  storeAsContractData.
End methods.

(** ** Getters *)

Definition getConfig (self : MCMS_Data) : Config := config self.
Definition getOpCount (self : MCMS_Data) : Z := opCount (expiringRootAndOpCount self).
Definition getRoot (self : MCMS_Data) : uint256 * Z :=
  (root (expiringRootAndOpCount self), validUntil (expiringRootAndOpCount self)).
Definition getRootMetadata (self : MCMS_Data) : RootMetadata := rootMetadata self.
End mc.
