(* ===== verification/McmsTree.v ===== *)
(** * McmsTree: the tree of signer groups of the multisig contract

    That counting votes signature by signature finds exactly the groups a recursive reading of
    the tree finds successful, and that the single pass of [setConfig] over the groups accepts
    exactly the valid trees. *)

From S2P Require Import Prelude Tolk Ownable McmsContract.

Module mctree.
Import mc.
Local Open Scope Z_scope.

(** ** Counting *)

Fixpoint count_if {X} (p : X → bool) (l : list X) : Z :=
  match l with [] => 0 | x :: l => Z.b2z (p x) + count_if p l end.

Lemma count_if_bound {X} (p : X → bool) l : 0 ≤ count_if p l ≤ Z.of_nat (length l).
Proof. induction l as [|x l IH]; cbn; [lia|]. destruct (p x); cbn [Z.b2z]; lia. Qed.

Lemma count_if_ext {X} (p q : X → bool) l : (∀ x, x ∈ l → p x = q x) → count_if p l = count_if q l.
Proof.
  induction l as [|x l IH]; intros H; [done|]. cbn. rewrite H by apply list_elem_of_here.
  rewrite IH; [done|]. intros y Hy. by apply H, list_elem_of_further.
Qed.

Lemma count_if_app {X} (p : X → bool) l1 l2 : count_if p (l1 ++ l2) = count_if p l1 + count_if p l2.
Proof. induction l1 as [|x l1 IH]; cbn; [done|]. rewrite IH. lia. Qed.

Lemma count_if_flip {X} (p q : X → bool) l x :
  NoDup l → x ∈ l → p x = false → q x = true → (∀ y, y ∈ l → y ≠ x → p y = q y) →
  count_if q l = count_if p l + 1.
Proof.
  intros Hn (l1 & l2 & ->)%list_elem_of_split Hp Hq H. rewrite !count_if_app. cbn. rewrite Hp, Hq.
  apply NoDup_app in Hn as (_ & H1 & [H2 _]%NoDup_cons).
  rewrite (count_if_ext p q l1), (count_if_ext p q l2); [cbn; lia|..].
  - intros y Hy. apply H; [set_solver|]. by intros ->.
  - intros y Hy. apply H; [set_solver|]. intros ->. apply (H1 x Hy). apply list_elem_of_here.
Qed.

(** How many of [groups] are [g]. *)
Definition in_group (groups : list Z) (g : Z) : Z := count_if (Z.eqb g) groups.

(** How many groups other than the root have the parent [g] and satisfy [ok]. *)
Definition sub_groups : list Z := seqZ 1 31.
Definition kids (parents : gmap Z Z) (ok : Z → bool) (g : Z) : Z :=
  count_if (λ j, if byte_at parents j =? g then ok j else false) sub_groups.

Lemma elem_of_sub_groups j : j ∈ sub_groups ↔ 1 ≤ j < 32.
Proof. unfold sub_groups. rewrite elem_of_seqZ. lia. Qed.

Lemma kids_and parents ok g : kids parents ok g = count_if (λ j, (byte_at parents j =? g) && ok j) sub_groups.
Proof. done. Qed.

Lemma kids_bound parents ok g : 0 ≤ kids parents ok g ≤ 31.
Proof. exact (count_if_bound _ sub_groups). Qed.

Lemma kids_ext parents ok ok' g :
  (∀ j, 1 ≤ j < 32 → byte_at parents j = g → ok j = ok' j) → kids parents ok g = kids parents ok' g.
Proof.
  intros H. apply count_if_ext. intros j Hj%elem_of_sub_groups.
  destruct (byte_at parents j =? g) eqn:E; [|done]. cbn. apply H; lia.
Qed.

(** When one sub-group becomes successful its parent has one more. *)
Lemma kids_flip parents ok ok' x g :
  1 ≤ x < 32 → ok x = false → ok' x = true → (∀ j, j ≠ x → ok j = ok' j) →
  kids parents ok' g = kids parents ok g + (if decide (byte_at parents x = g) then 1 else 0).
Proof.
  intros Hx Hp Hq H. rewrite !kids_and. case_decide as E.
  - apply (count_if_flip _ _ _ x); [apply NoDup_seqZ|by apply elem_of_sub_groups|..].
    + by rewrite Hp, andb_false_r.
    + rewrite Hq, E. by rewrite Z.eqb_refl.
    + intros y _ Hy. by rewrite H.
  - rewrite Z.add_0_r. apply count_if_ext. intros y _. destruct (decide (y = x)) as [->|Hy].
    + by replace (byte_at parents x =? g) with false by lia.
    + by rewrite H.
Qed.

(** ** The meaning of a tree of groups *)

(** A group is successful when it is enabled and at least its quorum of its children, signers
    that signed ([signed] are their groups) and sub-groups, are successful.  [n] bounds the
    height of the tree. *)
Fixpoint successful (n : nat) (cfg : Config) (signed : list Z) (g : Z) : bool :=
  match n with
  | O => false
  | S n =>
      negb (byte_at (groupQuorums cfg) g =? 0) &&
      (byte_at (groupQuorums cfg) g <=?
        in_group signed g + kids (groupParents cfg) (successful n cfg signed) g)
  end.

(** Votes [c] of a group reach its quorum. *)
Definition reached (cfg : Config) (c : Z → Z) (g : Z) : bool :=
  negb (byte_at (groupQuorums cfg) g =? 0) && (byte_at (groupQuorums cfg) g <=? c g).

(** [c] are the votes when the signers in [signed] have signed. *)
Definition tally (cfg : Config) (signed : list Z) (c : Z → Z) : Prop :=
  ∀ g, 0 ≤ g < 32 → c g = in_group signed g + kids (groupParents cfg) (reached cfg c) g.

(** Every parent is below its group. *)
Definition tree (cfg : Config) : Prop := ∀ j, 1 ≤ j < 32 → 0 ≤ byte_at (groupParents cfg) j < j.

Lemma tally_successful cfg signed c n g :
  tree cfg → tally cfg signed c → 0 ≤ g < 32 → 32 - g ≤ Z.of_nat n →
  successful n cfg signed g = reached cfg c g.
Proof.
  intros Ht Hc. revert g. induction n as [|n IH]; intros g Hg Hn; [lia|]. cbn.
  unfold reached at 1. rewrite (Hc g Hg). do 3 f_equal. apply kids_ext. intros j Hj Hp.
  specialize (Ht j Hj). apply IH; lia.
Qed.

(** ** The vote loop keeps a tally *)

Lemma byte_at_insert m i v j : byte_at (<[i := v]> m) j = if decide (i = j) then v else byte_at m j.
Proof. unfold byte_at. rewrite lookup_insert. by case_decide. Qed.

(** Raising the votes of [g] by one changes whether they reach the quorum only when they
    just do. *)
Lemma reached_bump cfg (c c' : Z → Z) g :
  c' g = c g + 1 → (∀ j, j ≠ g → c' j = c j) →
  (∀ j, j ≠ g → reached cfg c j = reached cfg c' j) ∧
  (c g + 1 ≠ byte_at (groupQuorums cfg) g → reached cfg c g = reached cfg c' g) ∧
  (c g + 1 = byte_at (groupQuorums cfg) g → c g + 1 ≠ 0 → reached cfg c g = false ∧ reached cfg c' g = true).
Proof.
  intros Hg Hj. unfold reached. rewrite Hg. split; [intros j Hne; by rewrite Hj|].
  set (q := byte_at (groupQuorums cfg) g). split; intros; lia.
Qed.

Lemma vote_tally cfg (s : Z → Z) :
  tree cfg → (∀ h, 0 ≤ s h ≤ 200) →
  ∀ fuel g counts, 0 ≤ g < 32 → g < Z.of_nat fuel →
  (∀ h, 0 ≤ h < 32 → byte_at counts h + (if decide (h = g) then 1 else 0) =
    s h + kids (groupParents cfg) (reached cfg (byte_at counts)) h) →
  (∀ h, 0 ≤ byte_at counts h) →
  ∃ counts', vote fuel cfg counts g = Done counts' ∧ (∀ h, 0 ≤ byte_at counts' h) ∧
    ∀ h, 0 ≤ h < 32 → byte_at counts' h = s h + kids (groupParents cfg) (reached cfg (byte_at counts')) h.
Proof.
  intros Ht Hs fuel. induction fuel as [|fuel IH]; intros g counts Hg Hf Hc Hpos; [lia|].
  pose proof (Hc g Hg) as Hcg. rewrite decide_True in Hcg by done.
  pose proof (kids_bound (groupParents cfg) (reached cfg (byte_at counts)) g).
  specialize (Hs g) as Hsg. pose proof (Hpos g) as Hposg.
  cbn [vote]. rewrite storeUint_ok by lia. cbn [mbind exit_bind].
  set (c1 := <[g := byte_at counts g + 1]> counts).
  assert (byte_at c1 g = byte_at counts g + 1) as H1 by (unfold c1; by rewrite byte_at_insert, decide_True).
  assert (∀ j, j ≠ g → byte_at c1 j = byte_at counts j) as H2
    by (intros j Hj; unfold c1; by rewrite byte_at_insert, decide_False).
  assert (∀ h, 0 ≤ byte_at c1 h) as Hpos1
    by (intros h; destruct (decide (h = g)) as [->|Hh]; [lia|by rewrite H2]).
  destruct (reached_bump cfg (byte_at counts) (byte_at c1) g H1 H2) as (Hoth & Hstay & Hflip).
  assert (Hval : ∀ h, 0 ≤ h < 32 → byte_at c1 h = s h + kids (groupParents cfg) (reached cfg (byte_at counts)) h).
  { intros h Hh. specialize (Hc h Hh). case_decide as E; [subst; lia|rewrite H2 by done; lia]. }
  destruct (negb _ || _) eqn:Eb.
  - exists c1. split; [done|]. split; [done|]. intros h Hh. rewrite Hval by done. f_equal.
    apply kids_ext. intros j Hj _. destruct (decide (j = g)) as [->|Hne]; [|by apply Hoth].
    apply Hstay. lia.
  - destruct Hflip as [Hr Hr']; [lia..|].
    assert (1 ≤ g < 32) as Hg1 by lia. specialize (Ht g Hg1) as Htg.
    apply IH; [lia|lia| |done]. intros h Hh. rewrite Hval by done.
    rewrite (kids_flip _ _ _ g h Hg1 Hr Hr' Hoth).
    destruct (decide (h = byte_at (groupParents cfg) g)), (decide (byte_at (groupParents cfg) g = h)); lia.
Qed.

(** ** Configurations *)

(** The children of a group: its signers and its enabled sub-groups. *)
Definition enabled (quorums : gmap Z Z) (j : Z) : bool := negb (byte_at quorums j =? 0).
Definition children (groups : list Z) (quorums parents : gmap Z Z) (g : Z) : Z :=
  in_group groups g + kids parents (enabled quorums) g.

(** The groups form a tree, every enabled group can reach its quorum, and disabled groups
    have no children. *)
Definition valid_groups (groups : list Z) (quorums parents : gmap Z Z) : Prop :=
  ∀ g, 0 ≤ g < 32 →
    (g ≠ 0 → byte_at parents g < g) ∧ (g = 0 → byte_at parents g = 0) ∧
    if enabled quorums g then byte_at quorums g ≤ children groups quorums parents g
    else children groups quorums parents g = 0.

Definition valid_groupsb (groups : list Z) (quorums parents : gmap Z Z) : bool :=
  forallb (λ g, (if g =? 0 then byte_at parents g =? 0 else byte_at parents g <? g) &&
    (if enabled quorums g then byte_at quorums g <=? children groups quorums parents g
     else children groups quorums parents g =? 0)) (seqZ 0 32).

Lemma valid_groupsb_spec groups quorums parents :
  valid_groupsb groups quorums parents = true ↔ valid_groups groups quorums parents.
Proof.
  unfold valid_groupsb, valid_groups. rewrite forallb_forall. split.
  - intros H g Hg. specialize (H g). rewrite <- list_elem_of_In, elem_of_seqZ in H.
    specialize (H ltac:(lia)). destruct (g =? 0) eqn:E, (enabled quorums g); lia.
  - intros H g. rewrite <- list_elem_of_In, elem_of_seqZ. intros Hg. specialize (H g ltac:(lia)).
    destruct (g =? 0) eqn:E, (enabled quorums g); lia.
Qed.

Lemma count_signers_spec groups counts :
  (∀ g, 0 ≤ byte_at counts g ∧ byte_at counts g + Z.of_nat (length groups) < 256) →
  match count_signers groups counts with
  | Throw code => code = 102 ∧ ¬ Forall (λ g, g < 32) groups
  | Done c => Forall (λ g, g < 32) groups ∧ ∀ g, byte_at c g = byte_at counts g + in_group groups g
  end.
Proof.
  revert counts. induction groups as [|x groups IH]; intros counts Hc; cbn [count_signers].
  { split; [constructor|]. intros g. cbn. lia. }
  change (Z.of_nat NUM_GROUPS) with 32. destruct (x <? 32) eqn:E; cbn [assert mbind exit_bind].
  2:{ split; [done|]. intros [Hx _]%Forall_cons. lia. }
  destruct (Hc x) as [H0 H1]. cbn [length] in *. rewrite storeUint_ok by lia. cbn [mbind exit_bind].
  specialize (IH (<[x := byte_at counts x + 1]> counts)).
  destruct (count_signers groups _) as [c|code].
  - destruct IH as [Hf IH].
    { intros g. rewrite byte_at_insert. specialize (Hc g). case_decide; subst; lia. }
    split; [constructor; [lia|done]|]. intros g. rewrite IH, byte_at_insert. unfold in_group. cbn [count_if].
    destruct (decide (x = g)) as [->|Hne]; [rewrite Z.eqb_refl|replace (g =? x) with false by lia]; cbn [Z.b2z]; lia.
  - destruct IH as [-> Hn].
    { intros g. rewrite byte_at_insert. specialize (Hc g). case_decide; subst; lia. }
    split; [done|]. intros [_ Hf]%Forall_cons. done.
Qed.

(** The counts when the groups from [n] on have been checked. *)
Definition counted (groups : list Z) (quorums parents : gmap Z Z) (n : nat) (g : Z) : Z :=
  in_group groups g + count_if (λ j, (byte_at parents j =? g) && enabled quorums j) (seqZ (Z.of_nat n) (32 - Z.of_nat n)).

Lemma counted_step groups quorums parents n g :
  (n < 32)%nat →
  counted groups quorums parents n g = counted groups quorums parents (S n) g +
    (if (byte_at parents (Z.of_nat n) =? g) && enabled quorums (Z.of_nat n) then 1 else 0).
Proof.
  intros Hn. unfold counted. rewrite (seqZ_cons (Z.of_nat n)) by lia. cbn [count_if].
  replace (Z.succ (Z.of_nat n)) with (Z.of_nat (S n)) by lia.
  replace (Z.pred (32 - Z.of_nat n)) with (32 - Z.of_nat (S n)) by lia.
  destruct (_ && _); cbn [Z.b2z]; lia.
Qed.

(** In a tree, all sub-groups of a group come after it. *)
Lemma counted_children groups quorums parents n g :
  (∀ j, 1 ≤ j < 32 → byte_at parents j < j) → (1 ≤ n ≤ 32)%nat → Z.of_nat n ≤ g + 1 →
  counted groups quorums parents n g = children groups quorums parents g.
Proof.
  intros Ht Hn Hg. unfold counted, children. rewrite kids_and. unfold sub_groups.
  replace 31 with ((Z.of_nat n - 1) + (32 - Z.of_nat n)) by lia. rewrite seqZ_app by lia.
  rewrite count_if_app. replace (1 + (Z.of_nat n - 1)) with (Z.of_nat n) by lia.
  rewrite (count_if_ext _ (λ _, false) (seqZ 1 _)).
  - enough (∀ l : list Z, count_if (λ _ : Z, false) l = 0) as -> by done. intros l. by induction l.
  - intros j Hj%elem_of_seqZ. specialize (Ht j ltac:(lia)). replace (byte_at parents j =? g) with false by lia. done.
Qed.

(** What one round checks. *)
Definition group_ok (quorums parents : gmap Z Z) (g : Z) (count : Z) : bool :=
  (if g =? 0 then byte_at parents g =? 0 else byte_at parents g <? g) &&
  (if enabled quorums g then byte_at quorums g <=? count else count =? 0).

Lemma check_group_value quorums parents g counts :
  0 ≤ g → (∀ h, 0 ≤ byte_at counts h ∧ byte_at counts h + 1 < 256) →
  if group_ok quorums parents g (byte_at counts g)
  then ∃ c, check_group quorums parents g counts = Done c ∧
    ∀ h, byte_at c h = byte_at counts h +
      (if (byte_at parents g =? h) && enabled quorums g then 1 else 0)
  else ∃ code, check_group quorums parents g counts = Throw code ∧ 103 ≤ code ≤ 105.
Proof.
  intros Hg Hc. unfold group_ok, check_group, enabled.
  assert (negb ((negb (g =? 0) && (g <=? byte_at parents g)) || ((g =? 0) && negb (byte_at parents g =? 0))) =
    (if g =? 0 then byte_at parents g =? 0 else byte_at parents g <? g)) as -> by (destruct (g =? 0) eqn:E; lia).
  destruct (if g =? 0 then _ else _); cbn [assert mbind exit_bind andb].
  2:{ exists 103. split; [done|lia]. }
  destruct (Hc g) as [H0 _], (byte_at quorums g =? 0) eqn:Eq; cbn [negb].
  - replace (negb (0 <? byte_at counts g)) with (byte_at counts g =? 0) by lia.
    destruct (byte_at counts g =? 0); cbn; [|exists 105; split; [done|lia]].
    exists counts. split; [done|]. intros h. rewrite andb_false_r. lia.
  - replace (negb (byte_at counts g <? byte_at quorums g)) with (byte_at quorums g <=? byte_at counts g) by lia.
    destruct (_ <=? _); cbn [assert mbind exit_bind]; [|exists 104; split; [done|lia]].
    destruct (Hc (byte_at parents g)). rewrite storeUint_ok by lia. cbn.
    eexists. split; [done|]. intros h. rewrite byte_at_insert, andb_true_r.
    destruct (decide (byte_at parents g = h)) as [->|Hne]; [by rewrite Z.eqb_refl|].
    replace (byte_at parents g =? h) with false by lia. lia.
Qed.

Lemma counted_bound groups quorums parents n g :
  (n ≤ 32)%nat → 0 ≤ counted groups quorums parents n g ≤ Z.of_nat (length groups) + 32 - Z.of_nat n.
Proof.
  intros Hn. unfold counted, in_group. pose proof (count_if_bound (Z.eqb g) groups).
  pose proof (count_if_bound (λ j, (byte_at parents j =? g) && enabled quorums j)
    (seqZ (Z.of_nat n) (32 - Z.of_nat n))) as H1. rewrite length_seqZ in H1. lia.
Qed.

Lemma check_groups_spec groups quorums parents n counts :
  (n ≤ 32)%nat → (length groups ≤ 200)%nat →
  (∀ g, byte_at counts g = counted groups quorums parents n g) →
  if forallb (λ k, group_ok quorums parents (Z.of_nat k) (counted groups quorums parents (S k) (Z.of_nat k))) (seq 0 n)
  then ∃ c, check_groups quorums parents n counts = Done c
  else ∃ code, check_groups quorums parents n counts = Throw code ∧ 103 ≤ code ≤ 105.
Proof.
  intros Hn Hl. revert counts. induction n as [|n IH]; intros counts Hc; [by exists counts|].
  rewrite seq_S, forallb_app. cbn [Nat.add forallb check_groups]. rewrite andb_true_r.
  pose proof (check_group_value quorums parents (Z.of_nat n) counts) as Hg. rewrite Hc in Hg.
  destruct (group_ok _ _ _ _).
  - destruct Hg as (c & -> & Hc'); [lia|intros h; rewrite Hc; pose proof (counted_bound groups quorums parents (S n) h); lia|].
    cbn [mbind exit_bind]. rewrite andb_true_r. apply IH; [lia|]. intros g. rewrite Hc', Hc.
    symmetry. apply counted_step. lia.
  - destruct Hg as (code & -> & Hcode); [lia|intros h; rewrite Hc; pose proof (counted_bound groups quorums parents (S n) h); lia|].
    rewrite andb_false_r. by exists code.
Qed.

(** The rounds, each of which sees the counts of that moment, accept exactly the valid groups. *)
Lemma rounds_valid groups quorums parents :
  forallb (λ k, group_ok quorums parents (Z.of_nat k) (counted groups quorums parents (S k) (Z.of_nat k))) (seq 0 32) =
  valid_groupsb groups quorums parents.
Proof.
  apply eq_true_iff_eq. unfold valid_groupsb. rewrite !forallb_forall.
  assert (Hconv : (∀ j, 1 ≤ j < 32 → byte_at parents j < j) → ∀ g, 0 ≤ g < 32 →
    counted groups quorums parents (S (Z.to_nat g)) g = children groups quorums parents g).
  { intros Ht g Hg. apply counted_children; [done|lia|lia]. }
  split.
  - intros H.
    assert (H' : ∀ g, 0 ≤ g < 32 →
      group_ok quorums parents g (counted groups quorums parents (S (Z.to_nat g)) g) = true).
    { intros g Hg. specialize (H (Z.to_nat g)). rewrite Z2Nat.id in H by lia. apply H, in_seq. lia. }
    assert (∀ j, 1 ≤ j < 32 → byte_at parents j < j) as Ht.
    { intros j Hj. specialize (H' j ltac:(lia)). unfold group_ok in H'.
      replace (j =? 0) with false in H' by lia. lia. }
    intros g. rewrite <- list_elem_of_In, elem_of_seqZ. intros Hg.
    rewrite <- Hconv by (done || lia). apply H'. lia.
  - intros H.
    assert (H' : ∀ g, 0 ≤ g < 32 →
      group_ok quorums parents g (children groups quorums parents g) = true).
    { intros g Hg. apply H. rewrite <- list_elem_of_In, elem_of_seqZ. lia. }
    assert (∀ j, 1 ≤ j < 32 → byte_at parents j < j) as Ht.
    { intros j Hj. specialize (H' j ltac:(lia)). unfold group_ok in H'.
      replace (j =? 0) with false in H' by lia. lia. }
    intros k Hk%in_seq. specialize (Hconv Ht (Z.of_nat k) ltac:(lia)). rewrite Nat2Z.id in Hconv.
    rewrite Hconv. apply H'. lia.
Qed.

Lemma counts_start groups quorums parents g : counted groups quorums parents 32 g = in_group groups g.
Proof. unfold counted. change (seqZ (Z.of_nat 32) (32 - Z.of_nat 32)) with (@nil Z). cbn [count_if]. lia. Qed.

(** Both loops of [setConfig] on the groups. *)
Lemma groups_checked groups quorums parents :
  (length groups ≤ 200)%nat →
  if forallb (λ g, g <? 32) groups && valid_groupsb groups quorums parents
  then ∃ c c', count_signers groups ∅ = Done c ∧ check_groups quorums parents NUM_GROUPS c = Done c'
  else ∃ code, (c ← count_signers groups ∅; check_groups quorums parents NUM_GROUPS c) = Throw code ∧ 102 ≤ code ≤ 105.
Proof.
  intros Hl. pose proof (count_signers_spec groups ∅) as Hc.
  assert (∀ g, byte_at ∅ g = 0) as H0 by done.
  destruct (count_signers groups ∅) as [c|code].
  - destruct Hc as [Hf Hc]; [intros g; rewrite H0; lia|].
    replace (forallb (λ g, g <? 32) groups) with true.
    2:{ symmetry. apply forallb_forall. intros x Hx. rewrite Forall_forall in Hf. specialize (Hf x).
        rewrite list_elem_of_In in Hf. specialize (Hf Hx). lia. }
    cbn [andb mbind exit_bind]. rewrite <- rounds_valid.
    pose proof (check_groups_spec groups quorums parents 32 c ltac:(lia) Hl) as H.
    specialize (H ltac:(intros g; rewrite Hc, H0, counts_start; lia)).
    destruct (forallb _ _); [destruct H as [c' H]; by exists c, c'|].
    destruct H as (code & H & Hcode). exists code. split; [exact H|lia].
  - destruct Hc as [-> Hn]; [intros g; rewrite H0; lia|].
    replace (forallb (λ g, g <? 32) groups) with false.
    2:{ symmetry. apply not_true_iff_false. intros Ht. apply Hn, Forall_forall. intros x Hx.
        rewrite forallb_forall in Ht. specialize (Ht x). rewrite <- list_elem_of_In in Ht. specialize (Ht Hx). lia. }
    exists 102. split; [done|lia].
Qed.
End mctree.
