(* ===== verification/McmsSpec.v ===== *)
(** * McmsSpec: what the multisig contract guarantees

    Its storage stays well-formed, which configurations and roots it accepts, why an operation is
    executed, and that no root is set twice. *)

From S2P Require Import Prelude Tolk Slices Ownable McmsContract McmsTree.

Module mcspec.
Import slices mc mctree.
Local Open Scope Z_scope.

(** ** The signers of a configuration *)

(** The signers [setConfig] makes of the keys and their groups, numbered from [i]. *)
Fixpoint make_signers (i : Z) (keys groups : list Z) : list Signer :=
  match keys, groups with
  | k :: keys, g :: groups => {| key := k; index := i; group := g |} :: make_signers (i + 1) keys groups
  | _, _ => []
  end.

Fixpoint increasing (prev : Z) (keys : list Z) : bool :=
  match keys with [] => true | k :: keys => (prev <? k) && increasing k keys end.

(** Storing every signer of a list under the number [f] gives it. *)
Definition put_all (f : Signer → Z) (l : list Signer) (m : gmap Z Signer) : gmap Z Signer :=
  foldl (λ m s, <[f s := s]> m) m l.

Lemma put_all_lookup f l m k s :
  NoDup (f <$> l) →
  put_all f l m !! k = Some s ↔ (s ∈ l ∧ f s = k) ∨ (k ∉ f <$> l ∧ m !! k = Some s).
Proof.
  unfold put_all. revert m. induction l as [|x l IH]; intros m Hn; [set_solver|].
  rewrite fmap_cons in Hn |- *. apply NoDup_cons in Hn as [Hx Hn]. cbn [foldl]. rewrite IH by done.
  rewrite lookup_insert, !elem_of_cons. case_decide as E.
  - split.
    + intros [[H1 H2]|[H1 [= ->]]]; [left; by split; [right|]|left; by split; [left|]].
    + intros [[[->|H1] H2]|[H1 H2]]; [right; by subst|by left; split|]. exfalso. apply H1. by left.
  - split.
    + intros [[H1 H2]|[H1 H2]]; [left; by split; [right|]|right]. split; [|done]. intros [->|H3]; done.
    + intros [[[->|H1] H2]|[H1 H2]]; [done|by left; split|right]. split; [|done]. intros H3. apply H1. by right.
Qed.

Lemma increasing_gt prev keys k : increasing prev keys = true → k ∈ keys → prev < k.
Proof.
  revert prev. induction keys as [|x keys IH]; intros prev; cbn; [by intros _ ?%elem_of_nil|].
  intros [H1 H2]%andb_true_iff [->|Hk]%elem_of_cons; [lia|]. specialize (IH x H2 Hk). lia.
Qed.

Lemma increasing_sorted prev keys : increasing prev keys = true ↔ StronglySorted Z.lt (prev :: keys).
Proof.
  revert prev. induction keys as [|k keys IH]; intros prev; cbn [increasing].
  - split; [intros _; repeat constructor|done].
  - rewrite andb_true_iff, IH, Z.ltb_lt. split.
    + intros [H1 H2]. pose proof (StronglySorted_inv H2) as [_ Hk]. constructor; [done|].
      constructor; [done|]. eapply Forall_impl; [exact Hk|]. cbn. lia.
    + intros H. apply StronglySorted_inv in H as [H [Hp _]%Forall_cons]. done.
Qed.

Lemma increasing_NoDup prev keys : increasing prev keys = true → NoDup keys.
Proof.
  revert prev. induction keys as [|x keys IH]; intros prev; cbn; [constructor|].
  intros [H1 H2]%andb_true_iff. constructor; [|by eapply IH].
  intros Hx. pose proof (increasing_gt x keys x H2 Hx). lia.
Qed.

Lemma add_signers_spec keys groups i prev m d :
  (length keys ≤ length groups)%nat → 0 ≤ i → i + Z.of_nat (length keys) ≤ 256 →
  add_signers keys groups i prev m d =
  if increasing prev keys
  then Done (put_all key (make_signers i keys groups) m, put_all index (make_signers i keys groups) d)
  else Throw 106.
Proof.
  revert groups i prev m d. induction keys as [|k keys IH]; intros [|g groups] i prev m d Hl Hi Hb;
    [done|done|cbn in Hl; lia|]. cbn [add_signers increasing make_signers length] in *.
  destruct (prev <? k); [|done]. cbn [assert mbind exit_bind andb].
  rewrite storeUint_ok by lia. cbn [mbind exit_bind]. rewrite IH by lia. done.
Qed.

(** With more keys than groups the groups run out. *)
Lemma add_signers_short keys groups i prev m d :
  (length groups < length keys)%nat → ∃ code, add_signers keys groups i prev m d = Throw code.
Proof.
  revert groups i prev m d. induction keys as [|k keys IH]; intros groups i prev m d Hl; [cbn in Hl; lia|].
  cbn [add_signers]. destruct (prev <? k); [|by eexists]. cbn [assert mbind exit_bind].
  destruct groups as [|g groups]; [by eexists|]. destruct (storeUint i 8) as [i'|]; [|by eexists].
  cbn [mbind exit_bind]. apply IH. cbn in Hl. lia.
Qed.

(** What a contract stores of a valid list of signers. *)
Record valid_signers (l : list Signer) : Prop := {
  few_signers : (length l ≤ 200)%nat;
  keys_NoDup : NoDup (key <$> l);
  indices_NoDup : NoDup (index <$> l);
  groups_bound : Forall (λ s, 0 ≤ group s < 32) l;
}.

Lemma make_signers_key keys groups i :
  (length keys ≤ length groups)%nat → key <$> make_signers i keys groups = keys.
Proof.
  revert i groups. induction keys as [|k keys IH]; intros i [|g groups] Hl; [done|done|cbn in Hl; lia|].
  cbn. f_equal. apply IH. cbn in Hl. lia.
Qed.

Lemma make_signers_group keys groups i :
  (length keys ≤ length groups)%nat → group <$> make_signers i keys groups = take (length keys) groups.
Proof.
  revert i groups. induction keys as [|k keys IH]; intros i [|g groups] Hl; [done|done|cbn in Hl; lia|].
  cbn. f_equal. apply IH. cbn in Hl. lia.
Qed.

Lemma make_signers_index keys groups i :
  (length keys ≤ length groups)%nat → index <$> make_signers i keys groups = seqZ i (Z.of_nat (length keys)).
Proof.
  revert i groups. induction keys as [|k keys IH]; intros i [|g groups] Hl; [done|done|cbn in Hl; lia|].
  cbn [make_signers length] in *. rewrite seqZ_cons by lia. rewrite fmap_cons, IH by lia.
  cbn [index]. do 2 f_equal; lia.
Qed.

Lemma make_signers_valid keys groups :
  (length keys ≤ length groups)%nat → (length keys ≤ 200)%nat → increasing 0 keys = true →
  Forall (λ g, 0 ≤ g < 32) groups → valid_signers (make_signers 0 keys groups).
Proof.
  intros Hl Hn Hi Hg. split.
  - rewrite <- (length_fmap key), make_signers_key; done.
  - rewrite make_signers_key by done. by eapply increasing_NoDup.
  - rewrite make_signers_index by done. apply NoDup_seqZ.
  - apply (Forall_take _ (length keys)) in Hg. rewrite <- (make_signers_group keys groups 0 Hl) in Hg.
    by apply Forall_fmap in Hg.
Qed.

(** Removing the signers of the old configuration leaves none. *)
Lemma remove_signers_empty l :
  valid_signers l → remove_signers (put_all index l ∅) (put_all key l ∅) = ∅.
Proof.
  intros Hv. apply map_empty. intros k. unfold remove_signers.
  destruct (put_all key l ∅ !! k) as [s|] eqn:E.
  - apply put_all_lookup in E as [[Hs <-]|[_ ?]]; [|done|apply Hv].
    assert (s ∈ (map_to_list (put_all index l ∅)).*2) as Hin.
    { apply list_elem_of_fmap. exists (index s, s). split; [done|]. apply elem_of_map_to_list.
      apply put_all_lookup; [apply Hv|by left]. }
    revert Hin. generalize ((map_to_list (put_all index l ∅)).*2). intros olds Hin.
    induction olds as [|o olds IH]; [by apply elem_of_nil in Hin|]. cbn. rewrite lookup_delete.
    case_decide; [done|]. apply IH. apply elem_of_cons in Hin as [->|Hin]; done.
  - generalize ((map_to_list (put_all index l ∅)).*2). intros olds.
    induction olds as [|o olds IH]; [done|]. cbn. rewrite lookup_delete. by case_decide.
Qed.

(** ** The contract's storage *)

(** The configuration in force is valid, and the signers are those of the configuration: [groups]
    are the groups it was checked with, which start with those of the signers. *)
Definition wf (s : MCMS_Data) : Prop :=
  ∃ l groups, valid_signers l ∧ signers s = put_all key l ∅ ∧ config_signers (config s) = put_all index l ∅ ∧
    (group <$> l) `prefix_of` groups ∧ (length groups ≤ 200)%nat ∧
    valid_groups groups (groupQuorums (config s)) (groupParents (config s)) ∧
    (∀ g, 0 ≤ byte_at (groupQuorums (config s)) g) ∧ (∀ g, 0 ≤ byte_at (groupParents (config s)) g).

(** The bytes of the dictionaries of a message are bytes. *)
Definition bytes_ok (quorums parents : gmap Z Z) : Prop :=
  (∀ g, 0 ≤ byte_at quorums g) ∧ (∀ g, 0 ≤ byte_at parents g).

(** What is read of the keys and groups of a message. *)
Definition keys_of (keys : cell) : list uint256 := (vec (loadUint 256) keys).1.
Definition groups_of (groups : cell) : list Z := (vec (loadUint 8) groups).1.
Definition read_to_end {T} (v : list T * exit ()) : bool := match v.2 with Done _ => true | Throw _ => false end.

(** What [setConfig] accepts. *)
Definition acceptable (keys groups : cell) (quorums parents : gmap Z Z) : bool :=
  match size 32 keys, size 1 groups with
  | Done n, Done n' =>
      (0 <? n) && (n <=? 200) && (n =? n') && (forallb (λ g, g <? 32) (groups_of groups) &&
      valid_groupsb (groups_of groups) quorums parents) && read_to_end (vec (loadUint 8) groups) &&
      (length (keys_of keys) <=? length (groups_of groups))%nat && increasing 0 (keys_of keys) &&
      read_to_end (vec (loadUint 256) keys)
  | _, _ => false
  end.

(** The signers of a configuration message. *)
Definition message_signers (keys groups : cell) : list Signer := make_signers 0 (keys_of keys) (groups_of groups).

Lemma setConfig_value e sender q keys groups quorums parents clear s :
  wf s →
  let l := message_signers keys groups in
  let cfg := {| config_signers := put_all index l ∅; groupQuorums := quorums; groupParents := parents |} in
  let s1 := set_config (put_all key l ∅) cfg s in
  if (sender =? ownable.owner (own s)) && acceptable keys groups quorums parents
  then setConfig e sender q keys groups quorums parents clear s =
    Done (tt, if clear then clear_root e s1 else s1,
      [Send (Message false 0 sender (ConfigSet q cfg clear)) SEND_MODE_CARRY_ALL_REMAINING_MESSAGE_VALUE])
  else ∃ code, setConfig e sender q keys groups quorums parents clear s = Throw code.
Proof.
  intros (l0 & _ & Hv & Hs & Hc & _) l cfg s1. unfold setConfig. rewrite get_bind, bind_run.
  unfold within, ownable.requireOwner. rewrite get_bind.
  destruct (sender =? ownable.owner (own s)) eqn:Eo; cbn [require assert lift andb]; [|by eexists].
  unfold acceptable. rewrite lift_bind. destruct (size 32 keys) as [n|] eqn:En; [|by eexists].
  apply (size_uint 32) in En as (Hn & Hk & _); [|lia]. change (Z.of_nat (length (keys_of keys)) ≤ n) in Hk.
  rewrite require_bind, lift_bind. unfold MAX_NUM_SIGNERS.
  replace (negb ((n =? 0) || (200 <? n))) with ((0 <? n) && (n <=? 200)) by lia.
  destruct (size 1 groups) as [n'|] eqn:En'.
  2:{ destruct (_ && _); by eexists. }
  apply (size_uint 1) in En' as (_ & Hg & _); [|lia]. change (Z.of_nat (length (groups_of groups)) ≤ n') in Hg.
  destruct ((0 <? n) && (n <=? 200)) eqn:El; [|by eexists]. rewrite require_bind.
  destruct (n =? n') eqn:Ee; [|by eexists]. cbn [andb].
  fold (keys_of keys) (groups_of groups). rewrite !lift_bind.
  pose proof (groups_checked (groups_of groups) quorums parents ltac:(lia)) as Hgr. unfold read_to_end.
  destruct (forallb _ _ && valid_groupsb _ quorums parents); cbn [andb].
  2:{ destruct Hgr as (code & Hgr & _).
      destruct (count_signers (groups_of groups) ∅); cbn [mbind exit_bind] in Hgr; [|by eexists].
      rewrite lift_bind. destruct (vec _ groups).2; [|by eexists]. rewrite lift_bind, Hgr. by eexists. }
  destruct Hgr as (c & c' & -> & Hgr). rewrite lift_bind. destruct (vec _ groups).2; [|by eexists]. cbn [andb].
  rewrite lift_bind, Hgr, lift_bind, Hs, Hc, remove_signers_empty by done.
  destruct (Nat.leb_spec (length (keys_of keys)) (length (groups_of groups))) as [Hlen|Hlen]; cbn [andb].
  2:{ destruct (add_signers_short _ _ 0 0 ∅ ∅ Hlen) as [code ->]. by eexists. }
  rewrite add_signers_spec by lia. destruct (increasing 0 _); cbn [andb]; [|by eexists].
  rewrite lift_bind. destruct (vec _ keys).2; [|by eexists].
  cbn [fst snd]. rewrite bind_run. by destruct clear.
Qed.

(** At most as many keys and groups are read as are counted; groups are bytes. *)
Lemma message_lengths keys groups n :
  size 32 keys = Done n → size 1 groups = Done n →
  Z.of_nat (length (keys_of keys)) ≤ n ∧ Z.of_nat (length (groups_of groups)) ≤ n.
Proof.
  intros H1 H2. split.
  - apply (size_uint 32) in H1 as (_ & H1 & _); [exact H1|lia].
  - apply (size_uint 1) in H2 as (_ & H2 & _); [exact H2|lia].
Qed.

Lemma groups_range groups : Forall (λ g, g < 32) (groups_of groups) → Forall (λ g, 0 ≤ g < 32) (groups_of groups).
Proof.
  intros H. pose proof (vec_uint_range 8 groups) as H'. unfold groups_of in *. rewrite Forall_forall in *.
  intros g Hg. specialize (H g Hg). specialize (H' g Hg). lia.
Qed.

Lemma wf_keep s s' :
  wf s → signers s' = signers s → config s' = config s → wf s'.
Proof. intros (l & groups & H) H1 H2. exists l, groups. by rewrite H1, H2. Qed.

Lemma groups_below (groups : list Z) : forallb (λ g, g <? 32) groups = true ↔ Forall (λ g, g < 32) groups.
Proof.
  rewrite forallb_forall, Forall_forall. setoid_rewrite <- list_elem_of_In. by setoid_rewrite Z.ltb_lt.
Qed.

(** What is acceptable, in words. *)
Lemma acceptable_spec keys groups quorums parents :
  acceptable keys groups quorums parents = true ↔
  ∃ n, size 32 keys = Done n ∧ size 1 groups = Done n ∧ 1 ≤ n ≤ 200 ∧
    (vec (loadUint 256) keys).2 = Done tt ∧ (vec (loadUint 8) groups).2 = Done tt ∧
    (length (keys_of keys) ≤ length (groups_of groups))%nat ∧ Forall (λ g, g < 32) (groups_of groups) ∧
    StronglySorted Z.lt (0 :: keys_of keys) ∧ valid_groups (groups_of groups) quorums parents.
Proof.
  unfold acceptable, read_to_end. destruct (size 32 keys) as [n|], (size 1 groups) as [n'|];
    try (split; [discriminate|by intros (? & [=] & [=] & _)]).
  rewrite !andb_true_iff, groups_below, valid_groupsb_spec, increasing_sorted, Z.leb_le, Z.eqb_eq, Nat.leb_le. split.
  - intros [[[[[[[H1 H2] <-] [H3 H4]] H5] H6] H7] H8]. exists n. split_and!; try done; try lia.
    + by destruct (vec _ keys).2 as [[]|].
    + by destruct (vec _ groups).2 as [[]|].
  - intros (m & [= ->] & [= ->] & H1 & H2 & H3 & H). rewrite H2, H3. split_and!; try done; try lia; apply H.
Qed.

(** The signers of an acceptable message. *)
Lemma message_signers_valid keys groups quorums parents :
  acceptable keys groups quorums parents = true →
  let l := message_signers keys groups in
  valid_signers l ∧ key <$> l = keys_of keys ∧ (group <$> l) `prefix_of` groups_of groups ∧
  (linear keys = true → linear groups = true → group <$> l = groups_of groups ∧ size 32 keys = Done (Z.of_nat (length l))).
Proof.
  intros (n & En & En' & Hn & Hk' & Hg' & Hl & Hg & Hk & Hgr)%acceptable_spec. cbn zeta. unfold message_signers.
  destruct (message_lengths _ _ _ En En') as [Hlk Hlg]. rewrite make_signers_group, make_signers_key by done.
  split; [apply make_signers_valid; [done|lia|by apply increasing_sorted|by apply groups_range]|].
  split; [done|]. split; [apply prefix_take|]. intros H1 H2.
  apply (size_uint 32) in En as E1; [|lia]. apply (size_uint 1) in En' as E2; [|lia].
  destruct E1 as (_ & _ & E1), E2 as (_ & _ & E2). specialize (E1 Hk' H1). specialize (E2 Hg' H2).
  fold (keys_of keys) in E1. change (Z.of_nat (length (groups_of groups)) = n) in E2.
  change (Z.of_nat (length (keys_of keys)) = n) in E1.
  rewrite <- (length_fmap key), make_signers_key by done. rewrite En. split; [apply take_ge; lia|by f_equal].
Qed.

Lemma setConfig_wf e sender q keys groups quorums parents clear s u s' o :
  wf s → bytes_ok quorums parents →
  setConfig e sender q keys groups quorums parents clear s = Done (u, s', o) → wf s'.
Proof.
  intros Hwf (Hq & Hp) H. pose proof (setConfig_value e sender q keys groups quorums parents clear s Hwf) as Hv.
  cbn zeta in Hv. destruct (_ && acceptable keys groups quorums parents) eqn:E.
  2:{ destruct Hv as (code & Hv). rewrite Hv in H. discriminate. }
  rewrite Hv in H. injection H as <- <- _. apply andb_true_iff in E as [_ E].
  destruct (message_signers_valid _ _ _ _ E) as (Hval & _ & Hpre & _).
  apply acceptable_spec in E as (n & En & En' & Hn & _ & _ & _ & _ & _ & Hgr).
  destruct (message_lengths _ _ _ En En') as [_ Hlg].
  exists (message_signers keys groups), (groups_of groups). destruct clear; split_and!; try done; lia.
Qed.

(** ** Signatures *)

Section signatures.
Context (isSignatureValid : uint256 → Signature → uint256 → bool) (h : uint256).

(** The groups of the signers that signed. *)
Definition group_of (s : MCMS_Data) (k : uint256) : Z :=
  match signers s !! k with Some sg => group sg | None => 0 end.
Definition signed_groups (s : MCMS_Data) (sigs : list Signature) : list Z := group_of s <$> (signer <$> sigs).

(** Valid signatures of registered signers, by increasing keys. *)
Definition signatures_ok (s : MCMS_Data) (prev : Z) (sigs : list Signature) : bool :=
  forallb (λ sg, isSignatureValid h sg (signer sg) && bool_decide (is_Some (signers s !! signer sg))) sigs &&
  increasing prev (signer <$> sigs).

Lemma registered s l k sg :
  valid_signers l → signers s = put_all key l ∅ → signers s !! k = Some sg →
  key sg = k ∧ 0 ≤ group sg < 32 ∧ k ∈ key <$> l.
Proof.
  intros Hv -> [[Hin <-]|[_ ?]]%put_all_lookup; [|done|apply Hv].
  pose proof (groups_bound l Hv) as Hg. rewrite Forall_forall in Hg.
  split; [done|]. split; [by apply Hg|by apply list_elem_of_fmap_2].
Qed.

Lemma wf_tree s : wf s → tree (config s).
Proof.
  intros (l & gs & _ & _ & _ & _ & _ & Hg & _ & Hp) j Hj. destruct (Hg j ltac:(lia)) as [H _].
  specialize (Hp j). specialize (H ltac:(lia)). lia.
Qed.

Lemma in_group_fmap_bound s (ks : list Z) g : 0 ≤ in_group (group_of s <$> ks) g ≤ Z.of_nat (length ks).
Proof. unfold in_group. pose proof (count_if_bound (Z.eqb g) (group_of s <$> ks)) as H. by rewrite length_fmap in H. Qed.

(** The votes after the signatures, when [done] are the signers counted before. *)
Lemma count_votes_spec s l sigs prev counts (done : list Z) :
  wf s → valid_signers l → signers s = put_all key l ∅ →
  NoDup done → (∀ k, k ∈ done → k ≤ prev ∧ k ∈ key <$> l) →
  (∀ g, 0 ≤ byte_at counts g) → tally (config s) (group_of s <$> done) (byte_at counts) →
  if signatures_ok s prev sigs
  then ∃ counts', count_votes isSignatureValid h (signers s) (config s) sigs prev counts = Done counts' ∧
    (∀ g, 0 ≤ byte_at counts' g) ∧
    ∀ g, 0 ≤ g < 32 → byte_at counts' g = in_group (group_of s <$> done) g + in_group (signed_groups s sigs) g +
      kids (groupParents (config s)) (reached (config s) (byte_at counts')) g
  else ∃ code, count_votes isSignatureValid h (signers s) (config s) sigs prev counts = Throw code ∧ 106 ≤ code ≤ 107.
Proof.
  intros Hwf Hv Hl. revert prev counts done.
  induction sigs as [|sg sigs IH]; intros prev counts ks Hn Hk Hpos Ht.
  { exists counts. split; [done|]. split; [done|]. intros g Hg. cbn. rewrite (Ht g Hg). unfold in_group. cbn. lia. }
  unfold signatures_ok. cbn [forallb fmap list_fmap increasing count_votes].
  destruct (isSignatureValid h sg (signer sg)); cbn [assert mbind exit_bind andb]; [|exists 107; split; [done|lia]].
  destruct (prev <? signer sg) eqn:Ep; cbn [assert mbind exit_bind andb].
  2:{ rewrite !andb_false_r. exists 106. split; [done|lia]. }
  destruct (signers s !! signer sg) as [r|] eqn:Er.
  2:{ rewrite bool_decide_eq_false_2 by (intros [? [=]]). exists 107. split; [done|lia]. }
  rewrite bool_decide_eq_true_2 by done. destruct (registered s l _ r Hv Hl Er) as (Hkey & Hgr & Hin).
  rewrite Hkey, Z.eqb_refl. cbn [assert mbind exit_bind andb].
  assert (NoDup (signer sg :: ks)) as Hn'.
  { constructor; [|done]. intros Hs. destruct (Hk _ Hs). lia. }
  assert (∀ k, k ∈ signer sg :: ks → k ≤ signer sg ∧ k ∈ key <$> l) as Hk'.
  { intros k [->|Hs]%elem_of_cons; [split; [lia|done]|]. destruct (Hk k Hs). split; [lia|done]. }
  assert (length (signer sg :: ks) ≤ 200)%nat as Hlen.
  { etrans; [|apply (few_signers l Hv)]. rewrite <- (length_fmap key).
    apply submseteq_length, NoDup_submseteq; [done|]. intros k Hs. by apply Hk'. }
  assert (group_of s (signer sg) = group r) as Hgo by (unfold group_of; by rewrite Er).
  destruct (vote_tally (config s) (in_group (group_of s <$> (signer sg :: ks))) (wf_tree s Hwf)) with
    (fuel := 257%nat) (g := group r) (counts := counts) as (c1 & -> & Hpos1 & Ht1); [|lia|lia| |done|].
  - intros h0. pose proof (in_group_fmap_bound s (signer sg :: ks) h0). lia.
  - intros h0 Hh. rewrite (Ht h0 Hh). rewrite fmap_cons, Hgo. unfold in_group. cbn [count_if].
    destruct (decide (h0 = group r)) as [->|Hne]; [rewrite Z.eqb_refl|replace (h0 =? group r) with false by lia]; cbn [Z.b2z]; lia.
  - cbn [mbind exit_bind]. specialize (IH (signer sg) c1 (signer sg :: ks) Hn' Hk' Hpos1 Ht1).
    change (signatures_ok s prev (sg :: sigs)) with (signatures_ok s prev (sg :: sigs)).
    unfold signatures_ok in IH. destruct (forallb _ sigs && increasing _ _) eqn:Eb; [|exact IH].
    destruct IH as (c2 & H1 & H2 & H3). exists c2. split; [done|]. split; [done|]. intros g Hg.
    rewrite (H3 g Hg). unfold signed_groups. rewrite !fmap_cons. unfold in_group. cbn [count_if]. lia.
Qed.

(** What [setRoot] requires of the signatures: that they are valid and that the root group is
    successful when the groups of their signers have signed. *)
Definition quorum_signed (s : MCMS_Data) (sigs : list Signature) : bool :=
  signatures_ok s 0 sigs && successful 32 (config s) (signed_groups s sigs) 0.

(** The checks of [setRoot] up to the quorum. *)
Definition quorum_checked (s : MCMS_Data) (sigs : list Signature) : exit () :=
  counts ← count_votes isSignatureValid h (signers s) (config s) sigs 0 ∅;
  match groupQuorums (config s) !! 0 with
  | None => Throw ERROR_MISSING_CONFIG
  | Some rootQuorum =>
      assert (negb (rootQuorum =? 0)) ERROR_MISSING_CONFIG;;
      match counts !! 0 with
      | None => Throw ERROR_INSUFFICIENT_SIGNERS
      | Some rootVotes => assert (negb (rootVotes <? rootQuorum)) ERROR_INSUFFICIENT_SIGNERS
      end
  end.

Lemma empty_tally cfg g : reached cfg (byte_at ∅) g = (negb (byte_at (groupQuorums cfg) g =? 0) && (byte_at (groupQuorums cfg) g <=? 0)).
Proof. done. Qed.

Lemma quorum_checked_spec s sigs :
  wf s →
  if quorum_signed s sigs then quorum_checked s sigs = Done tt
  else ∃ code, quorum_checked s sigs = Throw code ∧ code ∈ [106; 107; 108; 120].
Proof.
  intros Hw. pose proof Hw as (l & gs & Hv & Hl & _ & _ & _ & _ & Hq & _). unfold quorum_signed, quorum_checked.
  assert (tally (config s) (group_of s <$> []) (byte_at ∅)) as Ht.
  { intros g Hg. cbn. rewrite kids_and. rewrite (count_if_ext _ (λ _, false)); [by vm_compute|].
    intros j _. rewrite empty_tally. specialize (Hq j). lia. }
  pose proof (count_votes_spec s l sigs 0 ∅ [] Hw Hv Hl) as H.
  specialize (H (NoDup_nil_2) ltac:(by intros ? ?%elem_of_nil) ltac:(done) Ht).
  destruct (signatures_ok s 0 sigs); cbn [andb].
  2:{ destruct H as (code & -> & Hc). exists code. split; [done|]. set_unfold. lia. }
  destruct H as (c & -> & Hpos & Hc). cbn [mbind exit_bind].
  rewrite (tally_successful _ _ (byte_at c)); [|by apply wf_tree| |lia|lia].
  2:{ intros g Hg. rewrite (Hc g Hg). unfold in_group. cbn. lia. }
  unfold reached. specialize (Hq 0). unfold byte_at in *.
  destruct (groupQuorums (config s) !! 0) as [q|]; cbn [default] in *.
  2:{ cbn. exists 120. set_solver. }
  unfold Datatypes.id in *. destruct (q =? 0) eqn:E0; cbn [negb andb assert mbind exit_bind]; [exists 120; set_solver|].
  specialize (Hpos 0). destruct (c !! 0) as [v|]; cbn [default] in *; unfold Datatypes.id in *.
  - destruct (q <=? v) eqn:Ev; [by replace (v <? q) with false by lia|].
    replace (v <? q) with true by lia. exists 108. split; [done|set_solver].
  - replace (q <=? 0) with false by lia. exists 108. split; [done|set_solver].
Qed.

End signatures.

(** ** Handlers *)

Section contract.
Context (hash : cell → uint256) (isSignatureValid : uint256 → Signature → uint256 → bool).

(** What [setRoot] requires besides the signatures. *)
Definition root_ok (e : env) (s : MCMS_Data) (newRoot : uint256) (newValidUntil : Z)
  (md : RootMetadata) (proof : list uint256) : bool :=
  let count := opCount (expiringRootAndOpCount s) in
  (now e <=? newValidUntil) && verify hash proof newRoot (metadata_leaf hash md) &&
  (globalId e =? md_chainId md) && (getAddress e =? md_multiSig md) &&
  ((count =? postOpCount (rootMetadata s)) || overridePreviousRoot md) &&
  (count =? preOpCount md) && (preOpCount md <=? postOpCount md).

(** Everything it requires. *)
Definition root_accepted (e : env) (s : MCMS_Data) (newRoot : uint256) (newValidUntil : Z)
  (md : RootMetadata) (proof : list uint256) (sigs : list Signature) : bool :=
  let signedHash := signed_hash hash newRoot newValidUntil in
  bool_decide (signedHash ∉ seenSignedHashes s) && quorum_signed isSignatureValid signedHash s sigs &&
  root_ok e s newRoot newValidUntil md proof.

Definition root_set (s : MCMS_Data) (newRoot : uint256) (newValidUntil : Z) (md : RootMetadata) : MCMS_Data :=
  set_root (signed_hash hash newRoot newValidUntil)
    {| root := newRoot; validUntil := newValidUntil; opCount := preOpCount md |} md s.

Lemma setRoot_value e sender q newRoot newValidUntil md proof sigs s :
  wf s →
  if root_accepted e s newRoot newValidUntil md proof sigs
  then setRoot hash isSignatureValid e sender q newRoot newValidUntil md proof sigs s =
    Done (tt, root_set s newRoot newValidUntil md,
      [Send (Message false 0 sender (NewRoot q newRoot newValidUntil md)) SEND_MODE_CARRY_ALL_REMAINING_MESSAGE_VALUE])
  else ∃ code, setRoot hash isSignatureValid e sender q newRoot newValidUntil md proof sigs s = Throw code ∧ 106 ≤ code ≤ 121.
Proof.
  intros Hwf. unfold setRoot, root_accepted, root_ok. rewrite get_bind, require_bind, bool_decide_not.
  destruct (bool_decide _); cbn [negb andb]; [exists 121; split; [done|lia]|].
  set (hh := signed_hash hash newRoot newValidUntil).
  pose proof (quorum_checked_spec isSignatureValid hh s sigs Hwf) as Hq. unfold quorum_checked in Hq. rewrite lift_bind.
  destruct (quorum_signed isSignatureValid hh s sigs); cbn [andb].
  2:{ destruct Hq as (code & Hq & Hc). exists code. split; [|set_unfold; lia].
      destruct (count_votes _ _ _ _ _ _ _) as [c|]; cbn [mbind exit_bind] in Hq; [|by injection Hq as ->].
      rewrite bind_run. destruct (groupQuorums (config s) !! 0) as [rq|]; [|by injection Hq as <-].
      rewrite require_bind. destruct (negb (rq =? 0)); cbn [assert mbind exit_bind] in Hq; [|by injection Hq as <-].
      destruct (c !! 0) as [v|]; [|by injection Hq as <-].
      unfold require. rewrite Hq. done. }
  destruct (count_votes _ _ _ _ _ _ _) as [c|]; cbn [mbind exit_bind] in Hq; [|discriminate].
  erewrite M_bind_next.
  2:{ destruct (groupQuorums (config s) !! 0) as [rq|]; [|discriminate].
      rewrite require_bind. destruct (negb (rq =? 0)); cbn [assert mbind exit_bind] in Hq; [|discriminate].
      destruct (c !! 0) as [v|]; [|discriminate]. unfold require. rewrite Hq. done. }
  rewrite !require_bind.
  replace (negb (newValidUntil <? now e)) with (now e <=? newValidUntil) by lia.
  destruct (now e <=? newValidUntil); cbn [andb]; [|exists 119; split; [done|lia]].
  destruct (verify _ _ _ _); cbn [andb]; [|exists 114; split; [done|lia]].
  destruct (globalId e =? _); cbn [andb]; [|exists 109; split; [done|lia]].
  destruct (getAddress e =? _); cbn [andb]; [|exists 110; split; [done|lia]].
  destruct (_ =? postOpCount _), (overridePreviousRoot md); cbn [andb orb negb].
  all: try (exists 112; split; [done|lia]).
  all: destruct (_ =? preOpCount md); [|exists 113; split; [done|lia]].
  all: destruct (_ <=? _); [done|exists 111; split; [done|lia]].
Qed.

(** What [execute] requires. *)
Definition op_accepted (e : env) (s : MCMS_Data) (op : Op) (proof : list uint256) : bool :=
  let current := expiringRootAndOpCount s in
  (opCount current <? postOpCount (rootMetadata s)) &&
  (op_chainId op =? globalId e) && (op_multiSig op =? getAddress e) && (now e <=? validUntil current) &&
  (nonce op =? opCount current) && verify hash proof (root current) (op_leaf hash op).

Definition op_messages (sender q : Z) (op : Op) : list (action Body) :=
  [Send (Message true (op_value op) (op_to op) (OpData (op_data op))) SEND_MODE_PAY_FEES_SEPARATELY;
   Send (Message false 0 sender (OpExecuted q (nonce op) (op_to op) (op_data op) (op_value op)))
     SEND_MODE_CARRY_ALL_REMAINING_MESSAGE_VALUE].

Lemma execute_value e sender q op proof s :
  if op_accepted e s op proof
  then execute hash e sender q op proof s =
    Done (tt, set_opCount (opCount (expiringRootAndOpCount s) + 1) s, op_messages sender q op)
  else ∃ code, execute hash e sender q op proof s = Throw code ∧ 109 ≤ code ≤ 117.
Proof.
  unfold execute, op_accepted. rewrite get_bind, !require_bind.
  replace (negb (postOpCount (rootMetadata s) <=? opCount (expiringRootAndOpCount s))) with
    (opCount (expiringRootAndOpCount s) <? postOpCount (rootMetadata s)) by lia.
  replace (negb (validUntil (expiringRootAndOpCount s) <? now e)) with
    (now e <=? validUntil (expiringRootAndOpCount s)) by lia.
  destruct (_ <? _); cbn [andb]; [|exists 117; split; [done|lia]].
  destruct (op_chainId op =? _); cbn [andb]; [|exists 109; split; [done|lia]].
  destruct (op_multiSig op =? _); cbn [andb]; [|exists 110; split; [done|lia]].
  destruct (now e <=? _); cbn [andb]; [|exists 115; split; [done|lia]].
  destruct (nonce op =? _); cbn [andb]; [|exists 116; split; [done|lia]].
  destruct (verify _ _ _ _); cbn [andb]; [done|exists 114; split; [done|lia]].
Qed.

(** Every handled message, with its effect on the storage. *)
Definition effect (i : input) (s s' : MCMS_Data) (o : list (action Body)) : Prop :=
  let e := input_env i in
  match msg i with
  | TopUp _ => s' = s ∧ o = []
  | SetRoot q r vu md proof sigs =>
      root_accepted e s r vu md proof sigs = true ∧ s' = root_set s r vu md ∧
      o = [Send (Message false 0 (sender i) (NewRoot q r vu md)) SEND_MODE_CARRY_ALL_REMAINING_MESSAGE_VALUE]
  | Execute q op proof =>
      op_accepted e s op proof = true ∧
      s' = set_opCount (opCount (expiringRootAndOpCount s) + 1) s ∧ o = op_messages (sender i) q op
  | SetConfig q keys groups quorums parents clear =>
      let l := message_signers keys groups in
      let cfg := {| config_signers := put_all index l ∅; groupQuorums := quorums; groupParents := parents |} in
      let s1 := set_config (put_all key l ∅) cfg s in
      sender i = ownable.owner (own s) ∧ acceptable keys groups quorums parents = true ∧
      s' = (if clear then clear_root e s1 else s1) ∧
      o = [Send (Message false 0 (sender i) (ConfigSet q cfg clear)) SEND_MODE_CARRY_ALL_REMAINING_MESSAGE_VALUE]
  | Owner _ => ∃ v, s' = set_own v s
  end.

Lemma handled_on_message i s u s' o :
  onInternalMessage hash isSignatureValid i s = Done (u, s', o) →
  on_message hash isSignatureValid (input_env i) (sender i) (msg i) s = Done (tt, s', o).
Proof.
  unfold onInternalMessage, storeAsContractData. intros H.
  apply M_bind_done in H as ([] & s1 & o1 & o2 & H & H2 & ->). rewrite H. clear H. inv_tolk.
  by rewrite app_nil_r.
Qed.

Lemma handled_effect i s u s' o :
  wf s → onInternalMessage hash isSignatureValid i s = Done (u, s', o) → effect i s s' o.
Proof.
  intros Hwf H%handled_on_message. destruct i as [e snd m]. unfold effect. cbn in *. destruct m as [q|q r vu md proof sigs|q op proof|q keys groups quorums parents clear|m];
    cbn [on_message] in H.
  - by injection H as <- <-.
  - pose proof (setRoot_value e snd q r vu md proof sigs s Hwf) as Hv.
    destruct (root_accepted _ _ _ _ _ _ _); [|destruct Hv as (code & Hv & _)]; rewrite Hv in H; [|discriminate].
    by injection H as <- <-.
  - pose proof (execute_value e snd q op proof s) as Hv.
    destruct (op_accepted _ _ _ _); [|destruct Hv as (code & Hv & _)]; rewrite Hv in H; [|discriminate].
    by injection H as <- <-.
  - pose proof (setConfig_value e snd q keys groups quorums parents clear s Hwf) as Hv.
    cbn zeta in Hv. destruct (_ && _) eqn:E; [|destruct Hv as (code & Hv)]; rewrite Hv in H; [|discriminate].
    injection H as <- <-. apply andb_true_iff in E as [E1 E2]. apply Z.eqb_eq in E1. done.
  - inv_tolk. by eexists.
Qed.

(** The bytes of the dictionaries of a configuration message are bytes. *)
Definition message_ok (i : input) : Prop :=
  match msg i with SetConfig _ _ _ quorums parents _ => bytes_ok quorums parents | _ => True end.

Lemma handled_wf i s u s' o :
  wf s → message_ok i → onInternalMessage hash isSignatureValid i s = Done (u, s', o) → wf s'.
Proof.
  intros Hwf Hok H. pose proof H as He%handled_effect; [|done]. unfold effect in He. unfold message_ok in Hok.
  apply handled_on_message in H. destruct (msg i).
  - destruct He as [-> _]. done.
  - destruct He as (_ & -> & _). by apply (wf_keep s).
  - destruct He as (_ & -> & _). by apply (wf_keep s).
  - eapply setConfig_wf; [exact Hwf|exact Hok|exact H].
  - destruct He as [v ->]. by apply (wf_keep s).
Qed.

(** ** What the contract has done *)

Abbreviation handled_step := (step (I:=input) (St:=MCMS_Data) (B:=Body)).

(** The nonce of an executed operation. *)
Definition executed (st : handled_step) : option Z :=
  match msg (inp st) with Execute _ op _ => Some (nonce op) | _ => None end.

(** A handled step that set a root: signed by a quorum of the signers of the configuration in
    force, with a proof of its metadata, and still valid. *)
Definition root_signed (st : handled_step) (r : uint256) (vu : Z) (md : RootMetadata) : Prop :=
  ∃ q proof sigs, msg (inp st) = SetRoot q r vu md proof sigs ∧
    quorum_signed isSignatureValid (signed_hash hash r vu) (pre st) sigs = true ∧
    verify hash proof r (metadata_leaf hash md) = true ∧
    now (input_env (inp st)) ≤ vu ∧
    opCount (expiringRootAndOpCount (pre st)) = preOpCount md.

(** The operations still to be executed, if any, are under the root a quorum signed. *)
Definition pending_signed (past : list handled_step) (s : MCMS_Data) : Prop :=
  let cur := expiringRootAndOpCount s in
  opCount cur < postOpCount (rootMetadata s) →
  ∃ st, st ∈ past ∧ root_signed st (root cur) (validUntil cur) (rootMetadata s) ∧
    preOpCount (rootMetadata s) ≤ opCount cur.

(** Why an operation was executed. *)
Definition op_justified (past : list handled_step) (st : handled_step) : Prop :=
  match msg (inp st) with
  | Execute q op proof =>
      let e := input_env (inp st) in
      out st = op_messages (sender (inp st)) q op ∧
      op_chainId op = globalId e ∧ op_multiSig op = getAddress e ∧
      ∃ st' r vu md, st' ∈ past ∧ root_signed st' r vu md ∧ now e ≤ vu ∧
        verify hash proof r (op_leaf hash op) = true ∧ preOpCount md ≤ nonce op < postOpCount md
  | _ => True
  end.

Definition contract_history (s0 : MCMS_Data) (past : list handled_step) (s : MCMS_Data) : Prop :=
  wf s ∧ pending_signed past s ∧
  omap executed past = seqZ (opCount (expiringRootAndOpCount s0)) (Z.of_nat (length (omap executed past))) ∧
  opCount (expiringRootAndOpCount s) = opCount (expiringRootAndOpCount s0) + Z.of_nat (length (omap executed past)) ∧
  ∀ h1 st h2, past = h1 ++ st :: h2 → op_justified h1 st.

Lemma executed_root st r vu md : root_signed st r vu md → executed st = None.
Proof. intros (q & proof & sigs & Em & _). unfold executed. by rewrite Em. Qed.

Lemma omap_snoc past (st : handled_step) :
  omap executed (past ++ [st]) = omap executed past ++ match executed st with Some n => [n] | None => [] end.
Proof. rewrite omap_app. cbn. by destruct (executed st). Qed.

Lemma justified_step past i s u s' o :
  wf s → pending_signed past s → onInternalMessage hash isSignatureValid i s = Done (u, s', o) →
  op_justified past (Step s i o).
Proof.
  intros Hwf Hp He%handled_effect; [|done]. unfold effect in He. unfold op_justified. cbn.
  destruct (msg i) as [| |q op proof| |]; try done. destruct He as (Ha & _ & ->).
  unfold op_accepted in Ha. split; [done|]. do 2 (split; [lia|]).
  destruct Hp as (st & Hin & Hst & Hpre); [lia|].
  eexists st, _, _, _. split; [done|]. split; [exact Hst|]. split; [lia|]. split; [|lia].
  by apply andb_true_iff in Ha as [_ Ha].
Qed.

Lemma pending_step past i s u s' o :
  wf s → pending_signed past s → onInternalMessage hash isSignatureValid i s = Done (u, s', o) →
  pending_signed (past ++ [Step s i o]) s'.
Proof.
  intros Hwf Hp He%handled_effect; [|done]. unfold effect in He.
  assert (Hkeep : ∀ t, expiringRootAndOpCount t = expiringRootAndOpCount s → rootMetadata t = rootMetadata s →
    pending_signed (past ++ [Step s i o]) t).
  { intros t E1 E2 Hlt. rewrite E1, E2 in *. destruct (Hp Hlt) as (st & Hin & H).
    exists st. split; [apply elem_of_app; by left|done]. }
  destruct (msg i) as [q|q r vu md proof sigs|q op proof|q keys groups quorums parents clear|m] eqn:Em.
  - destruct He as [-> _]. by apply Hkeep.
  - destruct He as (Ha & -> & _). intros Hlt. cbn in *. exists (Step s i o).
    split; [apply elem_of_app; right; by apply list_elem_of_singleton|].
    unfold root_accepted, root_ok in Ha. rewrite !andb_true_iff in Ha. split; [|lia].
    exists q, proof, sigs. cbn. destruct Ha as [[_ Hq] [[[[[[H1 H2] _] _] _] H6] _]]. split_and!; try done; lia.
  - destruct He as (_ & -> & _). intros Hlt. cbn in *. destruct Hp as (st & Hin & Hst & Hpre); [lia|].
    exists st. split; [apply elem_of_app; by left|]. split; [done|lia].
  - destruct He as (_ & _ & -> & _). destruct clear; [|by apply Hkeep]. intros Hlt. cbn in *. lia.
  - destruct He as [v ->]. by apply Hkeep.
Qed.

Lemma count_step i s u s' o :
  wf s → onInternalMessage hash isSignatureValid i s = Done (u, s', o) →
  match executed (Step s i o) with
  | Some n => n = opCount (expiringRootAndOpCount s) ∧ opCount (expiringRootAndOpCount s') = n + 1
  | None => opCount (expiringRootAndOpCount s') = opCount (expiringRootAndOpCount s)
  end.
Proof.
  intros Hwf He%handled_effect; [|done]. unfold effect in He. unfold executed. cbn.
  destruct (msg i) as [q|q r vu md proof sigs|q op proof|q keys groups quorums parents clear|m].
  - by destruct He as [-> _].
  - destruct He as (Ha & -> & _). cbn. unfold root_accepted, root_ok in Ha. lia.
  - destruct He as (Ha & -> & _). cbn. unfold op_accepted in Ha. lia.
  - destruct He as (_ & _ & -> & _). by destruct clear.
  - by destruct He as [v ->].
Qed.

Lemma mcms_history_step s0 past i s u s' o :
  message_ok i → contract_history s0 past s → onInternalMessage hash isSignatureValid i s = Done (u, s', o) →
  contract_history s0 (past ++ [Step s i o]) s'.
Proof.
  intros Hi (Hwf & Hp & Hn & Hc & Hj) H.
  split; [by eapply handled_wf|]. split; [by eapply pending_step|].
  pose proof (count_step _ _ _ _ _ Hwf H) as Hstep. rewrite omap_snoc.
  split; [|split].
  - destruct (executed _) as [n|]; [|by rewrite app_nil_r]. destruct Hstep as [-> _].
    rewrite length_app, Nat2Z.inj_add, seqZ_app by lia. rewrite <- Hn. f_equal. by rewrite Hc.
  - rewrite length_app. destruct (executed _) as [n|]; cbn [length]; lia.
  - intros h1 st h2 [(-> & -> & _)|(h3 & _ & ->)]%snoc_cases; [by eapply justified_step|by apply (Hj h1 st h3)].
Qed.

Lemma contract_run ins s0 :
  wf s0 → postOpCount (rootMetadata s0) ≤ opCount (expiringRootAndOpCount s0) → Forall message_ok ins →
  contract_history s0 (handled (onInternalMessage hash isSignatureValid) ins s0)
    (run (onInternalMessage hash isSignatureValid) ins s0).
Proof.
  intros Hwf H0 Hins. rewrite Forall_forall in Hins. apply run_history.
  - intros h i s u s' o Hi. by apply mcms_history_step, Hins.
  - split; [done|]. split; [intros Hlt; lia|]. split; [done|]. split; [cbn; lia|].
    intros h1 st h2 E. by destruct h1.
Qed.

(** The hash a handled [setRoot] marks as seen. *)
Definition signed (st : handled_step) : option uint256 :=
  match msg (inp st) with SetRoot _ r vu _ _ _ => Some (signed_hash hash r vu) | _ => None end.

Lemma seen_step i s u s' o :
  wf s → onInternalMessage hash isSignatureValid i s = Done (u, s', o) →
  match signed (Step s i o) with
  | Some x => x ∉ seenSignedHashes s ∧ seenSignedHashes s' = {[x]} ∪ seenSignedHashes s
  | None => seenSignedHashes s' = seenSignedHashes s
  end.
Proof.
  intros Hwf He%handled_effect; [|done]. unfold effect in He. unfold signed. cbn.
  destruct (msg i) as [q|q r vu md proof sigs|q op proof|q keys groups quorums parents clear|m].
  - by destruct He as [-> _].
  - destruct He as (Ha & -> & _). split; [|done]. unfold root_accepted in Ha.
    apply andb_true_iff in Ha as [[Ha _]%andb_true_iff _]. by apply bool_decide_eq_true in Ha.
  - by destruct He as (_ & -> & _).
  - destruct He as (_ & _ & -> & _). by destruct clear.
  - by destruct He as [v ->].
Qed.

Definition seen_history (s0 : MCMS_Data) (past : list handled_step) (s : MCMS_Data) : Prop :=
  wf s ∧ NoDup (omap signed past) ∧
  seenSignedHashes s = seenSignedHashes s0 ∪ list_to_set (omap signed past) ∧
  ∀ x, x ∈ omap signed past → x ∉ seenSignedHashes s0.

Lemma seen_history_step s0 past i s u s' o :
  message_ok i → seen_history s0 past s → onInternalMessage hash isSignatureValid i s = Done (u, s', o) →
  seen_history s0 (past ++ [Step s i o]) s'.
Proof.
  intros Hi (Hwf & Hn & Hs & Hd) H. split; [by eapply handled_wf|].
  pose proof (seen_step _ _ _ _ _ Hwf H) as Hstep. rewrite omap_app. cbn.
  destruct (signed _) as [x|]; [|by rewrite app_nil_r, Hstep].
  destruct Hstep as [Hx ->]. rewrite Hs in Hx |- *. split; [|split; [set_solver|]].
  - apply NoDup_app. split; [done|]. split; [|apply NoDup_singleton]. set_solver.
  - intros y [Hy|Hy]%elem_of_app; [by apply Hd|]. apply list_elem_of_singleton in Hy as ->. set_solver.
Qed.

Lemma seen_run ins s0 :
  wf s0 → Forall message_ok ins →
  seen_history s0 (handled (onInternalMessage hash isSignatureValid) ins s0)
    (run (onInternalMessage hash isSignatureValid) ins s0).
Proof.
  intros Hwf Hins. rewrite Forall_forall in Hins. apply run_history.
  - intros h i s u s' o Hi. by apply seen_history_step, Hins.
  - split; [done|]. split; [constructor|]. split; [set_solver|]. intros x ?%elem_of_nil. done.
Qed.

(** ** The claims *)

(** C13: who can set a root.  With a well-formed storage [setRoot] is accepted exactly when the
    hash of root and expiry has not been signed for before; every signature verifies over that
    hash and belongs to a registered signer, the keys strictly increasing; the root group is
    successful when the groups of these signers have signed, i.e. enabled and reached in the tree
    of groups read recursively; the root has not expired; the metadata is proven against the root,
    is for this chain and contract, starts at the present operation count and does not end before
    it; and no operation is pending unless it overrides.  The loop that counts votes finds the same
    groups as the recursive reading; when accepted the root replaces the one before, the hash is
    seen, the signers and configuration stay, and the sender is told. *)
Theorem setRoot_quorum e sender q r vu md proof sigs s s' o :
  wf s →
  setRoot hash isSignatureValid e sender q r vu md proof sigs s = Done (tt, s', o) ↔
  let signedHash := signed_hash hash r vu in
  let count := getOpCount s in
  signedHash ∉ seenSignedHashes s ∧
  (Forall (λ sg, isSignatureValid signedHash sg (signer sg) = true ∧ is_Some (signers s !! signer sg)) sigs ∧
   StronglySorted Z.lt (0 :: (signer <$> sigs))) ∧
  successful 32 (config s) (signed_groups s sigs) 0 = true ∧
  now e ≤ vu ∧ verify hash proof r (metadata_leaf hash md) = true ∧
  md_chainId md = globalId e ∧ md_multiSig md = getAddress e ∧
  (count = postOpCount (rootMetadata s) ∨ overridePreviousRoot md = true) ∧
  preOpCount md = count ∧ count ≤ postOpCount md ∧
  s' = set_root signedHash {| root := r; validUntil := vu; opCount := count |} md s ∧
  o = [Send (Message false 0 sender (NewRoot q r vu md)) SEND_MODE_CARRY_ALL_REMAINING_MESSAGE_VALUE].
Proof.
  intros Hwf. pose proof (setRoot_value e sender q r vu md proof sigs s Hwf) as H. cbn zeta.
  assert (root_accepted e s r vu md proof sigs = true ↔
    signed_hash hash r vu ∉ seenSignedHashes s ∧
    (Forall (λ sg, isSignatureValid (signed_hash hash r vu) sg (signer sg) = true ∧ is_Some (signers s !! signer sg)) sigs ∧
     StronglySorted Z.lt (0 :: (signer <$> sigs))) ∧
    successful 32 (config s) (signed_groups s sigs) 0 = true ∧
    root_ok e s r vu md proof = true) as Hiff.
  { unfold root_accepted, quorum_signed, signatures_ok.
    rewrite !andb_true_iff, bool_decide_eq_true, increasing_sorted, forallb_forall, Forall_forall.
    setoid_rewrite <- list_elem_of_In. setoid_rewrite andb_true_iff. setoid_rewrite bool_decide_eq_true. tauto. }
  unfold getOpCount. assert (root_ok e s r vu md proof = true ↔
    now e ≤ vu ∧ verify hash proof r (metadata_leaf hash md) = true ∧
    md_chainId md = globalId e ∧ md_multiSig md = getAddress e ∧
    (opCount (expiringRootAndOpCount s) = postOpCount (rootMetadata s) ∨ overridePreviousRoot md = true) ∧
    preOpCount md = opCount (expiringRootAndOpCount s) ∧ opCount (expiringRootAndOpCount s) ≤ postOpCount md) as Hok.
  { unfold root_ok. destruct (verify _ _ _ _), (overridePreviousRoot md); lia. }
  destruct (root_accepted e s r vu md proof sigs).
  - rewrite H. destruct (proj1 Hiff eq_refl) as (H1 & [H2 H2'] & H3 & H4). apply Hok in H4 as (? & ? & ? & ? & ? & E & ?).
    unfold root_set. rewrite E. split; [intros [= <- <-]; by split_and!|by intros (_ & _ & _ & _ & _ & _ & _ & _ & _ & _ & -> & ->)].
  - destruct H as (code & -> & _). split; [discriminate|]. intros (H1 & H2 & H3 & H4 & H5 & H6 & H7 & H8 & H9 & H10 & _).
    enough (false = true) by done. apply Hiff. do 3 (split; [done|]). by apply Hok.
Qed.

(** C3: what is executed, and why.  Whatever messages a well-formed contract without pending
    operations receives, the nonces of the operations it executes are consecutive, starting at its
    operation count, which counts them; and each of them was for this chain and this contract, is
    proven against a root that signers forming a quorum of the configuration of that time had
    signed, with a nonce in the range of the metadata proven against the same root, and that had
    not expired; it is sent on as it is and then the sender is told. *)
Theorem ops_authorised ins s0 :
  wf s0 → postOpCount (rootMetadata s0) ≤ getOpCount s0 → Forall message_ok ins →
  let past := handled (onInternalMessage hash isSignatureValid) ins s0 in
  let s := run (onInternalMessage hash isSignatureValid) ins s0 in
  omap executed past = seqZ (getOpCount s0) (getOpCount s - getOpCount s0) ∧
  ∀ h1 st h2, past = h1 ++ st :: h2 → op_justified h1 st.
Proof.
  intros Hwf H0 Hins. destruct (contract_run ins s0 Hwf H0 Hins) as (_ & _ & Hn & Hc & Hj). cbn zeta.
  split; [|exact Hj]. unfold getOpCount. rewrite Hn, Hc. f_equal. lia.
Qed.

(** No root is set twice.  Whatever messages the contract receives, whoever signs and however
    the configuration changes in between, the hashes of root and expiry of the accepted [setRoot]s
    are pairwise distinct, and none was seen at the start; the contract remembers exactly these. *)
Theorem roots_once ins s0 :
  wf s0 → Forall message_ok ins →
  let past := handled (onInternalMessage hash isSignatureValid) ins s0 in
  let s := run (onInternalMessage hash isSignatureValid) ins s0 in
  NoDup (omap signed past) ∧ (∀ x, x ∈ omap signed past → x ∉ seenSignedHashes s0) ∧
  seenSignedHashes s = seenSignedHashes s0 ∪ list_to_set (omap signed past).
Proof. intros Hwf Hins. destruct (seen_run ins s0 Hwf Hins) as (_ & H1 & H2 & H3). by split_and!. Qed.

End contract.

(** C24: which configurations are accepted.  [setConfig] is accepted exactly from the owner, when
    1 to 200 keys and as many groups are counted in their vectors, both of which can be read to
    their ends; there is a group below 32 for every key that is read, the keys that are read
    strictly increase, and the groups that are read form a tree whose enabled groups have enough
    children (signers and enabled sub-groups) for their quorum and whose disabled groups have
    none; the contract's single pass from the last group to the first computes exactly that.  The
    signers are then precisely those of the message, numbered from 0, none of the configuration
    before remaining; the storage stays well-formed.  No more keys and groups are read than are
    counted, and exactly as many of a vector of which no cell has a second reference, so that
    then every group that was checked is the group of a signer. *)
Theorem setConfig_accepts e sender q keys groups quorums parents clear s :
  wf s → bytes_ok quorums parents →
  let l := message_signers keys groups in
  ((∃ r, setConfig e sender q keys groups quorums parents clear s = Done r) ↔
   sender = ownable.owner (own s) ∧ ∃ n, size 32 keys = Done n ∧ size 1 groups = Done n ∧ 1 ≤ n ≤ 200 ∧
   (vec (loadUint 256) keys).2 = Done tt ∧ (vec (loadUint 8) groups).2 = Done tt ∧
   (length (keys_of keys) ≤ length (groups_of groups))%nat ∧ Forall (λ g, g < 32) (groups_of groups) ∧
   StronglySorted Z.lt (0 :: keys_of keys) ∧ valid_groups (groups_of groups) quorums parents) ∧
  ∀ u s' o, setConfig e sender q keys groups quorums parents clear s = Done (u, s', o) →
    wf s' ∧ groupQuorums (getConfig s') = quorums ∧ groupParents (getConfig s') = parents ∧
    (∀ k sg, signers s' !! k = Some sg ↔ sg ∈ l ∧ key sg = k) ∧
    (∀ i sg, config_signers (getConfig s') !! i = Some sg ↔ sg ∈ l ∧ index sg = i) ∧
    key <$> l = keys_of keys ∧ (group <$> l) `prefix_of` groups_of groups ∧
    (linear keys = true → linear groups = true → group <$> l = groups_of groups ∧ size 32 keys = Done (Z.of_nat (length l))) ∧
    getOpCount s' = getOpCount s ∧ getRoot s' = (if clear then (0, 0) else getRoot s).
Proof.
  intros Hwf Hb. cbn zeta. pose proof (setConfig_value e sender q keys groups quorums parents clear s Hwf) as H.
  cbn zeta in H. rewrite <- acceptable_spec, <- Z.eqb_eq, <- andb_true_iff.
  destruct ((sender =? _) && acceptable _ _ _ _) eqn:E.
  2:{ destruct H as (code & ->). split; [split; [intros [? [=]]|discriminate]|discriminate]. }
  split; [split; [done|]; intros _; by eexists|]. intros u s' o Hs.
  pose proof (setConfig_wf _ _ _ _ _ _ _ _ _ _ _ _ Hwf Hb Hs) as Hwf'. split; [done|].
  rewrite H in Hs. injection Hs as _ <- _. apply andb_true_iff in E as [_ E].
  pose proof (message_signers_valid _ _ _ _ E) as (Hv & Hkeys & Hgroups & Hlin).
  assert (∀ f k sg, NoDup (f <$> message_signers keys groups) →
    put_all f (message_signers keys groups) ∅ !! k = Some sg ↔ sg ∈ message_signers keys groups ∧ f sg = k) as Hput.
  { intros f k sg Hn. rewrite put_all_lookup by done. rewrite lookup_empty. naive_solver. }
  destruct clear; (split_and!; [done..| | |done|done|done|done|done]); intros k sg; cbn; apply Hput, Hv.
Qed.

(** ** A run *)

Lemma wf_unconfigured s :
  signers s = ∅ → config s = {| config_signers := ∅; groupQuorums := ∅; groupParents := ∅ |} → wf s.
Proof.
  intros H1 H2. exists [], []. rewrite H2. split; [split; [cbn; lia|constructor|constructor|constructor]|].
  split_and!; [done|done|done|cbn; lia|by apply valid_groupsb_spec; vm_compute|done|done].
Qed.

(** A hash of the bits of a cell and of its first reference. *)
Definition bits_hash (n : Z) (bits : list bool) : Z :=
  foldl (λ n b, (2 * n + Z.b2z b) mod (2 ^ 61 - 1)) n bits.
Definition sample_hash (c : cell) : uint256 :=
  let '(MkCell bits refs) := c in
  match refs with [] => bits_hash 1 bits | r :: _ => bits_hash (bits_hash 1 bits) (cell_bits r) end.

(** A signature that is the sum of the hash and the key. *)
Definition sample_valid (h : uint256) (sg : Signature) (k : uint256) : bool := sig_r sg =? h + k.
Definition sample_sign (h k : uint256) : Signature := {| sig_r := h + k; sig_s := 0; signer := k |}.

(** Three signers: 10 and 20 in group 1, which needs one of them, 30 in the root, which needs both
    group 1 and 30. *)
Definition sample_mcms : MCMS_Data :=
  {| id := 1; own := {| ownable.owner := 5; ownable.pendingOwner := None |};
     signers := ∅; config := {| config_signers := ∅; groupQuorums := ∅; groupParents := ∅ |};
     seenSignedHashes := ∅; expiringRootAndOpCount := {| root := 0; validUntil := 0; opCount := 3 |};
     rootMetadata := {| md_chainId := 0; md_multiSig := 0; preOpCount := 0; postOpCount := 3;
       overridePreviousRoot := false |} |}.
Definition sample_env (t : Z) : env := {| now := t; globalId := -239; getAddress := 77 |}.
Definition sample_metadata : RootMetadata :=
  {| md_chainId := -239; md_multiSig := 77; preOpCount := 3; postOpCount := 4; overridePreviousRoot := false |}.
Definition sample_op : Op :=
  {| op_chainId := -239; op_multiSig := 77; nonce := 3; op_to := 9; op_value := 1000; op_data := MkCell [true] [] |}.
Definition sample_root : uint256 :=
  hashPair sample_hash (metadata_leaf sample_hash sample_metadata) (op_leaf sample_hash sample_op).
Definition sample_signed : uint256 := signed_hash sample_hash sample_root 500.

Definition sample_keys : cell := cell_vec (Z_bits 256) [10; 20; 30].
Definition sample_groups : cell := cell_vec (Z_bits 8) [1; 1; 0].
Definition sample_quorums : gmap Z Z := {[0 := 2; 1 := 1]}.
Definition sample_config : InMessage := SetConfig 1 sample_keys sample_groups sample_quorums ∅ false.
Definition sample_set_root (ks : list Z) : InMessage :=
  SetRoot 2 sample_root 500 sample_metadata [op_leaf sample_hash sample_op] (sample_sign sample_signed <$> ks).
Definition sample_execute : InMessage := Execute 3 sample_op [metadata_leaf sample_hash sample_metadata].

Definition sample_inputs : list input :=
  [{| input_env := sample_env 100; sender := 5; msg := sample_config |};
   {| input_env := sample_env 101; sender := 8; msg := sample_set_root [10; 20] |};
   {| input_env := sample_env 102; sender := 8; msg := sample_set_root [20; 30] |};
   {| input_env := sample_env 103; sender := 8; msg := sample_set_root [20; 30] |};
   {| input_env := sample_env 500; sender := 6; msg := sample_execute |};
   {| input_env := sample_env 500; sender := 6; msg := sample_execute |}].

Lemma sample_bytes : bytes_ok sample_quorums ∅.
Proof.
  split; [|done]. intros g. unfold sample_quorums.
  rewrite byte_at_insert. case_decide; [done|].
  unfold byte_at. rewrite lookup_singleton. by case_decide.
Qed.

Lemma mcms_inputs_ok : Forall message_ok sample_inputs.
Proof. repeat (constructor; [done || exact sample_bytes|]). constructor. Qed.

Lemma sample_wf : wf sample_mcms.
Proof. by apply wf_unconfigured. Qed.

Abbreviation sample_handle := (onInternalMessage sample_hash sample_valid).
Definition configured : MCMS_Data := run sample_handle (take 1 sample_inputs) sample_mcms.

Lemma configured_wf : wf configured.
Proof.
  assert (Forall message_ok (take 1 sample_inputs)) as H by (apply Forall_take, mcms_inputs_ok).
  exact (proj1 (seen_run sample_hash sample_valid _ _ sample_wf H)).
Qed.

(** The third message sets the root; the signatures of the second are not a quorum. *)
Lemma setRoot_quorum_witness :
  quorum_signed sample_valid sample_signed configured (sample_sign sample_signed <$> [10; 20]) = false ∧
  ∃ o, setRoot sample_hash sample_valid (sample_env 102) 8 2 sample_root 500 sample_metadata
    [op_leaf sample_hash sample_op] (sample_sign sample_signed <$> [20; 30]) configured =
    Done (tt, set_root sample_signed {| root := sample_root; validUntil := 500; opCount := 3 |} sample_metadata configured, o).
Proof.
  split; [vm_compute; reflexivity|]. eexists.
  apply (proj2 (setRoot_quorum sample_hash sample_valid _ _ _ _ _ _ _ _ _ _ _ configured_wf)).
  cbn zeta. split; [by vm_compute|].
  split; [split; [repeat (constructor; [split; [by vm_compute|by eexists; vm_compute]|]); constructor|
    by apply increasing_sorted; vm_compute]|].
  repeat (split; [by vm_compute|]). split; [by left; vm_compute|].
  repeat (split; [by vm_compute|]). reflexivity.
Defined.

(** A padded vector: one key is read where three are counted. *)
Definition padded_keys : cell := MkCell [] [MkCell (Z_bits 256 10) []; MkCell (repeat false 512) []].

Lemma setConfig_accepts_witness :
  acceptable sample_keys sample_groups sample_quorums ∅ = true ∧
  acceptable sample_keys (cell_vec (Z_bits 8) [1; 1; 2]) sample_quorums ∅ = false ∧
  acceptable padded_keys sample_groups sample_quorums ∅ = true ∧ keys_of padded_keys = [10] ∧
  ∃ r, setConfig (sample_env 100) 5 1 sample_keys sample_groups sample_quorums ∅ false sample_mcms = Done r.
Proof.
  do 4 (split; [vm_compute; reflexivity|]).
  apply (proj1 (setConfig_accepts (sample_env 100) 5 1 sample_keys sample_groups sample_quorums ∅ false
    sample_mcms sample_wf sample_bytes)).
  split; [reflexivity|]. apply acceptable_spec. vm_compute. reflexivity.
Defined.

(** Handled are the configuration, the root and one execution. *)
Lemma ops_authorised_witness :
  length (handled sample_handle sample_inputs sample_mcms) = 3%nat ∧
  omap executed (handled sample_handle sample_inputs sample_mcms) = [3] ∧
  ∃ st, handled sample_handle sample_inputs sample_mcms = take 2 (handled sample_handle sample_inputs sample_mcms) ++ [st] ∧
    op_justified sample_hash sample_valid (take 2 (handled sample_handle sample_inputs sample_mcms)) st.
Proof.
  split; [vm_compute; reflexivity|]. split; [vm_compute; reflexivity|].
  destruct (drop 2 (handled sample_handle sample_inputs sample_mcms)) as [|st rest] eqn:E; [vm_compute in E; discriminate|].
  assert (rest = []) as -> by (vm_compute in E; congruence).
  exists st. rewrite <- E. split; [symmetry; apply take_drop|].
  apply (proj2 (ops_authorised sample_hash sample_valid sample_inputs sample_mcms sample_wf ltac:(by vm_compute) mcms_inputs_ok)
    _ st []).
  rewrite <- E. symmetry. apply take_drop.
Defined.

Lemma roots_once_witness :
  omap (signed sample_hash) (handled sample_handle sample_inputs sample_mcms) = [sample_signed] ∧
  seenSignedHashes (run sample_handle sample_inputs sample_mcms) =
    seenSignedHashes sample_mcms ∪ list_to_set (omap (signed sample_hash) (handled sample_handle sample_inputs sample_mcms)).
Proof.
  split; [vm_compute; reflexivity|].
  apply (roots_once sample_hash sample_valid sample_inputs sample_mcms sample_wf mcms_inputs_ok).
Defined.
End mcspec.
