(* ===== verification/Ocr3Contract.v ===== *)
(** * Ocr3Contract: src/contracts/contracts/lib/ocr and test/examples/ocr3_base.tolk

    The base of the contracts that accept reports of an oracle network: a configuration of
    signers and transmitters for each plugin, and the check of a report's signatures.  [hash] is
    the representation hash of a cell and [isSignatureValid] the TVM's signature check.  A vector
    is a cell, as in the code: its entries are counted by [countBytes] and [countAddresses] and
    read by the iterator. *)

From S2P Require Import Prelude Event Tolk Slices.

Module ocr3.
Import slices.
Local Open Scope Z_scope.

(** ** Data (types.tolk) *)

Definition MAX_NUM_ORACLES : Z := 255.
Definition OCR_PLUGIN_TYPE_COMMIT : Z := 0.
Definition OCR_PLUGIN_TYPE_EXECUTE : Z := 1.

Record ConfigInfo := {
  configDigest : uint256;
  bigF : Z;
  n : Z;
  isSignatureVerificationEnabled : bool;
}.

Record Config := {
  configInfo : ConfigInfo;
  signers : gmap uint256 Z;
  transmitters : gmap address Z;
}.

Record SignatureEd25519 := { sig_r : uint256; sig_s : uint256; signer : uint256 }.

Definition load_SignatureEd25519 (s : slice) : exit (SignatureEd25519 * slice) :=
  r1 ← loadUint 256 s;
  r2 ← loadUint 256 r1.2;
  r3 ← loadUint 256 r2.2;
  mret ({| sig_r := r1.1; sig_s := r2.1; signer := r3.1 |}, r3.2).

Record ReportContext := { ctx_configDigest : uint256; sequenceBytes : Z }.

Definition newOCRConfig : Config :=
  {| configInfo := {| configDigest := 0; bigF := 0; n := 0; isSignatureVerificationEnabled := false |};
     signers := ∅; transmitters := ∅ |}.

(** ** Exit codes (exit_codes.tolk) *)

Definition ERROR_BIG_F_MUST_BE_POSITIVE : Z := 1000.
Definition ERROR_STATIC_CONFIG_CANNOT_BE_CHANGED : Z := 1001.
Definition ERROR_TOO_MANY_SIGNERS : Z := 1002.
Definition ERROR_BIG_F_TOO_HIGH : Z := 1003.
Definition ERROR_TOO_MANY_TRANSMITTERS : Z := 1004.
Definition ERROR_NO_TRANSMITTERS : Z := 1005.
Definition ERROR_REPEATED_SIGNERS : Z := 1006.
Definition ERROR_REPEATED_TRANSMITTERS : Z := 1007.
Definition ERROR_CONFIG_DIGEST_MISMATCH : Z := 1009.
Definition ERROR_UNAUTHORIZED_TRANSMITTER : Z := 1010.
Definition ERROR_WRONG_NUMBER_OF_SIGNATURES : Z := 1011.
Definition ERROR_UNAUTHORIZED_SIGNER : Z := 1016.
Definition ERROR_NON_UNIQUE_SIGNATURES : Z := 1017.
Definition ERROR_INVALID_SIGNATURE : Z := 1018.
Definition ERROR_NON_EXISTENT_OCR_PLUGIN_TYPE : Z := 1019.
Definition ERROR_NO_SIGNERS : Z := 1020.
Definition ERROR_BITMAP_OUT_OF_BOUNDS : Z := 0x78.

(** ** Bitmap256 (lib/utils.tolk) *)

Definition Bitmap256_new : Z := 0.
Definition Bitmap256_set (bits index : Z) : exit Z :=
  assert ((0 <=? index) && (index <? 256)) ERROR_BITMAP_OUT_OF_BOUNDS;;
  mret (Z.lor bits (Z.shiftl 1 index)).
Definition Bitmap256_has (bits index : Z) : exit bool :=
  assert ((0 <=? index) && (index <? 256)) ERROR_BITMAP_OUT_OF_BOUNDS;;
  mret (negb (Z.land bits (Z.shiftl 1 index) =? 0)).

(** ** Configurations *)

(** The loop of [assignSignerOracles] and of [assignTransmitterOracles]: oracle [i] gets the
    number [i + 1]. *)
Fixpoint assign_oracles (code : Z) (oracles : list Z) (i : Z) (m : gmap Z Z) : exit (gmap Z Z) :=
  match oracles with
  | [] => Done m
  | o :: oracles =>
      assert (bool_decide (m !! o = None)) code;;
      index ← storeUint (i + 1) 8;
      assign_oracles code oracles (i + 1) (<[o := index]> m)
  end.

Definition assignSignerOracles (self : Config) (keys : cell) : exit Config :=
  let signersIt := vec (loadUint 256) keys in
  m ← assign_oracles ERROR_REPEATED_SIGNERS signersIt.1 0 ∅;
  signersIt.2;;
  mret {| configInfo := configInfo self; signers := m; transmitters := transmitters self |}.

Definition assignTransmitterOracles (self : Config) (addresses : cell) : exit Config :=
  let transmittersIt := vec loadAddress addresses in
  m ← assign_oracles ERROR_REPEATED_TRANSMITTERS transmittersIt.1 0 ∅;
  transmittersIt.2;;
  mret {| configInfo := configInfo self; signers := signers self; transmitters := m |}.

Definition set_info (f : ConfigInfo → ConfigInfo) (c : Config) : Config :=
  {| configInfo := f (configInfo c); signers := signers c; transmitters := transmitters c |}.
Definition set_verification (b : bool) (i : ConfigInfo) : ConfigInfo :=
  {| configDigest := configDigest i; bigF := bigF i; n := n i; isSignatureVerificationEnabled := b |}.
Definition set_n (k : Z) (i : ConfigInfo) : ConfigInfo :=
  {| configDigest := configDigest i; bigF := bigF i; n := k;
     isSignatureVerificationEnabled := isSignatureVerificationEnabled i |}.
Definition set_digest (f : Z) (d : uint256) (i : ConfigInfo) : ConfigInfo :=
  {| configDigest := d; bigF := f; n := n i;
     isSignatureVerificationEnabled := isSignatureVerificationEnabled i |}.

(** ** The base (multi_ocr3_base.tolk) *)

Record OCR3Base := { chainId : Z; commit : option Config; execute : option Config }.

(** [OCR3Base_SetOCR3Config]. *)
Record SetOCR3Config := {
  queryId : Z;
  new_digest : uint256;
  ocrPluginType : Z;
  new_bigF : Z;
  new_verification : bool;
  new_signers : cell;
  new_transmitters : cell;
}.

Inductive Body :=
| ConfigSet (ocrPluginType : Z) (configDigest : uint256) (signers transmitters : cell) (bigF : Z)
| Transmitted (ocrPluginType : Z) (configDigest : uint256) (sequenceNumber : Z).

Definition OCR3BASE_CONFIG_SET_TOPIC : Z := CRC32 "OCR3Base_ConfigSet".
Definition OCR3BASE_TRANSMITTED : Z := CRC32 "OCR3Base_Transmitted".

Definition getConfig (self : OCR3Base) (ocrPluginType : Z) : exit (option Config) :=
  if ocrPluginType =? OCR_PLUGIN_TYPE_COMMIT then Done (commit self)
  else if ocrPluginType =? OCR_PLUGIN_TYPE_EXECUTE then Done (execute self)
  else Throw ERROR_NON_EXISTENT_OCR_PLUGIN_TYPE.

Definition set_config (ocrPluginType : Z) (c : Config) (self : OCR3Base) : OCR3Base :=
  if ocrPluginType =? OCR_PLUGIN_TYPE_COMMIT
  then {| chainId := chainId self; commit := Some c; execute := execute self |}
  else if ocrPluginType =? OCR_PLUGIN_TYPE_EXECUTE
  then {| chainId := chainId self; commit := commit self; execute := Some c |}
  else self.

Abbreviation method := (M OCR3Base Body).

Definition setOcr3Config (msg : SetOCR3Config) : method () :=
  require (0 <? new_bigF msg) ERROR_BIG_F_MUST_BE_POSITIVE;;
  self ← get;
  found ← lift (getConfig self (ocrPluginType msg));
  let c := default newOCRConfig found in
  c ← (if bigF (configInfo c) =? 0
       then mret (set_info (set_verification (new_verification msg)) c)
       else
         require (Bool.eqb (isSignatureVerificationEnabled (configInfo c)) (new_verification msg))
           ERROR_STATIC_CONFIG_CANNOT_BE_CHANGED;;
         mret c);
  transmitters_length ← lift (countAddresses (new_transmitters msg));
  require (transmitters_length <=? MAX_NUM_ORACLES) ERROR_TOO_MANY_TRANSMITTERS;;
  require (0 <? transmitters_length) ERROR_NO_TRANSMITTERS;;
  c ← (if new_verification msg
       then
         signers_length ← lift (size 32 (new_signers msg));
         require (0 <? signers_length) ERROR_NO_SIGNERS;;
         require (signers_length <=? MAX_NUM_ORACLES) ERROR_TOO_MANY_SIGNERS;;
         require (3 * new_bigF msg <? signers_length) ERROR_BIG_F_TOO_HIGH;;
         require (transmitters_length <=? signers_length) ERROR_TOO_MANY_TRANSMITTERS;;
         lift (assignSignerOracles (set_info (set_n signers_length) c) (new_signers msg))
       else mret c);
  c ← lift (assignTransmitterOracles c (new_transmitters msg));
  let c := set_info (set_digest (new_bigF msg) (new_digest msg)) c in
  put (set_config (ocrPluginType msg) c self);;
  emit OCR3BASE_CONFIG_SET_TOPIC
    (ConfigSet (ocrPluginType msg) (configDigest (configInfo c)) (new_signers msg) (new_transmitters msg)
      (bigF (configInfo c))).

Section crypto.
Context (hash : cell → uint256) (isSignatureValid : uint256 → SignatureEd25519 → uint256 → bool).

Definition hashReport (report : cell) (ctx : ReportContext) : uint256 :=
  hash (MkCell (Z_bits 256 (ctx_configDigest ctx) ++ Z_bits 192 0 ++ Z_bits 64 (sequenceBytes ctx)) [report]).

(** The loop of [verifySignature] over the signatures, with the indices [seen]. *)
Fixpoint verify_signatures (signers : gmap uint256 Z) (hashedReport : uint256)
  (signatures : list SignatureEd25519) (seen : Z) : exit () :=
  match signatures with
  | [] => Done tt
  | s :: signatures =>
      match signers !! signer s with
      | None => Throw ERROR_UNAUTHORIZED_SIGNER
      | Some signerIndex =>
          assert (isSignatureValid hashedReport s (signer s)) ERROR_INVALID_SIGNATURE;;
          has ← Bitmap256_has seen signerIndex;
          assert (negb has) ERROR_NON_UNIQUE_SIGNATURES;;
          seen ← Bitmap256_set seen signerIndex;
          verify_signatures signers hashedReport signatures seen
      end
  end.

Definition verifySignature (signers : gmap uint256 Z) (hashedReport : uint256) (signatures : cell) : exit () :=
  let signaturesIt := vec load_SignatureEd25519 signatures in
  verify_signatures signers hashedReport signaturesIt.1 Bitmap256_new;;
  signaturesIt.2.

Definition transmit (transmitter : address) (ocrPluginType : Z) (ctx : ReportContext) (report signatures : cell)
  : method () :=
  self ← get;
  found ← lift (getConfig self ocrPluginType);
  match found with
  | None => throw ERROR_NON_EXISTENT_OCR_PLUGIN_TYPE
  | Some c =>
      let info := configInfo c in
      require (ctx_configDigest ctx =? configDigest info) ERROR_CONFIG_DIGEST_MISMATCH;;
      require (bool_decide (is_Some (transmitters c !! transmitter))) ERROR_UNAUTHORIZED_TRANSMITTER;;
      (if isSignatureVerificationEnabled info
       then
         signatures_length ← lift (size 96 signatures);
         require (signatures_length =? bigF info + 1) ERROR_WRONG_NUMBER_OF_SIGNATURES;;
         lift (verifySignature (signers c) (hashReport report ctx) signatures)
       else mret tt);;
      emit OCR3BASE_TRANSMITTED (Transmitted ocrPluginType (ctx_configDigest ctx) (sequenceBytes ctx))
  end.

(** ** The example contract (test/examples/ocr3_base.tolk) *)

Inductive IncomingMessage :=
| Transmit (ocrPluginType : Z) (reportContext : ReportContext) (report signatures : cell)
| SetConfig (msg : SetOCR3Config).

Record input := { sender : address; msg : IncomingMessage }.

Definition onInternalMessage (i : input) : method () :=
  match msg i with
  | Transmit ocrPluginType ctx report signatures => transmit (sender i) ocrPluginType ctx report signatures
  | SetConfig m => setOcr3Config m
  end.
End crypto.
End ocr3.
