(* ===== verification/Ocr3Spec.v ===== *)
(** * Ocr3Spec: what the OCR3 base guarantees

    Which configurations are accepted and what is stored of them, and which signatures a report
    is accepted with.  The contract counts all the bits below a vector and reads along the first
    references, so that as many signatures as it asks for are certain only for vectors without
    second references. *)

From S2P Require Import Prelude Event Tolk Slices Ocr3Contract.

Module ocr3spec.
Import slices ocr3.
Local Open Scope Z_scope.

(** ** The bitmap *)

Lemma Bitmap256_has_bit bits i : 0 ≤ i < 256 → Bitmap256_has bits i = Done (Z.testbit bits i).
Proof.
  intros Hi. unfold Bitmap256_has. replace ((0 <=? i) && (i <? 256)) with true by lia. cbn. f_equal.
  rewrite Z.shiftl_1_l. destruct (Z.testbit bits i) eqn:E.
  - apply negb_true_iff, Z.eqb_neq. intros H. apply (f_equal (λ z, Z.testbit z i)) in H.
    rewrite Z.land_spec, E, Z.pow2_bits_true, Z.bits_0 in H; [discriminate|lia].
  - apply negb_false_iff, Z.eqb_eq, Z.bits_inj. intros j. rewrite Z.land_spec, Z.bits_0.
    destruct (Z.eq_dec i j) as [<-|Hj]; [by rewrite E|]. rewrite Z.pow2_bits_false by lia. apply andb_false_r.
Qed.

Lemma Bitmap256_set_bit bits i :
  0 ≤ i < 256 → ∃ bits', Bitmap256_set bits i = Done bits' ∧
    ∀ j, 0 ≤ j → Z.testbit bits' j = Z.testbit bits j || (i =? j).
Proof.
  intros Hi. unfold Bitmap256_set. replace ((0 <=? i) && (i <? 256)) with true by lia. cbn.
  eexists. split; [done|]. intros j Hj. rewrite Z.lor_spec, Z.shiftl_1_l, Z.pow2_bits_eqb by lia. done.
Qed.

(** ** Signatures *)

(** Every signer has a number of its own that fits the bitmap. *)
Definition numbers_ok (m : gmap uint256 Z) : Prop :=
  (∀ k i, m !! k = Some i → 0 ≤ i < 256) ∧ (∀ k k' i, m !! k = Some i → m !! k' = Some i → k = k').

Section signatures.
Context (isSignatureValid : uint256 → SignatureEd25519 → uint256 → bool) (h : uint256) (m : gmap uint256 Z).

Definition signature_ok (sg : SignatureEd25519) : Prop :=
  is_Some (m !! signer sg) ∧ isSignatureValid h sg (signer sg) = true.

Lemma verify_signatures_spec sigs seen (past : list uint256) :
  numbers_ok m →
  (∀ k i, m !! k = Some i → Z.testbit seen i = true ↔ k ∈ past) →
  verify_signatures isSignatureValid m h sigs seen = Done tt ↔
  Forall signature_ok sigs ∧ NoDup (signer <$> sigs) ∧ ∀ k, k ∈ signer <$> sigs → k ∉ past.
Proof.
  intros Hm. revert seen past. induction sigs as [|sg sigs IH]; intros seen past Hseen.
  { split; [intros _; split_and!; [constructor|constructor|by intros ? ?%elem_of_nil]|done]. }
  cbn [verify_signatures]. rewrite Forall_cons, fmap_cons, NoDup_cons. unfold signature_ok at 1.
  destruct (m !! signer sg) as [i|] eqn:Ei.
  2:{ split; [discriminate|]. intros [[[[? [=]] _] _] _]. }
  destruct (isSignatureValid h sg (signer sg)); cbn [assert mbind exit_bind].
  2:{ split; [discriminate|]. intros [[[_ [=]] _] _]. }
  destruct Hm as [Hb Hinj]. rewrite Bitmap256_has_bit by (by eapply Hb). cbn [mbind exit_bind].
  specialize (Hseen _ _ Ei) as Hi. destruct (Z.testbit seen i); cbn [negb assert mbind exit_bind].
  { split; [discriminate|]. intros (_ & _ & Hd). exfalso. apply (Hd (signer sg)); [apply list_elem_of_here|by apply Hi]. }
  assert (signer sg ∉ past) as Hn by (intros Hin%Hi; discriminate).
  destruct (Bitmap256_set_bit seen i (Hb _ _ Ei)) as (seen' & -> & Hs'). cbn [mbind exit_bind].
  rewrite (IH seen' (signer sg :: past)).
  - split.
    + intros (H1 & H2 & H3). split; [by split; [split; [by eexists|]|]|].
      split; [split; [|done]|].
      * intros Hin. apply (H3 _ Hin), list_elem_of_here.
      * intros k [->|Hk]%elem_of_cons; [done|]. intros Hp. by apply (H3 k Hk), list_elem_of_further.
    + intros ([_ H1] & [H2 H2'] & H3). split_and!; [done|done|].
      intros k Hk [->|Hp]%elem_of_cons; [done|]. apply (H3 k); [by apply list_elem_of_further|done].
  - intros k j Hj. rewrite Hs' by (apply Hb in Hj; lia). rewrite orb_true_iff, (Hseen _ _ Hj), elem_of_cons, Z.eqb_eq.
    split; [intros [H|<-]; [by right|left; by eapply Hinj]|intros [->|H]; [right; congruence|by left]].
Qed.

Lemma verifySignature_done sigs :
  numbers_ok m →
  verifySignature isSignatureValid m h sigs = Done tt ↔
  ∃ l, vec load_SignatureEd25519 sigs = (l, Done tt) ∧ Forall signature_ok l ∧ NoDup (signer <$> l).
Proof.
  intros Hm. unfold verifySignature. destruct (vec load_SignatureEd25519 sigs) as [l e]. cbn [fst snd].
  pose proof (verify_signatures_spec l Bitmap256_new [] Hm) as Hv. rewrite exit_bind_done. split.
  - intros ([] & H & ->). destruct Hv as [Hv _]; [intros; unfold Bitmap256_new; rewrite Z.bits_0; set_solver|].
    exists l. destruct (Hv H) as (H1 & H2 & _). done.
  - intros (l' & [= <- ->] & H1 & H2). exists tt. split; [|done]. apply Hv.
    + intros. unfold Bitmap256_new. rewrite Z.bits_0. set_solver.
    + split_and!; [done|done|]. by intros k _ ?%elem_of_nil.
Qed.
End signatures.

Lemma load_signature_bits s x s' :
  load_SignatureEd25519 s = Done (x, s') → length s.1 = (8 * 96 + length s'.1)%nat ∧ s'.2 = s.2.
Proof.
  intros ([? s1] & [H1 E1]%loadUint_bits & ([? s2] & [H2 E2]%loadUint_bits &
    ([? s3] & [H3 E3]%loadUint_bits & H)%exit_bind_done)%exit_bind_done)%exit_bind_done.
  injection H as _ <-. cbn [fst snd] in *. split; [lia|congruence].
Qed.

(** Between one and as many signatures as are counted are read; all of them from a vector without
    second references. *)
Lemma signatures_read sigs l f :
  0 < f → size 96 sigs = Done (f + 1) → vec load_SignatureEd25519 sigs = (l, Done tt) →
  1 ≤ Z.of_nat (length l) ≤ f + 1 ∧ (linear sigs = true → Z.of_nat (length l) = f + 1).
Proof.
  intros Hf Hs Hv.
  destruct (size_vec load_SignatureEd25519 96 sigs _ load_signature_bits (Nat.lt_0_succ _) Hs) as (_ & H1 & H2).
  rewrite Hv in H1, H2. cbn [fst snd] in H1, H2. split; [|by apply H2]. split; [|done].
  destruct l; [|cbn; lia]. apply vec_nil in Hv as ->. change (Done 0 = Done (f + 1)) in Hs. injection Hs as Hs. lia.
Qed.

(** ** Vectors of signatures *)

Definition signature_bits (sg : SignatureEd25519) : list bool :=
  Z_bits 256 (sig_r sg) ++ Z_bits 256 (sig_s sg) ++ Z_bits 256 (signer sg).
Definition signature_range (sg : SignatureEd25519) : Prop :=
  0 ≤ sig_r sg < 2 ^ 256 ∧ 0 ≤ sig_s sg < 2 ^ 256 ∧ 0 ≤ signer sg < 2 ^ 256.

(** One signature, and as many bits as [n] more in cells that are not read. *)
Fixpoint junk (n : nat) : cell :=
  match n with O => MkCell [] [] | S n => MkCell (repeat false 768) [junk n] end.
Definition padded (sg : SignatureEd25519) (n : nat) : cell :=
  MkCell [] [MkCell (signature_bits sg) []; junk n].

Lemma signature_bits_length sg : length (signature_bits sg) = 768%nat.
Proof. unfold signature_bits. by rewrite !length_app, !Z_bits_length. Qed.

Lemma loadUint_app n v bits refs :
  0 ≤ v < 2 ^ Z.of_nat n → loadUint n (Z_bits n v ++ bits, refs) = Done (v, (bits, refs)).
Proof.
  intros Hv. unfold loadUint, loadBits. cbn [fst snd]. rewrite length_app, Z_bits_length.
  rewrite (proj2 (Nat.leb_le _ _)) by lia. cbn [mbind exit_bind fst snd].
  rewrite take_app_length', drop_app_length' by by rewrite Z_bits_length. by rewrite bits_Z_bits.
Qed.

Lemma load_signature_vec sg refs :
  signature_range sg → load_SignatureEd25519 (signature_bits sg, refs) = Done (sg, ([], refs)).
Proof.
  intros (H1 & H2 & H3). unfold load_SignatureEd25519, signature_bits.
  rewrite loadUint_app by done. cbn [mbind exit_bind fst snd].
  rewrite loadUint_app by done. cbn [mbind exit_bind fst snd].
  rewrite <- (app_nil_r (Z_bits 256 (signer sg))), loadUint_app by done. by destruct sg.
Qed.

Lemma padded_read sg n : signature_range sg → vec load_SignatureEd25519 (padded sg n) = ([sg], Done tt).
Proof.
  intros Hr. unfold vec, padded. cbn [total_bits fmap list_fmap list_sum foldr].
  rewrite signature_bits_length. cbn [Nat.add elements beginParse isEmpty].
  unfold next. cbn [fst loadRef snd mbind exit_bind mret exit_ret beginParse].
  rewrite load_signature_vec by done. done.
Qed.

Lemma junk_bits n : bits_of (chain (junk n)) = (768 * n)%nat.
Proof.
  induction n as [|n IH]; [done|]. cbn [junk chain]. rewrite bits_of_cons, IH. cbn [cell_bits].
  rewrite repeat_length. lia.
Qed.
Lemma junk_cells n : length (chain (junk n)) = S n.
Proof. induction n as [|n IH]; [done|]. cbn [junk chain length]. by rewrite IH. Qed.
Lemma junk_linear n : linear (junk n) = true.
Proof. by induction n. Qed.
Lemma junk_fresh bits n : bits ≠ [] → MkCell bits [] ∉ chain (junk n).
Proof.
  intros Hb. induction n as [|n IH]; cbn [junk chain].
  - intros [= ->]%list_elem_of_singleton. done.
  - intros [[=]|H]%elem_of_cons. done.
Qed.

Lemma padded_counted sg n : (n ≤ 126)%nat → size 96 (padded sg n) = Done (Z.of_nat n + 1).
Proof.
  intros Hn. unfold size, countBytes, calculateSizeStrict, padded, below.
  cbn [beginParse fst snd fmap list_fmap concat subcells app length].
  rewrite app_nil_r, linear_subcells by apply junk_linear.
  rewrite remove_dups_NoDup.
  2:{ constructor; [|apply chain_NoDup]. apply junk_fresh. intros H.
      pose proof (signature_bits_length sg) as Hl. rewrite H in Hl. discriminate. }
  fold (bits_of (MkCell (signature_bits sg) [] :: chain (junk n))).
  rewrite bits_of_cons, junk_bits. cbn [length cell_bits]. rewrite junk_cells, signature_bits_length.
  rewrite (proj2 (Nat.leb_le _ _)) by (unfold maxCells; lia). cbn [assert mbind exit_bind mret exit_ret].
  replace (Z.of_nat (0 + (768 + 768 * n)) `mod` 8 =? 0) with true by (Z.div_mod_to_equations; lia).
  cbn [assert mbind exit_bind mret exit_ret]. f_equal. Z.div_mod_to_equations. lia.
Qed.

(** ** Configurations *)

(** The oracles that are read. *)
Definition signers_of (m : SetOCR3Config) : list uint256 := (vec (loadUint 256) (new_signers m)).1.
Definition transmitters_of (m : SetOCR3Config) : list address := (vec loadAddress (new_transmitters m)).1.

(** The oracles numbered from 1. *)
Definition numbered (oracles : list Z) : gmap Z Z :=
  list_to_map (zip oracles (seqZ 1 (Z.of_nat (length oracles)))).

Lemma zip_fst (l : list Z) i : (zip l (seqZ i (Z.of_nat (length l)))).*1 = l.
Proof. apply fst_zip. rewrite length_seqZ. lia. Qed.

Lemma numbered_lookup l o i :
  NoDup l → numbered l !! o = Some i ↔ 1 ≤ i ∧ l !! Z.to_nat (i - 1) = Some o.
Proof.
  intros Hn. unfold numbered. rewrite <- elem_of_list_to_map by (by rewrite zip_fst).
  rewrite list_elem_of_lookup. setoid_rewrite lookup_zip_Some. split.
  - intros (k & H1 & (H2 & H3)%lookup_seqZ). split; [lia|]. by replace (Z.to_nat (i - 1)) with k by lia.
  - intros [Hi Hl]. exists (Z.to_nat (i - 1)). split; [done|]. apply lookup_seqZ.
    apply lookup_lt_Some in Hl. lia.
Qed.

Lemma numbered_ok l : NoDup l → (length l ≤ 255)%nat → numbers_ok (numbered l).
Proof.
  intros Hn Hl. split.
  - intros k i [Hi Hk%lookup_lt_Some]%numbered_lookup; [lia|done].
  - intros k k' i [_ H1]%numbered_lookup [_ H2]%numbered_lookup; congruence.
Qed.

Lemma numbered_is_Some l o : NoDup l → is_Some (numbered l !! o) ↔ o ∈ l.
Proof.
  intros Hn. split.
  - intros [i [_ H]%numbered_lookup]; [|done]. by eapply list_elem_of_lookup_2.
  - intros [k Hk]%list_elem_of_lookup. exists (Z.of_nat k + 1). apply numbered_lookup; [done|].
    split; [lia|]. by replace (Z.to_nat (Z.of_nat k + 1 - 1)) with k by lia.
Qed.

Lemma fresh_insert (m : gmap Z Z) l o j :
  m !! o = None →
  (NoDup l ∧ Forall (λ o', <[o := j]> m !! o' = None) l) ↔ (NoDup (o :: l) ∧ Forall (λ o', m !! o' = None) (o :: l)).
Proof.
  intros Hm. rewrite NoDup_cons, Forall_cons, !Forall_forall. split.
  - intros [H1 H2]. split; [split; [|done]|split; [done|]].
    + intros Hin. specialize (H2 o Hin). rewrite lookup_insert, decide_True in H2 by done. discriminate.
    + intros o' Hin. specialize (H2 o' Hin). rewrite lookup_insert in H2. by case_decide.
  - intros [[H1 H1'] [_ H2]]. split; [done|]. intros o' Hin. rewrite lookup_insert. case_decide; [by subst|by apply H2].
Qed.

Lemma assign_oracles_value code l i m :
  0 ≤ i → i + Z.of_nat (length l) ≤ 255 →
  assign_oracles code l i m =
  if bool_decide (NoDup l ∧ Forall (λ o, m !! o = None) l)
  then Done (list_to_map (zip l (seqZ (i + 1) (Z.of_nat (length l)))) ∪ m) else Throw code.
Proof.
  revert i m. induction l as [|o l IH]; intros i m Hi Hl.
  { rewrite bool_decide_eq_true_2 by (split; constructor). cbn. by rewrite map_empty_union. }
  cbn [assign_oracles length] in *. case_bool_decide as Eo; cbn [assert mbind exit_bind].
  2:{ rewrite bool_decide_eq_false_2; [done|]. intros [_ [H _]%Forall_cons]. done. }
  rewrite storeUint_ok by lia. cbn [mbind exit_bind]. rewrite IH by lia.
  rewrite (bool_decide_ext _ _ (fresh_insert m l o (i + 1) Eo)).
  case_bool_decide as E; [|done]. f_equal. rewrite (seqZ_cons (i + 1)) by lia. cbn [zip zip_with list_to_map].
  replace (Z.pred (Z.of_nat (S (length l)))) with (Z.of_nat (length l)) by lia.
  replace (Z.succ (i + 1)) with (i + 1 + 1) by lia. destruct E as [[Ho _]%NoDup_cons _].
  rewrite <- insert_union_r; [by rewrite insert_union_l|].
  apply not_elem_of_list_to_map_1. by rewrite zip_fst.
Qed.

Lemma assign_numbered code l :
  (length l ≤ 255)%nat →
  assign_oracles code l 0 ∅ = if bool_decide (NoDup l) then Done (numbered l) else Throw code.
Proof.
  intros Hl. rewrite assign_oracles_value by lia.
  rewrite (bool_decide_ext _ (NoDup l)).
  - case_bool_decide; [|done]. unfold numbered. by rewrite map_union_empty.
  - split; [by intros [? _]|]. intros H. split; [done|]. by apply Forall_forall.
Qed.

(** A step that can fail with a code of its own, as a condition and as a value. *)
Definition check {A} (e : exit A) : bool * Z := match e with Done _ => (true, 0) | Throw code => (false, code) end.
Definition value (e : exit Z) : Z := match e with Done v => v | Throw _ => 0 end.

(** The conditions [setOcr3Config] checks, in order, with their exit codes. *)
Definition conditions (self : OCR3Base) (m : SetOCR3Config) (c : Config) : list (bool * Z) :=
  let ns := value (size 32 (new_signers m)) in
  let nt := value (countAddresses (new_transmitters m)) in
  [((bigF (configInfo c) =? 0) || Bool.eqb (isSignatureVerificationEnabled (configInfo c)) (new_verification m),
     ERROR_STATIC_CONFIG_CANNOT_BE_CHANGED);
   check (countAddresses (new_transmitters m));
   (nt <=? 255, ERROR_TOO_MANY_TRANSMITTERS); (0 <? nt, ERROR_NO_TRANSMITTERS)] ++
  (if new_verification m
   then [check (size 32 (new_signers m)); (0 <? ns, ERROR_NO_SIGNERS); (ns <=? 255, ERROR_TOO_MANY_SIGNERS);
         (3 * new_bigF m <? ns, ERROR_BIG_F_TOO_HIGH); (nt <=? ns, ERROR_TOO_MANY_TRANSMITTERS);
         (bool_decide (NoDup (signers_of m)), ERROR_REPEATED_SIGNERS);
         check (vec (loadUint 256) (new_signers m)).2]
   else []) ++
  [(bool_decide (NoDup (transmitters_of m)), ERROR_REPEATED_TRANSMITTERS);
   check (vec loadAddress (new_transmitters m)).2].

Fixpoint first_violated (l : list (bool * Z)) : option Z :=
  match l with [] => None | (b, code) :: l => if b : bool then first_violated l else Some code end.

Definition config_error (self : OCR3Base) (m : SetOCR3Config) : option Z :=
  if 0 <? new_bigF m then
    match getConfig self (ocrPluginType m) with
    | Throw code => Some code
    | Done found => first_violated (conditions self m (default newOCRConfig found))
    end
  else Some ERROR_BIG_F_MUST_BE_POSITIVE.

(** What is stored of a configuration: oracles numbered from 1. *)
Definition new_config (m : SetOCR3Config) (old : Config) : Config :=
  {| configInfo :=
       {| configDigest := new_digest m; bigF := new_bigF m;
          n := if new_verification m then value (size 32 (new_signers m)) else n (configInfo old);
          isSignatureVerificationEnabled := new_verification m |};
     signers := if new_verification m then numbered (signers_of m) else signers old;
     transmitters := numbered (transmitters_of m) |}.

Definition old_config (self : OCR3Base) (p : Z) : Config :=
  match getConfig self p with Done (Some c) => c | _ => newOCRConfig end.

Definition config_set (m : SetOCR3Config) : list (action Body) :=
  [Log (Some OCR3BASE_CONFIG_SET_TOPIC)
    (ConfigSet (ocrPluginType m) (new_digest m) (new_signers m) (new_transmitters m) (new_bigF m))].

Lemma verification_bind (c : Config) (nv : bool) {A} (k : Config → M OCR3Base Body A) s :
  ((if bigF (configInfo c) =? 0 then mret (set_info (set_verification nv) c)
    else require (Bool.eqb (isSignatureVerificationEnabled (configInfo c)) nv)
      ERROR_STATIC_CONFIG_CANNOT_BE_CHANGED;; mret c) ≫= k) s =
  if (bigF (configInfo c) =? 0) || Bool.eqb (isSignatureVerificationEnabled (configInfo c)) nv
  then k (set_info (set_verification nv) c) s else Throw ERROR_STATIC_CONFIG_CANNOT_BE_CHANGED.
Proof.
  destruct (bigF (configInfo c) =? 0); cbn [orb].
  { by rewrite (M_bind_pure (mret _) _ _ (set_info (set_verification nv) c)). }
  destruct (Bool.eqb _ nv) eqn:E; [|by rewrite bind_run, require_bind].
  rewrite (M_bind_pure _ _ _ c) by (by rewrite require_bind). apply eqb_prop in E.
  f_equal. unfold set_info, set_verification. rewrite <- E. by destruct c as [[]].
Qed.

(** At most as many signers and transmitters are read as are counted. *)
Lemma signers_counted m ns :
  size 32 (new_signers m) = Done ns →
  0 ≤ ns ∧ Z.of_nat (length (signers_of m)) ≤ ns ∧
  ((vec (loadUint 256) (new_signers m)).2 = Done tt → linear (new_signers m) = true →
   Z.of_nat (length (signers_of m)) = ns).
Proof. exact (size_uint 32 _ _ (Nat.lt_0_succ _)). Qed.

Lemma transmitters_counted m nt :
  countAddresses (new_transmitters m) = Done nt →
  0 ≤ nt ∧ Z.of_nat (length (transmitters_of m)) ≤ nt ∧
  ((vec loadAddress (new_transmitters m)).2 = Done tt → linear (new_transmitters m) = true →
   Z.of_nat (length (transmitters_of m)) = nt).
Proof. apply countAddresses_vec. Qed.

(** Assigning the transmitters, at the end. *)
Lemma assign_transmitters m c :
  (length (transmitters_of m) ≤ 255)%nat →
  assignTransmitterOracles c (new_transmitters m) =
  match first_violated [(bool_decide (NoDup (transmitters_of m)), ERROR_REPEATED_TRANSMITTERS);
    check (vec loadAddress (new_transmitters m)).2]
  with
  | Some code => Throw code
  | None => Done {| configInfo := configInfo c; signers := signers c; transmitters := numbered (transmitters_of m) |}
  end.
Proof.
  intros Hl. unfold assignTransmitterOracles. fold (transmitters_of m). rewrite assign_numbered by done.
  case_bool_decide; [|done]. cbn [mbind exit_bind first_violated check].
  by destruct (vec loadAddress (new_transmitters m)).2 as [[]|].
Qed.

Lemma assign_signers m c :
  (length (signers_of m) ≤ 255)%nat →
  assignSignerOracles c (new_signers m) =
  match first_violated [(bool_decide (NoDup (signers_of m)), ERROR_REPEATED_SIGNERS);
    check (vec (loadUint 256) (new_signers m)).2]
  with
  | Some code => Throw code
  | None => Done {| configInfo := configInfo c; signers := numbered (signers_of m); transmitters := transmitters c |}
  end.
Proof.
  intros Hl. unfold assignSignerOracles. fold (signers_of m). rewrite assign_numbered by done.
  case_bool_decide; [|done]. cbn [mbind exit_bind first_violated check].
  by destruct (vec (loadUint 256) (new_signers m)).2 as [[]|].
Qed.

Lemma setOcr3Config_value m self :
  setOcr3Config m self =
  match config_error self m with
  | Some code => Throw code
  | None =>
      Done (tt, set_config (ocrPluginType m) (new_config m (old_config self (ocrPluginType m))) self, config_set m)
  end.
Proof.
  unfold setOcr3Config, config_error. rewrite require_bind. destruct (0 <? new_bigF m); [|done].
  rewrite get_bind, lift_bind. unfold old_config.
  destruct (getConfig self (ocrPluginType m)) as [found|code]; [|done].
  change (match found with Some c => c | None => newOCRConfig end) with (default newOCRConfig found).
  set (c := default newOCRConfig found). unfold conditions. rewrite verification_bind. cbn [first_violated app].
  set (c1 := set_info (set_verification (new_verification m)) c).
  destruct ((bigF (configInfo c) =? 0) || _); [|done].
  rewrite lift_bind. destruct (countAddresses (new_transmitters m)) as [nt|code] eqn:Ent; [|done].
  apply transmitters_counted in Ent as (_ & Hnt & _). rewrite !require_bind. cbn [check value first_violated]. unfold MAX_NUM_ORACLES.
  destruct (nt <=? 255) eqn:Et; [|done]. destruct (0 <? nt); [|done].
  destruct (new_verification m) eqn:Ev; cbn [app].
  2:{ rewrite (M_bind_pure (mret c1) _ _ c1) by done. rewrite lift_bind, assign_transmitters by lia.
      cbn [first_violated check]. case_bool_decide; [|done].
      destruct (vec loadAddress _).2 as [[]|]; [|done]. unfold new_config. by rewrite Ev. }
  rewrite bind_run, lift_bind. destruct (size 32 (new_signers m)) as [ns|code] eqn:Ens; [|done].
  pose proof (signers_counted _ _ Ens) as (_ & Hns & _).
  rewrite !require_bind. cbn [check value first_violated].
  destruct (0 <? ns); [|done]. destruct (ns <=? 255) eqn:Es; [|done].
  destruct (3 * new_bigF m <? _); [|done]. destruct (nt <=? ns); [|done].
  rewrite assign_signers by lia.
  cbn [first_violated check]. case_bool_decide; [|done].
  destruct (vec (loadUint 256) _).2 as [[]|]; [|done].
  cbn [check lift]. rewrite lift_bind, assign_transmitters by lia. cbn [first_violated check]. case_bool_decide; [|done].
  destruct (vec loadAddress _).2 as [[]|]; [|done]. unfold new_config. by rewrite Ev, Ens.
Qed.

(** ** Reports *)

Section reports.
Context (hash : cell → uint256) (isSignatureValid : uint256 → SignatureEd25519 → uint256 → bool).

(** What a configuration asks of a report. *)
Definition report_ok (c : Config) (transmitter : address) (ctx : ReportContext) (report sigs : cell) : Prop :=
  ctx_configDigest ctx = configDigest (configInfo c) ∧ is_Some (transmitters c !! transmitter) ∧
  (isSignatureVerificationEnabled (configInfo c) = true →
   size 96 sigs = Done (bigF (configInfo c) + 1) ∧
   ∃ l, vec load_SignatureEd25519 sigs = (l, Done tt) ∧
     Forall (signature_ok isSignatureValid (hashReport hash report ctx) (signers c)) l ∧ NoDup (signer <$> l)).

Definition transmitted (p : Z) (ctx : ReportContext) : list (action Body) :=
  [Log (Some OCR3BASE_TRANSMITTED) (Transmitted p (ctx_configDigest ctx) (sequenceBytes ctx))].

Lemma transmit_done a p ctx report sigs self s' o :
  (∀ c, getConfig self p = Done (Some c) → numbers_ok (signers c)) →
  transmit hash isSignatureValid a p ctx report sigs self = Done (tt, s', o) ↔
  ∃ c, getConfig self p = Done (Some c) ∧ report_ok c a ctx report sigs ∧ s' = self ∧ o = transmitted p ctx.
Proof.
  intros Hnum. unfold transmit. rewrite get_bind, lift_bind.
  destruct (getConfig self p) as [[c|]|code]; cbn beta iota;
    [|split; [discriminate|by intros (? & [=] & _)]|split; [discriminate|by intros (? & [=] & _)]].
  specialize (Hnum c eq_refl). unfold report_ok. rewrite !require_bind.
  destruct (_ =? configDigest _) eqn:Ed; [|split; [discriminate|intros (? & [= <-] & (E & _) & _); lia]].
  case_bool_decide as Et; [|split; [discriminate|by intros (? & [= <-] & (_ & E & _) & _)]].
  assert (Hok : ∀ Q : Prop, Q →
    Done (tt, self, transmitted p ctx) = Done (tt, s', o) ↔
    ∃ c', Done (Some c) = Done (Some c') ∧ (ctx_configDigest ctx = configDigest (configInfo c') ∧
      is_Some (transmitters c' !! a) ∧ (c' = c → Q)) ∧ s' = self ∧ o = transmitted p ctx).
  { intros Q HQ. split; [intros [= <- <-]; exists c; split_and!; [done|lia|done|done|done|done]|].
    by intros (? & _ & _ & -> & ->). }
  destruct (isSignatureVerificationEnabled (configInfo c)) eqn:Ev.
  2:{ rewrite (M_bind_pure (mret tt) _ _ tt) by done. etrans; [apply (Hok True I)|].
      split; intros (c' & [= <-] & (H1 & H2 & _) & H); exists c; split_and!; try done; try apply H.
      by rewrite Ev. }
  rewrite bind_run, lift_bind. destruct (size 96 sigs) as [count|code].
  2:{ split; [discriminate|]. intros (? & [= <-] & (_ & _ & E) & _). by destruct (E Ev). }
  rewrite require_bind. destruct (count =? bigF _ + 1) eqn:En.
  2:{ split; [discriminate|]. intros (? & [= <-] & (_ & _ & E) & _). destruct (E Ev) as [[= ->] _]. lia. }
  assert (count = bigF (configInfo c) + 1) as -> by lia.
  pose proof (verifySignature_done isSignatureValid (hashReport hash report ctx) (signers c) sigs Hnum) as Hv.
  destruct (verifySignature _ _ _ _) as [[]|code]; cbn [lift].
  - apply proj1 in Hv. specialize (Hv eq_refl). etrans; [apply (Hok True I)|].
    split; intros (c' & [= <-] & (H3 & H4 & _) & H); exists c; split_and!; try done; try apply H.
  - split; [discriminate|]. intros (? & [= <-] & (_ & _ & E) & _). destruct (E Ev) as (_ & E').
    enough (Throw code = Done tt) by discriminate. by apply Hv.
Qed.

(** ** What the contract has done *)

Abbreviation handled_step := (step (I:=input) (St:=OCR3Base) (B:=Body)).
Abbreviation handle := (onInternalMessage hash isSignatureValid).

Definition sets (st : handled_step) : option SetOCR3Config :=
  match msg (inp st) with SetConfig m => Some m | Transmit _ _ _ _ => None end.

(** [m] was the last configuration of the plugin [p]. *)
Definition last_config (past : list handled_step) (p : Z) (m : SetOCR3Config) : Prop :=
  ∃ h1 st h2, past = h1 ++ st :: h2 ∧ sets st = Some m ∧ ocrPluginType m = p ∧
    Forall (λ st', ∀ m', sets st' = Some m' → ocrPluginType m' ≠ p) h2.

(** More than three times F signers are counted, and read from a vector without second
    references. *)
Definition enough_signers (m : SetOCR3Config) : Prop :=
  ∃ n, size 32 (new_signers m) = Done n ∧ 3 * new_bigF m < n ≤ 255 ∧ Z.of_nat (length (signers_of m)) ≤ n ∧
    (linear (new_signers m) = true → Z.of_nat (length (signers_of m)) = n).

(** [c] is what is stored of [m]. *)
Definition stored (m : SetOCR3Config) (c : Config) : Prop :=
  configDigest (configInfo c) = new_digest m ∧ bigF (configInfo c) = new_bigF m ∧ 0 < new_bigF m ∧
  isSignatureVerificationEnabled (configInfo c) = new_verification m ∧
  NoDup (transmitters_of m) ∧ transmitters c = numbered (transmitters_of m) ∧
  (new_verification m = true →
   NoDup (signers_of m) ∧ signers c = numbered (signers_of m) ∧ enough_signers m).

Definition plugin_history (past : list handled_step) (s : OCR3Base) (p : Z) : Prop :=
  match getConfig s p with
  | Done (Some c) =>
      numbers_ok (signers c) ∧ (∃ m, last_config past p m ∧ stored m c) ∧
      ∀ st m, st ∈ past → sets st = Some m → ocrPluginType m = p →
        new_verification m = isSignatureVerificationEnabled (configInfo c)
  | _ => ∀ st m, st ∈ past → sets st = Some m → ocrPluginType m ≠ p
  end.

(** The signatures [l] of a report that the configuration [m] asks for: [F + 1] are counted in
    their vector, between one and [F + 1] are read, all of them when no cell of it has a second
    reference, and each that is read is valid and of another of the signers. *)
Definition signed_by (m : SetOCR3Config) (h : uint256) (sigs : cell) (l : list SignatureEd25519) : Prop :=
  vec load_SignatureEd25519 sigs = (l, Done tt) ∧ size 96 sigs = Done (new_bigF m + 1) ∧
  1 ≤ Z.of_nat (length l) ≤ new_bigF m + 1 ∧
  (linear sigs = true → Z.of_nat (length l) = new_bigF m + 1) ∧
  NoDup (signer <$> l) ∧
  Forall (λ sg, signer sg ∈ signers_of m ∧ isSignatureValid h sg (signer sg) = true) l.

(** Why a report was accepted: the last configuration of its plugin, with its digest, names the
    transmitter, and, if it asks for signatures, these are signatures of its signers. *)
Definition report_justified (past : list handled_step) (st : handled_step) : Prop :=
  match msg (inp st) with
  | Transmit p ctx report sigs =>
      ∃ m, last_config past p m ∧ ctx_configDigest ctx = new_digest m ∧
        sender (inp st) ∈ transmitters_of m ∧
        (new_verification m = true →
         enough_signers m ∧ ∃ l, signed_by m (hashReport hash report ctx) sigs l) ∧
        out st = transmitted p ctx
  | SetConfig _ => True
  end.

Definition ocr_history (past : list handled_step) (s : OCR3Base) : Prop :=
  (∀ p, plugin_history past s p) ∧ ∀ h1 st h2, past = h1 ++ st :: h2 → report_justified h1 st.

Lemma config_error_none self m :
  config_error self m = None →
  let old := old_config self (ocrPluginType m) in
  (ocrPluginType m = 0 ∨ ocrPluginType m = 1) ∧
  (bigF (configInfo old) = 0 ∨ isSignatureVerificationEnabled (configInfo old) = new_verification m) ∧
  stored m (new_config m old) ∧ (new_verification m = true → (length (signers_of m) ≤ 255)%nat).
Proof.
  unfold config_error. destruct (0 <? new_bigF m) eqn:Ef; [|done].
  assert (∀ found, getConfig self (ocrPluginType m) = Done found →
    default newOCRConfig found = old_config self (ocrPluginType m)) as Hold
    by (unfold old_config; intros [c|] ->; done).
  assert (∀ found, getConfig self (ocrPluginType m) = Done found → ocrPluginType m = 0 ∨ ocrPluginType m = 1) as Hp.
  { unfold getConfig, OCR_PLUGIN_TYPE_COMMIT, OCR_PLUGIN_TYPE_EXECUTE. intros found.
    destruct (_ =? 0) eqn:E0; [by left; lia|]. destruct (_ =? 1) eqn:E1; [by right; lia|done]. }
  destruct (getConfig self (ocrPluginType m)) as [found|code]; [|done].
  rewrite (Hold found eq_refl). specialize (Hp found eq_refl). clear Hold. set (c := old_config _ _).
  unfold conditions. cbn [first_violated app]. destruct (_ || _) eqn:E1; [|done].
  destruct (countAddresses _) as [nt|]; cbn [check value first_violated]; [|done].
  destruct (nt <=? 255); [|done]. destruct (0 <? nt); [|done].
  intros H. split; [done|]. split.
  { apply orb_true_iff in E1 as [E1|E1]; [left; lia|right; by apply eqb_prop]. }
  unfold stored, new_config. cbn. destruct (new_verification m); cbn [app first_violated] in H.
  - unfold enough_signers. destruct (size 32 _) as [ns|] eqn:Es; cbn [check value first_violated] in H; [|discriminate].
    pose proof (signers_counted _ _ Es) as (_ & H1 & H2).
    destruct (0 <? ns); [|discriminate]. destruct (ns <=? 255) eqn:?; [|discriminate].
    destruct (_ <? ns) eqn:?; [|discriminate]. destruct (nt <=? ns); [|discriminate].
    case_bool_decide; [|discriminate].
    destruct (vec (loadUint 256) _).2 as [[]|] eqn:Ev; cbn [check first_violated] in H; [|discriminate].
    case_bool_decide; [|discriminate].
    split_and!; try first [done|lia|intros _; lia]. intros _. split_and!; [done..|]. exists ns.
    split_and!; first [done|lia|by apply H2].
  - case_bool_decide; [|discriminate]. by split_and!; first [done|lia].
Qed.

Lemma getConfig_set p p' c self :
  p = 0 ∨ p = 1 → getConfig (set_config p c self) p' = if decide (p = p') then Done (Some c) else getConfig self p'.
Proof.
  unfold getConfig, set_config, OCR_PLUGIN_TYPE_COMMIT, OCR_PLUGIN_TYPE_EXECUTE.
  intros [-> | ->]; cbn; case_decide as E; [by subst| |by subst|];
    destruct (p' =? 0) eqn:E0, (p' =? 1) eqn:E1; try done; lia.
Qed.

Lemma last_config_keep past p m st :
  last_config past p m → (∀ m', sets st = Some m' → ocrPluginType m' ≠ p) → last_config (past ++ [st]) p m.
Proof.
  intros (h1 & st1 & h2 & -> & H1 & H2 & H3) Hst. exists h1, st1, (h2 ++ [st]). rewrite <- app_assoc.
  split_and!; [done..|]. apply Forall_app. split; [done|]. by apply Forall_cons.
Qed.

(** A step that configures another plugin, or none. *)
Lemma plugin_keep past s s' p st :
  plugin_history past s p → getConfig s' p = getConfig s p →
  (∀ m', sets st = Some m' → ocrPluginType m' ≠ p) → plugin_history (past ++ [st]) s' p.
Proof.
  unfold plugin_history. intros H E Hst. rewrite E.
  assert (Hno : (∀ st' m, st' ∈ past → sets st' = Some m → ocrPluginType m ≠ p) →
    ∀ st' m, st' ∈ past ++ [st] → sets st' = Some m → ocrPluginType m ≠ p).
  { intros H' st' m' [Hin|Hin]%elem_of_app Hs; [by eapply H'|]. apply list_elem_of_singleton in Hin as ->. by apply Hst. }
  destruct (getConfig s p) as [[c|]|]; [|by apply Hno|by apply Hno].
  - destruct H as (Hn & (m & Hl & Hm) & Hv). split; [done|]. split; [exists m; by split; [apply last_config_keep|]|].
    intros st' m' [Hin|Hin]%elem_of_app Hs Hp; [by eapply Hv|].
    apply list_elem_of_singleton in Hin as ->. by destruct (Hst m' Hs).
Qed.

(** The configuration that is found is what the history says. *)
Lemma plugin_old past s p :
  p = 0 ∨ p = 1 → plugin_history past s p →
  let c := old_config s p in
  numbers_ok (signers c) ∧
  (bigF (configInfo c) ≠ 0 ∨ ∀ st m, st ∈ past → sets st = Some m → ocrPluginType m ≠ p) ∧
  ∀ st m, st ∈ past → sets st = Some m → ocrPluginType m = p →
    new_verification m = isSignatureVerificationEnabled (configInfo c).
Proof.
  intros Hp. unfold plugin_history, old_config. destruct (getConfig s p) as [[c|]|code] eqn:E.
  - intros (Hn & (m & _ & _ & Ef & H0 & _) & Hv). split; [done|]. split; [left; lia|done].
  - intros H. split; [by split; cbn; intros *; rewrite lookup_empty|]. split; [by right|].
    intros st m Hin Hs Hq. by destruct (H st m Hin Hs).
  - exfalso. unfold getConfig in E. destruct Hp as [-> | ->]; discriminate.
Qed.

Lemma plugin_set past s i m :
  msg i = SetConfig m → config_error s m = None → plugin_history past s (ocrPluginType m) →
  ∀ o, plugin_history (past ++ [Step s i o])
    (set_config (ocrPluginType m) (new_config m (old_config s (ocrPluginType m))) s) (ocrPluginType m).
Proof.
  intros Em He Hh o. apply config_error_none in He as (Hp & Hstat & Hst & Hlen).
  destruct (plugin_old past s _ Hp Hh) as (Hn & Hset & Hv).
  unfold plugin_history. rewrite getConfig_set, decide_True by done. set (c := old_config _ _) in *.
  assert (sets (Step s i o) = Some m) as Hs by (unfold sets; cbn; by rewrite Em).
  split; [|split].
  - unfold new_config. cbn. destruct (new_verification m) eqn:Ev; [|done].
    apply numbered_ok; [|by apply Hlen]. destruct Hst as (_ & _ & _ & _ & _ & _ & Hst). by apply Hst.
  - exists m. split; [|done]. exists past, (Step s i o), []. split_and!; [done|done|done|constructor].
  - intros st m' [Hin|Hin]%elem_of_app Hs' Hp'; cbn.
    + destruct Hstat as [H0|H1]; [|rewrite <- H1; by eapply Hv].
      destruct Hset as [?|Hset]; [done|]. by destruct (Hset st m').
    + apply list_elem_of_singleton in Hin as ->. congruence.
Qed.

Lemma ocr_history_step past i s u s' o :
  ocr_history past s → handle i s = Done (u, s', o) → ocr_history (past ++ [Step s i o]) s'.
Proof.
  intros [Hp Hj] H. unfold onInternalMessage in H. destruct (msg i) as [p ctx report sigs|m] eqn:Em.
  - destruct u. apply transmit_done in H as (c & Hc & (Hd & Ht & Hs) & -> & ->).
    2:{ intros c Hc. specialize (Hp p). unfold plugin_history in Hp. rewrite Hc in Hp. apply Hp. }
    split.
    { intros p'. apply (plugin_keep past s); [done|done|]. unfold sets. cbn. by rewrite Em. }
    intros h1 st h2 [(-> & -> & _)|(h3 & _ & ->)]%snoc_cases; [|by apply (Hj h1 st h3)].
    unfold report_justified. cbn. rewrite Em. specialize (Hp p). unfold plugin_history in Hp. rewrite Hc in Hp.
    destruct Hp as (_ & (m & Hl & E1 & E2 & E3 & E4 & E5 & E6 & E7) & _). exists m. split; [done|].
    split; [congruence|]. rewrite E6 in Ht. split; [by apply numbered_is_Some in Ht|]. split; [|done].
    intros Ev. destruct (E7 Ev) as (E8 & E9 & E10). rewrite E4 in Hs.
    destruct (Hs Ev) as (H1 & l & H2 & H3 & H4). rewrite E2 in H1.
    split; [done|]. exists l. destruct (signatures_read sigs l _ E3 H1 H2) as [H5 H6].
    split_and!; [done|done|lia|lia|done|done|]. eapply Forall_impl; [exact H3|].
    intros sg [Hin Hvalid]. split; [|done]. rewrite E9 in Hin. by apply numbered_is_Some in Hin.
  - rewrite setOcr3Config_value in H. destruct (config_error s m) eqn:He; [discriminate|]. injection H as _ <- <-.
    split.
    + intros p. destruct (decide (ocrPluginType m = p)) as [<-|Hne]; [by apply plugin_set|].
      apply (plugin_keep past s); [done| |].
      * apply config_error_none in He as [Hq _]. by rewrite getConfig_set, decide_False.
      * unfold sets. cbn. rewrite Em. congruence.
    + intros h1 st h2 [(-> & -> & _)|(h3 & _ & ->)]%snoc_cases; [|by apply (Hj h1 st h3)].
      unfold report_justified. cbn. by rewrite Em.
Qed.

Lemma run_ocr_history ins s :
  commit s = None → execute s = None → ocr_history (handled handle ins s) (run handle ins s).
Proof.
  intros H1 H2. apply run_history; [intros h i s0 u s' o _; apply ocr_history_step|].
  split; [|intros h1 st h2 E; by destruct h1]. intros p. unfold plugin_history, getConfig.
  rewrite H1, H2. destruct (_ =? _); [by intros st m ?%elem_of_nil|].
  destruct (_ =? _); by intros st m ?%elem_of_nil.
Qed.

(** ** The claims *)

(** Which reports are accepted.  In whatever state the messages it received have brought a
    contract that started without configurations, [transmit] accepts a report exactly when the
    plugin has a configuration, the report carries its digest, the sender is one of its
    transmitters, and, if it asks for signatures, exactly [F + 1] of them are counted in their
    vector, the vector can be read to its end, and each signature read is valid over the hash of
    report and context and by a registered signer, no signer twice: the bitmap of seen indices
    tells the signers apart.  An accepted report changes nothing but emits the event. *)
Theorem transmit_quorum ins s0 a p ctx report sigs s' o :
  commit s0 = None → execute s0 = None →
  let s := run handle ins s0 in
  transmit hash isSignatureValid a p ctx report sigs s = Done (tt, s', o) ↔
  ∃ c, getConfig s p = Done (Some c) ∧ ctx_configDigest ctx = configDigest (configInfo c) ∧
    is_Some (transmitters c !! a) ∧
    (isSignatureVerificationEnabled (configInfo c) = true →
     size 96 sigs = Done (bigF (configInfo c) + 1) ∧
     ∃ l, vec load_SignatureEd25519 sigs = (l, Done tt) ∧
       Forall (λ sg, is_Some (signers c !! signer sg) ∧
         isSignatureValid (hashReport hash report ctx) sg (signer sg) = true) l ∧
       NoDup (signer <$> l)) ∧
    s' = s ∧ o = [Log (Some OCR3BASE_TRANSMITTED) (Transmitted p (ctx_configDigest ctx) (sequenceBytes ctx))].
Proof.
  intros H1 H2 s. destruct (run_ocr_history ins s0 H1 H2) as [Hp _].
  rewrite transmit_done; [unfold report_ok, signature_ok, transmitted; naive_solver|].
  intros c Hc. specialize (Hp p). unfold plugin_history in Hp. fold s in Hp. rewrite Hc in Hp. apply Hp.
Qed.

(** One signature is enough: with a vector whose second reference only makes up the size, a report
    is accepted that one of the signers signed, whatever F is up to 126. *)
Lemma one_signature_suffices p c self a ctx report sg :
  getConfig self p = Done (Some c) → numbers_ok (signers c) →
  0 ≤ bigF (configInfo c) ≤ 126 → ctx_configDigest ctx = configDigest (configInfo c) →
  is_Some (transmitters c !! a) → signature_ok isSignatureValid (hashReport hash report ctx) (signers c) sg →
  signature_range sg →
  transmit hash isSignatureValid a p ctx report (padded sg (Z.to_nat (bigF (configInfo c)))) self =
    Done (tt, self, transmitted p ctx).
Proof.
  intros Hc Hn Hf Hd Ht Hsg Hr. apply transmit_done; [intros c' Hc'; rewrite Hc in Hc'; by injection Hc' as <-|].
  exists c. split_and!; [done| |done|done]. split_and!; [done..|]. intros _.
  split; [rewrite padded_counted by lia; f_equal; lia|]. exists [sg].
  split; [by apply padded_read|]. split; [by constructor|apply NoDup_singleton].
Qed.

(** C14: why a report was accepted.  Whatever messages the contract receives, a report it has
    accepted carries the digest of the last configuration of its plugin, whose transmitters the
    sender is one of and which, if it asks for signatures, has counted more than [3 F] signers; then
    [F + 1] signatures are counted in the vector of the report, at least one and at most [F + 1]
    are read, of pairwise different signers of that configuration and valid for this report, and
    exactly [F + 1] when no cell of the vector has a second reference (likewise the signers are
    more than [3 F] when no cell of theirs has).  All configurations a plugin ever had agree on
    whether they ask for signatures. *)
Theorem reports_justified ins s0 :
  commit s0 = None → execute s0 = None →
  let past := handled handle ins s0 in
  (∀ h1 st h2, past = h1 ++ st :: h2 → report_justified h1 st) ∧
  ∀ st1 st2 m1 m2, st1 ∈ past → st2 ∈ past → sets st1 = Some m1 → sets st2 = Some m2 →
    ocrPluginType m1 = ocrPluginType m2 → new_verification m1 = new_verification m2.
Proof.
  intros H1 H2. destruct (run_ocr_history ins s0 H1 H2) as [Hp Hj]. cbn zeta. split; [exact Hj|].
  intros st1 st2 m1 m2 Hin1 Hin2 E1 E2 Ep. specialize (Hp (ocrPluginType m2)). unfold plugin_history in Hp.
  destruct (getConfig _ _) as [[c|]|code]; [|by destruct (Hp st2 m2)..].
  destruct Hp as (_ & _ & Hv). by rewrite (Hv st1 m1), (Hv st2 m2).
Qed.
End reports.

(** Which configurations are accepted, and what is stored.  [setOcr3Config] fails with the
    code of the first condition that is violated: F positive, a known plugin, the verification
    setting that was fixed by the first configuration, 1 to 255 transmitters counted; when
    signatures are asked for 1 to 255 signers counted, more than three times F, no fewer than
    transmitters, all that are read different; transmitters that are read all different.  Otherwise it replaces the configuration of that plugin alone,
    keeping the signers when none are asked for, and emits it; the oracle at position [k] gets
    number [k + 1], so that a number determines the oracle. *)
Theorem setOcr3Config_spec m self :
  setOcr3Config m self =
    match config_error self m with
    | Some code => Throw code
    | None =>
        Done (tt, set_config (ocrPluginType m) (new_config m (old_config self (ocrPluginType m))) self,
          [Log (Some OCR3BASE_CONFIG_SET_TOPIC)
            (ConfigSet (ocrPluginType m) (new_digest m) (new_signers m) (new_transmitters m) (new_bigF m))])
    end ∧
  (config_error self m = None →
   let c := new_config m (old_config self (ocrPluginType m)) in
   (∀ a i, transmitters c !! a = Some i ↔ 1 ≤ i ∧ transmitters_of m !! Z.to_nat (i - 1) = Some a) ∧
   (new_verification m = true → numbers_ok (signers c) ∧
    ∀ k i, signers c !! k = Some i ↔ 1 ≤ i ∧ signers_of m !! Z.to_nat (i - 1) = Some k)).
Proof.
  split; [apply setOcr3Config_value|]. intros (_ & _ & Hst & Hl)%config_error_none. cbn zeta.
  destruct Hst as (_ & _ & _ & _ & Hn & -> & Hs). split; [intros a i; by apply numbered_lookup|].
  intros Hv. destruct (Hs Hv) as (Hns & -> & _). split; [by apply numbered_ok, Hl|].
  intros k i. by apply numbered_lookup.
Qed.

(** ** A run *)

(** Signatures and hashes that can be told apart. *)
Definition sample_hash (c : cell) : uint256 := Z.of_nat (length (cell_bits c)).
Definition sample_valid (h : uint256) (sg : SignatureEd25519) (k : uint256) : bool := sig_r sg =? h + k.
Definition sample_sign (k : uint256) : SignatureEd25519 := {| sig_r := 512 + k; sig_s := 0; signer := k |}.

Definition sample_base : OCR3Base := {| chainId := 1; commit := None; execute := None |}.
Definition sample_config (signers : list uint256) : SetOCR3Config :=
  {| queryId := 1; new_digest := 99; ocrPluginType := OCR_PLUGIN_TYPE_COMMIT; new_bigF := 1;
     new_verification := true; new_signers := cell_vec (Z_bits 256) signers;
     new_transmitters := cell_vec (Z_bits 267) [21; 22] |}.
Definition sample_context : ReportContext := {| ctx_configDigest := 99; sequenceBytes := 5 |}.
Definition sample_report : cell := MkCell [true; false] [].

Definition sample_sigs (ks : list uint256) : cell := cell_vec signature_bits (sample_sign <$> ks).

(** Rejected: too few signers, a signer twice, one signature; accepted: a configuration, a report
    with two signatures, and one with a signature and as many bits more in another reference. *)
Definition sample_inputs : list input :=
  [{| sender := 1; msg := SetConfig (sample_config [11; 12; 13]) |};
   {| sender := 1; msg := SetConfig (sample_config [11; 12; 13; 14]) |};
   {| sender := 21; msg := Transmit 0 sample_context sample_report (sample_sigs [11; 11]) |};
   {| sender := 21; msg := Transmit 0 sample_context sample_report (sample_sigs [11]) |};
   {| sender := 21; msg := Transmit 0 sample_context sample_report (sample_sigs [13; 11]) |};
   {| sender := 21; msg := Transmit 0 sample_context sample_report (padded (sample_sign 13) 1) |}].

Abbreviation sample_handle := (onInternalMessage sample_hash sample_valid).

Lemma setOcr3Config_spec_witness :
  config_error sample_base (sample_config [11; 12; 13]) = Some ERROR_BIG_F_TOO_HIGH ∧
  config_error sample_base (sample_config [11; 12; 13; 11]) = Some ERROR_REPEATED_SIGNERS ∧
  numbers_ok (signers (new_config (sample_config [11; 12; 13; 14]) (old_config sample_base 0))).
Proof.
  split; [reflexivity|]. split; [vm_compute; reflexivity|].
  apply (proj2 (setOcr3Config_spec (sample_config [11; 12; 13; 14]) sample_base)); [vm_compute|]; reflexivity.
Defined.

Lemma transmit_quorum_witness :
  transmit sample_hash sample_valid 21 0 sample_context sample_report (sample_sigs [11; 11])
    (run sample_handle (take 2 sample_inputs) sample_base) = Throw ERROR_NON_UNIQUE_SIGNATURES ∧
  ∃ s' o, transmit sample_hash sample_valid 21 0 sample_context sample_report (sample_sigs [13; 11])
    (run sample_handle (take 2 sample_inputs) sample_base) = Done (tt, s', o).
Proof.
  split; [vm_compute; reflexivity|]. eexists _, _.
  apply (proj2 (transmit_quorum sample_hash sample_valid (take 2 sample_inputs) sample_base _ _ _ _ _ _ _
    eq_refl eq_refl)).
  exists (new_config (sample_config [11; 12; 13; 14]) newOCRConfig).
  split; [vm_compute; reflexivity|]. split; [reflexivity|]. split; [by eexists; vm_compute|].
  split; [|split; reflexivity]. intros _. split; [vm_compute; reflexivity|].
  exists (sample_sign <$> [13; 11]). split; [vm_compute; reflexivity|]. split.
  - repeat (constructor; [split; [by eexists; vm_compute|by vm_compute]|]). constructor.
  - repeat constructor; set_solver.
Defined.

(** The last of them is the report with one signature. *)
Lemma reports_justified_witness :
  length (handled sample_handle sample_inputs sample_base) = 3%nat ∧
  ∃ st, handled sample_handle sample_inputs sample_base = take 2 (handled sample_handle sample_inputs sample_base) ++ [st] ∧
    report_justified sample_hash sample_valid (take 2 (handled sample_handle sample_inputs sample_base)) st.
Proof.
  split; [vm_compute; reflexivity|].
  destruct (drop 2 (handled sample_handle sample_inputs sample_base)) as [|st rest] eqn:E; [vm_compute in E; discriminate|].
  assert (rest = []) as -> by (vm_compute in E; congruence).
  exists st. rewrite <- E. split; [symmetry; apply take_drop|].
  apply (proj1 (reports_justified sample_hash sample_valid sample_inputs sample_base eq_refl eq_refl) _ st []).
  rewrite <- E. symmetry. apply take_drop.
Defined.
End ocr3spec.
