(* ===== verification/Layouts.v ===== *)
(** * Layouts: what the Go bindings write and what the contracts read

    The cells that src/pkg/bindings writes for the messages of the contracts, compared with the
    layouts that the contracts under src/contracts/contracts declare: the multisig's operations and
    metadata agree bit by bit, so that both sides compute the same leaves; arrays are read by the
    contracts' iterator as they were packed; a timelock call is read with another value. *)

From S2P Require Import Prelude Cells BitCells Tlb Snake SnakeFacts Timelock Mcms BindingsSpec Event Tolk Ownable TimelockContract McmsContract.

Module layouts.
Local Open Scope tlb_scope.

(** ** Bits *)

Lemma bits_Z_acc_snoc bs b acc : bits_Z_acc acc (bs ++ [b]) = (2 * bits_Z_acc acc bs + Z.b2z b)%Z.
Proof. revert acc. induction bs as [|x bs IH]; intros acc; [done|]. apply IH. Qed.

Lemma Z_bits_snoc n z : Z_bits (S n) z = Z_bits n (z / 2) ++ [Z.odd z].
Proof.
  induction n as [|n IH]; [cbn; by rewrite Z.bit0_odd|].
  change (Z_bits (S (S n)) z) with (Z.testbit z (Z.of_nat (S n)) :: Z_bits (S n) z).
  rewrite IH. cbn [Z_bits app]. f_equal. rewrite <- Z.div2_div, Z.div2_spec, Z.shiftr_spec by lia. f_equal. lia.
Qed.

(** Bits read as a number and written again. *)
Lemma Z_bits_of_bits bs : Z_bits (length bs) (bits_Z bs) = bs.
Proof.
  induction bs as [|b bs IH] using rev_ind; [done|].
  rewrite length_app, Nat.add_1_r, Z_bits_snoc. unfold bits_Z in *. rewrite bits_Z_acc_snoc.
  f_equal; [|rewrite Z.odd_add, Z.odd_mul; by destruct b].
  rewrite <- IH at 3. f_equal. destruct b; cbn; Z.div_mod_to_equations; lia.
Qed.

(** The two's complement of a number that does not fit the sign. *)
Lemma Z_bits_wrap n m z : n ≤ m → Z_bits n (z - 2 ^ Z.of_nat m) = Z_bits n z.
Proof.
  intros Hn. induction n as [|n IH]; [done|]. cbn [Z_bits]. rewrite IH by lia. f_equal.
  assert (∀ a, Z.testbit a (Z.of_nat n) = Z.testbit (a mod 2 ^ Z.of_nat m) (Z.of_nat n)) as Hlow
    by (intros a; symmetry; apply Z.mod_pow2_bits_low; lia).
  rewrite (Hlow z), Hlow. f_equal.
  replace (z - 2 ^ Z.of_nat m)%Z with (z + (-1) * 2 ^ Z.of_nat m)%Z by ring. apply Z_mod_plus_full.
Qed.

Lemma Z_bits_high n m z : (0 ≤ z < 2 ^ Z.of_nat m)%Z → Z_bits (n + m) z = replicate n false ++ Z_bits m z.
Proof.
  intros Hz. induction n as [|n IH]; [done|]. cbn [Nat.add Z_bits replicate app]. rewrite IH. f_equal.
  destruct (decide (z = 0%Z)) as [->|Hne]; [apply Z.bits_0|]. apply Z.bits_above_log2; [lia|].
  apply Z.log2_lt_pow2; [lia|]. eapply Z.lt_le_trans; [apply Hz|]. apply Z.pow_le_mono_r; lia.
Qed.

(** ** Cells *)

Section cells.
Context {AL : AddrLib} {CL : CellLib} {CV : CellView} {CW : CellLaws}.

(** The contracts' view of a cell, and of the 267 bits of an address. *)
Context (of_cell : Cell → cell).
Hypothesis of_cell_spec : ∀ c, of_cell c = MkCell (cbits c) (of_cell <$> crefs c).
Hypothesis coins_format : ∀ v, (0 ≤ v < 2 ^ 120)%Z → coins_bits v = coins_encoding v.

Definition of_addr (a : Address) : address := bits_Z (addr_bits a).

Lemma of_addr_bits a : std_addr a → Z_bits 267 (of_addr a) = addr_bits a.
Proof. intros Ha. unfold of_addr. rewrite <- (addr_bits_size a Ha) at 1. apply Z_bits_of_bits. Qed.

(** An [int256] read from the bits of an unsigned number. *)
Definition of_int256 (z : Z) : Z := if (z <? 2 ^ 255)%Z then z else (z - 2 ^ 256)%Z.

Lemma of_int256_bits z : Z_bits 256 (of_int256 z) = Z_bits 256 z.
Proof. unfold of_int256. destruct (_ <? _)%Z; [done|]. exact (Z_bits_wrap 256 256 z (le_n _)). Qed.

(** The fields of a struct, stored from left to right. *)
Lemma struct_cell {A B} (to : B → A) (from : A → B) (f : fcodec B) a c bits refs :
  (∀ b, stores (Tlb.put f (from a) b) b bits refs) → ToCell (Tlb := tlb_struct (f_iso to from f)) a = Ok c →
  cbits c = bits ∧ crefs c = refs.
Proof.
  intros Hs H. cbn [ToCell tlb_struct] in H. apply bind_ok in H as (b & Hb & [= <-]).
  rewrite end_bits, end_refs. destruct (stores_ok _ BeginCell b bits refs (Hs BeginCell) Hb) as [-> ->].
  by rewrite begin_bits, begin_refs.
Qed.

Definition of_op (v : mcms.Op) (chainId : Z) : mc.Op :=
  {| mc.op_chainId := of_int256 chainId; mc.op_multiSig := of_addr (mcms.op_MultiSig v);
     mc.nonce := mcms.op_Nonce v; mc.op_to := of_addr (mcms.op_To v); mc.op_value := mcms.op_Value v;
     mc.op_data := of_cell (mcms.op_Data v) |}.

Definition of_metadata (v : mcms.RootMetadata) (chainId : Z) : mc.RootMetadata :=
  {| mc.md_chainId := of_int256 chainId; mc.md_multiSig := of_addr (mcms.md_MultiSig v);
     mc.preOpCount := mcms.md_PreOpCount v; mc.postOpCount := mcms.md_PostOpCount v;
     mc.overridePreviousRoot := mcms.md_OverridePreviousRoot v |}.

(** The contract's layout of a call: [Timelock_Call] of mcms/rbac_timelock.tolk. *)
Definition Timelock_Call_tlb : Tlb (Address * (Z * Cell)) := tlb_struct (f_addr ⊗ f_coins ⊗ f_cell).

Ltac store_fields :=
  repeat lazymatch goal with
  | |- stores (Tlb.put (f_pair _ _) (_, _) _) _ _ _ => cbn [Tlb.put f_pair fst snd]
  | |- stores (_ ≫= _) _ _ _ => eapply (stores_bind _ _ _ _ []); [|intros ?]
  | |- stores (Tlb.put (f_big _) _ _) _ _ _ => apply store_bigint; [lia|done]
  | |- stores (Tlb.put f_addr _ _) _ _ _ => by apply store_addr
  | |- stores (Tlb.put (f_uint _) _ _) _ _ _ => apply store_uint; [lia|done]
  | |- stores (Tlb.put f_coins _ _) _ _ _ => by apply store_coins
  | |- stores (Tlb.put f_bool _ _) _ _ _ => apply store_bool
  | |- stores (Tlb.put f_cell _ _) _ _ _ => apply store_ref
  end.

Lemma op_cell v z c :
  mcms.Op_ok v → mcms.op_ChainID v = Some z → ToCell (Tlb := mcms.Op_tlb) v = Ok c →
  mc.Op_toCell (of_op v z) = of_cell c.
Proof.
  intros (Hc & Hm & Hn & Ht & Hv) Ez H. rewrite Ez in Hc.
  assert (cbits c = Z_bits 256 z ++ addr_bits (mcms.op_MultiSig v) ++ Z_bits 40 (mcms.op_Nonce v) ++
    addr_bits (mcms.op_To v) ++ coins_bits (mcms.op_Value v) ++ [] ∧ crefs c = [mcms.op_Data v]) as [Hb Hr].
  { eapply struct_cell; [|exact H]. intros b. cbn beta iota. rewrite Ez. store_fields. }
  rewrite of_cell_spec, Hb, Hr. unfold mc.Op_toCell, of_op. cbn -[Z_bits of_int256].
  by rewrite of_int256_bits, !of_addr_bits, coins_format, app_nil_r by done.
Qed.

Lemma metadata_cell v z c :
  mcms.RootMetadata_ok v → mcms.md_ChainID v = Some z → ToCell (Tlb := mcms.RootMetadata_tlb) v = Ok c →
  mc.RootMetadata_bits (of_metadata v z) = cbits c ∧ crefs c = [].
Proof.
  intros (Hc & Hm & Hp & Hq) Ez H. rewrite Ez in Hc.
  assert (cbits c = Z_bits 256 z ++ addr_bits (mcms.md_MultiSig v) ++ Z_bits 40 (mcms.md_PreOpCount v) ++
    Z_bits 40 (mcms.md_PostOpCount v) ++ [mcms.md_OverridePreviousRoot v] ∧ crefs c = []) as [-> Hr].
  { eapply struct_cell; [|exact H]. intros b. cbn beta iota. rewrite Ez. store_fields. }
  split; [|done]. unfold mc.RootMetadata_bits, of_metadata. cbn -[Z_bits of_int256].
  by rewrite of_int256_bits, of_addr_bits.
Qed.

(** C30: both sides agree on what is signed and executed.  The cell that the Go bindings write for
    an operation of the multisig is, bit by bit and reference by reference, the cell the contract
    makes of the operation it has decoded, so that the leaves of the Merkle tree agree for every
    hash; so do the bits of the root's metadata.  The chain id, an unsigned number in Go, is the
    [int256] of the contract with the same two's complement. *)
Theorem mcms_cells_agree (hash : cell → uint256) v z c md zm cm :
  mcms.Op_ok v → mcms.op_ChainID v = Some z → ToCell (Tlb := mcms.Op_tlb) v = Ok c →
  mcms.RootMetadata_ok md → mcms.md_ChainID md = Some zm → ToCell (Tlb := mcms.RootMetadata_tlb) md = Ok cm →
  mc.Op_toCell (of_op v z) = of_cell c ∧
  mc.op_leaf hash (of_op v z) =
    hash (MkCell (Z_bits 256 mc.MANY_CHAIN_MULTI_SIG_DOMAIN_SEPARATOR_OP) [of_cell c]) ∧
  mc.RootMetadata_bits (of_metadata md zm) = cell_bits (of_cell cm) ∧
  mc.metadata_leaf hash (of_metadata md zm) =
    hash (MkCell (Z_bits 256 mc.MANY_CHAIN_MULTI_SIG_DOMAIN_SEPARATOR_METADATA ++ cell_bits (of_cell cm)) []).
Proof.
  intros Hv Ez Hc Hmd Ezm Hcm. pose proof (op_cell v z c Hv Ez Hc) as H1.
  destruct (metadata_cell md zm cm Hmd Ezm Hcm) as [H2 _]. rewrite (of_cell_spec cm). cbn [cell_bits].
  unfold mc.op_leaf, mc.metadata_leaf. by rewrite H1, H2.
Qed.

(** The value of a timelock call is lost.  Reading the cell that the Go bindings write for a
    call, [Value] as 256 bits, with the layout the contract declares, [value: coins], gives
    the target and the data of the call but the value 0, whatever value below 2^252 was written,
    and leaves 252 bits that are not read. *)
Theorem call_value_lost v z c :
  timelock.Call_ok v → timelock.cl_Value v = Some z → (0 ≤ z < 2 ^ 252)%Z →
  ToCell (Tlb := timelock.Call_tlb) v = Ok c →
  ∃ s, LoadFromCell (Tlb := Timelock_Call_tlb) (BeginParse c) =
      Ok ((timelock.cl_Target v, (0%Z, timelock.cl_Data v)), s) ∧ SliceBitsLeft s = 252%Z.
Proof.
  intros (Ha & Hv) Ez Hz H. rewrite Ez in Hv.
  assert (cbits c = addr_bits (timelock.cl_Target v) ++ Z_bits 256 z ++ [] ∧ crefs c = [timelock.cl_Data v]) as [Hb Hr].
  { eapply struct_cell; [|exact H]. intros b. cbn beta iota. rewrite Ez. store_fields. }
  change 256 with (4 + 252) in Hb. rewrite Z_bits_high, app_nil_r in Hb by done.
  change (replicate 4 false) with (coins_encoding 0) in Hb. rewrite <- coins_format in Hb by lia.
  cbn [LoadFromCell Timelock_Call_tlb tlb_struct Tlb.get f_pair f_addr f_coins f_cell].
  destruct (load_addr _ Ha (BeginParse c) (coins_bits 0 ++ Z_bits 252 z) [timelock.cl_Data v]) as (s1 & -> & Hb1 & Hr1);
    [by rewrite parse_bits|by rewrite parse_refs|]. cbn [mbind res_bind fst snd].
  destruct (load_coins 0 ltac:(lia) s1 (Z_bits 252 z) [timelock.cl_Data v]) as (s2 & -> & Hb2 & Hr2); [done..|].
  cbn [mbind res_bind fst snd].
  destruct (load_ref (timelock.cl_Data v) s2 (Z_bits 252 z) []) as (s3 & -> & Hb3 & Hr3); [done..|].
  cbn [mbind res_bind fst snd]. exists s3. split; [done|]. by rewrite slice_bits_left, Hb3, Z_bits_length.
Qed.

(** The contracts read the arrays that the Go bindings pack.  The contract's iterator
    over the cell that [packArrayWithStaticType] built, of elements of any type whose encoding is
    read back, references included, yields exactly these elements in order; it stops, after one
    round for each element and one more. *)
Theorem iterator_reads_packed {T} (TT : Tlb T) (dom : T → Prop) (nb nr : nat) (xs : list T) root fuel :
  stream_lawful TT dom 1 nb nr → Forall dom xs → packArrayWithStaticType xs = Ok (Some root) →
  length xs < fuel → Iterator_elements TT fuel (Iterator_new root) = Ok xs.
Proof. intros HT. exact (packed_elements HT xs root fuel). Qed.
End cells.

(** ** A run *)

Section runs.
Import BitCells BindingsSpec.Runs.

Fixpoint of_bcell (c : bcell) : cell :=
  let '(BCell bits refs) := c in MkCell (take 1023 bits) (take 4 (of_bcell <$> refs)).

Lemma of_bcell_spec (c : bcell) : of_bcell c = MkCell (cbits c) (of_bcell <$> crefs c).
Proof. destruct c as [bits refs]. cbn. by rewrite fmap_take. Qed.

Lemma coins_same v : (0 ≤ v < 2 ^ 120)%Z → coins_bits v = coins_encoding v.
Proof. done. Qed.

Definition op1 : mcms.Op :=
  {| mcms.op_ChainID := Some (2 ^ 256 - 239)%Z; mcms.op_MultiSig := addr1; mcms.op_Nonce := 3;
     mcms.op_To := addr1; mcms.op_Value := 1000; mcms.op_Data := BCell [true] [BCell [] []] |}.
Definition metadata1 : mcms.RootMetadata :=
  {| mcms.md_ChainID := Some (2 ^ 256 - 239)%Z; mcms.md_MultiSig := addr1; mcms.md_PreOpCount := 3;
     mcms.md_PostOpCount := 4; mcms.md_OverridePreviousRoot := false |}.
Definition call2 : timelock.Call :=
  {| timelock.cl_Target := addr1; timelock.cl_Value := Some 5000000000%Z; timelock.cl_Data := BCell [true] [] |}.

Definition built (r : res Cell) : Cell := match r with Ok c => c | _ => BCell [] [] end.

(** The chain id of the main net is -239. *)
Lemma mcms_cells_agree_witness :
  mc.op_chainId (of_op of_bcell op1 (2 ^ 256 - 239)) = (-239)%Z ∧
  mc.Op_toCell (of_op of_bcell op1 (2 ^ 256 - 239)) = of_bcell (built (ToCell (Tlb := mcms.Op_tlb) op1)).
Proof.
  split; [vm_compute; reflexivity|].
  apply (mcms_cells_agree (CW := BitLaws) of_bcell of_bcell_spec coins_same (λ _, 0%Z) op1 (2 ^ 256 - 239)
    (built (ToCell (Tlb := mcms.Op_tlb) op1)) metadata1 (2 ^ 256 - 239)
    (built (ToCell (Tlb := mcms.RootMetadata_tlb) metadata1))).
  - repeat split; try apply addr1_ok; by vm_compute.
  - reflexivity.
  - vm_compute. reflexivity.
  - repeat split; try apply addr1_ok; by vm_compute.
  - reflexivity.
  - vm_compute. reflexivity.
Defined.

(** Five TON are written, none are read. *)
Lemma call_value_lost_witness :
  ∃ s, LoadFromCell (Tlb := Timelock_Call_tlb) (BeginParse (built (ToCell (Tlb := timelock.Call_tlb) call2))) =
      Ok ((addr1, (0%Z, timelock.cl_Data call2)), s) ∧ SliceBitsLeft s = 252%Z.
Proof.
  apply (call_value_lost (CW := BitLaws) coins_same call2 5000000000).
  - split; [apply addr1_ok|by vm_compute].
  - reflexivity.
  - by vm_compute.
  - vm_compute. reflexivity.
Defined.

Definition calls2 : Cell :=
  match packArrayWithStaticType (TT := timelock.Call_tlb) [call2; call2; call2] with Ok (Some c) => c | _ => BCell [] [] end.

Lemma iterator_reads_packed_witness :
  length (crefs calls2) = 2 ∧
  Iterator_elements timelock.Call_tlb 4 (Iterator_new calls2) = Ok [call2; call2; call2].
Proof.
  split; [vm_compute; reflexivity|].
  apply (iterator_reads_packed (CW := BitLaws) timelock.Call_tlb timelock.Call_ok 523 1 [call2; call2; call2] calls2 4).
  - intros v Hv. destruct (timelock.Call_lawful v Hv) as (c & H1 & H2 & H3 & H4). exists c. split; [exact H1|]. split; [lia|done].
  - repeat constructor; try apply addr1_ok; by vm_compute.
  - vm_compute. reflexivity.
  - cbn. lia.
Defined.
End runs.
End layouts.
