(* ===== verification/Merkle.v ===== *)
(** * Merkle: trees of hashes

    The Merkle trees that the contracts check proofs against.  The root of a tree is made with
    sorted pairs; what a proof computes is the root of another tree, whose leaves are hashes that
    were given.  If both roots are the same then the given hashes are hashes of nodes of the first
    tree, or one of the cells of the tree and one of the cells hashed for the proof collide. *)

From S2P Require Import Prelude Tolk Slices.

Local Open Scope Z_scope.

(** ** Numbers written as bits *)

Lemma Z_bits_inj n a b :
  0 ≤ a < 2 ^ Z.of_nat n → 0 ≤ b < 2 ^ Z.of_nat n → Z_bits n a = Z_bits n b → a = b.
Proof. intros Ha Hb H. by rewrite <- (bits_Z_bits n a Ha), <- (bits_Z_bits n b Hb), H. Qed.

Definition u256 (z : Z) : Prop := 0 ≤ z < 2 ^ 256.

(** ** Trees *)

(** The tree that was committed to: its leaves are cells. *)
Inductive tree := Leaf (c : cell) | Node (l r : tree).

Fixpoint leaves (t : tree) : list cell :=
  match t with Leaf c => [c] | Node l r => leaves l ++ leaves r end.

(** The tree a proof goes through: its leaves are hashes. *)
Inductive proof_tree := Given (h : uint256) | Join (l r : proof_tree).

Fixpoint given (p : proof_tree) : list uint256 :=
  match p with Given h => [h] | Join l r => given l ++ given r end.

Section merkle.
Context (hash : cell → uint256) (node : uint256 → uint256 → cell).

(** The cell that is hashed for a pair. *)
Definition pair_cell (a b : uint256) : cell := if a <? b then node a b else node b a.
Definition hash_pair (a b : uint256) : uint256 := hash (pair_cell a b).

Fixpoint tree_root (t : tree) : uint256 :=
  match t with Leaf c => hash c | Node l r => hash_pair (tree_root l) (tree_root r) end.

Fixpoint proof_root (p : proof_tree) : uint256 :=
  match p with Given h => h | Join l r => hash_pair (proof_root l) (proof_root r) end.

(** The cells that are hashed to make a root, and to check a proof. *)
Fixpoint tree_cells (t : tree) : list cell :=
  match t with
  | Leaf c => [c]
  | Node l r => pair_cell (tree_root l) (tree_root r) :: tree_cells l ++ tree_cells r
  end.

Fixpoint proof_cells (p : proof_tree) : list cell :=
  match p with
  | Given _ => []
  | Join l r => pair_cell (proof_root l) (proof_root r) :: proof_cells l ++ proof_cells r
  end.

(** Two cells with the same hash, one in each of two lists.  Hashes have 256 bits, so that some
    cells collide; a collision of two cells out of given lists is what is hard to find. *)
Definition collision (xs ys : list cell) : Prop :=
  ∃ c1 c2, c1 ∈ xs ∧ c2 ∈ ys ∧ c1 ≠ c2 ∧ hash c1 = hash c2.

Lemma collision_mono xs ys xs' ys' : xs ⊆ xs' → ys ⊆ ys' → collision xs ys → collision xs' ys'.
Proof. intros Hx Hy (c1 & c2 & H1 & H2 & Hn & H). exists c1, c2. split_and!; [by apply Hx|by apply Hy|done|done]. Qed.

Hypothesis hash_range : ∀ c, u256 (hash c).
Hypothesis node_inj : ∀ a b c d, u256 a → u256 b → u256 c → u256 d → node a b = node c d → a = c ∧ b = d.

Lemma tree_root_range t : u256 (tree_root t).
Proof. destruct t; apply hash_range. Qed.

Lemma proof_root_range p : Forall u256 (given p) → u256 (proof_root p).
Proof. destruct p; cbn; [by intros [H _]%Forall_cons|intros _; apply hash_range]. Qed.

Lemma tree_cells_root t : ∃ c, c ∈ tree_cells t ∧ tree_root t = hash c.
Proof. destruct t; (eexists; split; [apply list_elem_of_here|done]). Qed.

(** The same cell for two pairs: the same pair, in some order. *)
Lemma pair_cell_inj a b c d :
  u256 a → u256 b → u256 c → u256 d → pair_cell a b = pair_cell c d →
  (a = c ∧ b = d) ∨ (a = d ∧ b = c).
Proof.
  intros Ha Hb Hc Hd H. unfold pair_cell in H.
  destruct (a <? b), (c <? d); apply node_inj in H; try done; tauto.
Qed.

Definition is_node (c : cell) : Prop := ∃ a b, u256 a ∧ u256 b ∧ c = node a b.

Lemma pair_cell_node a b : u256 a → u256 b → is_node (pair_cell a b).
Proof. intros Ha Hb. unfold pair_cell. destruct (a <? b); [by exists a, b|by exists b, a]. Qed.

(** A part of a tree. *)
Definition part (s t : tree) : Prop := leaves s ⊆ leaves t ∧ tree_cells s ⊆ tree_cells t.

Lemma part_left s l r : part s l → part s (Node l r).
Proof. intros [H1 H2]. split; cbn; set_solver. Qed.
Lemma part_right s l r : part s r → part s (Node l r).
Proof. intros [H1 H2]. split; cbn; set_solver. Qed.

(** A hash given to a proof that ends in the root of [t] is the root of a part of [t]. *)
Definition found (t : tree) (p : proof_tree) (h : uint256) : Prop :=
  (∃ s, part s t ∧ tree_root s = h) ∨ collision (tree_cells t) (proof_cells p).

Lemma found_up t t' p p' h :
  (∀ s, part s t → part s t') → tree_cells t ⊆ tree_cells t' → proof_cells p ⊆ proof_cells p' →
  found t p h → found t' p' h.
Proof.
  intros Hs Ht Hp [(s & Hst & Hr)|Hc]; [left; exists s; by split; [apply Hs|]|right].
  by eapply collision_mono.
Qed.

Local Ltac up :=
  eapply found_up; [| | |eassumption]; [auto using part_left, part_right|cbn; set_solver..].

Lemma given_part p : ∀ t,
  Forall (λ c, ¬ is_node c) (leaves t) → Forall u256 (given p) → proof_root p = tree_root t →
  ∀ h, h ∈ given p → found t p h.
Proof.
  induction p as [h0|l IHl r IHr]; intros t Ht Hp E h Hh.
  { apply list_elem_of_singleton in Hh as ->. left. exists t. by repeat split. }
  cbn [given] in *. apply Forall_app in Hp as [Hl Hr].
  pose proof (pair_cell_node _ _ (proof_root_range l Hl) (proof_root_range r Hr)) as Hnode.
  destruct (tree_cells_root t) as (c & Hc & Ec).
  destruct (decide (c = pair_cell (proof_root l) (proof_root r))) as [->|Hne].
  2:{ right. exists c, (pair_cell (proof_root l) (proof_root r)).
      split_and!; [done|apply list_elem_of_here|done|by rewrite <- Ec, <- E]. }
  destruct t as [c|a b]; cbn [tree_root leaves] in *.
  { apply list_elem_of_singleton in Hc as <-. by apply Forall_cons in Ht as [Ht _]. }
  apply Forall_app in Ht as [Hta Htb]. apply elem_of_app in Hh.
  destruct (decide (pair_cell (tree_root a) (tree_root b) = pair_cell (proof_root l) (proof_root r))) as [E'|Hne].
  2:{ right. exists (pair_cell (tree_root a) (tree_root b)), (pair_cell (proof_root l) (proof_root r)).
      split_and!; [apply list_elem_of_here|apply list_elem_of_here|done|exact (eq_sym E)]. }
  symmetry in E'.
  apply pair_cell_inj in E' as [[E1 E2]|[E1 E2]]; [| |by apply proof_root_range..|apply tree_root_range|apply tree_root_range].
  - destruct Hh as [Hh|Hh]; [pose proof (IHl _ Hta Hl E1 _ Hh) as Hf|pose proof (IHr _ Htb Hr E2 _ Hh) as Hf]; up.
  - destruct Hh as [Hh|Hh]; [pose proof (IHl _ Htb Hl E1 _ Hh) as Hf|pose proof (IHr _ Hta Hr E2 _ Hh) as Hf]; up.
Qed.

(** A leaf that was proven is one of the leaves. *)
Lemma proven_leaf p t x :
  Forall (λ c, ¬ is_node c) (leaves t) → ¬ is_node x → Forall u256 (given p) →
  proof_root p = tree_root t → hash x ∈ given p →
  x ∈ leaves t ∨ collision (tree_cells t) (x :: proof_cells p).
Proof.
  intros Ht Hx Hp E Hin. destruct (given_part p t Ht Hp E _ Hin) as [([c|a b] & [Hs Hc] & Hr)|Hc].
  - cbn in Hr. destruct (decide (c = x)) as [->|Hne]; [left; apply Hs, list_elem_of_singleton; done|].
    right. exists c, x. split_and!; [apply Hc, list_elem_of_here|apply list_elem_of_here|done..].
  - right. exists (pair_cell (tree_root a) (tree_root b)), x.
    split_and!; [apply Hc, list_elem_of_here|apply list_elem_of_here| |done].
    intros <-. apply Hx, pair_cell_node; apply tree_root_range.
  - right. revert Hc. apply collision_mono; [done|set_solver].
Qed.
End merkle.
