(* ===== verification/MultiProof.v ===== *)
(** * MultiProof: lib/crypto/merkle_multi_proof.tolk and the message ids of ccip/types.tolk

    Computing one root from several leaves at once: a bitmap says at each step whether the
    first hash comes from the proof or from the queue of leaves and hashes computed before.
    Leaves are the list their iterator yields; the proofs are a vector, whose entries are counted
    by [countBytes] and read by the iterator. *)

From S2P Require Import Prelude Tolk Slices Merkle.

Module mp.
Import slices.
Local Open Scope Z_scope.

Definition ERROR_INVALID_PROOF_LEAVES_CANNOT_BE_EMPTY : Z := 1001.
Definition ERROR_INVALID_PROOF_LEAVES_TOO_LARGE : Z := 1002.
Definition ERROR_INVALID_PROOF_PROOFS_TOO_LARGE : Z := 1003.
Definition ERROR_INVALID_PROOF_TOTAL_HASHES_EXCEEDED_MAX : Z := 1004.

Definition INTERNAL_DOMAIN_SEPARATOR : Z := 1.
Definition MAX_NUM_HASHES : Z := 128.

(** The TVM's code for reading a tuple out of its range. *)
Definition RANGE_CHECK : Z := 5.

Definition internal_node (a b : uint256) : cell :=
  MkCell (Z_bits 256 INTERNAL_DOMAIN_SEPARATOR ++ Z_bits 256 a ++ Z_bits 256 b) [].

Section crypto.
Context (hash : cell → uint256).

Definition hashInternalNode (a b : uint256) : uint256 := hash (internal_node a b).

Definition hashPair (a b : uint256) : uint256 :=
  if a <? b then hashInternalNode a b else hashInternalNode b a.

(** The leaves that are left, the proofs that are left, the hashes and the position in them. *)
Record state := { s_leaves : list uint256; s_proofs : list uint256; s_hashes : list uint256; hashPos : nat }.

(** A leaf or a previously computed hash. *)
Definition take_queue (s : state) : exit (uint256 * state) :=
  match s_leaves s with
  | x :: l => Done (x, {| s_leaves := l; s_proofs := s_proofs s; s_hashes := s_hashes s; hashPos := hashPos s |})
  | [] =>
      match s_hashes s !! hashPos s with
      | Some x =>
          Done (x, {| s_leaves := []; s_proofs := s_proofs s; s_hashes := s_hashes s; hashPos := S (hashPos s) |})
      | None => Throw RANGE_CHECK
      end
  end.

(** [proofs.next()]: reading fails after the last proof, however the vector ends. *)
Definition take_proof (s : state) : exit (uint256 * state) :=
  match s_proofs s with
  | x :: p => Done (x, {| s_leaves := s_leaves s; s_proofs := p; s_hashes := s_hashes s; hashPos := hashPos s |})
  | [] => Throw CELL_UNDERFLOW
  end.

(** One round. *)
Definition hash_step (proofFlagBits : uint256) (i : Z) (s : state) : exit state :=
  r ← (if Z.land proofFlagBits (Z.shiftl 1 i) =? Z.shiftl 1 i then take_queue s else take_proof s);
  let '(a, s) := r in
  r ← take_queue s;
  let '(b, s) := r in
  mret {| s_leaves := s_leaves s; s_proofs := s_proofs s; s_hashes := s_hashes s ++ [hashPair a b];
    hashPos := hashPos s |}.

(** [n] rounds from the round [i]. *)
Fixpoint hash_loop (proofFlagBits : uint256) (n : nat) (i : Z) (s : state) : exit state :=
  match n with
  | O => Done s
  | S n => s ← hash_step proofFlagBits i s; hash_loop proofFlagBits n (i + 1) s
  end.

(** The proofs that the iterator yields. *)
Definition proofs_of (proofs : cell) : list uint256 := (vec (loadUint 256) proofs).1.

Definition merkleRoot (leaves : list uint256) (proofs : cell) (proofFlagBits : uint256) : exit uint256 :=
  let leavesLen := Z.of_nat (length leaves) in
  proofsLen ← size 32 proofs;
  assert (negb (leavesLen =? 0)) ERROR_INVALID_PROOF_LEAVES_CANNOT_BE_EMPTY;;
  assert (leavesLen <=? MAX_NUM_HASHES) (ERROR_INVALID_PROOF_LEAVES_TOO_LARGE + 1);;
  assert (proofsLen <=? MAX_NUM_HASHES) (ERROR_INVALID_PROOF_PROOFS_TOO_LARGE + 1);;
  let totalHashes := leavesLen + proofsLen - 1 in
  assert (totalHashes <=? MAX_NUM_HASHES) ERROR_INVALID_PROOF_TOTAL_HASHES_EXCEEDED_MAX;;
  if totalHashes =? 0 then
    match leaves with x :: _ => Done x | [] => Throw CELL_UNDERFLOW end
  else
    s ← hash_loop proofFlagBits (Z.to_nat totalHashes) 0
      {| s_leaves := leaves; s_proofs := proofs_of proofs; s_hashes := []; hashPos := 0 |};
    match s_hashes s !! hashPos s with Some r => Done r | None => Throw RANGE_CHECK end.

(** ** Message ids (ccip/types.tolk) *)

Record RampMessageHeader := {
  messageId : uint256;
  sourceChainSelector : Z;
  destChainSelector : Z;
  sequenceNumber : Z;
  nonce : Z;
}.

Record Any2TVMRampMessage := {
  header : RampMessageHeader;
  sender : cell;
  data : cell;
  receiver : address;
  tokenAmounts : option cell;
}.

(** The cell whose hash is the id of a message. *)
Definition message_cell (self : Any2TVMRampMessage) (metadataHash : uint256) : cell :=
  MkCell (Z_bits 256 0 ++ Z_bits 256 metadataHash ++ [bool_decide (is_Some (tokenAmounts self))])
    ([MkCell (Z_bits 256 (messageId (header self)) ++ Z_bits 267 (receiver self) ++
        Z_bits 64 (sequenceNumber (header self)) ++ Z_bits 64 (nonce (header self))) [];
      sender self; data self] ++ match tokenAmounts self with Some c => [c] | None => [] end).

Definition generateMessageId (self : Any2TVMRampMessage) (metadataHash : uint256) : uint256 :=
  hash (message_cell self metadataHash).

(** ** The tree of a proof *)

(** The leaves not used yet and the hashes computed and not used yet, in this order. *)
Definition queue (s : state) : list uint256 := s_leaves s ++ drop (hashPos s) (s_hashes s).

(** Every element of the queue is the root of a tree; the hashes given to these trees and the
    proofs that are left are all that was given. *)
Definition forest (all : list uint256) (s : state) : Prop :=
  (hashPos s ≤ length (s_hashes s))%nat ∧
  ∃ ts, proof_root hash internal_node <$> ts = queue s ∧ (ts ≫= given) ++ s_proofs s ≡ₚ all.

(** What is left to be hashed. *)
Definition remaining (s : state) : nat := length (queue s) + length (s_proofs s).

Lemma take_queue_spec s x s' :
  (hashPos s ≤ length (s_hashes s))%nat →
  take_queue s = Done (x, s') →
  queue s = x :: queue s' ∧ s_proofs s' = s_proofs s ∧ (hashPos s' ≤ length (s_hashes s'))%nat.
Proof.
  intros Hp. unfold take_queue, queue. destruct (s_leaves s) as [|y l] eqn:E.
  - destruct (s_hashes s !! hashPos s) as [y|] eqn:Ey; [|discriminate]. intros [= <- <-]. cbn.
    split; [by apply drop_S|]. split; [done|]. apply lookup_lt_Some in Ey. lia.
  - intros [= <- <-]. cbn. by split_and!.
Qed.

Lemma take_proof_spec s x s' :
  take_proof s = Done (x, s') → queue s' = queue s ∧ s_proofs s = x :: s_proofs s' ∧
    hashPos s' = hashPos s ∧ s_hashes s' = s_hashes s.
Proof. unfold take_proof. destruct (s_proofs s); [discriminate|]. by intros [= <- <-]. Qed.

(** The queue with one more hash. *)
Lemma queue_push s x :
  (hashPos s ≤ length (s_hashes s))%nat →
  queue {| s_leaves := s_leaves s; s_proofs := s_proofs s; s_hashes := s_hashes s ++ [x]; hashPos := hashPos s |} =
  queue s ++ [x].
Proof. intros H. unfold queue. cbn. by rewrite drop_app_le, app_assoc. Qed.

Lemma move_given (xs ys ps : list uint256) a : xs ++ (a :: ys) ++ ps ≡ₚ ys ++ xs ++ a :: ps.
Proof.
  rewrite (app_assoc ys), (Permutation_app_comm ys), <- app_assoc. apply Permutation_app_head.
  apply (Permutation_middle ys ps a).
Qed.

Lemma join_root l r :
  proof_root hash internal_node (Join l r) =
  hashPair (proof_root hash internal_node l) (proof_root hash internal_node r).
Proof. cbn. unfold hash_pair, pair_cell, hashPair. by destruct (_ <? _). Qed.

Lemma hash_step_forest all flags i s s' :
  forest all s → hash_step flags i s = Done s' → forest all s' ∧ remaining s = S (remaining s').
Proof.
  intros (Hp & ts & Hts & Hall) H. unfold hash_step in H.
  apply exit_bind_done in H as ([a s1] & Ha & H). apply exit_bind_done in H as ([b s2] & Hb & [= <-]).
  destruct (_ =? _).
  - apply take_queue_spec in Ha as (Hqa & Hpa & Hpos1); [|done]. apply take_queue_spec in Hb as (Hqb & Hpb & Hpos2); [|done].
    rewrite Hqa, Hqb in Hts. destruct ts as [|ta [|tb ts]]; [done..|]. injection Hts as Ea Eb Hts.
    change (proof_root hash internal_node <$> ts = queue s2) in Hts.
    split; [|unfold remaining; rewrite queue_push, length_app, Hqa, Hqb by done; cbn; rewrite Hpb, Hpa; lia].
    split; [cbn; rewrite length_app; lia|]. exists (ts ++ [Join ta tb]).
    rewrite queue_push by done. rewrite fmap_app, Hts. cbn [fmap list_fmap]. rewrite join_root, Ea, Eb.
    split; [done|]. rewrite <- Hall. cbn. rewrite Hpb, Hpa, bind_app. cbn. rewrite app_nil_r.
    rewrite <- !app_assoc. rewrite (Permutation_app_comm (ts ≫= given)), <- !app_assoc.
    do 2 f_equiv. apply Permutation_app_comm.
  - apply take_proof_spec in Ha as (Hqa & Hpa & Hpp & Hhh).
    apply take_queue_spec in Hb as (Hqb & Hpb & Hpos2); [|by rewrite Hpp, Hhh].
    rewrite <- Hqa, Hqb in Hts. destruct ts as [|tb ts]; [done|]. injection Hts as Eb Hts.
    change (proof_root hash internal_node <$> ts = queue s2) in Hts.
    split; [|unfold remaining; rewrite queue_push, length_app, <- Hqa, Hqb, Hpa by done; cbn; rewrite Hpb; lia].
    split; [cbn; rewrite length_app; lia|]. exists (ts ++ [Join (Given a) tb]).
    rewrite queue_push by done. rewrite fmap_app, Hts. cbn [fmap list_fmap]. rewrite join_root, Eb.
    split; [done|]. rewrite <- Hall, Hpa. cbn. rewrite Hpb, bind_app. cbn. rewrite app_nil_r.
    rewrite <- !app_assoc. apply move_given.
Qed.

Lemma hash_loop_forest all flags n i s s' :
  forest all s → hash_loop flags n i s = Done s' → forest all s' ∧ remaining s = (n + remaining s')%nat.
Proof.
  revert i s. induction n as [|n IH]; intros i s Hf H; [by injection H as <-|].
  cbn in H. apply exit_bind_done in H as (s1 & H1 & H). apply (hash_step_forest all) in H1 as [Hf1 Hr]; [|done].
  apply IH in H as [Hf' Hr']; [|done]. split; [done|lia].
Qed.

Definition start (leaves proofs : list uint256) : state :=
  {| s_leaves := leaves; s_proofs := proofs; s_hashes := []; hashPos := 0 |}.

Lemma start_forest leaves proofs : forest (leaves ++ proofs) (start leaves proofs).
Proof.
  split; [done|]. exists (Given <$> leaves). unfold queue. cbn. rewrite app_nil_r. split.
  - rewrite <- list_fmap_compose. apply list_fmap_id.
  - apply reflexive_eq. f_equal. induction leaves as [|x leaves IH]; [done|]. cbn. by f_equal.
Qed.

Lemma start_remaining leaves proofs : remaining (start leaves proofs) = (length leaves + length proofs)%nat.
Proof. unfold remaining, queue. cbn. by rewrite app_nil_r. Qed.

(** A root that was computed is the root of a tree with exactly the hashes that were given: a
    vector in which more proofs are counted than can be read runs out of hashes. *)
Lemma merkleRoot_tree leaves proofs flags r :
  let ps := proofs_of proofs in
  merkleRoot leaves proofs flags = Done r →
  (1 ≤ length leaves ≤ 128 ∧ length ps ≤ 128 ∧ length leaves + length ps ≤ 129)%nat ∧
  size 32 proofs = Done (Z.of_nat (length ps)) ∧
  ∃ p, proof_root hash internal_node p = r ∧ given p ≡ₚ leaves ++ ps.
Proof.
  intros ps. unfold merkleRoot. intros (n & Hn & H)%exit_bind_done.
  do 4 (apply exit_bind_done in H as ([] & ?%assert_done & H)). unfold MAX_NUM_HASHES in *.
  destruct (size_uint 32 proofs n ltac:(lia) Hn) as (Hn0 & Hps & _).
  change (Z.of_nat (length ps) ≤ n) in Hps. rewrite Hn.
  destruct (_ - 1 =? 0) eqn:E0.
  - assert (n = Z.of_nat (length ps)) as -> by lia. split; [lia|]. split; [done|].
    destruct leaves as [|x [|]]; cbn [length] in *; try lia. injection H as <-. exists (Given x). split; [done|].
    destruct ps; [done|cbn [length] in *; lia].
  - apply exit_bind_done in H as (s & Hl & H).
    change (hash_loop flags (Z.to_nat (Z.of_nat (length leaves) + n - 1)) 0 (start leaves ps) = Done s) in Hl.
    apply (hash_loop_forest (leaves ++ ps)) in Hl as [(Hp & ts & Hts & Hall) Hr]; [|apply start_forest].
    destruct (s_hashes s !! hashPos s) as [r'|] eqn:Er; [|discriminate]. injection H as ->.
    rewrite start_remaining in Hr. unfold queue in Hts. erewrite drop_S in Hts by exact Er.
    assert (length ts + length (s_proofs s) = remaining s)%nat as Hone.
    { unfold remaining, queue. erewrite drop_S by exact Er. apply (f_equal length) in Hts.
      rewrite length_fmap in Hts. lia. }
    destruct ts as [|p ts]; [by destruct (s_leaves s)|]. cbn [length] in Hone.
    assert (n = Z.of_nat (length ps)) as -> by lia. split; [lia|]. split; [done|].
    destruct ts; cbn [length] in Hone; [|lia].
    destruct (s_proofs s); [|cbn in Hone; lia]. exists p. cbn in Hall. rewrite !app_nil_r in Hall. split; [|done].
    destruct (s_leaves s) as [|x l]; cbn in Hts; [by injection Hts|]. injection Hts as _ Hts. by destruct l.
Qed.
End crypto.
End mp.
