(* ===== verification/MerkleSpec.v ===== *)
(** * MerkleSpec: what is proven was committed

    An operation the multisig executes and a message the ramp accepts are among the leaves of
    the tree whose root was committed, unless a cell of that tree and a cell hashed to check the
    proof collide. *)

From S2P Require Import Prelude Tolk Slices Merkle Ownable McmsContract McmsTree McmsSpec MultiProof.

Module merklespec.
Local Open Scope Z_scope.

(** An input handled earlier is one of the inputs. *)
Lemma handled_before {Inp St B : Type} (handle : Inp → M St B ()) ins s h1 h2 st :
  handled handle ins s = h1 ++ h2 → st ∈ h1 → inp st ∈ ins.
Proof. intros E Hin. apply (handled_inp handle ins s). rewrite E. apply elem_of_app. by left. Qed.

(** ** The cells of the multisig *)

Section mcms.
Context (hash : cell → uint256) (isSignatureValid : uint256 → mc.Signature → uint256 → bool).
Hypothesis hash_range : ∀ c, u256 (hash c).

Definition mcms_node (a b : uint256) : cell := MkCell (Z_bits 256 a ++ Z_bits 256 b) [].
Definition op_cell (op : mc.Op) : cell :=
  MkCell (Z_bits 256 mc.MANY_CHAIN_MULTI_SIG_DOMAIN_SEPARATOR_OP) [mc.Op_toCell op].
Definition metadata_cell (md : mc.RootMetadata) : cell :=
  MkCell (Z_bits 256 mc.MANY_CHAIN_MULTI_SIG_DOMAIN_SEPARATOR_METADATA ++ mc.RootMetadata_bits md) [].

(** The trees that the signers of the multisig sign: operations and metadata. *)
Definition mcms_tree (t : tree) : Prop :=
  Forall (λ c, (∃ op, c = op_cell op) ∨ ∃ md, c = metadata_cell md) (leaves t).

Lemma pair_bits_inj a b c d :
  u256 a → u256 b → u256 c → u256 d → Z_bits 256 a ++ Z_bits 256 b = Z_bits 256 c ++ Z_bits 256 d → a = c ∧ b = d.
Proof.
  intros Ha Hb Hc Hd H. apply app_inj_1 in H as [H1 H2]; [|by rewrite !Z_bits_length].
  split; by eapply (Z_bits_inj 256).
Qed.

Lemma mcms_node_inj a b c d :
  u256 a → u256 b → u256 c → u256 d → mcms_node a b = mcms_node c d → a = c ∧ b = d.
Proof.
  intros Ha Hb Hc Hd H. apply (f_equal cell_bits) in H. unfold mcms_node in H. cbn [cell_bits] in H.
  by apply pair_bits_inj.
Qed.

Lemma op_cell_leaf op : ¬ is_node mcms_node (op_cell op).
Proof. intros (a & b & _ & _ & H). by apply (f_equal cell_refs) in H. Qed.

Lemma metadata_cell_leaf md : ¬ is_node mcms_node (metadata_cell md).
Proof.
  intros (a & b & _ & _ & H). apply (f_equal cell_bits), (f_equal length) in H.
  unfold metadata_cell, mcms_node, mc.RootMetadata_bits in H. cbn [cell_bits] in H.
  rewrite !length_app, !Z_bits_length in H. cbn in H. lia.
Qed.

Lemma mcms_tree_leaves t : mcms_tree t → Forall (λ c, ¬ is_node mcms_node c) (leaves t).
Proof.
  intros H. eapply Forall_impl; [exact H|].
  intros c [[op ->]|[md ->]]; [apply op_cell_leaf|apply metadata_cell_leaf].
Qed.

(** The tree a proof of the multisig goes through. *)
Fixpoint path (p : proof_tree) (proof : list uint256) : proof_tree :=
  match proof with [] => p | x :: proof => path (Join p (Given x)) proof end.

Lemma path_root p proof :
  proof_root hash mcms_node (path p proof) = mc.processProof hash proof (proof_root hash mcms_node p).
Proof.
  revert p. induction proof as [|x proof IH]; intros p; [done|]. cbn [path mc.processProof]. rewrite IH. f_equal.
  cbn. unfold hash_pair, pair_cell, mc.hashPair. by destruct (_ <? _).
Qed.

Lemma path_given p proof : given (path p proof) = given p ++ proof.
Proof.
  revert p. induction proof as [|x proof IH]; intros p; cbn [path]; [by rewrite app_nil_r|].
  rewrite IH. cbn. by rewrite <- app_assoc.
Qed.

(** The cells hashed to check the proof of an operation. *)
Definition checked_cells (op : mc.Op) (proof : list uint256) : list cell :=
  op_cell op :: proof_cells hash mcms_node (path (Given (mc.op_leaf hash op)) proof).

Lemma verify_committed t proof op :
  mcms_tree t → Forall u256 proof →
  mc.verify hash proof (tree_root hash mcms_node t) (mc.op_leaf hash op) = true →
  op_cell op ∈ leaves t ∨ collision hash (tree_cells hash mcms_node t) (checked_cells op proof).
Proof.
  intros Ht Hp Hv%Z.eqb_eq. unfold checked_cells. change (mc.op_leaf hash op) with (hash (op_cell op)) in *.
  apply (proven_leaf hash mcms_node hash_range mcms_node_inj (path (Given (hash (op_cell op))) proof)).
  - by apply mcms_tree_leaves.
  - apply op_cell_leaf.
  - rewrite path_given. cbn. by constructor.
  - by rewrite path_root.
  - rewrite path_given. apply list_elem_of_here.
Qed.

(** The proofs of a message are numbers of 256 bits. *)
Definition proof_ok (i : mc.input) : Prop :=
  match mc.msg i with mc.Execute _ _ proof => Forall u256 proof | _ => True end.

(** C4: nothing is executed that was not signed.  The signers of a multisig build trees of
    operations and metadata and sign their roots.  Whatever messages a well-formed contract without
    pending operations receives, when every root that a quorum signed in its history is the root of
    the tree [trees] gives for it, then each operation it executes is a leaf of the tree of a root
    signed before, or a cell of that tree and another cell hashed to check the proof have the same
    hash. *)
Theorem executed_ops_committed (trees : uint256 → tree) ins s0 h1 st h2 q op proof :
  mcspec.wf s0 → mc.postOpCount (mc.rootMetadata s0) ≤ mc.getOpCount s0 →
  Forall mcspec.message_ok ins → Forall proof_ok ins →
  handled (mc.onInternalMessage hash isSignatureValid) ins s0 = h1 ++ st :: h2 →
  (∀ st' r vu md, st' ∈ h1 → mcspec.root_signed hash isSignatureValid st' r vu md →
    mcms_tree (trees r) ∧ tree_root hash mcms_node (trees r) = r) →
  mc.msg (inp st) = mc.Execute q op proof →
  ∃ st' r vu md, st' ∈ h1 ∧ mcspec.root_signed hash isSignatureValid st' r vu md ∧
    (op_cell op ∈ leaves (trees r) ∨
     collision hash (tree_cells hash mcms_node (trees r)) (checked_cells op proof)).
Proof.
  intros Hwf H0 Hins Hproofs E Htrees Em.
  destruct (mcspec.contract_run hash isSignatureValid ins s0 Hwf H0 Hins) as (_ & _ & _ & _ & Hj).
  specialize (Hj _ _ _ E). unfold mcspec.op_justified in Hj. rewrite Em in Hj.
  destruct Hj as (_ & _ & _ & st' & r & vu & md & Hin & Hs & _ & Hv & _).
  destruct (Htrees _ _ _ _ Hin Hs) as [Ht Hr]. rewrite <- Hr in Hv.
  assert (inp st ∈ ins) as Hst by (eapply handled_inp; rewrite E; set_solver).
  rewrite Forall_forall in Hproofs. specialize (Hproofs _ Hst). unfold proof_ok in Hproofs. rewrite Em in Hproofs.
  exists st', r, vu, md. split_and!; [done..|]. by apply verify_committed.
Qed.
End mcms.

(** ** The cells of the ramps *)

Section ccip.
Context (hash : cell → uint256).
Hypothesis hash_range : ∀ c, u256 (hash c).

(** The trees that the commit plugin reports: messages of one lane. *)
Definition message_tree (t : tree) : Prop := Forall (λ c, ∃ m mh, c = mp.message_cell m mh) (leaves t).

Lemma internal_node_inj a b c d :
  u256 a → u256 b → u256 c → u256 d → mp.internal_node a b = mp.internal_node c d → a = c ∧ b = d.
Proof.
  intros Ha Hb Hc Hd H. apply (f_equal cell_bits) in H. unfold mp.internal_node in H. cbn [cell_bits] in H.
  by apply app_inv_head, pair_bits_inj in H.
Qed.

Lemma message_cell_leaf m mh : ¬ is_node mp.internal_node (mp.message_cell m mh).
Proof. intros (a & b & _ & _ & H). by apply (f_equal cell_refs) in H. Qed.

(** C6: what a multi-proof proves.  When the root computed from the ids of some messages, a vector of
    proofs and flags, whatever these are, is the root of a tree of messages, then it is the root of
    a tree of hashes with exactly these ids and the proofs that can be read of the vector, and
    every one of the messages is a leaf of the tree of messages, or one of its cells collides with
    that message or with a cell hashed on the way; there are then 1 to 128 messages and at most 129
    messages and proofs, and as many proofs are counted as can be read. *)
Theorem proven_messages_committed t ms mh proofs flags :
  message_tree t →
  mp.merkleRoot hash ((λ m, mp.generateMessageId hash m mh) <$> ms) proofs flags =
    Done (tree_root hash mp.internal_node t) →
  let ps := mp.proofs_of proofs in
  (1 ≤ length ms ≤ 128 ∧ length ms + length ps ≤ 129)%nat ∧
  slices.size 32 proofs = Done (Z.of_nat (length ps)) ∧
  ∃ p, given p ≡ₚ ((λ m, mp.generateMessageId hash m mh) <$> ms) ++ ps ∧
    proof_root hash mp.internal_node p = tree_root hash mp.internal_node t ∧
    ∀ m, m ∈ ms → mp.message_cell m mh ∈ leaves t ∨
      collision hash (tree_cells hash mp.internal_node t)
        (mp.message_cell m mh :: proof_cells hash mp.internal_node p).
Proof.
  intros Ht H ps. apply mp.merkleRoot_tree in H as (Hlen & Hsize & p & Hr & Hg). rewrite length_fmap in Hlen.
  fold ps in Hlen, Hsize, Hg. split; [lia|]. split; [done|]. exists p. split_and!; [done..|]. intros m Hm.
  apply (proven_leaf hash mp.internal_node hash_range internal_node_inj p).
  - eapply Forall_impl; [exact Ht|]. intros c (m' & mh' & ->). apply message_cell_leaf.
  - apply message_cell_leaf.
  - rewrite Hg. apply Forall_app. split; [|apply (slices.vec_uint_range 256)].
    apply Forall_fmap, Forall_forall. intros x _. apply hash_range.
  - done.
  - rewrite Hg. apply elem_of_app. left. by apply (list_elem_of_fmap_2 (λ m, mp.generateMessageId hash m mh)).
Qed.
End ccip.

(** ** A run *)

Lemma bits_hash_range n bits : 0 ≤ n < 2 ^ 61 → 0 ≤ mcspec.bits_hash n bits < 2 ^ 61.
Proof.
  unfold mcspec.bits_hash. revert n. induction bits as [|b bits IH]; intros n Hn; [done|]. cbn [foldl]. apply IH.
  pose proof (Z.mod_pos_bound (2 * n + Z.b2z b) (2 ^ 61 - 1) ltac:(lia)). lia.
Qed.

Lemma sample_hash_range c : u256 (mcspec.sample_hash c).
Proof.
  assert (∀ z, 0 ≤ z < 2 ^ 61 → u256 z) as H by (intros z Hz; split; [lia|]; etrans; [apply Hz|done]).
  apply H. destruct c as [bits [|r refs]]; cbn; [by apply bits_hash_range|]. by apply bits_hash_range, bits_hash_range.
Qed.

(** The tree behind the root that the multisig's sample run sets. *)
Definition sample_trees (r : uint256) : tree :=
  Node (Leaf (metadata_cell mcspec.sample_metadata)) (Leaf (op_cell mcspec.sample_op)).

Lemma sample_trees_ok r : mcms_tree (sample_trees r).
Proof.
  constructor; [right; by exists mcspec.sample_metadata|]. constructor; [left; by exists mcspec.sample_op|constructor].
Qed.

Lemma sample_tree_root : tree_root mcspec.sample_hash mcms_node (sample_trees mcspec.sample_root) = mcspec.sample_root.
Proof. vm_compute. reflexivity. Qed.

Definition sets_root (i : mc.input) : Prop :=
  match mc.msg i with mc.SetRoot _ r _ _ _ _ => r = mcspec.sample_root | _ => True end.

Lemma sample_sets_root : Forall sets_root mcspec.sample_inputs.
Proof. repeat (constructor; [unfold sets_root; cbn [mc.msg]; first [exact I|exact (eq_refl mcspec.sample_root)]|]). constructor. Qed.

Lemma sample_proofs_ok : Forall proof_ok mcspec.sample_inputs.
Proof.
  repeat (constructor; [unfold proof_ok; cbn [mc.msg];
    first [exact I|constructor; [apply sample_hash_range|constructor]]|]). constructor.
Qed.

Lemma sample_root_set i q r vu md proof sigs :
  i ∈ mcspec.sample_inputs → mc.msg i = mc.SetRoot q r vu md proof sigs → r = mcspec.sample_root.
Proof.
  pose proof sample_sets_root as H. rewrite Forall_forall in H. intros Hi E. specialize (H i Hi).
  unfold sets_root in H. by rewrite E in H.
Qed.

Lemma executed_ops_committed_witness :
  length (handled mcspec.sample_handle mcspec.sample_inputs mcspec.sample_mcms) = 3%nat ∧
  ∃ h1 st, handled mcspec.sample_handle mcspec.sample_inputs mcspec.sample_mcms = h1 ++ [st] ∧
    ∃ st' r vu md, st' ∈ h1 ∧ mcspec.root_signed mcspec.sample_hash mcspec.sample_valid st' r vu md ∧
      (op_cell mcspec.sample_op ∈ leaves (sample_trees r) ∨
       collision mcspec.sample_hash (tree_cells mcspec.sample_hash mcms_node (sample_trees r))
         (checked_cells mcspec.sample_hash mcspec.sample_op
           [mc.metadata_leaf mcspec.sample_hash mcspec.sample_metadata])).
Proof.
  split; [vm_compute; reflexivity|].
  set (past := handled mcspec.sample_handle mcspec.sample_inputs mcspec.sample_mcms).
  destruct (drop 2 past) as [|st rest] eqn:E; [vm_compute in E; discriminate|].
  assert (rest = []) as -> by (vm_compute in E; congruence).
  assert (past = take 2 past ++ [st]) as Hp by (rewrite <- E; symmetry; apply take_drop).
  exists (take 2 past), st. split; [exact Hp|].
  apply (executed_ops_committed mcspec.sample_hash mcspec.sample_valid sample_hash_range sample_trees mcspec.sample_inputs
    mcspec.sample_mcms (take 2 past) st [] 3 mcspec.sample_op
    [mc.metadata_leaf mcspec.sample_hash mcspec.sample_metadata]).
  - exact mcspec.sample_wf.
  - by vm_compute.
  - exact mcspec.mcms_inputs_ok.
  - exact sample_proofs_ok.
  - exact Hp.
  - intros st' r vu md Hin (q & proof & sigs & Em & _).
    pose proof (handled_before _ _ _ _ _ _ Hp Hin) as Hi.
    split; [apply sample_trees_ok|]. pose proof (sample_root_set _ _ _ _ _ _ _ Hi Em) as Hr. clear - Hr.
    subst r. exact sample_tree_root.
  - vm_compute in E. by injection E as <-.
Defined.

Definition sample_message (n : Z) : mp.Any2TVMRampMessage :=
  {| mp.header := {| mp.messageId := n; mp.sourceChainSelector := 7; mp.destChainSelector := 8;
       mp.sequenceNumber := n; mp.nonce := 0 |};
     mp.sender := MkCell [true] []; mp.data := MkCell [] []; mp.receiver := 5; mp.tokenAmounts := None |}.
Definition message_leaf (n : Z) : tree := Leaf (mp.message_cell (sample_message n) 99).
Definition sample_lane : tree := Node (Node (message_leaf 1) (message_leaf 2)) (message_leaf 3).

(** The messages 1 and 3 with the id of message 2 as the proof. *)
Definition sample_proofs : cell := MkCell (Z_bits 256 (mp.generateMessageId mcspec.sample_hash (sample_message 2) 99)) [].

Lemma proven_messages_committed_witness :
  mp.proofs_of sample_proofs = [mp.generateMessageId mcspec.sample_hash (sample_message 2) 99] ∧
  ∃ p, given p ≡ₚ ((λ m, mp.generateMessageId mcspec.sample_hash m 99) <$> [sample_message 1; sample_message 3]) ++
      mp.proofs_of sample_proofs ∧
    (mp.message_cell (sample_message 3) 99 ∈ leaves sample_lane ∨
     collision mcspec.sample_hash (tree_cells mcspec.sample_hash mp.internal_node sample_lane)
       (mp.message_cell (sample_message 3) 99 :: proof_cells mcspec.sample_hash mp.internal_node p)).
Proof.
  split; [vm_compute; reflexivity|].
  destruct (proven_messages_committed mcspec.sample_hash sample_hash_range sample_lane
    [sample_message 1; sample_message 3] 99 sample_proofs 2)
    as (_ & _ & p & Hg & _ & Hm).
  - do 3 (constructor; [by eexists _, _|]). constructor.
  - vm_compute. reflexivity.
  - exists p. split; [exact Hg|]. apply Hm, list_elem_of_further, list_elem_of_here.
Defined.
End merklespec.
