(* ===== verification/OnrampContract.v ===== *)
(** * OnrampContract: ccip/types.tolk and ccip/onramp.tolk

    The way of a message off the chain: the router ([RouterContract]) forwards what users send to
    the ramp, the ramp asks the fee quoter for the fee and, when it answers, gives the message the
    next sequence number of its lane and emits it.  [hash] is the representation hash of a cell; vectors
    are the lists their iterators yield. *)

From S2P Require Import Prelude Event Tolk Ownable MultiProof.

(** ** Messages and structs (types.tolk) *)

Module ccip.
Local Open Scope Z_scope.

Definition ERROR_OUT_OF_RANGE : Z := 5.
Definition ERROR_UNKNOWN_DEST_CHAIN_SELECTOR : Z := 256.
Definition ERROR_SENDER_NOT_ALLOWED : Z := 261.
Definition ERROR_INVALID_MESSAGE_DEST_CHAIN_SELECTOR : Z := 262.
Definition ERROR_SOURCE_CHAIN_SELECTOR_MISMATCH : Z := 263.
Definition ERROR_UNAUTHORIZED : Z := 265.
Definition ERROR_SOURCE_CHAIN_NOT_ENABLED : Z := 266.

(** A [CrossChainAddress] is a slice: the bits of up to 64 bytes. *)
Definition CrossChainAddress : Type := list bool.

Definition packToBuilder (self : CrossChainAddress) : exit (list bool) :=
  let nBits := Z.of_nat (length self) in
  assert (nBits mod 8 =? 0) ERROR_OUT_OF_RANGE;;
  let nBytes := nBits / 8 in
  assert (nBytes <=? 64) ERROR_OUT_OF_RANGE;;
  mret (Z_bits 8 nBytes ++ self).

Record CCIPSend := {
  queryId : Z;
  destChainSelector : Z;
  receiver : CrossChainAddress;
  data : cell;
  tokenAmounts : cell;
  feeToken : address;
  extraArgs : cell;
}.

Record TVM2AnyRampMessage := {
  header : mp.RampMessageHeader;
  sender : address;
  body : cell;
  feeValueJuels : Z;
}.

(** [TVM2AnyRampMessageBody.toCell()], given the cell of the receiver. *)
Definition body_cell (receiver data extraArgs tokenAmounts : cell) (feeToken : address)
  (feeTokenAmount : Z) : cell :=
  MkCell (Z_bits 267 feeToken ++ Z_bits 256 feeTokenAmount) [receiver; data; extraArgs; tokenAmounts].

(** The cell whose hash is the id of a message. *)
Definition id_cell (self : TVM2AnyRampMessage) (metadataHash : uint256) : cell :=
  MkCell (Z_bits 256 0 ++ Z_bits 256 metadataHash ++ Z_bits 267 (sender self) ++
    Z_bits 64 (mp.sequenceNumber (header self)) ++ Z_bits 64 (mp.nonce (header self))) [body self].

Definition generateMessageId (hash : cell → uint256) (self : TVM2AnyRampMessage) (metadataHash : uint256) : uint256 :=
  hash (id_cell self metadataHash).

Definition with_id (id : uint256) (m : TVM2AnyRampMessage) : TVM2AnyRampMessage :=
  let h := header m in
  {| header := {| mp.messageId := id; mp.sourceChainSelector := mp.sourceChainSelector h;
       mp.destChainSelector := mp.destChainSelector h; mp.sequenceNumber := mp.sequenceNumber h;
       mp.nonce := mp.nonce h |};
     sender := sender m; body := body m; feeValueJuels := feeValueJuels m |}.

Record OnRampDynamicConfig := { feeQuoter : address; feeAggregator : address; allowlistAdmin : address }.

Record OnRampUpdateDestChainConfig := {
  up_destChainSelector : Z;
  up_router : CrossChainAddress;
  up_allowlistEnabled : bool;
}.

Record UpdateAllowlist := { al_destChainSelector : Z; al_add : list address; al_remove : list address }.
End ccip.

(** ** The ramp (onramp.tolk) *)

Module onr.
Import ccip.
Local Open Scope Z_scope.

Record DestChainConfig := {
  dc_router : CrossChainAddress;
  sequenceNumber : Z;
  allowlistEnabled : bool;
  allowedSenders : gmap address bool;
}.

Record Storage := {
  ownable : ownable.Ownable2Step;
  router : address;
  chainSelector : Z;
  config : OnRampDynamicConfig;
  destChainConfigs : gmap Z DestChainConfig;
}.

Definition set_config (c : OnRampDynamicConfig) (st : Storage) : Storage :=
  {| ownable := ownable st; router := router st; chainSelector := chainSelector st; config := c;
     destChainConfigs := destChainConfigs st |}.
Definition set_dest (d : Z) (c : DestChainConfig) (st : Storage) : Storage :=
  {| ownable := ownable st; router := router st; chainSelector := chainSelector st; config := config st;
     destChainConfigs := <[d := c]> (destChainConfigs st) |}.
Definition set_sequenceNumber (n : Z) (c : DestChainConfig) : DestChainConfig :=
  {| dc_router := dc_router c; sequenceNumber := n; allowlistEnabled := allowlistEnabled c;
     allowedSenders := allowedSenders c |}.
Definition set_allowedSenders (m : gmap address bool) (c : DestChainConfig) : DestChainConfig :=
  {| dc_router := dc_router c; sequenceNumber := sequenceNumber c; allowlistEnabled := allowlistEnabled c;
     allowedSenders := m |}.

(** [Msg]; [Unknown] is any other body. *)
Inductive Msg :=
| OnRampSend (msg : CCIPSend) (metadata : address)
| MessageValidated (msg : CCIPSend) (metadata : address) (fee : Z)
| SetDynamicConfig (config : OnRampDynamicConfig)
| OnRampUpdateDestChainConfigs (updates : list OnRampUpdateDestChainConfig)
| UpdateAllowlists (updates : list UpdateAllowlist)
| Unknown (isEmpty : bool).

Record CCIPMessageSent := { ms_destChainSelector : Z; ms_sequenceNumber : Z; message : TVM2AnyRampMessage }.

Inductive Body :=
| GetValidatedFee (msg : CCIPSend) (metadata : address)
| MessageSent (e : CCIPMessageSent)
| OwnerEvent (e : ownable.Event).

Definition CCIP_MESSAGE_SENT_TOPIC : Z := CRC32 "CCIPMessageSent".

(** [stringSha256("TVM2AnyMessageHashV1")]. *)
Definition TVM2AnyMessageHashV1 : Z := 0x36b9ae03ba005a52dc027ded5a2e7d7de2ab138af41e8293fa49f38b119fad74.

Abbreviation method := (M Storage Body).

(** [st.destChainConfigs.mustGet(.., ERROR_UNKNOWN_DEST_CHAIN_SELECTOR)]. *)
Definition mustGet (st : Storage) (d : Z) : exit DestChainConfig :=
  match destChainConfigs st !! d with
  | Some c => Done c
  | None => Throw ERROR_UNKNOWN_DEST_CHAIN_SELECTOR
  end.

(** [allowedSenders.get(sender)] and the check of its result. *)
Definition allowed (c : DestChainConfig) (sender : address) : bool := default false (allowedSenders c !! sender).

Definition send (msg : CCIPSend) (metadata sender : address) : method () :=
  st ← get;
  require (router st =? sender) ERROR_UNAUTHORIZED;;
  c ← lift (mustGet st (destChainSelector msg));
  (if allowlistEnabled c then require (allowed c sender) ERROR_SENDER_NOT_ALLOWED else mret tt);;
  Tolk.send (Message true 50000000 (feeQuoter (config st)) (GetValidatedFee msg metadata)) SEND_MODE_REGULAR.

(** The cell of the metadata that makes the ids of a lane its own. *)
Definition metadata_cell (chainSelector destChainSelector : Z) (self : address) : cell :=
  MkCell (Z_bits 256 TVM2AnyMessageHashV1 ++ Z_bits 64 chainSelector ++ Z_bits 64 destChainSelector ++
    Z_bits 267 self) [].

Section crypto.
Context (hash : cell → uint256).

(** The message of the ramp, with its id; [self] is the contract's address. *)
Definition ramp_message (self : address) (st : Storage) (msg : CCIPSend) (metadata : address) (fee seqNr : Z) :
  exit TVM2AnyRampMessage :=
  r ← packToBuilder (receiver msg);
  let rampMessage :=
    {| header := {| mp.messageId := 0; mp.sourceChainSelector := chainSelector st;
         mp.destChainSelector := destChainSelector msg; mp.sequenceNumber := seqNr; mp.nonce := 0 |};
       sender := metadata;
       body := body_cell (MkCell r []) (data msg) (extraArgs msg) (MkCell [] []) (feeToken msg) fee;
       feeValueJuels := 0 |} in
  let metadataHash := hash (metadata_cell (chainSelector st) (destChainSelector msg) self) in
  mret (with_id (generateMessageId hash rampMessage metadataHash) rampMessage).

Definition onMessageValidated (self : address) (msg : CCIPSend) (metadata : address) (fee : Z) (sender : address) :
  method () :=
  st ← get;
  require (feeQuoter (config st) =? sender) ERROR_UNAUTHORIZED;;
  c ← lift (mustGet st (destChainSelector msg));
  let seqNr := sequenceNumber c in
  next ← lift (storeUint (seqNr + 1) 64);
  put (set_dest (destChainSelector msg) (set_sequenceNumber next c) st);;
  m ← lift (ramp_message self st msg metadata fee seqNr);
  emit CCIP_MESSAGE_SENT_TOPIC
    (MessageSent {| ms_destChainSelector := destChainSelector msg; ms_sequenceNumber := seqNr; message := m |}).

(** The body of the loop of [applyDestChainConfigUpdates]. *)
Definition applyDestChainConfigUpdate (update : OnRampUpdateDestChainConfig) : method () :=
  st ← get;
  put (set_dest (up_destChainSelector update)
    match destChainConfigs st !! up_destChainSelector update with
    | Some c =>
        {| dc_router := up_router update; sequenceNumber := sequenceNumber c;
           allowlistEnabled := up_allowlistEnabled update; allowedSenders := allowedSenders c |}
    | None =>
        {| dc_router := up_router update; sequenceNumber := 0;
           allowlistEnabled := up_allowlistEnabled update; allowedSenders := ∅ |}
    end st).

Definition applyDestChainConfigUpdates (updates : list OnRampUpdateDestChainConfig) : method () :=
  for_each applyDestChainConfigUpdate updates.

(** The body of the loop of [applyAllowlistUpdates]: first the additions, then the removals. *)
Definition applyAllowlistUpdate (update : UpdateAllowlist) : method () :=
  st ← get;
  c ← lift (mustGet st (al_destChainSelector update));
  let m := foldl (λ m a, <[a := true]> m) (allowedSenders c) (al_add update) in
  let m := foldl (λ m a, delete a m) m (al_remove update) in
  put (set_dest (al_destChainSelector update) (set_allowedSenders m c) st).

Definition applyAllowlistUpdates (updates : list UpdateAllowlist) : method () :=
  for_each applyAllowlistUpdate updates.

(** [st.ownable.requireOwner(sender)]. *)
Definition requireOwner (sender : address) : method () :=
  st ← get;
  _ ← within OwnerEvent (ownable.requireOwner sender) (ownable st);
  mret tt.

Record input := { getAddress : address; in_sender : address; in_msg : Msg }.

Definition onInternalMessage (i : input) : method () :=
  match in_msg i with
  | OnRampSend msg metadata => send msg metadata (in_sender i)
  | MessageValidated msg metadata fee => onMessageValidated (getAddress i) msg metadata fee (in_sender i)
  | SetDynamicConfig c => requireOwner (in_sender i);; st ← get; put (set_config c st)
  | OnRampUpdateDestChainConfigs updates => requireOwner (in_sender i);; applyDestChainConfigUpdates updates
  | UpdateAllowlists updates => requireOwner (in_sender i);; applyAllowlistUpdates updates
  | Unknown isEmpty => require isEmpty ERROR_WRONG_OP
  end.
End crypto.

(** *** Getters *)

Definition isChainSupported (st : Storage) (d : Z) : bool := bool_decide (is_Some (destChainConfigs st !! d)).
Definition expectedNextSequenceNumber (st : Storage) (d : Z) : exit Z :=
  c ← mustGet st d; mret (sequenceNumber c).
Definition dynamicConfig (st : Storage) : OnRampDynamicConfig := config st.
Definition destChainConfig (st : Storage) (d : Z) : exit DestChainConfig := mustGet st d.
(** The keys are prepended as they are deleted, the smallest first. *)
Definition allowedSendersList (st : Storage) (d : Z) : exit (list address) :=
  c ← mustGet st d; mret (reverse (dict_keys (dom (allowedSenders c)))).
End onr.
