(* ===== verification/RouterContract.v ===== *)
(** * RouterContract: ccip/router.tolk

    The router: it forwards messages, and the messages in token notifications, to the ramp that its
    owner has set. *)

From S2P Require Import Prelude Tolk Ownable OnrampContract.

Module router.
Import ccip.
Local Open Scope Z_scope.

Record Storage := { ownable : ownable.Ownable2Step; onRamp : address }.

(** [Msg]; the forwarded payload of a notification may be missing. *)
Inductive Msg :=
| Send (msg : CCIPSend)
| SetRamp (queryId destChainSelector : Z) (onRamp : address)
| JettonTransferNotification (queryId amount : Z) (sender : address) (forwardPayload : option CCIPSend)
| Unknown (isEmpty : bool).

Inductive Body :=
| OnRampSend (msg : CCIPSend) (metadata : address)
| OwnerEvent (e : ownable.Event).

Abbreviation method := (M Storage Body).

Definition ccipSend (msg : CCIPSend) (sender : address) : method () :=
  st ← get;
  Tolk.send (Message true 100000000 (onRamp st) (OnRampSend msg sender)) SEND_MODE_REGULAR.

Definition onSetRamp (ramp sender : address) : method () :=
  st ← get;
  _ ← within OwnerEvent (ownable.requireOwner sender) (ownable st);
  put {| ownable := ownable st; onRamp := ramp |}.

(** The TVM's code for a value of the wrong type: reading a null as a cell. *)
Definition TYPE_CHECK : Z := 7.

Definition onTransferNotification (sender : address) (forwardPayload : option CCIPSend) : method () :=
  match forwardPayload with
  | Some sendMsg => ccipSend sendMsg sender
  | None => throw TYPE_CHECK
  end.

Record input := { in_sender : address; in_msg : Msg }.

Definition onInternalMessage (i : input) : method () :=
  match in_msg i with
  | Send msg => ccipSend msg (in_sender i)
  | SetRamp _ _ ramp => onSetRamp ramp (in_sender i)
  | JettonTransferNotification _ _ sender payload => onTransferNotification sender payload
  | Unknown isEmpty => require isEmpty ERROR_WRONG_OP
  end.
End router.
