(* ===== verification/LaneSpec.v ===== *)
(** * LaneSpec: the messages that leave the chain

    What the router and the ramp ([RouterContract], [OnrampContract]) do with a message, and that the messages of
    a lane are numbered without gaps and have ids of their own. *)

From S2P Require Import Prelude Tolk Slices Merkle Ownable McmsSpec MultiProof MerkleSpec OnrampContract RouterContract.

Module lanespec.
Local Open Scope Z_scope.
Import ccip onr.

Section lane.
Context (hash : cell → uint256).

Abbreviation handle := (onInternalMessage hash).
Abbreviation handled_step := (step (I:=input) (St:=Storage) (B:=Body)).

(** ** Numbers *)

(** The next number of the lane to [d]; a lane starts with 0. *)
Definition next (s : Storage) (d : Z) : Z := from_option sequenceNumber 0 (destChainConfigs s !! d).

(** The events of the ramp, and those of the lane to [d]. *)
Definition event (a : action Body) : option CCIPMessageSent :=
  match a with Log _ (MessageSent e) => Some e | _ => None end.
Definition sent (past : list handled_step) : list CCIPMessageSent := past ≫= λ st, omap event (out st).
Definition sent_to (d : Z) (past : list handled_step) : list CCIPMessageSent :=
  filter (λ e, ms_destChainSelector e = d) (sent past).

(** What no message changes; what the messages without events do not change. *)
Definition same_ramp (s s' : Storage) : Prop :=
  ownable s' = ownable s ∧ router s' = router s ∧ chainSelector s' = chainSelector s.
Definition same_lanes (s s' : Storage) : Prop := same_ramp s s' ∧ ∀ d, next s' d = next s d.

#[local] Instance same_lanes_preorder : PreOrder same_lanes.
Proof.
  split; [by repeat split|]. intros s1 s2 s3 [(H1 & H2 & H3) H4] [(H5 & H6 & H7) H8].
  split; [split_and!; congruence|]. intros d. by rewrite H8.
Qed.

Definition quiet (m : M Storage Body ()) : Prop :=
  ∀ s u s' o, m s = Done (u, s', o) → o = [] ∧ same_lanes s s'.

Lemma quiet_bind m k : quiet m → quiet (k tt) → quiet (m ≫= k).
Proof.
  intros Hm Hk s u s' o H. apply M_bind_done in H as ([] & s1 & o1 & o2 & H1 & H2 & ->).
  apply Hm in H1 as [-> H1]. apply Hk in H2 as [-> H2]. split; [done|by etrans].
Qed.

Lemma quiet_for_each {X} (f : X → M Storage Body ()) xs : (∀ x, quiet (f x)) → quiet (for_each f xs).
Proof.
  intros Hf. induction xs as [|x xs IH]; [|by apply quiet_bind].
  intros s u s' o H. cbn in H. by inv_tolk.
Qed.
Lemma next_set_dest d c s d' : next (set_dest d c s) d' = if decide (d = d') then sequenceNumber c else next s d'.
Proof. unfold next. cbn. rewrite lookup_insert. by case_decide. Qed.

Lemma mustGet_done s d c : mustGet s d = Done c ↔ destChainConfigs s !! d = Some c.
Proof. unfold mustGet. destruct (_ !! _); split; congruence. Qed.

Lemma requireOwner_quiet a : quiet (requireOwner a).
Proof.
  intros s u s' o H. unfold requireOwner in H. inv_tolk.
  match goal with H : ownable.requireOwner _ _ = _ |- _ => apply ownable.requireOwner_done in H as (_ & _ & ->) end.
  by repeat split.
Qed.

Lemma set_dest_quiet s d c : sequenceNumber c = next s d → same_lanes s (set_dest d c s).
Proof. intros H. split; [by repeat split|]. intros d'. rewrite next_set_dest. by case_decide; subst. Qed.

Lemma update_quiet x : quiet (applyDestChainConfigUpdate x).
Proof.
  intros s u s' o H. unfold applyDestChainConfigUpdate in H. inv_tolk. split; [done|]. apply set_dest_quiet.
  unfold next. by destruct (_ !! _).
Qed.

Lemma allowlist_quiet x : quiet (applyAllowlistUpdate x).
Proof.
  intros s u s' o H. unfold applyAllowlistUpdate in H. inv_tolk. split; [done|]. apply set_dest_quiet.
  match goal with H : mustGet _ _ = _ |- _ => apply mustGet_done in H end.
  unfold next. by simplify_option_eq.
Qed.

(** What the ramp does with a message the router forwards. *)
Definition forward_ok (msg : CCIPSend) (a : address) (s : Storage) : Prop :=
  a = router s ∧ ∃ c, destChainConfigs s !! destChainSelector msg = Some c ∧
    (allowlistEnabled c = true → allowedSenders c !! router s = Some true).
Definition fee_request (msg : CCIPSend) (u : address) (s : Storage) : list (action Body) :=
  [Send (Message true 50000000 (feeQuoter (config s)) (GetValidatedFee msg u)) SEND_MODE_REGULAR].

Lemma allowed_true c a : allowed c a = true ↔ allowedSenders c !! a = Some true.
Proof. unfold allowed. destruct (_ !! _) as [[|]|]; cbn; split; congruence. Qed.

Lemma send_done msg u a s s' o :
  send msg u a s = Done (tt, s', o) ↔ forward_ok msg a s ∧ s' = s ∧ o = fee_request msg u s.
Proof.
  unfold send, forward_ok. rewrite get_bind, require_bind.
  destruct (Z.eqb_spec (router s) a) as [<-|Hne]; [|split; [discriminate|intros [[? _] _]; congruence]].
  rewrite lift_bind. unfold mustGet. destruct (destChainConfigs s !! _) as [c|]; [|split; [discriminate|]].
  2:{ by intros [(_ & c & [=] & _) _]. }
  assert (Done (tt, s, fee_request msg u s) = Done (tt, s', o) ↔ s' = s ∧ o = fee_request msg u s) as Hd
    by (split; [by intros [= <- <-]|by intros [-> ->]]).
  destruct (allowlistEnabled c) eqn:Ea; [rewrite require_bind; destruct (allowed c (router s)) eqn:Eb|].
  - etrans; [exact Hd|]. apply allowed_true in Eb. split; [|by intros [_ ?]].
    intros H. split; [split; [done|by exists c]|done].
  - split; [discriminate|]. intros [(_ & c' & [= <-] & H) _]. apply H, allowed_true in Ea. congruence.
  - rewrite (M_bind_pure (mret tt) _ _ tt) by done. etrans; [exact Hd|]. split; [|by intros [_ ?]].
    intros H. split; [split; [done|exists c; split; [done|congruence]]|done].
Qed.
(** What the ramp does with the answer of the fee quoter: the message gets the number [n]. *)
Definition numbered (msg : CCIPSend) (n : Z) (m : TVM2AnyRampMessage) : CCIPMessageSent :=
  {| ms_destChainSelector := destChainSelector msg; ms_sequenceNumber := n; message := m |}.
Definition advance (d : Z) (c : DestChainConfig) (s : Storage) : Storage :=
  set_dest d (set_sequenceNumber (sequenceNumber c + 1) c) s.

Lemma validated_done self msg u fee a s s' o :
  onMessageValidated hash self msg u fee a s = Done (tt, s', o) ↔
  a = feeQuoter (config s) ∧ ∃ c m, destChainConfigs s !! destChainSelector msg = Some c ∧
    0 ≤ sequenceNumber c + 1 < 2 ^ 64 ∧ ramp_message hash self s msg u fee (sequenceNumber c) = Done m ∧
    s' = advance (destChainSelector msg) c s ∧
    o = [Log (Some CCIP_MESSAGE_SENT_TOPIC) (MessageSent (numbered msg (sequenceNumber c) m))].
Proof.
  unfold onMessageValidated. rewrite get_bind, require_bind.
  destruct (Z.eqb_spec (feeQuoter (config s)) a) as [<-|Hne]; [|split; [discriminate|intros [? _]; congruence]].
  rewrite lift_bind. destruct (mustGet s _) as [c|code] eqn:Ec.
  2:{ split; [discriminate|]. intros (_ & c & m & Hc & _). apply mustGet_done in Hc. congruence. }
  apply mustGet_done in Ec. rewrite lift_bind. destruct (storeUint _ _) as [n|code] eqn:En.
  2:{ split; [discriminate|]. intros (_ & c' & m & Hc & Hn & _). simplify_eq.
      apply (storeUint_ok _ 64) in Hn. congruence. }
  apply storeUint_done in En as [-> Hn].
  rewrite (M_bind_next (put _) _ _ tt (advance (destChainSelector msg) c s)) by done.
  rewrite lift_bind. destruct (ramp_message _ _ _ _ _ _) as [m|code] eqn:Em.
  - split; [intros [= <- <-]; split; [done|]; by exists c, m|].
    intros (_ & c' & m' & Hc & _ & Hm & -> & ->). rewrite Ec in Hc. injection Hc as <-.
    rewrite Em in Hm. by injection Hm as <-.
  - split; [discriminate|]. intros (_ & c' & m' & Hc & _ & Hm & _). congruence.
Qed.

(** The input of an event, and what the event says. *)
Definition step_sent (st : handled_step) (e : CCIPMessageSent) : Prop :=
  ∃ msg u fee m, in_msg (inp st) = MessageValidated msg u fee ∧
    in_sender (inp st) = feeQuoter (config (pre st)) ∧
    is_Some (destChainConfigs (pre st) !! ms_destChainSelector e) ∧ 0 ≤ ms_sequenceNumber e + 1 < 2 ^ 64 ∧
    ramp_message hash (getAddress (inp st)) (pre st) msg u fee (ms_sequenceNumber e) = Done m ∧
    e = numbered msg (ms_sequenceNumber e) m.

(** A handled message is quiet, or it sends one event with the next number. *)
Lemma lane_step_cases i s u s' o :
  handle i s = Done (u, s', o) →
  (omap event o = [] ∧ same_lanes s s') ∨
  (∃ e d, omap event o = [e] ∧ d = ms_destChainSelector e ∧ ms_sequenceNumber e = next s d ∧
    step_sent (Step s i o) e ∧ same_ramp s s' ∧
    ∀ d', next s' d' = if decide (d = d') then next s d + 1 else next s d').
Proof.
  destruct u. intros H. unfold onInternalMessage in H. destruct (in_msg i) as [msg m|msg m fee|c|l|l|b] eqn:Em.
  - apply send_done in H as (_ & -> & ->). by left.
  - right. apply validated_done in H as (Ha & c & rm & Hc & Hn & Hm & -> & ->).
    assert (next s (destChainSelector msg) = sequenceNumber c) as Hnext by (unfold next; by rewrite Hc).
    exists (numbered msg (sequenceNumber c) rm), (destChainSelector msg). rewrite Hnext.
    split_and!; try done; [by exists msg, m, fee, rm|].
    intros d'. unfold advance. by rewrite next_set_dest.
  - left. eapply (quiet_bind _ _ (requireOwner_quiet _)) in H as [-> Hs]; [done|].
    clear H. intros s1 u s2 o1 H1. inv_tolk. by repeat split.
  - left. eapply (quiet_bind _ _ (requireOwner_quiet _)) in H as [-> Hs]; [done|].
    apply quiet_for_each, update_quiet.
  - left. eapply (quiet_bind _ _ (requireOwner_quiet _)) in H as [-> Hs]; [done|].
    apply quiet_for_each, allowlist_quiet.
  - left. inv_tolk. by repeat split.
Qed.

(** ** Histories *)

Definition lane_history (s0 : Storage) (past : list handled_step) (s : Storage) : Prop :=
  same_ramp s0 s ∧
  (∀ d, ms_sequenceNumber <$> sent_to d past = seqZ (next s0 d) (Z.of_nat (length (sent_to d past))) ∧
    next s d = next s0 d + Z.of_nat (length (sent_to d past))) ∧
  ∀ e, e ∈ sent past → ∃ st, st ∈ past ∧ same_ramp s0 (pre st) ∧ step_sent st e.

Lemma sent_snoc past st : sent (past ++ [st]) = sent past ++ omap event (out st).
Proof. unfold sent. rewrite bind_app. cbn. by rewrite app_nil_r. Qed.

Lemma lane_history_step s0 past i s u s' o :
  lane_history s0 past s → handle i s = Done (u, s', o) → lane_history s0 (past ++ [Step s i o]) s'.
Proof.
  intros (Hr & Hd & He) H. apply lane_step_cases in H as [[Ho [Hr' Hn]]|(e & d & Ho & Hde & Hseq & Hst & Hr' & Hn)].
  - split; [unfold same_ramp in *; intuition congruence|]. unfold sent_to. rewrite sent_snoc. cbn [out]. rewrite Ho, app_nil_r.
    split; [intros d; rewrite Hn; apply Hd|]. intros e Hin. destruct (He e Hin) as (st & Hst & H).
    exists st. split; [by apply elem_of_app; left|done].
  - split; [unfold same_ramp in *; intuition congruence|]. unfold sent_to. rewrite sent_snoc. cbn [out]. rewrite Ho.
    split.
    + intros d'. rewrite filter_app, Hn. destruct (Hd d') as [H1 H2]. unfold sent_to in *.
      case_decide as E; [subst d'|].
      * rewrite (filter_cons_True _ e) by done. rewrite filter_nil, fmap_app, H1, length_app. cbn.
        rewrite Hseq, H2. split; [|lia].
        rewrite Nat2Z.inj_add, seqZ_app by lia. cbn. done.
      * rewrite (filter_cons_False _ e) by congruence. by rewrite filter_nil, app_nil_r.
    + intros e' [Hin|Hin%list_elem_of_singleton]%elem_of_app.
      * destruct (He e' Hin) as (st & Hin' & H). exists st. split; [by apply elem_of_app; left|done].
      * subst e'. exists (Step s i o). split; [by apply elem_of_app; right; apply list_elem_of_here|done].
Qed.

Lemma run_lane_history ins s0 : lane_history s0 (handled handle ins s0) (run handle ins s0).
Proof.
  apply run_history; [intros h i s u s' o _; apply lane_history_step|].
  split; [by repeat split|]. split; [|by intros e ?%elem_of_nil]. intros d. cbn. split; [done|lia].
Qed.
(** ** Ids *)

(** The cell of the metadata and the cell of the message that are hashed for an event. *)
Definition hashed_cells (self : address) (e : CCIPMessageSent) : list cell :=
  let h := header (message e) in
  let md := metadata_cell (mp.sourceChainSelector h) (mp.destChainSelector h) self in
  [md; id_cell (message e) (hash md)].

(** What an id stands for. *)
Definition lane_of (self : address) (e : CCIPMessageSent) : Z * address * Z * Z :=
  let h := header (message e) in
  (mp.sourceChainSelector h, self, mp.destChainSelector h, mp.sequenceNumber h).

(** The event of a message of the ramp at [self], with all numbers in their ranges. *)
Definition event_ok (self : address) (e : CCIPMessageSent) : Prop :=
  let h := header (message e) in
  0 ≤ mp.sourceChainSelector h < 2 ^ 64 ∧ 0 ≤ mp.destChainSelector h < 2 ^ 64 ∧ 0 ≤ self < 2 ^ 267 ∧
  0 ≤ mp.sequenceNumber h < 2 ^ 64 ∧
  mp.messageId h = hash (id_cell (message e)
    (hash (metadata_cell (mp.sourceChainSelector h) (mp.destChainSelector h) self))).

Lemma Z_bits_app_inj n a b xs ys :
  0 ≤ a < 2 ^ Z.of_nat n → 0 ≤ b < 2 ^ Z.of_nat n → Z_bits n a ++ xs = Z_bits n b ++ ys → a = b ∧ xs = ys.
Proof.
  intros Ha Hb H. apply app_inj_1 in H as [H1 H2]; [|by rewrite !Z_bits_length].
  split; [by eapply (Z_bits_inj n)|done].
Qed.

Lemma metadata_cell_inj c d a c' d' a' :
  0 ≤ c < 2 ^ 64 → 0 ≤ c' < 2 ^ 64 → 0 ≤ d < 2 ^ 64 → 0 ≤ d' < 2 ^ 64 → 0 ≤ a < 2 ^ 267 → 0 ≤ a' < 2 ^ 267 →
  metadata_cell c d a = metadata_cell c' d' a' → c = c' ∧ d = d' ∧ a = a'.
Proof.
  intros Hc Hc' Hd Hd' Ha Ha' H. apply (f_equal cell_bits) in H. unfold metadata_cell in H. cbn [cell_bits] in H.
  apply app_inv_head in H.
  apply (Z_bits_app_inj 64) in H as [-> H]; [|done..]. apply (Z_bits_app_inj 64) in H as [-> H]; [|done..].
  by apply (Z_bits_inj 267) in H as ->.
Qed.

Lemma id_cell_inj m h m' h' :
  u256 h → u256 h' → 0 ≤ mp.sequenceNumber (header m) < 2 ^ 64 → 0 ≤ mp.sequenceNumber (header m') < 2 ^ 64 →
  id_cell m h = id_cell m' h' → h = h' ∧ mp.sequenceNumber (header m) = mp.sequenceNumber (header m').
Proof.
  intros Hh Hh' Hn Hn' H. apply (f_equal cell_bits) in H. unfold id_cell in H. cbn [cell_bits] in H.
  apply app_inv_head in H. apply (Z_bits_app_inj 256) in H as [-> H]; [|done..]. split; [done|].
  apply app_inj_1 in H as [_ H]; [|by rewrite !Z_bits_length].
  by apply (Z_bits_app_inj 64) in H as [-> _].
Qed.

Hypothesis hash_range : ∀ c, u256 (hash c).

Lemma ids_differ self1 self2 e1 e2 :
  event_ok self1 e1 → event_ok self2 e2 → lane_of self1 e1 ≠ lane_of self2 e2 →
  mp.messageId (header (message e1)) ≠ mp.messageId (header (message e2)) ∨
  collision hash (hashed_cells self1 e1) (hashed_cells self2 e2).
Proof.
  intros (Hs1 & Hd1 & Ha1 & Hn1 & E1) (Hs2 & Hd2 & Ha2 & Hn2 & E2) Hne. rewrite E1, E2. unfold hashed_cells.
  set (md1 := metadata_cell _ _ self1). set (md2 := metadata_cell _ _ self2).
  destruct (decide (hash (id_cell (message e1) (hash md1)) = hash (id_cell (message e2) (hash md2)))) as [E|]; [|by left].
  right. destruct (decide (id_cell (message e1) (hash md1) = id_cell (message e2) (hash md2))) as [Ei|Hi].
  2:{ eexists _, _. split_and!; [apply list_elem_of_further, list_elem_of_here..| |]; done. }
  apply id_cell_inj in Ei as [Em En]; [|done..].
  exists md1, md2. split_and!; [apply list_elem_of_here..| |done]. intros H.
  apply metadata_cell_inj in H as (H1 & H2 & H3); [|done..]. apply Hne. unfold lane_of. congruence.
Qed.
(** The ramp at the address [self], and messages of chain selectors that fit their 64 bits. *)
Definition input_ok (self : address) (i : input) : Prop :=
  getAddress i = self ∧
  match in_msg i with MessageValidated msg _ _ => 0 ≤ destChainSelector msg < 2 ^ 64 | _ => True end.
Definition wf (s : Storage) : Prop := 0 ≤ chainSelector s < 2 ^ 64 ∧ ∀ d, 0 ≤ next s d.

Lemma ramp_message_event self s msg u fee n m :
  ramp_message hash self s msg u fee n = Done m →
  header m = header (with_id (generateMessageId hash m (hash (metadata_cell (chainSelector s) (destChainSelector msg) self))) m) ∧
  mp.sourceChainSelector (header m) = chainSelector s ∧ mp.destChainSelector (header m) = destChainSelector msg ∧
  mp.sequenceNumber (header m) = n ∧ sender m = u.
Proof. unfold ramp_message. intros (r & _ & [= <-])%exit_bind_done. by split_and!. Qed.

Lemma sent_event_ok self ins s0 e :
  wf s0 → 0 ≤ self < 2 ^ 267 → Forall (input_ok self) ins → e ∈ sent (handled handle ins s0) →
  event_ok self e ∧ lane_of self e = (chainSelector s0, self, ms_destChainSelector e, ms_sequenceNumber e).
Proof.
  intros [Hc Hnext] Hself Hins Hin. destruct (run_lane_history ins s0) as (_ & Hd & He).
  destruct (He e Hin) as (st & Hst & (_ & _ & Hcs) & msg & u & fee & m & Em & _ & _ & Hn & Hm & Ee).
  apply handled_inp in Hst. rewrite Forall_forall in Hins. destruct (Hins _ Hst) as [Ha Hmsg]. rewrite Em in Hmsg.
  assert (0 ≤ ms_sequenceNumber e) as H0.
  { destruct (Hd (ms_destChainSelector e)) as [Hseq _].
    assert (ms_sequenceNumber e ∈ ms_sequenceNumber <$> sent_to (ms_destChainSelector e) (handled handle ins s0)) as H
      by (apply list_elem_of_fmap_2, list_elem_of_filter; done).
    rewrite Hseq in H. apply elem_of_seqZ in H. specialize (Hnext (ms_destChainSelector e)). lia. }
  apply ramp_message_event in Hm as (Hid & H1 & H2 & H3 & _).
  assert (message e = m) as Emsg by (by rewrite Ee). assert (ms_destChainSelector e = destChainSelector msg) as Edst by (by rewrite Ee).
  rewrite Ha in Hid. unfold event_ok, lane_of. rewrite Emsg, H1, H2, H3, Hcs, Edst.
  split; [|done]. split_and!; try lia; try apply Hmsg.
  rewrite Hid at 1. cbn. by rewrite <- Hcs.
Qed.
End lane.

(** ** The router *)

(** What a handled message makes the router send. *)
Definition forwards (h : step (I:=router.input) (St:=router.Storage) (B:=router.Body)) : Prop :=
  out h = [] ∨ ∃ m u, out h = [Send (Message true 100000000 (router.onRamp (pre h)) (router.OnRampSend m u))
    SEND_MODE_REGULAR] ∧
    (router.in_msg (inp h) = router.Send m ∧ u = router.in_sender (inp h) ∨
     ∃ q n, router.in_msg (inp h) = router.JettonTransferNotification q n u (Some m)).

(** The ramp that the owner has set last. *)
Definition ramp_set (owner : address) (ramp : address) (ins : list router.input) : address :=
  foldl (λ ramp i,
    match router.in_msg i with
    | router.SetRamp _ _ r => if router.in_sender i =? owner then r else ramp
    | _ => ramp
    end) ramp ins.

Lemma router_step_forwards i s u s' o : router.onInternalMessage i s = Done (u, s', o) → forwards (Step s i o).
Proof.
  unfold forwards, router.onInternalMessage. cbn [out pre inp]. intros H.
  destruct (router.in_msg i) as [m|q' d r|q' n v [p|]|b] eqn:Em.
  - injection H as _ <- <-. right. exists m, (router.in_sender i). split; [done|]. by left.
  - left. unfold router.onSetRamp in H. inv_tolk.
    match goal with H : ownable.requireOwner _ _ = _ |- _ => apply ownable.requireOwner_done in H as (_ & _ & ->) end. done.
  - injection H as _ <- <-. right. exists p, v. split; [done|]. right. by exists q', n.
  - discriminate.
  - left. by inv_tolk.
Qed.

Lemma router_run ins s0 :
  run router.onInternalMessage ins s0 =
    {| router.ownable := router.ownable s0;
       router.onRamp := ramp_set (ownable.owner (router.ownable s0)) (router.onRamp s0) ins |}.
Proof.
  induction ins as [|i ins IH] using rev_ind; [by destruct s0|]. unfold ramp_set.
  rewrite run_snoc, IH, foldl_app. cbn [foldl]. fold (ramp_set (ownable.owner (router.ownable s0)) (router.onRamp s0) ins).
  unfold transaction, router.onInternalMessage.
  destruct (router.in_msg i) as [m|q' d r|q' n u [p|]|b]; try done; [|by destruct b].
  unfold router.onSetRamp, ownable.requireOwner, within, mbind, M_bind, get, require, lift, assert. cbn.
  by destruct (router.in_sender i =? _).
Qed.

(** ** From the router to the event *)

(** The ramp at [self] receives what the router at [from] sent it; the fee quoter answers what the
    ramp asked with the fee that its getter [validatedFee] computes, or throws and answers nothing. *)
Definition ramp_inputs (self from : address) (a : action router.Body) : list input :=
  match a with
  | Send (Message _ _ to (router.OnRampSend msg u)) _ =>
      if to =? self then [{| getAddress := self; in_sender := from; in_msg := OnRampSend msg u |}] else []
  | _ => []
  end.
Definition answers (self : address) (validatedFee : CCIPSend → exit Z) (a : action Body) : list input :=
  match a with
  | Send (Message _ _ to (GetValidatedFee msg u)) _ =>
      match validatedFee msg with
      | Done fee => [{| getAddress := self; in_sender := to; in_msg := MessageValidated msg u fee |}]
      | Throw _ => []
      end
  | _ => []
  end.

(** A user sends [msg] to the router; all that follows until the events of the ramp. *)
Definition route (hash : cell → uint256) (self from : address) (validatedFee : CCIPSend → exit Z)
  (rs : router.Storage) (u : address) (msg : CCIPSend) : M Storage Body () :=
  r ← lift (router.onInternalMessage {| router.in_sender := u; router.in_msg := router.Send msg |} rs);
  st ← get;
  let '(_, _, o) := r in
  questions ← lift (match ramp_inputs self from <$> o with
    | [[i]] => onInternalMessage hash i st
    | _ => Throw ERROR_WRONG_OP
    end);
  let '(_, st, o) := questions in
  put st;;
  for_each (onInternalMessage hash) (o ≫= answers self validatedFee).

Lemma route_value hash self from validatedFee rs u msg s :
  router.onRamp rs = self →
  route hash self from validatedFee rs u msg s =
  match send msg u from s with
  | Done (_, s1, o) => for_each (onInternalMessage hash) (o ≫= answers self validatedFee) s1
  | Throw code => Throw code
  end.
Proof.
  intros <-. unfold route. rewrite lift_bind.
  change (router.onInternalMessage _ rs) with (Done (tt, rs,
    [Send (Message true 100000000 (router.onRamp rs) (router.OnRampSend msg u)) SEND_MODE_REGULAR])).
  cbn beta iota. rewrite get_bind, lift_bind. cbn [fmap list_fmap ramp_inputs]. rewrite Z.eqb_refl.
  cbn [onInternalMessage in_msg in_sender]. destruct (send msg u from s) as [[[v s1] o]|code]; [|done].
  by rewrite (M_bind_next (put s1) _ _ tt s1).
Qed.
(** ** The claims *)

(** C10: the numbers of a lane.  Whatever messages the ramp receives, the events it has emitted for a
    destination carry the numbers that follow the one the lane started with (0 for a lane that
    was configured later), in order, without gaps or repetitions, and the next number is the one
    the getter shows: no configuration update resets it.  Every event answers a message of the
    fee quoter configured at that time, for a destination that is configured; the owner, the
    router and the chain selector never change. *)
Theorem lane_numbers hash ins s0 d :
  let past := handled (onInternalMessage hash) ins s0 in
  let s := run (onInternalMessage hash) ins s0 in
  let n := Z.of_nat (length (sent_to d past)) in
  ms_sequenceNumber <$> sent_to d past = seqZ (next s0 d) n ∧
  expectedNextSequenceNumber s d =
    (if isChainSupported s d then Done (next s0 d + n) else Throw ERROR_UNKNOWN_DEST_CHAIN_SELECTOR) ∧
  (∀ e, e ∈ sent past → ∃ st, st ∈ past ∧ step_sent hash st e) ∧
  same_ramp s0 s.
Proof.
  cbn zeta. destruct (run_lane_history hash ins s0) as (Hr & Hd & He). destruct (Hd d) as [H1 H2].
  split_and!; [done| | |done..].
  - unfold expectedNextSequenceNumber, mustGet, isChainSupported. unfold next at 1 in H2.
    destruct (destChainConfigs _ !! d) as [c|]; [|done]. rewrite bool_decide_eq_true_2 by done. cbn in *. by rewrite H2.
  - intros e Hin. destruct (He e Hin) as (st & Hst & _ & H). by exists st.
Qed.

(** C18: the ids of messages.  Two messages that ramps have emitted, of the same ramp or of ramps with
    other addresses or on other chains, have different ids unless they are the same message of
    the same lane, or two of the cells that were hashed for them collide. *)
Theorem message_ids_unique hash self1 self2 ins1 ins2 s1 s2 e1 e2 :
  (∀ c, u256 (hash c)) → 0 ≤ self1 < 2 ^ 267 → 0 ≤ self2 < 2 ^ 267 → wf s1 → wf s2 →
  Forall (input_ok self1) ins1 → Forall (input_ok self2) ins2 →
  e1 ∈ sent (handled (onInternalMessage hash) ins1 s1) → e2 ∈ sent (handled (onInternalMessage hash) ins2 s2) →
  (chainSelector s1, self1, ms_destChainSelector e1, ms_sequenceNumber e1) ≠
    (chainSelector s2, self2, ms_destChainSelector e2, ms_sequenceNumber e2) →
  mp.messageId (header (message e1)) ≠ mp.messageId (header (message e2)) ∨
  collision hash (hashed_cells hash self1 e1) (hashed_cells hash self2 e2).
Proof.
  intros Hh Ha1 Ha2 Hw1 Hw2 Hi1 Hi2 He1 He2 Hne.
  apply (sent_event_ok hash self1) in He1 as [H1 L1]; [|done..].
  apply (sent_event_ok hash self2) in He2 as [H2 L2]; [|done..].
  apply ids_differ; [done..|]. by rewrite L1, L2.
Qed.

(** C21: a message of a user.  A message that [u] sends to the router at [from], whose ramp is the one
    at [self], is taken by the ramp exactly when the ramp's router is that one, the destination is
    configured and, with the allow list on, the list contains the router: which user sends does not
    matter.  When the fee quoter then rejects it, nothing happens; it ends in an event exactly
    when the fee quoter answers with a fee, the counter of the destination fits 64 bits, and the
    receiver can be packed.  The event is then the only one, with the next number, the fee in its
    body and [u] as the sender; nothing changes but the counter of the destination. *)
Theorem message_path hash self from validatedFee rs u msg s s' o :
  router.onRamp rs = self →
  route hash self from validatedFee rs u msg s = Done (tt, s', o) ↔
  from = router s ∧ ∃ c,
    destChainConfigs s !! destChainSelector msg = Some c ∧
    (allowlistEnabled c = true → allowedSenders c !! router s = Some true) ∧
    ((∃ code, validatedFee msg = Throw code ∧ s' = s ∧ o = []) ∨
     ∃ fee m, validatedFee msg = Done fee ∧
       0 ≤ sequenceNumber c + 1 < 2 ^ 64 ∧
       ramp_message hash self s msg u fee (sequenceNumber c) = Done m ∧
       s' = set_dest (destChainSelector msg) (set_sequenceNumber (sequenceNumber c + 1) c) s ∧
       o = [Log (Some CCIP_MESSAGE_SENT_TOPIC) (MessageSent {| ms_destChainSelector := destChainSelector msg;
         ms_sequenceNumber := sequenceNumber c; message := m |})]).
Proof.
  intros Hr. rewrite route_value by done. destruct (send msg u from s) as [[[[] s1] o1]|code] eqn:E.
  - apply send_done in E as ([-> (c & Hc & Hal)] & -> & ->). cbn [mbind list_bind app fee_request answers].
    destruct (validatedFee msg) as [fee|code]; cbn [app for_each].
    2:{ split; [intros [= <- <-]; split; [done|]; exists c; split_and!; [done..|]; left; by exists code|].
        intros (_ & _ & _ & _ & [(_ & _ & -> & ->)|(? & ? & [=] & _)]). done. }
    rewrite bind_run. cbn [onInternalMessage in_msg getAddress in_sender].
    destruct (onMessageValidated _ _ _ _ _ _ s) as [[[[] s2] o2]|code] eqn:E.
    + cbn. rewrite app_nil_r. apply validated_done in E as (_ & c' & m & Hc' & Hn & Hm & -> & ->).
      rewrite Hc in Hc'. injection Hc' as <-. split.
      * intros [= <- <-]. split; [done|]. exists c. split_and!; [done..|]. right. by exists fee, m.
      * intros (_ & c'' & Hc'' & _ & [(? & [=] & _)|(fee' & m' & [= <-] & _ & Hm' & -> & ->)]).
        rewrite Hc in Hc''. injection Hc'' as <-. rewrite Hm in Hm'. by injection Hm' as <-.
    + split; [discriminate|]. intros (_ & c' & Hc' & _ & [(? & [=] & _)|(fee' & m & [= <-] & Hn & Hm & Hs & Ho)]).
      assert (onMessageValidated hash self msg u fee (feeQuoter (config s)) s = Done (tt, s', o)) as E'
        by (apply validated_done; split; [done|]; by exists c', m). congruence.
  - split; [discriminate|]. intros (-> & c & Hc & Hal & _).
    assert (send msg u (router s) s = Done (tt, s, fee_request msg u s)) as E'
      by (apply send_done; split; [split; [done|]; by exists c|done]). congruence.
Qed.

(** C37: what the router forwards.  A token notification is forwarded exactly like a message sent by the
    user it names, whoever sent the notification; every message that leaves the router goes to the
    ramp that its owner set last, and names as the sender the one who sent it or the one the notification
    names.  The owner never changes. *)
Theorem router_forwards ins s0 attacker victim q amount msg st :
  router.onInternalMessage {| router.in_sender := attacker;
    router.in_msg := router.JettonTransferNotification q amount victim (Some msg) |} st =
  router.onInternalMessage {| router.in_sender := victim; router.in_msg := router.Send msg |} st ∧
  run router.onInternalMessage ins s0 =
    {| router.ownable := router.ownable s0;
       router.onRamp := ramp_set (ownable.owner (router.ownable s0)) (router.onRamp s0) ins |} ∧
  Forall forwards (handled router.onInternalMessage ins s0).
Proof.
  split; [done|]. split; [apply router_run|].
  apply (run_history _ (λ past _, Forall forwards past) ins s0); [|constructor].
  intros past i s u s' o _ IH H. apply Forall_app. split; [done|]. constructor; [by eapply router_step_forwards|constructor].
Qed.

(** ** A run *)

Definition sample_send (u : list bool) : CCIPSend :=
  {| queryId := 1; destChainSelector := 7; receiver := u; data := MkCell [true] []; tokenAmounts := MkCell [] [];
     feeToken := 3; extraArgs := MkCell [] [] |}.
Definition sample_ramp : Storage :=
  {| ownable := {| ownable.owner := 1; ownable.pendingOwner := None |}; router := 20; chainSelector := 5;
     config := {| feeQuoter := 30; feeAggregator := 31; allowlistAdmin := 32 |}; destChainConfigs := ∅ |}.
Definition sample_router : router.Storage :=
  {| router.ownable := {| ownable.owner := 1; ownable.pendingOwner := None |}; router.onRamp := 10 |}.
Definition sample_input (a : address) (m : Msg) : input := {| getAddress := 10; in_sender := a; in_msg := m |}.

(** The lane is configured twice; a message of a stranger is refused, and so is a receiver of seven bits. *)
Definition sample_inputs : list input :=
  [sample_input 1 (OnRampUpdateDestChainConfigs [{| up_destChainSelector := 7; up_router := []; up_allowlistEnabled := true |}]);
   sample_input 1 (UpdateAllowlists [{| al_destChainSelector := 7; al_add := [20; 44]; al_remove := [44] |}]);
   sample_input 20 (OnRampSend (sample_send []) 99);
   sample_input 30 (MessageValidated (sample_send []) 99 1000);
   sample_input 99 (MessageValidated (sample_send []) 99 0);
   sample_input 1 (OnRampUpdateDestChainConfigs [{| up_destChainSelector := 7; up_router := []; up_allowlistEnabled := false |}]);
   sample_input 30 (MessageValidated (sample_send (repeat true 7)) 99 1000);
   sample_input 30 (MessageValidated (sample_send (repeat true 8)) 98 1000)].
Definition sample_sent : list CCIPMessageSent :=
  sent (handled (onInternalMessage mcspec.sample_hash) sample_inputs sample_ramp).

Lemma sample_numbers : ms_sequenceNumber <$> sample_sent = [0; 1].
Proof. vm_compute. reflexivity. Qed.

Lemma sample_events : ∃ e1 e2, sample_sent = [e1; e2].
Proof. pose proof sample_numbers as H. destruct sample_sent as [|e1 [|e2 [|]]]; try discriminate. by exists e1, e2. Qed.

Lemma message_ids_unique_witness :
  ∃ e1 e2, sample_sent = [e1; e2] ∧
    (mp.messageId (header (message e1)) ≠ mp.messageId (header (message e2)) ∨
     collision mcspec.sample_hash (hashed_cells mcspec.sample_hash 10 e1) (hashed_cells mcspec.sample_hash 10 e2)).
Proof.
  destruct sample_events as (e1 & e2 & E). exists e1, e2. split; [exact E|].
  apply (message_ids_unique mcspec.sample_hash 10 10 sample_inputs sample_inputs sample_ramp sample_ramp e1 e2).
  - exact merklespec.sample_hash_range.
  - done.
  - done.
  - split; [done|]. intros d. unfold next. cbn. by rewrite lookup_empty.
  - split; [done|]. intros d. unfold next. cbn. by rewrite lookup_empty.
  - repeat (constructor; [done|]). constructor.
  - repeat (constructor; [done|]). constructor.
  - change (e1 ∈ sample_sent). rewrite E. apply list_elem_of_here.
  - change (e2 ∈ sample_sent). rewrite E. apply list_elem_of_further, list_elem_of_here.
  - pose proof sample_numbers as H. rewrite E in H. injection H as H1 H2. intros [= _ Hn]. congruence.
Defined.

Definition sample_configured : Storage :=
  run (onInternalMessage mcspec.sample_hash) (take 2 sample_inputs) sample_ramp.

(** A fee quoter that rejects messages to destinations other than 7. *)
Definition sample_fee (msg : CCIPSend) : exit Z := if destChainSelector msg =? 7 then Done 1000 else Throw 500.

Lemma sample_route :
  ∃ s' o, route mcspec.sample_hash 10 20 sample_fee sample_router 99 (sample_send []) sample_configured = Done (tt, s', o).
Proof. vm_compute. by eexists _, _. Qed.

(** The user 99 is not on the allow list, the router is. *)
Lemma message_path_witness :
  router.onRamp sample_router = 10 ∧
  ∃ c m, destChainConfigs sample_configured !! 7 = Some c ∧ allowlistEnabled c = true ∧
    ramp_message mcspec.sample_hash 10 sample_configured (sample_send []) 99 1000 0 = Done m.
Proof.
  split; [reflexivity|]. destruct sample_route as (s' & o & H).
  apply (message_path mcspec.sample_hash 10 20 sample_fee sample_router 99 (sample_send []) sample_configured s' o)
    in H as (_ & c & Hc & _ & [(? & [=] & _)|(fee & m & Hf & _ & Hm & _)]); [|reflexivity].
  injection Hf as <-. exists c, m. split; [exact Hc|].
  assert (sequenceNumber c = 0 ∧ allowlistEnabled c = true) as [H1 H2].
  { vm_compute in Hc. injection Hc as <-. by split. }
  split; [exact H2|]. rewrite H1 in Hm. exact Hm.
Defined.
End lanespec.
