(* ===== verification/OfframpContract.v ===== *)
(** * OfframpContract: ccip/offramp.tolk

    The ramp to this chain: it accepts the commit reports of the oracle network, deploys a
    contract for every Merkle root in them, and executes messages.  The vectors of roots and of
    messages, the proofs and the signatures are read from their cells as the iterator of
    lib/utils.tolk does.  [hash] is the representation hash of a cell and
    [isSignatureValid] the TVM's signature check. *)

From S2P Require Import Prelude Event Tolk Slices Ownable Ocr3Contract MultiProof OnrampContract.

Module offr.
Import ccip slices.
Local Open Scope Z_scope.

(** ** Data *)

(** [CrossChainAddress.unpackFromSlice] (types.tolk). *)
Definition unpackFromSlice (s : slice) : exit (ccip.CrossChainAddress * slice) :=
  r ← loadUint 8 s;
  assert (r.1 <=? 64) ccip.ERROR_OUT_OF_RANGE;;
  loadBits (Z.to_nat r.1 * 8) r.2.

Record SourceChainConfig := {
  sc_router : CrossChainAddress;
  isEnabled : bool;
  minSeqNr : Z;
  isRMNVerificationDisabled : bool;
  sc_onRamp : CrossChainAddress;
}.

Record Storage := {
  ownable : ownable.Ownable2Step;
  deployer : cell;
  merkleRootCode : cell;
  feeQuoter : address;
  ocr3Base : ocr3.OCR3Base;
  chainSelector : Z;
  permissionlessExecutionThresholdSeconds : Z;
  sourceChainConfigs : gmap Z SourceChainConfig;
  latestPriceSequenceNumber : Z;
}.

Definition set_ocr (b : ocr3.OCR3Base) (st : Storage) : Storage :=
  {| ownable := ownable st; deployer := deployer st; merkleRootCode := merkleRootCode st;
     feeQuoter := feeQuoter st; ocr3Base := b; chainSelector := chainSelector st;
     permissionlessExecutionThresholdSeconds := permissionlessExecutionThresholdSeconds st;
     sourceChainConfigs := sourceChainConfigs st; latestPriceSequenceNumber := latestPriceSequenceNumber st |}.
Definition set_source (d : Z) (c : SourceChainConfig) (st : Storage) : Storage :=
  {| ownable := ownable st; deployer := deployer st; merkleRootCode := merkleRootCode st;
     feeQuoter := feeQuoter st; ocr3Base := ocr3Base st; chainSelector := chainSelector st;
     permissionlessExecutionThresholdSeconds := permissionlessExecutionThresholdSeconds st;
     sourceChainConfigs := <[d := c]> (sourceChainConfigs st);
     latestPriceSequenceNumber := latestPriceSequenceNumber st |}.

(** [MerkleRoot] (types.tolk), read from a slice and stored in a cell. *)
Record MerkleRoot := {
  sourceChainSelector : Z;
  onRampAddress : CrossChainAddress;
  mr_minSeqNr : Z;
  mr_maxSeqNr : Z;
  merkleRoot : uint256;
}.
Definition load_MerkleRoot (s : slice) : exit (MerkleRoot * slice) :=
  r1 ← loadUint 64 s;
  r2 ← unpackFromSlice r1.2;
  r3 ← loadUint 64 r2.2;
  r4 ← loadUint 64 r3.2;
  r5 ← loadUint 256 r4.2;
  mret ({| sourceChainSelector := r1.1; onRampAddress := r2.1; mr_minSeqNr := r3.1; mr_maxSeqNr := r4.1;
    merkleRoot := r5.1 |}, r5.2).
Definition MerkleRoot_toCell (r : MerkleRoot) : exit cell :=
  a ← packToBuilder (onRampAddress r);
  mret (MkCell (Z_bits 64 (sourceChainSelector r) ++ a ++ Z_bits 64 (mr_minSeqNr r) ++
    Z_bits 64 (mr_maxSeqNr r) ++ Z_bits 256 (merkleRoot r)) []).

(** [PriceUpdates] (types.tolk), the cells of two vectors. *)
Record PriceUpdates := { tokenPriceUpdates : cell; gasPriceUpdates : cell }.
Definition load_PriceUpdates (c : cell) : exit PriceUpdates :=
  match c with
  | MkCell [] [a; b] => Done {| tokenPriceUpdates := a; gasPriceUpdates := b |}
  | _ => Throw CELL_UNDERFLOW
  end.

Record CommitReport := { priceUpdates : option cell; merkleRoots : cell }.
Definition CommitReport_toCell (r : CommitReport) : cell :=
  MkCell [bool_decide (is_Some (priceUpdates r))] (option_list (priceUpdates r) ++ [merkleRoots r]).

(** [Any2TVMRampMessage] (types.tolk), read from a slice. *)
Definition load_message (s : slice) : exit (mp.Any2TVMRampMessage * slice) :=
  r1 ← loadUint 256 s;
  r2 ← loadUint 64 r1.2;
  r3 ← loadUint 64 r2.2;
  r4 ← loadUint 64 r3.2;
  r5 ← loadUint 64 r4.2;
  r6 ← loadRef r5.2;
  r7 ← loadRef r6.2;
  r8 ← loadAddress r7.2;
  r9 ← loadMaybeRef r8.2;
  mret ({| mp.header := {| mp.messageId := r1.1; mp.sourceChainSelector := r2.1; mp.destChainSelector := r3.1;
             mp.sequenceNumber := r4.1; mp.nonce := r5.1 |};
           mp.sender := r6.1; mp.data := r7.1; mp.receiver := r8.1; mp.tokenAmounts := r9.1 |}, r9.2).

(** [report] is the cell of the report. *)
Record ExecutionReport := {
  er_sourceChainSelector : Z;
  messages : cell;
  proofs : cell;
  proofFlagBits : uint256;
  report : cell;
}.

Inductive Msg :=
| Commit (queryId : Z) (reportContext : ocr3.ReportContext) (report : CommitReport)
    (signatures : cell)
| Execute (queryId : Z) (reportContext : ocr3.ReportContext) (report : ExecutionReport)
| UpdateSourceChainConfig (queryId sourceChainSelector : Z) (config : SourceChainConfig)
| SetOCR3Config (msg : ocr3.SetOCR3Config)
| Unknown (isEmpty : bool).

Inductive Body :=
| UpdatePrices (updates : PriceUpdates)
| Initialize (deployer deployable code data : cell)
| OcrEvent (e : ocr3.Body)
| OwnerEvent (e : ownable.Event)
| CommitReportAccepted (priceUpdates : option cell) (merkleRoots : cell).

Definition CCIP_COMMIT_REPORT_ACCEPTED_TOPIC : Z := CRC32 "CCIPCommitReportAccepted".
(** [stringSha256("Any2TVMMessageHashV1")]. *)
Definition Any2TVMMessageHashV1 : Z := 0xd0191d3c71d1445661c063cd9d9a2503354b4f200f6d9212ad12bea92da8a3be.

(** [sourceChainConfigs.mustGet(.., ERROR_SOURCE_CHAIN_NOT_ENABLED)] and [assert(isEnabled)]. *)
Definition enabled_source (st : Storage) (d : Z) : exit SourceChainConfig :=
  match sourceChainConfigs st !! d with
  | None => Throw ERROR_SOURCE_CHAIN_NOT_ENABLED
  | Some c => assert (isEnabled c) ERROR_SOURCE_CHAIN_NOT_ENABLED;; mret c
  end.

(** The data of the stub with [getMerkleRootID] as its id. *)
Definition deployable_cell (self : address) (root : uint256) : cell :=
  MkCell (Z_bits 267 self ++ Z_bits 16 1 ++ Z_bits 256 root) [].

(** [MerkleRoot_Storage.toCell()], with an empty [UMap] of 64-bit keys. *)
Definition storage_cell (self : address) (root : cell) : cell :=
  MkCell (Z_bits 267 self ++ Z_bits 8 0 ++ Z_bits 256 0 ++ Z_bits 256 0 ++ [false] ++ Z_bits 16 64) [root].

Abbreviation method := (M Storage Body).

Section crypto.
Context (hash : cell → uint256) (isSignatureValid : uint256 → ocr3.SignatureEd25519 → uint256 → bool).

(** The address of a contract with this code and data: workchain 0 and the hash of the [StateInit]. *)
Definition deploy_address (code data : cell) : address :=
  4 * 2 ^ 264 + hash (MkCell [false; false; true; true; false] [code; data]).

(** The body of the loop of [commit]. *)
Definition commit_root (self : address) (root : MerkleRoot) : method () :=
  st ← get;
  _ ← lift (enabled_source st (sourceChainSelector root));
  c ← lift (MerkleRoot_toCell root);
  let data := deployable_cell self (merkleRoot root) in
  Tolk.send (Message true 100000000 (deploy_address (deployer st) data)
    (Initialize (deployer st) data (merkleRootCode st) (storage_cell self c))) SEND_MODE_REGULAR.

(** [st.ocr3Base.load().transmit(..)]: the changed base is not stored. *)
Definition transmit (sender : address) (plugin : Z) (ctx : ocr3.ReportContext)
  (report sigs : cell) : method () :=
  st ← get;
  _ ← within OcrEvent (ocr3.transmit hash isSignatureValid sender plugin ctx report sigs) (ocr3Base st);
  mret tt.

Definition commit (self sender : address) (ctx : ocr3.ReportContext) (report : CommitReport)
  (sigs : cell) : method () :=
  st ← get;
  match priceUpdates report with
  | None => mret tt
  | Some c =>
      updates ← lift (load_PriceUpdates c);
      Tolk.send (Message true 50000000 (feeQuoter st) (UpdatePrices updates)) SEND_MODE_REGULAR
  end;;
  for_vec (commit_root self) (vec load_MerkleRoot (merkleRoots report));;
  transmit sender ocr3.OCR_PLUGIN_TYPE_COMMIT ctx (CommitReport_toCell report) sigs;;
  emit CCIP_COMMIT_REPORT_ACCEPTED_TOPIC (CommitReportAccepted (priceUpdates report) (merkleRoots report)).

(** The body of the loop of [_execute]. *)
Definition check_message (st : Storage) (report : ExecutionReport) (m : mp.Any2TVMRampMessage) : method () :=
  require (mp.destChainSelector (mp.header m) =? chainSelector st) ERROR_INVALID_MESSAGE_DEST_CHAIN_SELECTOR;;
  require (mp.sourceChainSelector (mp.header m) =? er_sourceChainSelector report) ERROR_SOURCE_CHAIN_SELECTOR_MISMATCH.

Definition metadata_hash (st : Storage) (c : SourceChainConfig) (source : Z) : uint256 :=
  hash (MkCell (Z_bits 256 Any2TVMMessageHashV1 ++ Z_bits 64 source ++ Z_bits 64 (chainSelector st) ++
    sc_onRamp c) []).

Definition _execute (sender : address) (ctx : ocr3.ReportContext) (r : ExecutionReport) : method () :=
  st ← get;
  c ← lift (enabled_source st (er_sourceChainSelector r));
  let metadataHash := metadata_hash st c (er_sourceChainSelector r) in
  let ms := vec load_message (messages r) in
  for_vec (check_message st r) ms;;
  let hashedLeaves := (λ m, mp.generateMessageId hash m metadataHash) <$> ms.1 in
  root ← lift (mp.merkleRoot hash hashedLeaves (proofs r) (proofFlagBits r));
  transmit sender ocr3.OCR_PLUGIN_TYPE_EXECUTE ctx (report r) (MkCell [] []).

Definition requireOwner (sender : address) : method () :=
  st ← get;
  _ ← within OwnerEvent (ownable.requireOwner sender) (ownable st);
  mret tt.

Definition _setOCR3Config (sender : address) (msg : ocr3.SetOCR3Config) : method () :=
  requireOwner sender;;
  st ← get;
  r ← within OcrEvent (ocr3.setOcr3Config msg) (ocr3Base st);
  put (set_ocr r.2 st).

Definition _updateSourceChainConfig (sender : address) (d : Z) (c : SourceChainConfig) : method () :=
  requireOwner sender;;
  st ← get;
  put (set_source d c st).

Record input := { getAddress : address; in_sender : address; in_msg : Msg }.

Definition onInternalMessage (i : input) : method () :=
  match in_msg i with
  | Commit _ ctx report sigs => commit (getAddress i) (in_sender i) ctx report sigs
  | Execute _ ctx report => _execute (in_sender i) ctx report
  | UpdateSourceChainConfig _ d c => _updateSourceChainConfig (in_sender i) d c
  | SetOCR3Config msg => _setOCR3Config (in_sender i) msg
  | Unknown isEmpty => require isEmpty ERROR_WRONG_OP
  end.
End crypto.
End offr.
