(* ===== verification/OfframpSpec.v ===== *)
(** * OfframpSpec: what the ramp to this chain accepts

    The ramp of [OfframpContract] against the base contract of [Ocr3Contract], which it runs:
    every root it deploys a contract for was in a report that oracles configured by its owner had
    signed; how many is what the base contract counts of the signatures. *)

From S2P Require Import Prelude Event Tolk Slices Merkle Ownable McmsSpec Ocr3Contract Ocr3Spec MultiProof MerkleSpec OnrampContract OfframpContract.

Module offspec.
Local Open Scope Z_scope.
Import slices offr.

(** ** Reading the vectors *)

Lemma loadBits_consumes n s bits s' : loadBits n s = Done (bits, s') → (slice_bits s = n + slice_bits s')%nat.
Proof.
  unfold loadBits. destruct (Nat.leb_spec n (length s.1)); [|discriminate]. intros [= <- <-].
  unfold slice_bits. cbn [fst snd]. rewrite length_drop. lia.
Qed.
Lemma loadUint_consumes n s z s' : loadUint n s = Done (z, s') → (slice_bits s = n + slice_bits s')%nat.
Proof. intros ([bits s1] & H & [= _ <-])%exit_bind_done. by apply loadBits_consumes in H. Qed.
Lemma loadRef_consumes s c s' : loadRef s = Done (c, s') → (slice_bits s' ≤ slice_bits s)%nat.
Proof.
  unfold loadRef. destruct s as [bits [|c' refs]]; [discriminate|]. cbn [snd fst]. intros [= <- <-].
  unfold slice_bits. cbn [fst snd fmap list_fmap list_sum foldr]. lia.
Qed.
Lemma unpack_consumes s a s' : unpackFromSlice s = Done (a, s') → (slice_bits s' ≤ slice_bits s)%nat.
Proof.
  intros ([n s1] & H1%loadUint_consumes & ([] & _ & H2%loadBits_consumes)%exit_bind_done)%exit_bind_done.
  cbn [fst snd] in *. lia.
Qed.
Lemma loadMaybeRef_consumes s c s' : loadMaybeRef s = Done (c, s') → (slice_bits s' ≤ slice_bits s)%nat.
Proof.
  intros ([n s1] & H1%loadUint_consumes & H)%exit_bind_done. cbn [fst snd] in H.
  destruct (n =? 0); [injection H as _ <-; lia|].
  apply exit_bind_done in H as ([c' s2] & H2%loadRef_consumes & [= _ <-]). cbn [fst snd]. lia.
Qed.

(** Takes a reader apart and counts the bits. *)
Ltac count_bits :=
  repeat match goal with
  | H : _ ≫= _ = Done _ |- _ => apply exit_bind_done in H as ([? ?] & ? & H); cbn [fst snd] in H
  | H : loadAddress _ = Done _ |- _ => apply (loadUint_consumes ADDR_KEY_LEN) in H; cbn [fst snd] in H
  | H : loadUint _ _ = Done _ |- _ => apply loadUint_consumes in H; cbn [fst snd] in H
  | H : loadRef _ = Done _ |- _ => apply loadRef_consumes in H; cbn [fst snd] in H
  | H : unpackFromSlice _ = Done _ |- _ => apply unpack_consumes in H; cbn [fst snd] in H
  | H : loadMaybeRef _ = Done _ |- _ => apply loadMaybeRef_consumes in H; cbn [fst snd] in H
  | H : mret (_, _) = Done _ |- _ => injection H as _ <-
  end; lia.

Lemma load_MerkleRoot_consumes s x s' : load_MerkleRoot s = Done (x, s') → (slice_bits s' < slice_bits s)%nat.
Proof. unfold load_MerkleRoot. intros H. count_bits. Qed.
Lemma load_message_consumes s x s' : load_message s = Done (x, s') → (slice_bits s' < slice_bits s)%nat.
Proof. unfold load_message. intros H. count_bits. Qed.

Lemma mret_done {A} (a b : A) : (mret a : exit A) = Done b → a = b.
Proof. by intros [= ->]. Qed.

(** What is read of an address is what was packed. *)
Lemma unpack_pack a bits rest refs :
  ccip.packToBuilder a = Done bits → unpackFromSlice (bits ++ rest, refs) = Done (a, (rest, refs)).
Proof.
  intros ([] & Ha%assert_done & ([] & Hl%assert_done & <-%mret_done)%exit_bind_done)%exit_bind_done.
  assert (Z.of_nat (length a) = 8 * (Z.of_nat (length a) / 8)) as Hdiv by (Z.div_mod_to_equations; lia).
  unfold unpackFromSlice, loadUint, loadBits. cbn [fst snd].
  rewrite <- app_assoc, !length_app, Z_bits_length. cbn [Nat.leb Nat.add].
  cbn [mbind exit_bind mret exit_ret fst snd]. rewrite take_app_length', drop_app_length' by by rewrite Z_bits_length.
  rewrite bits_Z_bits by lia. rewrite Hl. cbn [assert]. cbn [mbind exit_bind].
  replace (Z.to_nat (Z.of_nat (length a) / 8) * 8)%nat with (length a) by lia. rewrite length_app.
  rewrite (proj2 (Nat.leb_le _ _)) by lia. by rewrite take_app_length, drop_app_length.
Qed.
(** ** What the handlers do *)

Section ramp.
Context (hash : cell → uint256) (isSignatureValid : uint256 → ocr3.SignatureEd25519 → uint256 → bool).

Abbreviation handle := (onInternalMessage hash isSignatureValid).
Abbreviation handled_step := (step (I:=input) (St:=Storage) (B:=Body)).
Abbreviation ocr_handle := (ocr3.onInternalMessage hash isSignatureValid).
Abbreviation ocr_step := (step (I:=ocr3.input) (St:=ocr3.OCR3Base) (B:=ocr3.Body)).

(** The deployment of the contract of a root. *)
Definition deployment (self : address) (s : Storage) (root : MerkleRoot) : exit (action Body) :=
  _ ← enabled_source s (sourceChainSelector root);
  c ← MerkleRoot_toCell root;
  let data := deployable_cell self (merkleRoot root) in
  mret (Send (Message true 100000000 (deploy_address hash (deployer s) data)
    (Initialize (deployer s) data (merkleRootCode s) (storage_cell self c))) SEND_MODE_REGULAR).

Definition price_update (s : Storage) (report : CommitReport) : exit (list (action Body)) :=
  match priceUpdates report with
  | None => mret []
  | Some c =>
      updates ← load_PriceUpdates c;
      mret [Send (Message true 50000000 (feeQuoter s) (UpdatePrices updates)) SEND_MODE_REGULAR]
  end.

Lemma for_roots self roots s :
  for_each (commit_root hash self) roots s =
  match mapM (deployment self s) roots with Done l => Done (tt, s, l) | Throw code => Throw code end.
Proof.
  induction roots as [|r roots IH]; [done|]. cbn [for_each mapM].
  assert (commit_root hash self r s = match deployment self s r with Done m => Done (tt, s, [m]) | Throw c => Throw c end) as E.
  { unfold commit_root, deployment. rewrite get_bind, lift_bind. destruct (enabled_source _ _); [|done].
    rewrite lift_bind. cbn [mbind exit_bind]. by destruct (MerkleRoot_toCell r). }
  rewrite bind_run, E. destruct (deployment self s r) as [m|code]; [|done]. rewrite IH.
  cbn [mbind exit_bind]. by destruct (mapM _ roots).
Qed.

Lemma ocr_transmit_state sender p ctx r sigs b u b' o :
  ocr3.transmit hash isSignatureValid sender p ctx r sigs b = Done (u, b', o) → b' = b.
Proof.
  unfold ocr3.transmit. intros H. rewrite get_bind, lift_bind in H.
  destruct (ocr3.getConfig b p) as [[c|]|]; [|discriminate|discriminate]. rewrite !require_bind in H.
  destruct (_ =? _); [|discriminate]. destruct (bool_decide _); [|discriminate].
  destruct (ocr3.isSignatureVerificationEnabled _); [|by inv_tolk].
  rewrite bind_run, lift_bind in H. destruct (size 96 sigs); [|discriminate].
  rewrite require_bind in H. destruct (_ =? _) in H; [|discriminate].
  by destruct (ocr3.verifySignature _ _ _ _) as [[]|]; [injection H|].
Qed.

Lemma ramp_transmit_done sender p ctx r sigs s s' o :
  transmit hash isSignatureValid sender p ctx r sigs s = Done (tt, s', o) ↔
  s' = s ∧ ∃ o', ocr3.transmit hash isSignatureValid sender p ctx r sigs (ocr3Base s) = Done (tt, ocr3Base s, o') ∧
    o = action_map OcrEvent <$> o'.
Proof.
  unfold transmit. rewrite get_bind. unfold mbind, M_bind, within.
  destruct (ocr3.transmit _ _ _ _ _ _ _ _) as [[[[] b] o1]|code] eqn:E.
  - pose proof (ocr_transmit_state _ _ _ _ _ _ _ _ _ E) as ->. cbn. rewrite app_nil_r. split.
    + intros [= <- <-]. split; [done|]. by exists o1.
    + intros (-> & o' & [= <-] & ->). done.
  - split; [discriminate|]. by intros (_ & o' & [=] & _).
Qed.

Definition accepted (report : CommitReport) : action Body :=
  Log (Some CCIP_COMMIT_REPORT_ACCEPTED_TOPIC) (CommitReportAccepted (priceUpdates report) (merkleRoots report)).

Lemma commit_done self sender ctx report sigs s s' o :
  commit hash isSignatureValid self sender ctx report sigs s = Done (tt, s', o) ↔
  s' = s ∧ ∃ prices roots deployments events,
    price_update s report = Done prices ∧ vec load_MerkleRoot (merkleRoots report) = (roots, Done tt) ∧
    mapM (deployment self s) roots = Done deployments ∧
    ocr3.transmit hash isSignatureValid sender ocr3.OCR_PLUGIN_TYPE_COMMIT ctx (CommitReport_toCell report) sigs
      (ocr3Base s) = Done (tt, ocr3Base s, events) ∧
    o = prices ++ deployments ++ (action_map OcrEvent <$> events) ++ [accepted report].
Proof.
  unfold commit. rewrite get_bind. rewrite bind_run.
  assert (match priceUpdates report with
      | Some c => updates ← lift (load_PriceUpdates c);
          Tolk.send (Message true 50000000 (feeQuoter s) (UpdatePrices updates)) SEND_MODE_REGULAR
      | None => mret tt end s =
    match price_update s report with Done l => Done (tt, s, l) | Throw c => Throw c end) as ->.
  { unfold price_update. destruct (priceUpdates report) as [c|]; [|done]. rewrite lift_bind.
    by destruct (load_PriceUpdates c). }
  destruct (price_update s report) as [prices|code] eqn:Ep.
  2:{ split; [discriminate|]. by intros (_ & ? & ? & ? & ? & [=] & _). }
  rewrite bind_run. unfold for_vec. rewrite bind_run, for_roots.
  destruct (vec load_MerkleRoot (merkleRoots report)) as [roots e] eqn:Ev. cbn [fst snd].
  destruct (mapM _ roots) as [deps|code] eqn:Ed.
  2:{ split; [discriminate|]. intros (_ & ? & ? & ? & ? & _ & [= <- _] & E & _). congruence. }
  destruct e as [[]|code]; cbn [lift].
  2:{ split; [discriminate|]. by intros (_ & ? & ? & ? & ? & _ & [=] & _). }
  rewrite bind_run. destruct (transmit _ _ _ _ _ _ _ s) as [[[[] s1] o1]|code] eqn:Et.
  - apply ramp_transmit_done in Et as (-> & events & Et & ->). cbn. rewrite app_nil_r. split.
    + intros [= <- <-]. split; [done|]. exists prices, roots, deps, events. by split_and!.
    + intros (-> & prices' & roots' & deps' & events' & [= <-] & [= <-] & Hd & He & ->).
      rewrite Et in He. injection He as <-. rewrite Ed in Hd. by injection Hd as <-.
  - split; [discriminate|]. intros (_ & ? & roots' & ? & events & _ & _ & _ & He & _).
    assert (transmit hash isSignatureValid sender ocr3.OCR_PLUGIN_TYPE_COMMIT ctx (CommitReport_toCell report) sigs s =
      Done (tt, s, action_map OcrEvent <$> events)) as E by (apply ramp_transmit_done; split; [done|]; by exists events).
    congruence.
Qed.
(** ** The base contract inside the ramp *)

Definition ocr_event (a : action Body) : option (action ocr3.Body) :=
  match a with Log t (OcrEvent e) => Some (Log t e) | _ => None end.

(** The message for the base in a message of the ramp, and the step of the base in a step of the ramp. *)
Definition ocr_input (i : input) : option ocr3.input :=
  match in_msg i with
  | Commit _ ctx r sigs =>
      Some {| ocr3.sender := in_sender i;
        ocr3.msg := ocr3.Transmit ocr3.OCR_PLUGIN_TYPE_COMMIT ctx (CommitReport_toCell r) sigs |}
  | Execute _ ctx r =>
      Some {| ocr3.sender := in_sender i; ocr3.msg := ocr3.Transmit ocr3.OCR_PLUGIN_TYPE_EXECUTE ctx (report r) (MkCell [] []) |}
  | SetOCR3Config m => Some {| ocr3.sender := in_sender i; ocr3.msg := ocr3.SetConfig m |}
  | _ => None
  end.
Definition to_ocr (st : handled_step) : option ocr_step :=
  i ← ocr_input (inp st); Some (Step (ocr3Base (pre st)) i (omap ocr_event (out st))).

Lemma ocr_events_back (o : list (action ocr3.Body)) :
  Forall (λ a, match a with Log _ _ => True | _ => False end) o → omap ocr_event (action_map OcrEvent <$> o) = o.
Proof. induction 1 as [|a o Ha Ho IH]; [done|]. cbn. rewrite IH. by destruct a. Qed.

Lemma ocr_only_logs i b u b' o :
  ocr_handle i b = Done (u, b', o) → Forall (λ a, match a with Log _ _ => True | _ => False end) o.
Proof.
  unfold ocr3.onInternalMessage. destruct (ocr3.msg i) as [p ctx r sigs|m]; intros H.
  - unfold ocr3.transmit in H. rewrite get_bind, lift_bind in H.
    destruct (ocr3.getConfig b p) as [[c|]|]; [|discriminate|discriminate]. rewrite !require_bind in H.
    destruct (_ =? _); [|discriminate]. destruct (bool_decide _); [|discriminate].
    apply M_bind_done in H as (? & ? & o1 & o2 & H1 & H2 & ->). injection H2 as _ _ <-.
    assert (o1 = []) as ->; [|by repeat constructor].
    destruct (ocr3.isSignatureVerificationEnabled _); [|by injection H1].
    rewrite lift_bind in H1. destruct (size 96 sigs); [|discriminate].
    rewrite require_bind in H1. destruct (_ =? _) in H1; [|discriminate].
    by destruct (ocr3.verifySignature _ _ _ _); [injection H1|].
  - rewrite ocr3spec.setOcr3Config_value in H. destruct (ocr3spec.config_error b m); [discriminate|].
    injection H as _ _ <-. by repeat constructor.
Qed.

Lemma deployments_quiet self s roots l : mapM (deployment self s) roots = Done l → omap ocr_event l = [].
Proof.
  revert l. induction roots as [|r roots IH]; intros l H; [by injection H as <-|].
  cbn in H. apply exit_bind_done in H as (m & Hm & (l' & Hl & [= <-])%exit_bind_done).
  cbn. rewrite (IH l' Hl). unfold deployment in Hm.
  by apply exit_bind_done in Hm as (? & _ & (? & _ & [= <-])%exit_bind_done).
Qed.

Lemma prices_quiet s r l : price_update s r = Done l → omap ocr_event l = [].
Proof.
  unfold price_update. destruct (priceUpdates r) as [c|]; [|by intros [= <-]].
  by intros (? & _ & [= <-])%exit_bind_done.
Qed.

Lemma check_messages s r ms u s' o : for_each (check_message s r) ms s = Done (u, s', o) → s' = s ∧ o = [].
Proof.
  revert u s' o. induction ms as [|m ms IH]; intros u s' o H; [by injection H|]. cbn in H.
  apply M_bind_done in H as (? & s1 & o1 & o2 & H1 & H2 & ->).
  unfold check_message in H1. inv_tolk. by apply IH in H2.
Qed.

Lemma ramp_requireOwner_done sender s u s' o :
  requireOwner sender s = Done (u, s', o) ↔ sender = ownable.owner (ownable s) ∧ s' = s ∧ o = [].
Proof.
  unfold requireOwner. destruct u. split.
  - intros H. inv_tolk.
    match goal with H : ownable.requireOwner _ _ = _ |- _ => apply ownable.requireOwner_done in H as (-> & _ & ->) end. done.
  - intros (-> & -> & ->). rewrite get_bind. unfold within, mbind, M_bind.
    by rewrite (proj2 (ownable.requireOwner_done _ _ tt _ []) (conj eq_refl (conj eq_refl eq_refl))).
Qed.
Definition message_ok (s : Storage) (r : ExecutionReport) (m : mp.Any2TVMRampMessage) : Prop :=
  mp.destChainSelector (mp.header m) = chainSelector s ∧
  mp.sourceChainSelector (mp.header m) = er_sourceChainSelector r.

Lemma check_messages_value s r ms :
  (for_each (check_message s r) ms s = Done (tt, s, []) ∧ Forall (message_ok s r) ms) ∨
  ((∃ code, for_each (check_message s r) ms s = Throw code) ∧ ¬ Forall (message_ok s r) ms).
Proof.
  induction ms as [|m ms IH]; [by left|]. cbn [for_each]. rewrite Forall_cons. unfold message_ok at 1 3.
  rewrite bind_run. unfold check_message at 1 3. rewrite require_bind.
  destruct (Z.eqb_spec (mp.destChainSelector (mp.header m)) (chainSelector s)) as [E1|E1]; [|right; split; [by eexists|tauto]].
  destruct (Z.eqb_spec (mp.sourceChainSelector (mp.header m)) (er_sourceChainSelector r)) as [E2|E2]; cbn.
  2:{ right; split; [by eexists|tauto]. }
  destruct IH as [[-> H]|[[code ->] H]]; [by left|right; split; [by eexists|tauto]].
Qed.

Lemma ramp_execute_done sender ctx r s s' o :
  _execute hash isSignatureValid sender ctx r s = Done (tt, s', o) ↔
  s' = s ∧ ∃ c ms root events,
    enabled_source s (er_sourceChainSelector r) = Done c ∧ vec load_message (messages r) = (ms, Done tt) ∧
    Forall (message_ok s r) ms ∧
    mp.merkleRoot hash ((λ m, mp.generateMessageId hash m (metadata_hash hash s c (er_sourceChainSelector r))) <$> ms)
      (proofs r) (proofFlagBits r) = Done root ∧
    ocr3.transmit hash isSignatureValid sender ocr3.OCR_PLUGIN_TYPE_EXECUTE ctx (report r) (MkCell [] []) (ocr3Base s) =
      Done (tt, ocr3Base s, events) ∧
    o = action_map OcrEvent <$> events.
Proof.
  unfold _execute. rewrite get_bind, lift_bind. destruct (enabled_source s _) as [c|code].
  2:{ split; [discriminate|]. by intros (_ & ? & ? & ? & ? & [=] & _). }
  rewrite bind_run. unfold for_vec. rewrite bind_run.
  destruct (vec load_message (messages r)) as [ms e]. cbn [fst snd].
  destruct (check_messages_value s r ms) as [[-> Hms]|[[code ->] Hms]].
  2:{ split; [discriminate|]. by intros (_ & ? & ? & ? & ? & _ & [= <- _] & ? & _). }
  destruct e as [[]|code]; cbn [lift].
  2:{ split; [discriminate|]. by intros (_ & ? & ? & ? & ? & _ & [=] & _). }
  rewrite lift_bind. destruct (mp.merkleRoot _ _ _ _) as [root|code] eqn:Er.
  2:{ split; [discriminate|]. intros (_ & ? & ? & ? & ? & [= <-] & [= <-] & _ & E & _). congruence. }
  destruct (transmit _ _ _ _ _ _ _ s) as [[[[] s1] o1]|code] eqn:Et.
  - apply ramp_transmit_done in Et as (-> & events & Et & ->). cbn. split.
    + intros [= <- <-]. split; [done|]. exists c, ms, root, events. by split_and!.
    + intros (-> & c' & ms' & root' & events' & _ & _ & _ & _ & He & ->). rewrite Et in He. by injection He as <-.
  - split; [discriminate|]. intros (_ & ? & ? & ? & events & _ & _ & _ & _ & He & _).
    assert (transmit hash isSignatureValid sender ocr3.OCR_PLUGIN_TYPE_EXECUTE ctx (report r) (MkCell [] []) s =
      Done (tt, s, action_map OcrEvent <$> events)) as E by (apply ramp_transmit_done; split; [done|]; by exists events).
    congruence.
Qed.

Lemma set_done sender m s s' o :
  _setOCR3Config sender m s = Done (tt, s', o) ↔
  sender = ownable.owner (ownable s) ∧ ∃ b events, ocr3.setOcr3Config m (ocr3Base s) = Done (tt, b, events) ∧
    s' = set_ocr b s ∧ o = action_map OcrEvent <$> events.
Proof.
  unfold _setOCR3Config. rewrite bind_run. destruct (requireOwner sender s) as [[[[] s1] o1]|code] eqn:E.
  - apply ramp_requireOwner_done in E as (-> & -> & ->). rewrite get_bind. unfold mbind, M_bind, within.
    destruct (ocr3.setOcr3Config m (ocr3Base s)) as [[[[] b] events]|code]; cbn.
    + rewrite app_nil_r. split; [intros [= <- <-]; split; [done|]; by exists b, events|].
      by intros (_ & b' & events' & [= <- <-] & -> & ->).
    + split; [discriminate|]. by intros (_ & ? & ? & [=] & _).
  - split; [discriminate|]. intros (-> & _).
    assert (requireOwner (ownable.owner (ownable s)) s = Done (tt, s, [])) by (by apply ramp_requireOwner_done). congruence.
Qed.

(** Every step of the ramp is a step of the base, or leaves it alone. *)
Lemma ocr_refines i s u s' o :
  handle i s = Done (u, s', o) →
  ownable s' = ownable s ∧
  match ocr_input i with
  | Some i' => ocr_handle i' (ocr3Base s) = Done (tt, ocr3Base s', omap ocr_event o)
  | None => ocr3Base s' = ocr3Base s
  end.
Proof.
  destruct u. unfold onInternalMessage, ocr_input. intros H. destruct (in_msg i) as [q ctx r sigs|q ctx r|q d c|m|b].
  - apply commit_done in H as (-> & prices & roots & deps & events & Hp & _ & Hd & Ht & ->). split; [done|].
    rewrite !omap_app, (prices_quiet _ _ _ Hp), (deployments_quiet _ _ _ _ Hd). cbn. rewrite app_nil_r.
    rewrite ocr_events_back; [exact Ht|]. by exact (ocr_only_logs {| ocr3.sender := in_sender i; ocr3.msg := ocr3.Transmit _ _ _ _ |} _ _ _ _ Ht).
  - apply ramp_execute_done in H as (-> & c & ms & root & events & _ & _ & _ & _ & Ht & ->). split; [done|].
    rewrite ocr_events_back; [exact Ht|]. by exact (ocr_only_logs {| ocr3.sender := in_sender i; ocr3.msg := ocr3.Transmit _ _ _ _ |} _ _ _ _ Ht).
  - unfold _updateSourceChainConfig in H. apply M_bind_done in H as (? & s1 & o1 & o2 & H1 & H2 & ->).
    apply ramp_requireOwner_done in H1 as (_ & -> & ->). inv_tolk. done.
  - apply set_done in H as (_ & b & events & Hb & -> & ->). split; [done|].
    rewrite ocr_events_back; [exact Hb|]. by exact (ocr_only_logs {| ocr3.sender := in_sender i; ocr3.msg := ocr3.SetConfig m |} _ _ _ _ Hb).
  - by inv_tolk.
Qed.
(** The owner never changes, and only the owner has configured the oracles. *)
Definition base_history (s0 : Storage) (past : list handled_step) (s : Storage) : Prop :=
  handled ocr_handle (omap ocr_input (inp <$> past)) (ocr3Base s0) = omap to_ocr past ∧
  run ocr_handle (omap ocr_input (inp <$> past)) (ocr3Base s0) = ocr3Base s ∧
  ownable s = ownable s0 ∧
  ∀ st m, st ∈ past → in_msg (inp st) = SetOCR3Config m → in_sender (inp st) = ownable.owner (ownable s0).

Lemma base_history_step s0 past i s u s' o :
  base_history s0 past s → handle i s = Done (u, s', o) → base_history s0 (past ++ [Step s i o]) s'.
Proof.
  intros (Hh & Hr & Ho & Hset) H. pose proof (ocr_refines _ _ _ _ _ H) as [Ho' Hb].
  unfold base_history. rewrite fmap_app, !omap_app, Ho', Ho.
  assert (∀ st m, st ∈ past ++ [Step s i o] → in_msg (inp st) = SetOCR3Config m →
    in_sender (inp st) = ownable.owner (ownable s0)) as Hset'.
  { intros st m [Hin|Hin%list_elem_of_singleton]%elem_of_app Em; [by eapply Hset|]. subst st. cbn in *.
    unfold onInternalMessage in H. rewrite Em in H. destruct u. apply set_done in H as [Hs _]. by rewrite <- Ho. }
  cbn [fmap list_fmap omap list_omap inp]. unfold to_ocr at 2. cbn [inp pre out].
  destruct (ocr_input i) as [i'|]; cbn [mbind option_bind].
  - rewrite handled_snoc, run_snoc, Hh, Hr. unfold transaction. rewrite Hb. done.
  - by rewrite !app_nil_r, Hb.
Qed.

Lemma run_base_history ins s0 : base_history s0 (handled handle ins s0) (run handle ins s0).
Proof.
  apply run_history; [intros h i s u s' o _; apply base_history_step|].
  split_and!; [done..|]. by intros st m ?%elem_of_nil.
Qed.

Definition unconfigured (s : Storage) : Prop := ocr3.commit (ocr3Base s) = None ∧ ocr3.execute (ocr3Base s) = None.

Lemma ramp_ocr_history ins s0 :
  unconfigured s0 →
  ocr3spec.ocr_history hash isSignatureValid (omap to_ocr (handled handle ins s0)) (ocr3Base (run handle ins s0)).
Proof.
  intros [H1 H2]. destruct (run_base_history ins s0) as (Hh & Hr & _). rewrite <- Hh, <- Hr.
  by apply ocr3spec.run_ocr_history.
Qed.

(** A configuration of a ramp that started without any. *)
Lemma reachable_config ins s0 p c :
  unconfigured s0 → ocr3.getConfig (ocr3Base (run handle ins s0)) p = Done (Some c) →
  ocr3spec.numbers_ok (ocr3.signers c) ∧ 0 < ocr3.bigF (ocr3.configInfo c).
Proof.
  intros H0 Hc. destruct (ramp_ocr_history ins s0 H0) as [Hp _]. specialize (Hp p).
  unfold ocr3spec.plugin_history in Hp. rewrite Hc in Hp.
  destruct Hp as (Hn & (m & _ & _ & E & Hf & _) & _). split; [done|]. lia.
Qed.

(** A step in the middle of the history of the ramp. *)
Lemma history_split ins s0 h1 st h2 :
  unconfigured s0 → handled handle ins s0 = h1 ++ st :: h2 →
  ∀ st', to_ocr st = Some st' → ocr3spec.report_justified hash isSignatureValid (omap to_ocr h1) st'.
Proof.
  intros H0 E st' Est. destruct (ramp_ocr_history ins s0 H0) as [_ Hj].
  apply (Hj _ _ (omap to_ocr h2)). rewrite E, omap_app. cbn. by rewrite Est.
Qed.

Lemma last_config_member past p m :
  ocr3spec.last_config (omap to_ocr past) p m → ∃ st, st ∈ past ∧ in_msg (inp st) = SetOCR3Config m.
Proof.
  intros (h1 & st' & h2 & E & Hs & _).
  assert (st' ∈ omap to_ocr past) as (st & Hin & Hst)%list_elem_of_omap
    by (rewrite E; apply elem_of_app; right; apply list_elem_of_here).
  exists st. split; [done|]. unfold to_ocr, ocr_input in Hst. unfold ocr3spec.sets in Hs.
  destruct (in_msg (inp st)); try discriminate; injection Hst as <-; cbn in Hs; try discriminate. congruence.
Qed.

(** Where a deployment comes from. *)
Lemma deployment_member self s roots l a :
  mapM (deployment self s) roots = Done l → a ∈ l → ∃ r, r ∈ roots ∧ deployment self s r = Done a.
Proof.
  revert l. induction roots as [|r roots IH]; intros l H Hin; [injection H as <-; by apply elem_of_nil in Hin|].
  cbn in H. apply exit_bind_done in H as (m & Hm & (l' & Hl & [= <-])%exit_bind_done).
  apply elem_of_cons in Hin as [->|Hin]; [exists r; split; [apply list_elem_of_here|done]|].
  destruct (IH l' Hl Hin) as (r' & Hr' & H'). exists r'. split; [by apply list_elem_of_further|done].
Qed.
Lemma event_no_deployment (events : list (action ocr3.Body)) dep dd code data b v to mode :
  Send (Message b v to (Initialize dep dd code data)) mode ∉ action_map OcrEvent <$> events.
Proof. intros ([[? ? ? ?] ?|?|?] & [=] & _)%list_elem_of_fmap. Qed.

Lemma price_no_deployment s r l dep dd code data b v to mode :
  price_update s r = Done l → Send (Message b v to (Initialize dep dd code data)) mode ∉ l.
Proof.
  unfold price_update. destruct (priceUpdates r) as [c|]; [|intros [= <-]; apply not_elem_of_nil].
  by intros (? & _ & [= <-])%exit_bind_done ?%list_elem_of_singleton.
Qed.

(** Only commit reports deploy, and only for their roots. *)
Lemma deploys i s u s' o v to dep dd code data mode :
  handle i s = Done (u, s', o) →
  Send (Message true v to (Initialize dep dd code data)) mode ∈ o →
  ∃ q ctx rep sigs roots root c,
    in_msg i = Commit q ctx rep sigs ∧ vec load_MerkleRoot (merkleRoots rep) = (roots, Done tt) ∧ root ∈ roots ∧
    sourceChainConfigs s !! sourceChainSelector root = Some c ∧ isEnabled c = true ∧
    deployment (getAddress i) s root = Done (Send (Message true v to (Initialize dep dd code data)) mode).
Proof.
  destruct u. unfold onInternalMessage. intros H Hin. destruct (in_msg i) as [q ctx rep sigs|q ctx rep|q d c|m|b] eqn:Em.
  - apply commit_done in H as (-> & prices & roots & deps & events & Hp & Hv & Hd & _ & ->).
    apply elem_of_app in Hin as [Hin|Hin]; [by eapply price_no_deployment in Hin|].
    apply elem_of_app in Hin as [Hin|Hin].
    2:{ by apply elem_of_app in Hin as [?%event_no_deployment|?%list_elem_of_singleton]. }
    destruct (deployment_member _ _ _ _ _ Hd Hin) as (root & Hroot & Hdep).
    assert (∃ c, sourceChainConfigs s !! sourceChainSelector root = Some c ∧ isEnabled c = true) as (c & Hc & He).
    { apply exit_bind_done in Hdep as (c & Hc & _). unfold enabled_source in Hc.
      destruct (_ !! _) as [c'|]; [|discriminate]. apply exit_bind_done in Hc as ([] & Hc%assert_done & _). by exists c'. }
    by exists q, ctx, rep, sigs, roots, root, c.
  - apply ramp_execute_done in H as (_ & _ & _ & _ & events & _ & _ & _ & _ & _ & ->). by apply event_no_deployment in Hin.
  - unfold _updateSourceChainConfig in H. apply M_bind_done in H as (? & s1 & o1 & o2 & H1 & H2 & ->).
    apply ramp_requireOwner_done in H1 as (_ & -> & ->). inv_tolk. by apply elem_of_nil in Hin.
  - apply set_done in H as (_ & b & events & _ & _ & ->). by apply event_no_deployment in Hin.
  - inv_tolk. by apply elem_of_nil in Hin.
Qed.

(** ** The claims *)

(** C22: the ramp runs the base contract for reports.  For any messages, the base inside the ramp has
    gone through exactly the steps that the base contract alone makes on the reports and
    configurations among the handled messages, with the same events, and ends in the same state;
    the owner of the ramp never changes, and only the owner has configured the oracles. *)
Theorem ramp_refines_ocr ins s0 :
  let past := handled handle ins s0 in
  let s := run handle ins s0 in
  handled ocr_handle (omap ocr_input (inp <$> past)) (ocr3Base s0) = omap to_ocr past ∧
  run ocr_handle (omap ocr_input (inp <$> past)) (ocr3Base s0) = ocr3Base s ∧
  ownable s = ownable s0 ∧
  ∀ st m, st ∈ past → in_msg (inp st) = SetOCR3Config m → in_sender (inp st) = ownable.owner (ownable s0).
Proof. apply run_base_history. Qed.

(** C5: every root was signed for.  Whatever messages a ramp that started without configurations
    receives, each contract that it deploys for a Merkle root is for a root it read in a commit report,
    of a source chain that is enabled; the report carries the digest of the last commit
    configuration, which the owner set and one of whose transmitters sent the report; and when
    that configuration asks for signatures, [F + 1] of them are counted in the vector of the report,
    of which at least one and at most [F + 1] are read, by pairwise different signers of that
    configuration and valid for the hash of this very report and its context.  Exactly [F + 1]
    different signers have signed when no cell of that vector has a second reference, and the
    signers are more than [3 F] when no cell of theirs has. *)
Theorem roots_signed ins s0 h1 st h2 v to dep dd code data mode :
  unconfigured s0 →
  handled handle ins s0 = h1 ++ st :: h2 →
  Send (Message true v to (Initialize dep dd code data)) mode ∈ out st →
  ∃ q ctx rep sigs roots root c m,
    in_msg (inp st) = Commit q ctx rep sigs ∧
    vec load_MerkleRoot (merkleRoots rep) = (roots, Done tt) ∧ root ∈ roots ∧
    sourceChainConfigs (pre st) !! sourceChainSelector root = Some c ∧ isEnabled c = true ∧
    deployment (getAddress (inp st)) (pre st) root = Done (Send (Message true v to (Initialize dep dd code data)) mode) ∧
    ocr3spec.last_config (omap to_ocr h1) ocr3.OCR_PLUGIN_TYPE_COMMIT m ∧
    (∃ st0, st0 ∈ h1 ∧ in_msg (inp st0) = SetOCR3Config m ∧ in_sender (inp st0) = ownable.owner (ownable s0)) ∧
    ocr3.ctx_configDigest ctx = ocr3.new_digest m ∧ in_sender (inp st) ∈ ocr3spec.transmitters_of m ∧
    (ocr3.new_verification m = true →
     ocr3spec.enough_signers m ∧ ∃ l,
       vec ocr3.load_SignatureEd25519 sigs = (l, Done tt) ∧ size 96 sigs = Done (ocr3.new_bigF m + 1) ∧
       1 ≤ Z.of_nat (length l) ≤ ocr3.new_bigF m + 1 ∧
       (linear sigs = true → Z.of_nat (length l) = ocr3.new_bigF m + 1) ∧
       NoDup (ocr3.signer <$> l) ∧
       Forall (λ sg, ocr3.signer sg ∈ ocr3spec.signers_of m ∧
         isSignatureValid (ocr3.hashReport hash (CommitReport_toCell rep) ctx) sg (ocr3.signer sg) = true) l).
Proof.
  intros H0 E Hin. pose proof (history_split ins s0 h1 st h2 H0 E) as Hj.
  destruct (handled_done handle ins s0 st) as (s' & Hst); [rewrite E; apply elem_of_app; right; apply list_elem_of_here|].
  destruct (deploys _ _ _ _ _ _ _ _ _ _ _ _ Hst Hin) as (q & ctx & rep & sigs & roots & root & c & Em & Hv & Hroot & Hc & He & Hd).
  unfold to_ocr, ocr_input in Hj. rewrite Em in Hj. specialize (Hj _ eq_refl) as (m & Hl & Hdig & Hs & Hver & _).
  exists q, ctx, rep, sigs, roots, root, c, m. split_and!; try done.
  destruct (last_config_member _ _ _ Hl) as (st0 & Hst0 & Em0). exists st0. split_and!; [done..|].
  destruct (run_base_history ins s0) as (_ & _ & _ & Hset). apply (Hset st0 m); [|done].
  rewrite E. apply elem_of_app. by left.
Qed.

(** C19: which commit reports are accepted.  In every state that a ramp reaches which started without
    configurations, a commit report is accepted exactly when its price updates and its roots can be
    read, every root is of an enabled source chain, and the report satisfies the commit
    configuration.  The messages are then the price update for the fee quoter, the deployments in
    the order of the roots, and the two events; the ramp does not change, so that the same
    report is accepted again, whatever the sequence numbers in it. *)
Theorem commit_spec ins s0 self sender ctx rep sigs s' o :
  unconfigured s0 →
  let s := run handle ins s0 in
  commit hash isSignatureValid self sender ctx rep sigs s = Done (tt, s', o) ↔
  s' = s ∧ ∃ prices roots deployments conf,
    price_update s rep = Done prices ∧ vec load_MerkleRoot (merkleRoots rep) = (roots, Done tt) ∧
    mapM (deployment self s) roots = Done deployments ∧
    ocr3.commit (ocr3Base s) = Some conf ∧
    ocr3.ctx_configDigest ctx = ocr3.configDigest (ocr3.configInfo conf) ∧
    is_Some (ocr3.transmitters conf !! sender) ∧
    (ocr3.isSignatureVerificationEnabled (ocr3.configInfo conf) = true →
     size 96 sigs = Done (ocr3.bigF (ocr3.configInfo conf) + 1) ∧
     ∃ l, vec ocr3.load_SignatureEd25519 sigs = (l, Done tt) ∧
       Forall (λ sg, is_Some (ocr3.signers conf !! ocr3.signer sg) ∧
         isSignatureValid (ocr3.hashReport hash (CommitReport_toCell rep) ctx) sg (ocr3.signer sg) = true) l ∧
       NoDup (ocr3.signer <$> l)) ∧
    o = prices ++ deployments ++
      [Log (Some ocr3.OCR3BASE_TRANSMITTED)
        (OcrEvent (ocr3.Transmitted ocr3.OCR_PLUGIN_TYPE_COMMIT (ocr3.ctx_configDigest ctx) (ocr3.sequenceBytes ctx)));
       Log (Some CCIP_COMMIT_REPORT_ACCEPTED_TOPIC) (CommitReportAccepted (priceUpdates rep) (merkleRoots rep))].
Proof.
  intros H0 s. rewrite commit_done.
  assert (∀ c, ocr3.getConfig (ocr3Base s) ocr3.OCR_PLUGIN_TYPE_COMMIT = Done (Some c) →
    ocr3spec.numbers_ok (ocr3.signers c)) as Hn by (intros c Hc; by apply (reachable_config ins s0) in Hc as [Hc _]).
  split.
  - intros (-> & prices & roots & deps & events & Hp & Hv & Hd & Ht & ->). split; [done|].
    apply ocr3spec.transmit_done in Ht as (conf & Hc & (Hok1 & Hok2 & Hok3) & _ & ->); [|done]. injection Hc as Hc.
    by exists prices, roots, deps, conf.
  - intros (-> & prices & roots & deps & conf & Hp & Hv & Hd & Hc & Hok1 & Hok2 & Hok3 & ->). split; [done|].
    exists prices, roots, deps, (ocr3spec.transmitted ocr3.OCR_PLUGIN_TYPE_COMMIT ctx).
    split_and!; [done..| |done]. apply ocr3spec.transmit_done; [done|]. exists conf.
    split_and!; [|done..]. unfold ocr3.getConfig. cbn. by rewrite Hc.
Qed.

(** C20: which messages are executed.  In every such state, an execution report is accepted exactly when
    its source chain is enabled, its messages can be read and are for this chain and of that source,
    the ids and proofs make some root, whichever it is, and the execution configuration names
    the digest and the sender and does not ask for signatures: with one that does, nothing is ever
    executed.  Whether the root was committed plays no part, and nothing happens but one event. *)
Theorem execute_spec ins s0 sender ctx r s' o :
  unconfigured s0 →
  let s := run handle ins s0 in
  _execute hash isSignatureValid sender ctx r s = Done (tt, s', o) ↔
  s' = s ∧ ∃ c ms root conf,
    sourceChainConfigs s !! er_sourceChainSelector r = Some c ∧ isEnabled c = true ∧
    vec load_message (messages r) = (ms, Done tt) ∧
    Forall (λ m, mp.destChainSelector (mp.header m) = chainSelector s ∧
      mp.sourceChainSelector (mp.header m) = er_sourceChainSelector r) ms ∧
    mp.merkleRoot hash ((λ m, mp.generateMessageId hash m (metadata_hash hash s c (er_sourceChainSelector r))) <$> ms)
      (proofs r) (proofFlagBits r) = Done root ∧
    ocr3.execute (ocr3Base s) = Some conf ∧
    ocr3.ctx_configDigest ctx = ocr3.configDigest (ocr3.configInfo conf) ∧
    is_Some (ocr3.transmitters conf !! sender) ∧
    ocr3.isSignatureVerificationEnabled (ocr3.configInfo conf) = false ∧
    o = [Log (Some ocr3.OCR3BASE_TRANSMITTED)
      (OcrEvent (ocr3.Transmitted ocr3.OCR_PLUGIN_TYPE_EXECUTE (ocr3.ctx_configDigest ctx) (ocr3.sequenceBytes ctx)))].
Proof.
  intros H0 s. rewrite ramp_execute_done.
  assert (∀ c, ocr3.getConfig (ocr3Base s) ocr3.OCR_PLUGIN_TYPE_EXECUTE = Done (Some c) →
    ocr3spec.numbers_ok (ocr3.signers c) ∧ 0 < ocr3.bigF (ocr3.configInfo c)) as Hn
    by (intros c Hc; by apply (reachable_config ins s0) in Hc).
  split.
  - intros (-> & c & ms & root & events & He & Hv & Hms & Hr & Ht & ->). split; [done|].
    unfold enabled_source in He. destruct (_ !! er_sourceChainSelector r) as [c'|]; [|discriminate].
    apply exit_bind_done in He as ([] & He%assert_done & [= ->]).
    apply ocr3spec.transmit_done in Ht as (conf & Hc & (Hd & Hs & Hver) & _ & ->); [|intros c' Hc'; by apply Hn].
    destruct (Hn conf Hc) as [_ Hf]. injection Hc as Hc. exists c, ms, root, conf. split_and!; try done.
    destruct (ocr3.isSignatureVerificationEnabled _); [|done]. destruct (Hver eq_refl) as [Hl _]. change (Done 0 = Done (ocr3.bigF (ocr3.configInfo conf) + 1)) in Hl.
    injection Hl as Hl. lia.
  - intros (-> & c & ms & root & conf & Hc & He & Hv & Hms & Hr & Hconf & Hd & Hs & Hver & ->). split; [done|].
    exists c, ms, root, (ocr3spec.transmitted ocr3.OCR_PLUGIN_TYPE_EXECUTE ctx).
    split_and!; try done.
    + unfold enabled_source. by rewrite Hc, He.
    + apply ocr3spec.transmit_done; [intros c' Hc'; by apply Hn|]. exists conf. split_and!; [|split_and!|done..]; try done.
      * unfold ocr3.getConfig. cbn. by rewrite Hconf.
      * by rewrite Hver.
Qed.
End ramp.

(** ** A run *)

Definition sample_ramp : Storage :=
  {| ownable := {| ownable.owner := 1; ownable.pendingOwner := None |}; deployer := MkCell [true] [];
     merkleRootCode := MkCell [false] []; feeQuoter := 30; ocr3Base := ocr3spec.sample_base; chainSelector := 8;
     permissionlessExecutionThresholdSeconds := 0; sourceChainConfigs := ∅; latestPriceSequenceNumber := 0 |}.
Definition sample_source : SourceChainConfig :=
  {| sc_router := []; isEnabled := true; minSeqNr := 1; isRMNVerificationDisabled := true;
     sc_onRamp := repeat true 16 |}.

(** Two roots of the source chain 7, one in a cell of its own. *)
Definition sample_root (n : Z) : MerkleRoot :=
  {| sourceChainSelector := 7; onRampAddress := repeat true 16; mr_minSeqNr := n; mr_maxSeqNr := n; merkleRoot := 100 + n |}.
Definition sample_root_bits (n : Z) : list bool :=
  match MerkleRoot_toCell (sample_root n) with Done c => cell_bits c | Throw _ => [] end.
Definition sample_report : CommitReport :=
  {| priceUpdates := Some (MkCell [] [MkCell [] []; MkCell [] []]);
     merkleRoots := MkCell (sample_root_bits 1) [MkCell (sample_root_bits 2) []] |}.

(** The messages 1 and 3 of the tree of [merklespec], proven with the id of message 2. *)
Definition sample_message_bits (n : Z) : list bool :=
  Z_bits 256 n ++ Z_bits 64 7 ++ Z_bits 64 8 ++ Z_bits 64 n ++ Z_bits 64 0 ++ Z_bits 267 5 ++ [false].
Definition sample_execution : ExecutionReport :=
  {| er_sourceChainSelector := 7;
     messages := MkCell (sample_message_bits 1) [MkCell [true] []; MkCell [] [];
       MkCell (sample_message_bits 3) [MkCell [true] []; MkCell [] []]];
     proofs := cell_vec (Z_bits 256) [5]; proofFlagBits := 2; report := MkCell [] [] |}.

Definition sample_config (plugin : Z) (verify : bool) : ocr3.SetOCR3Config :=
  {| ocr3.queryId := 1; ocr3.new_digest := 99; ocr3.ocrPluginType := plugin; ocr3.new_bigF := 1;
     ocr3.new_verification := verify; ocr3.new_signers := cell_vec (Z_bits 256) [11; 12; 13; 14];
     ocr3.new_transmitters := cell_vec (Z_bits 267) [21; 22] |}.
Definition sample_input (a : address) (m : Msg) : input := {| getAddress := 40; in_sender := a; in_msg := m |}.
Definition sample_sigs : cell := ocr3spec.sample_sigs [13; 11].

(** A stranger cannot configure; a report with one signature, or before the chain is enabled, is refused. *)
Definition sample_inputs : list input :=
  [sample_input 2 (SetOCR3Config (sample_config 0 false));
   sample_input 1 (SetOCR3Config (sample_config 0 true));
   sample_input 1 (SetOCR3Config (sample_config 1 false));
   sample_input 21 (Commit 1 ocr3spec.sample_context sample_report sample_sigs);
   sample_input 1 (UpdateSourceChainConfig 1 7 sample_source);
   sample_input 21 (Commit 1 ocr3spec.sample_context sample_report (ocr3spec.sample_sigs [13]));
   sample_input 21 (Commit 1 ocr3spec.sample_context sample_report sample_sigs);
   sample_input 21 (Execute 1 ocr3spec.sample_context sample_execution)].

Abbreviation sample_handle := (onInternalMessage ocr3spec.sample_hash ocr3spec.sample_valid).
Definition sample_past := handled sample_handle sample_inputs sample_ramp.

Lemma sample_outputs : (λ st, length (out st)) <$> sample_past = [1; 1; 0; 5; 1]%nat.
Proof. vm_compute. reflexivity. Qed.

(** The second root's contract. *)
Definition sample_data : cell := deployable_cell 40 102.
Definition sample_to : address := deploy_address ocr3spec.sample_hash (deployer sample_ramp) sample_data.
Definition sample_storage : cell := storage_cell 40 (MkCell (sample_root_bits 2) []).
Definition sample_init : Body := Initialize (deployer sample_ramp) sample_data (merkleRootCode sample_ramp) sample_storage.

Lemma sample_deployed :
  ∃ st, sample_past !! 3%nat = Some st ∧ out st !! 2%nat = Some (Send (Message true 100000000 sample_to sample_init) 0).
Proof. vm_compute. by eexists. Qed.

Lemma sample_unconfigured : unconfigured sample_ramp.
Proof. split; reflexivity. Qed.

Lemma roots_signed_witness :
  ∃ h1 st h2, sample_past = h1 ++ st :: h2 ∧
    ∃ q ctx rep sigs roots root, in_msg (inp st) = Commit q ctx rep sigs ∧
      vec load_MerkleRoot (merkleRoots rep) = (roots, Done tt) ∧ root ∈ roots ∧
      deployment ocr3spec.sample_hash (getAddress (inp st)) (pre st) root =
        Done (Send (Message true 100000000 sample_to sample_init) 0).
Proof.
  destruct sample_deployed as (st & H1 & H2).
  apply list_elem_of_split_length in H1 as (h1 & h2 & H1 & _). apply list_elem_of_lookup_2 in H2.
  exists h1, st, h2. split; [exact H1|].
  destruct (roots_signed ocr3spec.sample_hash ocr3spec.sample_valid sample_inputs sample_ramp h1 st h2 100000000 sample_to
    (deployer sample_ramp) sample_data (merkleRootCode sample_ramp) sample_storage 0)
    as (q & ctx & rep & sigs & roots & root & c & m & Em & Hv & Hr & _ & _ & Hd & _).
  - exact sample_unconfigured.
  - exact H1.
  - exact H2.
  - exists q, ctx, rep, sigs, roots, root. split; [exact Em|]. split; [exact Hv|]. split; [exact Hr|exact Hd].
Defined.

Abbreviation sample_state := (run sample_handle sample_inputs sample_ramp).

Lemma sample_committed :
  ∃ o, commit ocr3spec.sample_hash ocr3spec.sample_valid 40 21 ocr3spec.sample_context sample_report sample_sigs sample_state =
    Done (tt, sample_state, o).
Proof. eexists. vm_compute. reflexivity. Qed.

Lemma commit_spec_witness :
  unconfigured sample_ramp ∧
  ∃ roots, vec load_MerkleRoot (merkleRoots sample_report) = (roots, Done tt) ∧ roots = [sample_root 1; sample_root 2].
Proof.
  split; [exact sample_unconfigured|]. destruct sample_committed as (o & H).
  pose proof (proj1 (commit_spec ocr3spec.sample_hash ocr3spec.sample_valid sample_inputs sample_ramp 40 21
    ocr3spec.sample_context sample_report sample_sigs _ _ sample_unconfigured) H)
    as (_ & prices & roots & deps & conf & _ & Hv & _).
  exists roots. split; [exact Hv|]. vm_compute in Hv. injection Hv as <-. vm_compute. reflexivity.
Defined.

Lemma sample_executed :
  ∃ o, _execute ocr3spec.sample_hash ocr3spec.sample_valid 21 ocr3spec.sample_context sample_execution sample_state =
    Done (tt, sample_state, o).
Proof. eexists. vm_compute. reflexivity. Qed.

(** No root was ever committed that the messages belong to. *)
Lemma execute_spec_witness :
  unconfigured sample_ramp ∧
  ∃ c ms root, sourceChainConfigs sample_state !! 7 = Some c ∧
    mp.merkleRoot ocr3spec.sample_hash
      ((λ m, mp.generateMessageId ocr3spec.sample_hash m (metadata_hash ocr3spec.sample_hash sample_state c 7)) <$> ms)
      (proofs sample_execution) 2 = Done root.
Proof.
  split; [exact sample_unconfigured|]. destruct sample_executed as (o & H).
  pose proof (proj1 (execute_spec ocr3spec.sample_hash ocr3spec.sample_valid sample_inputs sample_ramp 21
    ocr3spec.sample_context sample_execution _ _ sample_unconfigured) H)
    as (_ & c & ms & root & conf & Hc & _ & _ & _ & Hr & _).
  exists c, ms, root. split; [exact Hc|exact Hr].
Defined.
End offspec.
